(** * bigfloat: a shallow embedding of the decimal big-float engine

    The development follows the Go sources: package [stranalyzer]
    (the literal analyzer) and package [bigfloat] (values, additive
    and multiplicative core, long division, formatter).

    Conventions of the embedding.
    - Go [int] values that are lengths, positions and digit counts are
      unbounded [Z]; the exponent arithmetic of the analyzer, whose
      operand comes from the input text, keeps its 64-bit wrap-around.
    - A [[]byte] is a [list Z] of byte values; conversions to [byte]
      are written [to_byte].
    - A Go string is a Coq [string]; each character stands for one
      rune below U+0100.
    - Index and slice expressions are the total [idx], [slice_to] and
      [slice_from]; explicit [panic] calls, the negative count of
      [bytes.Repeat] and the integer division by zero of the quotient
      estimate are results of their own.
    - [BigFloat] is a struct with the single field [analysis]; it is
      identified with its [Analysis]. Destinations are distinct from
      operands. *)

From Stdlib Require Import ZArith List String Ascii Bool Lia ZifyBool.
From Stdlib Require Import DecimalString DecimalZ.
From Stdlib Require DecimalPos.
From stdpp Require Import base option list gmap.
Import ListNotations.
Open Scope Z_scope.

(** ** Bytes, slices and small helpers *)

Definition ch (c : ascii) : Z := Z.of_N (N_of_ascii c).

Definition runes (s : string) : list Z := map ch (list_ascii_of_string s).

Definition to_byte (z : Z) : Z := z mod 256.

Definition byte_to_ascii (b : Z) : ascii := ascii_of_N (Z.to_N b).

Definition string_of_bytes (l : list Z) : string :=
  string_of_list_ascii (map byte_to_ascii l).

Definition len {A : Type} (l : list A) : Z := Z.of_nat (length l).

Definition idx (l : list Z) (i : Z) : Z := nth (Z.to_nat i) l 0.

Definition slice_to {A : Type} (l : list A) (n : Z) : list A :=
  firstn (Z.to_nat n) l.

Definition slice_from {A : Type} (l : list A) (n : Z) : list A :=
  skipn (Z.to_nat n) l.

Definition bytes_eqb (a b : list Z) : bool :=
  bool_decide (a = b).

Definition wrap64 (z : Z) : Z := (z + 2 ^ 63) mod 2 ^ 64 - 2 ^ 63.

(** [bytes.Repeat]: a negative count panics. *)
Definition bytes_Repeat (b : list Z) (count : Z) : option (list Z) :=
  if count <? 0 then None
  else Some (concat (repeat b (Z.to_nat count))).

(** Number of leading elements of [l] equal to [v]: the shape of every
    trimming loop of the sources. *)
Fixpoint leading_count (v : Z) (l : list Z) : Z :=
  match l with
  | x :: l' => if x =? v then 1 + leading_count v l' else 0
  | [] => 0
  end.

Definition is_digit (c : Z) : bool := (48 <=? c) && (c <=? 57).

(** Value of a string of ASCII digits, most significant first. *)
Definition digits_value (l : list Z) : Z :=
  fold_left (fun acc c => 10 * acc + (c - 48)) l 0.

(** ** Package stranalyzer *)

Module stranalyzer.

Record Analysis : Type := mkAnalysis {
  Norm : list Z;
  Sign : Z;
  Decimals : Z;
  Len : Z
}.

(** [unicode.IsGraphic] on the Latin-1 range. *)
Definition visible (c : Z) : bool :=
  ((32 <=? c) && (c <=? 126)) || ((160 <=? c) && (c <=? 255) && negb (c =? 173)).

(** [unicode.IsDigit] on the Latin-1 range. *)
Definition IsDigit (c : Z) : bool := is_digit c.

Inductive ParseError : Type :=
| SignAlreadyFound (pos : Z)
| ESignAlreadyFound (pos : Z)
| SignAfterDigit (pos : Z)
| SignAfterDecimalPoint (pos : Z)
| DecimalPointAlreadyFound (pos : Z)
| DecimalPointInE (pos : Z)
| EAlreadyFound (pos : Z)
| MissingNumberBeforeE
| InvalidBigFloat
| InvalidENumber
| InvalidNumber.

Inductive AnalyzeResult : Type :=
| Parsed (a : Analysis)
| Failed (e : ParseError)
| Panicked.

(** The local variables of [Analyze]. *)
Record scanner : Type := mkScanner {
  signFound : bool;
  aSign : Z;
  decimalPointFound : bool;
  eFound : bool;
  eSign : Z;
  eSignFound : bool;
  digitFound : bool;
  nonZeroDigitFound : bool;
  normBuf : list Z;
  eBuf : list Z;
  aLen : Z;
  aDecimals : Z
}.

Definition scanner0 : scanner :=
  mkScanner false 1 false false 1 false false false [] [] 0 0.

(** One iteration of the scanning loop at position [i] on rune [c]. *)
Definition scan_rune (i c : Z) (st : scanner) : scanner + ParseError :=
  let '(mkScanner sf sg dpf ef es esf df nz nb eb al ad) := st in
  if negb (visible c) then inl st
  else if (c =? ch "+") || (c =? ch "-") then
    if sf && negb ef then inr (SignAlreadyFound i)
    else if esf && ef then inr (ESignAlreadyFound i)
    else if df && negb ef then inr (SignAfterDigit i)
    else if dpf && negb ef then inr (SignAfterDecimalPoint i)
    else if ef then
      inl (mkScanner sf sg dpf ef (if c =? ch "-" then -1 else es) true df nz nb eb al ad)
    else
      inl (mkScanner true (if c =? ch "-" then -1 else sg) dpf ef es esf df nz nb eb al ad)
  else if c =? ch "." then
    if dpf then inr (DecimalPointAlreadyFound i)
    else if ef then inr (DecimalPointInE i)
    else if negb nz then
      inl (mkScanner sf sg true ef es esf df nz (nb ++ [ch "0"]) eb (al + 1) ad)
    else
      inl (mkScanner sf sg true ef es esf df nz nb eb al ad)
  else if (c =? ch "E") || (c =? ch "e") then
    if ef then inr (EAlreadyFound i)
    else if negb nz then inr MissingNumberBeforeE
    else inl (mkScanner sf sg dpf true es esf df nz nb eb al ad)
  else if IsDigit c then
    if negb ef then
      if dpf || negb (c =? ch "0") || (df && nz) then
        inl (mkScanner sf sg dpf ef es esf true
               (if negb (c =? ch "0") then true else nz)
               (nb ++ [to_byte c]) eb (al + 1)
               (if dpf then ad + 1 else ad))
      else
        inl (mkScanner sf sg dpf ef es esf true nz nb eb al ad)
    else
      inl (mkScanner sf sg dpf ef es esf true nz nb (eb ++ [to_byte c]) al ad)
  else if c =? ch " " then inl st
  else inr InvalidBigFloat.

Fixpoint scan (r : list Z) (i : Z) (st : scanner) : scanner + ParseError :=
  match r with
  | [] => inl st
  | c :: r' =>
      match scan_rune i c st with
      | inl st' => scan r' (i + 1) st'
      | inr e => inr e
      end
  end.

(** [strconv.ParseInt(s, 10, 0)] on a string of digits, its error
    dropped: an out-of-range value comes back as the largest [int64]. *)
Definition ParseInt (s : list Z) : Z :=
  if forallb is_digit s && negb (bytes_eqb s [])
  then Z.min (digits_value s) (2 ^ 63 - 1)
  else 0.

(** The exponent folding at the end of [Analyze]. *)
Definition fold_exponent (es : Z) (eValue : list Z) (a : Analysis) : AnalyzeResult :=
  let eInt := ParseInt eValue in
  if es =? 1 then
    let dec := wrap64 (Decimals a - eInt) in
    let '(eInt', dec') :=
      if dec <? 0 then (wrap64 (- dec), 0) else (wrap64 (eInt - dec), dec) in
    match bytes_Repeat [ch "0"] eInt' with
    | None => Panicked
    | Some zs => Parsed (mkAnalysis (Norm a ++ zs) (Sign a) dec' (wrap64 (Len a + eInt')))
    end
  else
    let dec := wrap64 (Decimals a + eInt) in
    if dec >=? Len a then
      let eInt' := wrap64 (dec - Len a + 1) in
      match bytes_Repeat [ch "0"] eInt' with
      | None => Panicked
      | Some zs => Parsed (mkAnalysis (zs ++ Norm a) (Sign a) dec (wrap64 (Len a + eInt')))
      end
    else Parsed (mkAnalysis (Norm a) (Sign a) dec (Len a)).

Definition finish (st : scanner) : AnalyzeResult :=
  let '(mkScanner sf sg dpf ef es esf df nz nb eb al ad) := st in
  if ef && bytes_eqb eb [] then Failed InvalidENumber
  else if negb df then Failed InvalidNumber
  else
    let '(nb1, al1) := if df && (al =? 0) then (nb ++ [ch "0"], al + 1) else (nb, al) in
    let sg1 := if negb nz && negb (sg =? 1) then 1 else sg in
    let a := mkAnalysis nb1 sg1 ad al1 in
    if ef then fold_exponent es eb a else Parsed a.

Definition Analyze (s : string) : AnalyzeResult :=
  match scan (runes s) 0 scanner0 with
  | inl st => finish st
  | inr e => Failed e
  end.

End stranalyzer.

Import stranalyzer.

(** ** Package bigfloat: values and mutators *)

Module bigfloat.

Definition BigFloat : Type := Analysis.

(** The zero value of the struct, [BigFloat{}]. *)
Definition empty : BigFloat := mkAnalysis [] 0 0 0.

(** [New()]. *)
Definition New : BigFloat := mkAnalysis [ch "0"] 1 0 1.

Definition with_Sign (f : BigFloat) (s : Z) : BigFloat :=
  mkAnalysis (Norm f) s (Decimals f) (Len f).

Definition maxInt (a b : Z) : Z := if a >? b then a else b.

Definition mul (a b : Z) : Z := to_byte (to_byte (a - 48) * to_byte (b - 48)).

Definition divmod10 (a : Z) : Z * Z := (Z.quot a 10, Z.rem a 10).

Definition add_bytes (a : list Z) (value : Z) : list Z :=
  map (fun x => to_byte (x + value)) a.

Definition fill (length value : Z) : list Z := repeat value (Z.to_nat length).

Definition reverse (chars : list Z) : list Z := rev chars.

(** [strconv.FormatInt(n, 10)]. *)
Definition FormatInt (n : Z) : string := NilZero.string_of_int (Z.to_int n).

(** [f.SetString(s)]: the receiver after the call and the error, or
    the panic of the analyzer. A parse error leaves the receiver as it
    was. *)
Inductive SetStringResult : Type :=
| SetOk (f : BigFloat)
| SetError (f : BigFloat) (e : ParseError)
| SetPanic.

Definition SetString (f : BigFloat) (s : string) : SetStringResult :=
  match Analyze s with
  | Parsed a => SetOk a
  | Failed e => SetError f e
  | Panicked => SetPanic
  end.

(** [f.SetInt64(n)] drops the error of [SetString]; the text of an
    integer has no exponent, so the analyzer does not panic on it. *)
Definition SetInt64 (f : BigFloat) (n : Z) : BigFloat :=
  match SetString f (FormatInt n) with
  | SetOk a => a
  | SetError f' _ => f'
  | SetPanic => f
  end.

(** [Sign], [SetDecimals] and [IsInt64] call each other in the source:
    [Sign(-1)] asks [IsInt64(0)], which builds its comparand with
    [SetDecimals], which ends in [Sign]. The recursion stops after one
    round because the comparand of [IsInt64(0)] has sign [+1]; the
    bodies are written over the zero test and the knot is tied below. *)
Section knot.
Variable isZero : BigFloat -> bool.

Definition Sign_body (f : BigFloat) (s : Z) : BigFloat :=
  if s =? -1 then
    let f1 := with_Sign f 1 in
    with_Sign f1 (if isZero f1 then 1 else s)
  else with_Sign f s.

Definition SetDecimals_body (f : BigFloat) (n : Z) : BigFloat :=
  if n =? Decimals f then Sign_body f (Sign f)
  else
    let norm :=
      if n >? Decimals f then Norm f ++ fill (n - Decimals f) (ch "0")
      else slice_to (Norm f) (Len f - Decimals f + n) in
    Sign_body (mkAnalysis norm (Sign f) n (len norm)) (Sign f).

Definition IsInt64_body (f : BigFloat) (n : Z) : bool :=
  let nFloat := SetDecimals_body (SetInt64 empty n) (Decimals f) in
  (Sign f =? Sign nFloat) && (Decimals f =? Decimals nFloat)
  && (Len f =? Len nFloat) && bytes_eqb (Norm f) (Norm nFloat).
End knot.

Definition IsZero (f : BigFloat) : bool := IsInt64_body (fun _ => false) f 0.

Definition Sign : BigFloat -> Z -> BigFloat := Sign_body IsZero.
Definition SetDecimals : BigFloat -> Z -> BigFloat := SetDecimals_body IsZero.
Definition IsInt64 : BigFloat -> Z -> bool := IsInt64_body IsZero.

Definition Copy (f : BigFloat) : BigFloat := f.
Definition GetSign (f : BigFloat) : Z := stranalyzer.Sign f.
Definition Neg (f : BigFloat) : BigFloat := Sign f (stranalyzer.Sign f * -1).
Definition Abs (f : BigFloat) : BigFloat := Sign f 1.

Definition Mul10 (f : BigFloat) (n : Z) : BigFloat :=
  if Decimals f - n >? 0 then
    mkAnalysis (Norm f) (stranalyzer.Sign f) (Decimals f - n) (Len f)
  else
    let norm := Norm f ++ fill (n - Decimals f) (ch "0") in
    let length := Len f + (n - Decimals f) in
    let iTrim := leading_count 48 (slice_to norm (length - 0)) in
    if iTrim >? 0 then
      mkAnalysis (slice_from norm iTrim) (stranalyzer.Sign f) 0 (length - iTrim)
    else mkAnalysis norm (stranalyzer.Sign f) 0 length.

Definition Div10 (f : BigFloat) (n : Z) : BigFloat :=
  if Decimals f + n >=? Len f then
    let zeroes := fill (n - (Len f - Decimals f) + 1) (ch "0") in
    mkAnalysis (zeroes ++ Norm f) (stranalyzer.Sign f) (Decimals f + n) (Len f + len zeroes)
  else mkAnalysis (Norm f) (stranalyzer.Sign f) (Decimals f + n) (Len f).

Definition Pow10 (f : BigFloat) (n : Z) : BigFloat :=
  if n <? 0 then Div10 (SetInt64 f 1) (- n)
  else
    let zeroes :=
      match fill (n + 1) 48 with
      | z :: rest => to_byte (z + 1) :: rest
      | [] => []
      end in
    mkAnalysis zeroes 1 0 (len zeroes).

Definition Frac (f : BigFloat) : BigFloat :=
  if Len f - Decimals f >? 0 then
    let norm := ch "0" :: slice_from (Norm f) (Len f - Decimals f) in
    let length := len norm in
    if forallb (fun c => c =? ch "0") (slice_to norm length)
    then mkAnalysis norm 1 (Decimals f) length
    else mkAnalysis norm (stranalyzer.Sign f) (Decimals f) length
  else f.

(** [Norm[i] = v] for [lo <= i < hi]. *)
Definition set_range (l : list Z) (lo hi v : Z) : list Z :=
  imap (fun i x => if (lo <=? Z.of_nat i) && (Z.of_nat i <? hi) then v else x) l.

(** [Trunc]: [dp] is the optional [WithDecimalPlaces]; [None] is the
    panic on a negative count. *)
Definition Trunc (f : BigFloat) (dp : option Z) : option BigFloat :=
  let decimalPlaces := match dp with Some d => d | None => Decimals f end in
  if decimalPlaces <? 0 then None
  else
    let norm := set_range (Norm f) (Len f - Decimals f) (Len f) (ch "0") in
    Some (SetDecimals (mkAnalysis norm (stranalyzer.Sign f) (Decimals f) (Len f)) decimalPlaces).

(** ** Alignment *)

Record correction : Type := mkCorrection { offset : Z; creverse : Z }.

Record alignment : Type := mkAlignment {
  MaxIntLen : Z;
  MaxDecLen : Z;
  ALen : Z;
  corrections : list correction
}.

Definition read (pos : Z) (f : BigFloat) (c : correction) (byteFix : Z) : Z :=
  let cPos := Len f - pos - offset c - 1 in
  if (cPos >=? 0) && (cPos <? Len f) then idx (Norm f) cPos + byteFix else 0.

Definition reverse_read (pos : Z) (f : BigFloat) (c : correction) (byteFix : Z) : Z :=
  let cPos := pos - creverse c in
  if (cPos >=? 0) && (cPos <? Len f) then idx (Norm f) cPos + byteFix else 0.

Definition readFnType : Type := Z -> BigFloat -> correction -> Z -> Z.

Definition multiRead (pos : Z) (n : list BigFloat) (a : alignment) (byteFix : Z)
    (readFn : readFnType) : list Z :=
  zip_with (fun f c => readFn pos f c byteFix) n (corrections a).

Definition align (args : list BigFloat) : alignment :=
  let '(maxIntLen0, maxDecLen0) :=
    match args with
    | a0 :: _ => (Len a0 - Decimals a0, Decimals a0)
    | [] => (0, 0)
    end in
  let '(maxIntLen, maxDecLen) :=
    fold_left (fun '(mi, md) arg =>
                 (if Len arg - Decimals arg >? mi then Len arg - Decimals arg else mi,
                  if Decimals arg >? md then Decimals arg else md))
              (tail args) (maxIntLen0, maxDecLen0) in
  mkAlignment maxIntLen maxDecLen (maxIntLen + maxDecLen)
    (map (fun arg => mkCorrection (Decimals arg - maxDecLen)
                       (maxIntLen - (Len arg - Decimals arg))) args).

(** The trimming of leading zeros shared by [add], [sub] and [Mul]:
    all but the last digit before the decimal point. *)
Definition trim_leading (totalBuf : list Z) (decLen : Z) : list Z :=
  if len totalBuf >? decLen then
    slice_from totalBuf (leading_count 0 (slice_to totalBuf (len totalBuf - decLen - 1)))
  else totalBuf.

(** ** Additive core *)

Fixpoint add_loop (n : list BigFloat) (al : alignment) (k : nat) (p overflow : Z)
    (totalBuf : list Z) : Z * list Z :=
  match k with
  | O => (overflow, totalBuf)
  | S k' =>
      let v := multiRead p n al (-48) read in
      let sum := overflow + (idx v 0 + idx v 1) in
      let '(overflow', r) := divmod10 sum in
      add_loop n al k' (p + 1) overflow' (totalBuf ++ [to_byte r])
  end.

(** Internal [add]: both operands carry the same sign. *)
Definition add (a b : BigFloat) : BigFloat :=
  let n := [a; b] in
  let al := align n in
  let '(overflow, totalBuf) := add_loop n al (Z.to_nat (ALen al)) 0 0 [] in
  let totalBuf := totalBuf ++ [to_byte overflow] in
  let totalBuf := trim_leading (reverse totalBuf) (MaxDecLen al) in
  let totalBuf := add_bytes totalBuf 48 in
  mkAnalysis totalBuf (stranalyzer.Sign a) (MaxDecLen al) (len totalBuf).

Fixpoint sub_loop (n : list BigFloat) (al : alignment) (k : nat) (i overflow : Z)
    (totalBuf : list Z) : list Z :=
  match k with
  | O => totalBuf
  | S k' =>
      let v := multiRead i n al (-48) read in
      let v0 := idx v 0 - overflow in
      let '(overflow', v0') := if v0 <? idx v 1 then (1, v0 + 10) else (0, v0) in
      let diff := v0' - idx v 1 in
      sub_loop n al k' (i + 1) overflow' (totalBuf ++ [to_byte diff])
  end.

(** Internal [sub]: both operands positive, the first not smaller. *)
Definition sub (a b : BigFloat) : BigFloat :=
  let n := [a; b] in
  let al := align n in
  let totalBuf := sub_loop n al (Z.to_nat (ALen al)) 0 0 [] in
  let totalBuf := trim_leading (reverse totalBuf) (MaxDecLen al) in
  let totalBuf := add_bytes totalBuf 48 in
  mkAnalysis totalBuf 1 (MaxDecLen al) (len totalBuf).

Fixpoint compare_loop (n : list BigFloat) (al : alignment) (k : nat) (i sign : Z) : Z :=
  match k with
  | O => 0
  | S k' =>
      let v := multiRead i n al (-48) reverse_read in
      if idx v 0 <? idx v 1 then - sign
      else if idx v 0 >? idx v 1 then sign
      else compare_loop n al k' (i + 1) sign
  end.

Definition compare (f a : BigFloat) (abs : bool) : Z :=
  if abs || (stranalyzer.Sign f =? stranalyzer.Sign a) then
    let n := [f; a] in
    let al := align n in
    let sign := if abs then 1 else stranalyzer.Sign f in
    compare_loop n al (Z.to_nat (ALen al)) 0 sign
  else stranalyzer.Sign f.

Definition Compare (f a : BigFloat) : Z := compare f a false.
Definition CompareAbs (f a : BigFloat) : Z := compare f a true.

(** [f.Add(a, b)]; the value of the destination before the call is
    overwritten in every branch. *)
Definition Add (a b : BigFloat) : BigFloat :=
  if IsInt64 a 0 then b
  else if IsInt64 b 0 then a
  else if stranalyzer.Sign a =? stranalyzer.Sign b then add a b
  else
    let cmp := CompareAbs a b in
    if cmp =? 0 then
      SetDecimals (SetInt64 empty 0) (Z.max (Decimals a) (Decimals b))
    else
      let '(f1, f2, sign) :=
        if cmp <? 0 then (Copy b, Copy a, stranalyzer.Sign b)
        else (Copy a, Copy b, stranalyzer.Sign a) in
      Sign (sub (Abs f1) (Abs f2)) sign.

Definition Sub (a b : BigFloat) : BigFloat :=
  if IsInt64 a 0 then Neg b
  else if IsInt64 b 0 then a
  else if negb (stranalyzer.Sign a =? stranalyzer.Sign b) then
    Sign (add (Abs (Copy a)) (Abs (Copy b))) (stranalyzer.Sign a)
  else
    let cmp := CompareAbs a b in
    if cmp =? 0 then
      SetDecimals (SetInt64 empty 0) (maxInt (Decimals a) (Decimals b))
    else
      let '(f1, f2, sign) :=
        if cmp <? 0 then (Copy b, Copy a, stranalyzer.Sign b * -1)
        else (Copy a, Copy b, stranalyzer.Sign a) in
      Sign (sub (Abs f1) (Abs f2)) sign.

(** [Round]: [None] is the panic on a negative count. *)
Definition Round (f : BigFloat) (n : Z) : option BigFloat :=
  if n <? 0 then None
  else if n <? Decimals f then
    let pos := Len f - Decimals f + n in
    let d := idx (Norm f) pos in
    let f1 := mkAnalysis (slice_to (Norm f) pos) (stranalyzer.Sign f) n
                (Len f - (Decimals f - n)) in
    let f2 :=
      if d >=? ch "5" then
        let c := Sign (Div10 (SetInt64 empty 1) n) (GetSign f1) in
        Add f1 c
      else f1 in
    Some (Sign f2 (stranalyzer.Sign f2))
  else Some f.

(** ** Multiplicative core *)

Record subProduct : Type := mkSubProduct { sp_offset : Z; product : list Z }.

Fixpoint product_loop (bdigit : Z) (ra : list Z) (overflow : Z) (cBuf : list Z)
    : Z * list Z :=
  match ra with
  | [] => (overflow, cBuf)
  | x :: ra' =>
      let total := mul bdigit x + overflow in
      let '(overflow', r) := divmod10 total in
      product_loop bdigit ra' overflow' (cBuf ++ [r])
  end.

Fixpoint subProducts (aStr : list Z) (bLen : Z) (bStr : list Z) (bd : Z)
    (resultBuf : list subProduct) : list subProduct :=
  match bStr with
  | [] => resultBuf
  | c :: rest =>
      if c =? ch "0" then subProducts aStr bLen rest (bd + 1) resultBuf
      else
        let '(overflow, cBuf) := product_loop c (rev aStr) 0 [] in
        let cBuf := if negb (overflow =? 0) then cBuf ++ [overflow] else cBuf in
        subProducts aStr bLen rest (bd + 1)
          (resultBuf ++ [mkSubProduct (bLen - bd - 1) cBuf])
  end.

Definition column (resultBuf : list subProduct) (pos s : Z) : Z :=
  fold_left (fun s sp =>
               let ppos := pos - sp_offset sp in
               if (ppos >=? 0) && (ppos <? len (product sp))
               then s + idx (product sp) ppos else s)
            resultBuf s.

Fixpoint sum_loop (resultBuf : list subProduct) (k : nat) (pos overflow : Z)
    (totalBuf : list Z) : Z * list Z :=
  match k with
  | O => (overflow, totalBuf)
  | S k' =>
      let s := column resultBuf pos overflow in
      let '(overflow', r) := divmod10 s in
      sum_loop resultBuf k' (pos + 1) overflow' (totalBuf ++ [to_byte r])
  end.

Definition Mul (a b : BigFloat) : BigFloat :=
  if IsInt64 a 0 || IsInt64 b 0 then
    SetDecimals (SetInt64 empty 0) (maxInt (Decimals a) (Decimals b))
  else if IsInt64 a 1 then b
  else if IsInt64 a (-1) then Neg b
  else if IsInt64 b 1 then a
  else if IsInt64 b (-1) then Neg a
  else
    let resultBuf := subProducts (Norm a) (Len b) (Norm b) 0 [] in
    let lenP := Len a + Len b in
    let '(overflow, totalBuf) := sum_loop resultBuf (Z.to_nat lenP) 0 0 [] in
    let totalBuf := totalBuf ++ [to_byte overflow] in
    let newDecimals := Decimals a + Decimals b in
    let totalBuf := trim_leading (reverse totalBuf) newDecimals in
    let '(totalBuf, newDecimals) :=
      if newDecimals >? 0 then
        let iTrim := leading_count 0 (slice_to (rev totalBuf) newDecimals) in
        (slice_to totalBuf (len totalBuf - iTrim), newDecimals - iTrim)
      else (totalBuf, newDecimals) in
    let totalBuf := add_bytes totalBuf 48 in
    mkAnalysis totalBuf (stranalyzer.Sign a * stranalyzer.Sign b) newDecimals (len totalBuf).

(** [strings.TrimRight(s, "0")] on the bytes of [s]. *)
Definition TrimRight0 (s : list Z) : list Z :=
  rev (slice_from (rev s) (leading_count (ch "0") (rev s))).

Definition MulInt64 (f : BigFloat) (n : Z) : BigFloat :=
  if n =? 0 then
    mkAnalysis (fill (Decimals f + 1) (ch "0")) 1 (Decimals f) (Decimals f + 1)
  else if n =? 1 then f
  else if n =? -1 then
    if negb (IsInt64 f 0) then with_Sign f (stranalyzer.Sign f * -1) else f
  else
    let nStr := runes (FormatInt n) in
    let trimmedString := TrimRight0 nStr in
    let numZeroes := len nStr - len trimmedString in
    if (numZeroes >? 0)
       && (bytes_eqb trimmedString (runes "1") || bytes_eqb trimmedString (runes "-1")) then
      let f1 := if bytes_eqb trimmedString (runes "-1")
                then with_Sign f (stranalyzer.Sign f * -1) else f in
      Mul10 f1 numZeroes
    else Mul f (SetInt64 empty n).

(** ** Division engine *)

Record divOptionsType : Type := mkDivOptions {
  decimalPlaces : Z;
  maxDecimalPlaces : Z
}.

Definition DivOption : Type := divOptionsType -> divOptionsType.

Definition WithDivDecimalPlaces (dp : Z) : DivOption :=
  fun ro => mkDivOptions dp (maxDecimalPlaces ro).

Definition WithDivMaxDecimalPlaces (mdp : Z) : DivOption :=
  fun ro => mkDivOptions (decimalPlaces ro) mdp.

Definition default_divOptions : divOptionsType := mkDivOptions (-1) 10000.

(** [strconv.Atoi], its error dropped. *)
Definition Atoi (s : list Z) : Z :=
  let digits v := if forallb is_digit v && negb (bytes_eqb v []) then digits_value v else 0 in
  match s with
  | c :: rest =>
      if c =? ch "-" then - digits rest
      else if c =? ch "+" then digits rest
      else digits s
  | [] => 0
  end.

(** What the loop of [divmod] reads and never writes. *)
Record loop_env : Type := mkLoopEnv {
  aBuf : list Z;
  bCopy : BigFloat;
  cmpStr : list Z;
  divPart2Int : Z;
  decimalsGoal : Z;
  ro_max : Z
}.

(** The variables the loop of [divmod] updates. [remShared] records
    that [divPart] is the buffer of [remainder.analysis.Norm], so that
    the in-place write [divPart[0] = digit] shows through it, as it
    always does through [lastRemainder]. While [divPart] is still a
    prefix of the dividend buffer, [append] writes the dividend's own
    digits back into it. *)
Record loop_state : Type := mkLoopState {
  ls_i : Z;
  divPart : list Z;
  bDecimals : bool;
  remIndxMap : gmap (list Z) Z;
  repDecimalsInd : Z;
  decimals : Z;
  lastRemainder : BigFloat;
  remainder : BigFloat;
  remShared : bool;
  result : list Z
}.

Inductive step_result : Type :=
| Continue (st : loop_state)
| Break (st : loop_state)
| StepPanic.

(** The quotient-digit guess: the leading digits of [divPart] over the
    leading digits of the divisor, as native integers. [None] is the
    integer division by zero. *)
Definition estimate (env : loop_env) (dp : list Z) : option Z :=
  let bLen := Len (bCopy env) in
  if len dp <? bLen then Some 0
  else if divPart2Int env =? 0 then None
  else
    let divPart1Int := Atoi (slice_to dp (len dp - (bLen - len (cmpStr env)))) in
    Some (to_byte (Z.quot divPart1Int (divPart2Int env))).

(** Multiply, fix a guess that is one too large, subtract: the digit
    and the new running remainder, for a guess greater than 0. *)
Definition correct_digit (env : loop_env) (dp : list Z) (divInt : Z) : Z * BigFloat :=
  let fProduct := Copy (bCopy env) in
  let fProduct := if divInt >? 1 then MulInt64 fProduct divInt else fProduct in
  let rem := mkAnalysis dp 1 0 (len dp) in
  let '(divInt, fProduct) :=
    if Compare fProduct rem =? 1
    then (to_byte (divInt - 1), Sub fProduct (bCopy env))
    else (divInt, fProduct) in
  (divInt, Sub rem fProduct).

Definition divmod_step (env : loop_env) (st : loop_state) : step_result :=
  let '(mkLoopState i dp bDec map repInd dec lastRem rem shared res) := st in
  let '(digit, bDec) :=
    if i >=? len (aBuf env) then (ch "0", true) else (idx (aBuf env) i, bDec) in
  if (bDec && bytes_eqb dp [ch "0"])
     || ((decimalsGoal env >? 0) && (dec =? decimalsGoal env)) then
    Break (mkLoopState i dp bDec map repInd dec lastRem rem shared res)
  else
    match (if bDec then map !! dp else None) with
    | Some ind => Break (mkLoopState i dp bDec map ind dec lastRem rem shared res)
    | None =>
        let map := if bDec then <[dp := dec]> map else map in
        let dec := if bDec then dec + 1 else dec in
        let '(dp, lastRem, rem, shared) :=
          if bytes_eqb dp [ch "0"] then
            ([digit],
             mkAnalysis [digit] 1 0 (len dp),
             (if shared
              then mkAnalysis [digit] (stranalyzer.Sign rem) (Decimals rem) (Len rem)
              else rem),
             shared)
          else (dp ++ [digit], mkAnalysis dp 1 0 (len dp), rem, false) in
        match estimate env dp with
        | None => StepPanic
        | Some divInt =>
            let '(divInt, dp, rem, shared) :=
              if divInt >? 0 then
                let '(divInt, rem) := correct_digit env dp divInt in
                (divInt, Norm rem, rem, true)
              else (divInt, dp, rem, shared) in
            if (divInt >? 0) || (len res >? 0) || bDec then
              let res := if bDec && (len res =? 0) then res ++ [0] else res in
              let res := res ++ [divInt] in
              if dec >=? ro_max env
              then Break (mkLoopState i dp bDec map repInd dec lastRem rem shared res)
              else Continue (mkLoopState (i + 1) dp bDec map repInd dec lastRem rem shared res)
            else Continue (mkLoopState (i + 1) dp bDec map repInd dec lastRem rem shared res)
        end
    end.

Inductive loop_result : Type :=
| Exited (st : loop_state)
| LoopPanic
| OutOfFuel.

Fixpoint divmod_loop (fuel : nat) (env : loop_env) (st : loop_state) : loop_result :=
  match fuel with
  | O => OutOfFuel
  | S fuel' =>
      match divmod_step env st with
      | Continue st' => divmod_loop fuel' env st'
      | Break st' => Exited st'
      | StepPanic => LoopPanic
      end
  end.

(** Iterations after which the loop has left through one of its
    [break]s: the dividend digits still to read, then at most
    [maxDecimalPlaces] fractional digits. *)
Definition loop_bound (env : loop_env) (st : loop_state) : nat :=
  Z.to_nat (Z.max 0 (len (aBuf env) - ls_i st) + Z.max 0 (ro_max env - decimals st) + 1).

Inductive DivResult : Type :=
| DivOk (f remainder : BigFloat) (repeatDecimals : Z)
| DivisionByZero (f remainder : BigFloat)
| DivPanic
| DivDiverges.

(** The part of [divmod] after the loop: the repetend length, the
    padding to the requested decimals, the result value, its rounding
    or truncation and the remainder. *)
Definition divmod_finish (a b : BigFloat) (bTrunc : bool) (ro : divOptionsType)
    (decimalsGoal : Z) (st : loop_state) : DivResult :=
  let '(mkLoopState _ _ _ _ repInd dec lastRem rem _ res) := st in
  let res := add_bytes res 48 in
  let repeatDecimals := if repInd >=? 0 then dec - repInd else 0 in
  let padded :=
    if (decimalsGoal >=? 0) && (decimalsGoal >? dec) then
      let '(repeatStr, repeatDecimals) :=
        if repeatDecimals >? 0
        then (slice_from res (len res - repeatDecimals), 0)
        else ([ch "0"], repeatDecimals) in
      match bytes_Repeat repeatStr (Z.quot (decimalsGoal - dec) (len repeatStr) + 1) with
      | None => None
      | Some trailStr =>
          Some (res ++ slice_to trailStr (decimalsGoal - dec), decimalsGoal, repeatDecimals)
      end
    else Some (res, dec, repeatDecimals) in
  match padded with
  | None => DivPanic
  | Some (res, dec, repeatDecimals) =>
      let f := mkAnalysis res (stranalyzer.Sign a * stranalyzer.Sign b) dec (len res) in
      if (decimalPlaces ro >=? 0) && (decimalPlaces ro <? Decimals f) then
        let rounded :=
          if bTrunc then Trunc f (Some 0)
          else match Round f (decimalPlaces ro) with
               | Some f' => Some (SetDecimals f' (decimalPlaces ro))
               | None => None
               end in
        match rounded with
        | None => DivPanic
        | Some f => DivOk f (Div10 lastRem (Decimals a + Decimals b)) repeatDecimals
        end
      else DivOk f rem repeatDecimals
  end.

(** The operands of the loop: absolute values with the decimal points
    shifted away. *)
Definition shifted (a b : BigFloat) : BigFloat * BigFloat :=
  let aCopy := Abs (Copy a) in
  let bCopy := Abs (Copy b) in
  if Decimals a + Decimals b >? 0
  then (Mul10 aCopy (Decimals a + Decimals b), Mul10 bCopy (Decimals a + Decimals b))
  else (aCopy, bCopy).

Definition divmod_env (aCopy bCopy : BigFloat) (ro : divOptionsType) : loop_env :=
  let maxLen := if 5 >? Len bCopy then Len bCopy else 5 in
  let cmpStr := slice_to (Norm bCopy) maxLen in
  let decimalsGoal :=
    if decimalPlaces ro >=? 0 then decimalPlaces ro + 1 else decimalPlaces ro in
  mkLoopEnv (Norm aCopy) bCopy cmpStr (Atoi cmpStr) decimalsGoal (maxDecimalPlaces ro).

Definition divmod_init (aCopy bCopy remainder : BigFloat) : loop_state :=
  let aBuf := Norm aCopy in
  let initLen := if Len bCopy - 1 >? len aBuf then len aBuf else Len bCopy - 1 in
  mkLoopState (Len bCopy - 1) (slice_to aBuf initLen) false ∅ (-1) 0
    (SetInt64 empty 0) (SetInt64 remainder 0) false [].

(** [f.divmod(a, b, remainder, bTrunc, options...)]: [f] and
    [remainder] are the destination and the out-parameter as they are
    before the call. *)
Definition divmod (f a b remainder : BigFloat) (bTrunc : bool)
    (options : list DivOption) : DivResult :=
  let ro := fold_left (fun ro option => option ro) options default_divOptions in
  if IsInt64 a 0 then
    let f := SetInt64 f 0 in
    let f := if decimalPlaces ro >=? 0 then SetDecimals f (decimalPlaces ro) else f in
    DivOk f remainder 0
  else if IsInt64 b 0 then DivisionByZero f remainder
  else
    let '(aCopy, bCopy) := shifted a b in
    if IsInt64 bCopy 1 then
      let f := Sign aCopy (stranalyzer.Sign a * stranalyzer.Sign b) in
      let f := if decimalPlaces ro >=? 0 then SetDecimals f (decimalPlaces ro) else f in
      DivOk f remainder 0
    else
      let env := divmod_env aCopy bCopy ro in
      let st0 := divmod_init aCopy bCopy remainder in
      match divmod_loop (loop_bound env st0) env st0 with
      | OutOfFuel => DivDiverges
      | LoopPanic => DivPanic
      | Exited st => divmod_finish a b bTrunc ro (decimalsGoal env) st
      end.

(** [f.Div(a, b, options...)]: the remainder is a local of [Div]. *)
Definition Div (f a b : BigFloat) (options : list DivOption) : DivResult :=
  divmod f a b empty false options.

(** [f.DivMod(a, b)]. *)
Definition DivMod (f a b : BigFloat) : DivResult :=
  divmod f a b empty true [WithDivDecimalPlaces 0].

(** ** Formatter *)

Definition StringOption : Type := bool -> bool.
Definition ForceSign (forceSign : bool) : StringOption := fun _ => forceSign.

Definition StringWith_bytes (f : BigFloat) (options : list StringOption) : list Z :=
  let forceSign := fold_left (fun so option => option so) options false in
  let sign :=
    if stranalyzer.Sign f =? -1 then [ch "-"]
    else if forceSign && negb (IsInt64 f 0) then [ch "+"]
    else [] in
  sign ++ slice_to (Norm f) (Len f - Decimals f)
       ++ (if Decimals f >? 0
           then ch "." :: slice_from (Norm f) (Len f - Decimals f) else []).

Definition StringWith (f : BigFloat) (options : list StringOption) : string :=
  string_of_bytes (StringWith_bytes f options).

Definition String (f : BigFloat) : string := StringWith f [ForceSign false].

Record repeatingOptionsType : Type := mkRepeatingOptions {
  indicatorStart : string;
  indicatorEnd : string
}.

Definition RepeatingOptions : Type := repeatingOptionsType -> repeatingOptionsType.

Definition WithRepeatingOptions (s e : string) : RepeatingOptions :=
  fun _ => mkRepeatingOptions s e.

(** The heterogeneous option list of [StringF]; a value of any other
    type panics in the source and has no counterpart here. *)
Inductive FormatOption : Type :=
| OfRepeating (o : RepeatingOptions)
| OfString (o : StringOption).

Definition StringF (f : BigFloat) (RepeatingDecimals : Z) (options : list FormatOption)
    : string :=
  let ro := fold_left (fun ro o => match o with OfRepeating g => g ro | OfString _ => ro end)
              options (mkRepeatingOptions "(" ")") in
  let strOptions :=
    omap (fun o => match o with OfString g => Some g | OfRepeating _ => None end) options in
  let result := StringWith_bytes f strOptions in
  if RepeatingDecimals >? 0 then
    (string_of_bytes (slice_to result (len result - RepeatingDecimals))
     ++ indicatorStart ro
     ++ string_of_bytes (slice_from result (len result - RepeatingDecimals))
     ++ indicatorEnd ro)%string
  else string_of_bytes result.

(** The package-level [SetString] on a literal that is accepted: the
    value built, and [BigFloat{}] otherwise. *)
Definition parse (s : string) : BigFloat :=
  match SetString empty s with
  | SetOk a => a
  | SetError f _ => f
  | SetPanic => empty
  end.

(** ** Constructors by the dynamic type of the argument *)

(** The dynamic type of the argument of [Set]; [ArgOther] stands for
    every type the type switch does not list. The integer cases convert
    to [int64] without loss. *)
Inductive SetArg : Type :=
| ArgString (s : string)
| ArgInt (n : Z)
| ArgInt64 (n : Z)
| ArgInt8 (n : Z)
| ArgInt16 (n : Z)
| ArgInt32 (n : Z)
| ArgPointer (v : BigFloat)
| ArgValue (v : BigFloat)
| ArgOther.

(** What [f.Set(arg)] hands back: the receiver after the call and the
    error, or a panic (of the type switch, or of the analyzer). *)
Inductive SetResult : Type :=
| SetReturns (f : BigFloat) (err : option ParseError)
| SetPanics.

(** The method [f.Set(arg)]. *)
Definition Set_ (f : BigFloat) (arg : SetArg) : SetResult :=
  match arg with
  | ArgString value =>
      match SetString f value with
      | SetOk a => SetReturns a None
      | SetError f' e => SetReturns f' (Some e)
      | SetPanic => SetPanics
      end
  | ArgInt value => SetReturns (SetInt64 f value) None
  | ArgInt64 value => SetReturns (SetInt64 f value) None
  | ArgInt8 value => SetReturns (SetInt64 f value) None
  | ArgInt16 value => SetReturns (SetInt64 f value) None
  | ArgInt32 value => SetReturns (SetInt64 f value) None
  | ArgPointer value => SetReturns (Copy value) None
  | ArgValue value => SetReturns (Copy value) None
  | ArgOther => SetPanics
  end.

(** The package-level functions of the same names as the methods. *)
Module pkg.

(** [Set(arg)]: [New().Set(arg)]. *)
Definition Set_ (arg : SetArg) : SetResult := bigfloat.Set_ New arg.

(** [SetString(s)]: the receiver is [&BigFloat{}]. *)
Definition SetString (s : string) : SetStringResult := bigfloat.SetString empty s.

(** [SetInt64(n)] and [SetInt(n)]. *)
Definition SetInt64 (n : Z) : BigFloat := bigfloat.SetInt64 empty n.
Definition SetInt (n : Z) : BigFloat := bigfloat.SetInt64 empty n.

End pkg.


End bigfloat.

Import bigfloat.

(** ** The data-model invariants *)

Definition all_zero (l : list Z) : bool := forallb (fun c => c =? ch "0") l.

(** The digit buffer holds ASCII decimal digits. *)
Definition digits_ok (f : BigFloat) : bool := forallb is_digit (Norm f).

(** I1: [length == len(digits) >= 1]. *)
Definition I1 (f : BigFloat) : bool := (Len f =? len (Norm f)) && (1 <=? Len f).

(** I2: [0 <= decimals <= length]. *)
Definition I2 (f : BigFloat) : bool := (0 <=? Decimals f) && (Decimals f <=? Len f).

(** I3: the sign is [+1] or [-1], and [+1] when every digit is ['0']. *)
Definition I3 (f : BigFloat) : bool :=
  ((stranalyzer.Sign f =? 1) || (stranalyzer.Sign f =? -1))
  && implb (all_zero (Norm f)) (stranalyzer.Sign f =? 1).

(** I4: the integer portion starts with ['0'] only when it is ["0"]. *)
Definition I4 (f : BigFloat) : bool :=
  match slice_to (Norm f) (Len f - Decimals f) with
  | c :: _ :: _ => negb (c =? ch "0")
  | _ => true
  end.

(** I5 constrains the rendering only (no decimal marker when
    [decimals == 0]); see [StringWith_bytes]. *)
Definition invariants (f : BigFloat) : bool :=
  digits_ok f && I1 f && I2 f && I3 f && I4 f.

(** The integer portion is not empty: what every constructor of the
    package establishes on top of I2. *)
Definition has_integer_digit (f : BigFloat) : bool := Decimals f <? Len f.

(** The magnitude is zero: every digit is ['0']. *)
Definition magnitude_zero (f : BigFloat) : bool := all_zero (Norm f).

Definition is_DivisionByZero (r : DivResult) : bool :=
  match r with DivisionByZero _ _ => true | _ => false end.

(** A positive integer in canonical form: the shape of the shifted
    operands and of the products inside the division loop. *)
Definition positive_integer (f : BigFloat) : bool :=
  (stranalyzer.Sign f =? 1) && (Decimals f =? 0) && (Len f =? len (Norm f))
  && forallb is_digit (Norm f)
  && match Norm f with c :: _ => negb (c =? ch "0") | [] => false end.

(** What the counters of the division loop satisfy at the head of
    every iteration: no repetend found yet, every remembered index below
    the count of fractional digits, the count within the goal, and one
    emitted digit more than fractional digits. *)
Definition counters_invariant (env : loop_env) (st : loop_state) : Prop :=
  0 <= decimals st
  /\ (0 < decimalsGoal env -> decimals st <= decimalsGoal env)
  /\ map_Forall (fun _ ind => 0 <= ind < decimals st) (remIndxMap st)
  /\ repDecimalsInd st = -1
  /\ (decimals st = 0 \/ decimals st < len (result st)).

(** What they satisfy when the loop has left. *)
Definition counters_at_exit (env : loop_env) (st : loop_state) : Prop :=
  0 <= decimals st
  /\ (0 < decimalsGoal env -> decimals st <= decimalsGoal env)
  /\ (repDecimalsInd st = -1
      \/ (0 <= repDecimalsInd st < decimals st
          /\ (0 < decimalsGoal env -> decimals st < decimalsGoal env)))
  /\ (decimals st = 0 \/ decimals st < len (result st)).

(** ** Numbers behind the digit buffers *)

(** Value of a list of digit values (not ASCII), most significant
    first. *)
Definition be (l : list Z) : Z := fold_left (fun acc d => 10 * acc + d) l 0.

(** The digit values of a buffer of ASCII digits. *)
Definition raw (l : list Z) : list Z := map (fun c => c - 48) l.

(** Every element is a digit value. *)
Definition small (l : list Z) : Prop := Forall (fun d => 0 <= d <= 9) l.

(** No leading zero in a digit buffer, the single digit 0 apart. *)
Definition canonical (l : list Z) : bool :=
  match l with c :: _ :: _ => negb (c =? 48) | _ => true end.

(** The divisor of the loop as a number. *)
Definition divisor (env : loop_env) : Z := digits_value (Norm (bCopy env)).

(** The digit the iteration at state [st] takes in: the next digit of
    the dividend, or ['0'] past its end. *)
Definition next_digit (env : loop_env) (st : loop_state) : Z :=
  if ls_i st >=? len (aBuf env) then ch "0" else idx (aBuf env) (ls_i st).

(** [divPart] after the digit is taken in: overwritten when it is
    ["0"], extended otherwise. *)
Definition next_divPart (dp : list Z) (digit : Z) : list Z :=
  if bytes_eqb dp [ch "0"] then [digit] else dp ++ [digit].

(** The states at the head of an iteration of the loop. *)
Inductive reachable (env : loop_env) (st0 : loop_state) : loop_state -> Prop :=
| reachable_init : reachable env st0 st0
| reachable_step (st st' : loop_state) :
    reachable env st0 st -> divmod_step env st = Continue st' ->
    reachable env st0 st'.

(** What the loop keeps true of its running remainder and of the digits
    it has emitted. *)
Definition division_invariant (env : loop_env) (st : loop_state) : Prop :=
  0 <= ls_i st
  /\ forallb is_digit (divPart st) = true
  /\ canonical (divPart st) = true
  /\ 0 <= digits_value (divPart st) < divisor env
  /\ small (result st).

(** An integer operand: no decimals, the length field right, digits
    only. *)
Definition integer_operand (x : BigFloat) : Prop :=
  Decimals x = 0 /\ Len x = len (Norm x) /\ forallb is_digit (Norm x) = true.

(** A natural number in the shape the loop handles: zero as [New] or a
    canonical positive integer. *)
Definition natural (x : BigFloat) : Prop := x = New \/ positive_integer x = true.

(** What [divmod] has established of the loop's constants when the
    loop starts: the divisor is a canonical positive integer other than
    1, compared through its leading digits, and the dividend buffer
    holds digits. *)
Definition division_env (env : loop_env) : Prop :=
  positive_integer (bCopy env) = true
  /\ IsInt64 (bCopy env) 1 = false
  /\ cmpStr env
     = slice_to (Norm (bCopy env)) (if 5 >? Len (bCopy env) then Len (bCopy env) else 5)
  /\ divPart2Int env = Atoi (cmpStr env)
  /\ forallb is_digit (aBuf env) = true.

(** ** The number a value stands for *)

(** The invariants together with a non-empty integer portion. *)
Definition wellformed (f : BigFloat) : bool := invariants f && has_integer_digit f.

(** The value of [f] counted in units of [10^-d], for [Decimals f <= d]:
    the sign times the digits, shifted to [d] decimals. *)
Definition scaled (f : BigFloat) (d : Z) : Z :=
  stranalyzer.Sign f * digits_value (Norm f) * 10 ^ (d - Decimals f).

(** A literal without exponent part. *)
Definition exponent_free (s : string) : bool :=
  forallb (fun c => negb ((c =? ch "E") || (c =? ch "e"))) (runes s).


(** A rune the analyzer skips: not graphic, or a space. *)
Definition skipped (c : Z) : bool := negb (visible c) || (c =? ch " ").

(** Two results of the analyzer that agree up to the position an error
    message reports. *)
Definition same_outcome (x y : AnalyzeResult) : Prop :=
  match x, y with
  | Failed _, Failed _ => True
  | _, _ => x = y
  end.

(** [f] with its decimals padded to [d] and the decimal point dropped:
    the integer operand the aligned loops of [add], [sub] and [compare]
    in effect read. *)
Definition padded (f : BigFloat) (d : Z) : BigFloat :=
  mkAnalysis (Norm f ++ fill (d - Decimals f) (ch "0")) (stranalyzer.Sign f) 0
    (Len f + (d - Decimals f)).

(** The digit a sub-product contributes to the column [pos] of the
    long multiplication. *)
Definition digit_at (sp : subProduct) (pos : Z) : Z :=
  let ppos := pos - sp_offset sp in
  if (ppos >=? 0) && (ppos <? len (product sp)) then idx (product sp) ppos else 0.

(** The number a list of sub-products stands for: each product, its
    least significant digit first, shifted by its offset. *)
Definition subProducts_value (R : list subProduct) : Z :=
  fold_right (fun sp acc => be (rev (product sp)) * 10 ^ sp_offset sp + acc) 0 R.

(** The sum of [g pos * 10^pos] over the positions below [n]. *)
Fixpoint weighted (g : Z -> Z) (n : nat) : Z :=
  match n with
  | O => 0
  | S k => weighted g k + g (Z.of_nat k) * 10 ^ Z.of_nat k
  end.

(** A sub-product of a multiplication whose columns number [n]. *)
Definition subProduct_ok (n : Z) (sp : subProduct) : Prop :=
  small (product sp) /\ 0 <= sp_offset sp /\ sp_offset sp + len (product sp) <= n.

(** What the loop of [divmod] keeps true while it reads the digits of
    the dividend: no decimal has been computed, and the digits emitted
    so far, times the divisor, plus the running remainder are the digits
    read so far. *)
Definition integer_phase (env : loop_env) (st : loop_state) : Prop :=
  division_invariant env st
  /\ bDecimals st = false /\ decimals st = 0 /\ remIndxMap st = ∅
  /\ repDecimalsInd st = -1
  /\ be (result st) * divisor env + digits_value (divPart st)
     = digits_value (slice_to (aBuf env) (ls_i st))
  /\ match result st with d :: _ => d <> 0 | [] => True end
  /\ (divPart st <> [] \/ ls_i st < len (aBuf env)).

(** The digits of the number [Q], without leading zero. *)
Definition quotient_digits (rq : list Z) (Q : Z) : Prop :=
  small rq /\ be rq = Q
  /\ match rq with d :: rest => d <> 0 \/ rest = [] | [] => False end.

(** The state in which the loop of an integer division ends: the
    emitted digits are the quotient, followed by one decimal when the
    division leaves a remainder, which is then what [lastRemainder]
    holds. *)
Definition integer_division_done (env : loop_env) (st : loop_state) : Prop :=
  let A := digits_value (aBuf env) in
  let B := divisor env in
  repDecimalsInd st = -1
  /\ ((A mod B = 0 /\ decimals st = 0 /\ quotient_digits (result st) (A / B))
      \/ (A mod B <> 0 /\ decimals st = 1
          /\ (exists rq q1, result st = rq ++ [q1] /\ 0 <= q1 <= 9
                            /\ quotient_digits rq (A / B))
          /\ exists dp, lastRemainder st = mkAnalysis dp 1 0 (len dp)
               /\ forallb is_digit dp = true /\ canonical dp = true /\ dp <> []
               /\ digits_value dp = A mod B)).

(** The quotient of [X] by [Y] carried to [t] decimals, as an integer,
    and what is left over at that point. *)
Definition quotient_at (X Y t : Z) : Z := X * 10 ^ t / Y.

Definition remainder_at (X Y t : Z) : Z := (X * 10 ^ t) mod Y.

(** The [j]-th decimal of the quotient, and the first [t] of them. *)
Definition decimal_digit (X Y j : Z) : Z := quotient_at X Y j mod 10.

Definition decimal_digits (X Y : Z) (t : nat) : list Z :=
  map (fun j => decimal_digit X Y (Z.of_nat j)) (seq 1 t).

(** The states at the head of an iteration past the last digit of the
    dividend, [t] decimals computed: the running remainder is what the
    division leaves at [t] decimals, the emitted digits are the quotient
    carried to [t] decimals, and every remembered remainder is the one
    of the decimal it is remembered for. *)
Definition decimal_phase (env : loop_env) (st : loop_state) : Prop :=
  let X := digits_value (aBuf env) in
  let Y := divisor env in
  let t := decimals st in
  division_invariant env st
  /\ len (aBuf env) <= ls_i st
  /\ 0 <= t < ro_max env
  /\ (0 < decimalsGoal env -> t <= decimalsGoal env)
  /\ repDecimalsInd st = -1
  /\ divPart st <> []
  /\ digits_value (divPart st) = remainder_at X Y t
  /\ map_Forall (fun dp j => 0 <= j < t /\ digits_value dp = remainder_at X Y j)
       (remIndxMap st)
  /\ ((t = 0 /\ be (result st) = X / Y
       /\ match result st with d :: _ => d <> 0 | [] => True end)
      \/ (0 < t /\ exists rq, quotient_digits rq (X / Y)
                              /\ result st = rq ++ decimal_digits X Y (Z.to_nat t))).

(** The states in which the loop ends: the emitted digits are the
    quotient carried to [t] decimals, and either the division came out
    even, or the goal or [maxDecimalPlaces] is reached, or the remainder
    is the one met at the decimal [repDecimalsInd]. *)
Definition division_done (env : loop_env) (st : loop_state) : Prop :=
  let X := digits_value (aBuf env) in
  let Y := divisor env in
  let t := decimals st in
  0 <= t <= ro_max env
  /\ (0 < decimalsGoal env -> t <= decimalsGoal env)
  /\ (exists rq, quotient_digits rq (X / Y)
                 /\ result st = rq ++ decimal_digits X Y (Z.to_nat t))
  /\ ((repDecimalsInd st = -1
       /\ (remainder_at X Y t = 0 \/ t = decimalsGoal env \/ ro_max env <= t))
      \/ (0 <= repDecimalsInd st < t
          /\ (0 < decimalsGoal env -> t < decimalsGoal env)
          /\ remainder_at X Y (repDecimalsInd st) = remainder_at X Y t)).


(** A rune the analyzer has no use for: graphic, and neither a sign,
    a decimal point, an exponent marker, a digit nor a space. *)
Definition invalid_rune (c : Z) : bool :=
  visible c
  && negb ((c =? ch "+") || (c =? ch "-") || (c =? ch ".") || (c =? ch "E")
           || (c =? ch "e") || IsDigit c || (c =? ch " ")).

(** * Properties *)

(** ** The mutual recursion of [Sign], [SetDecimals] and [IsInt64] *)

Lemma SetInt64_0 (f : BigFloat) : SetInt64 f 0 = New.
Proof. vm_compute; reflexivity. Qed.

Lemma SetInt64_1 (f : BigFloat) : SetInt64 f 1 = mkAnalysis [ch "1"] 1 0 1.
Proof. vm_compute; reflexivity. Qed.

Lemma IsInt64_0_knot (f : BigFloat) : IsInt64 f 0 = IsZero f.
Proof.
  unfold IsInt64, IsZero, IsInt64_body. rewrite !SetInt64_0.
  unfold SetDecimals_body. cbn [Decimals New Norm Len stranalyzer.Sign].
  destruct (Decimals f =? 0); [reflexivity|].
  destruct (Decimals f >? 0); reflexivity.
Qed.

(** ** Evaluations on concrete inputs *)

(** C1: on the literal 1.5e1 the exponent folding leaves [decimals] at
    0 and still appends a zero digit, so the literal parses to 150 and
    not to 15; on 1.234e1 the count handed to [bytes.Repeat] is
    negative. *)
Theorem exponent_fold_nonnegative_decimals :
  Analyze "1.5e1" = Parsed (mkAnalysis (runes "150") 1 0 3)
  /\ Analyze "1.5e1" <> Parsed (mkAnalysis (runes "15") 1 0 2)
  /\ Analyze "1.234e1" = Panicked.
Proof.
  split; [|split].
  - vm_compute; reflexivity.
  - vm_compute; discriminate.
  - vm_compute; reflexivity.
Qed.

(** C4: [DivMod] of 10 by 5 returns the quotient 2 with the remainder
    1, and of 105 by 5 the quotient 21 with the remainder 5: on an exact
    division the loop leaves before [lastRemainder] is refreshed, so
    quotient times divisor plus remainder is not the dividend. *)
Theorem DivMod_exact_division_remainder :
  DivMod New (parse "10") (parse "5") = DivOk (parse "2") (parse "1") 0
  /\ DivMod New (parse "105") (parse "5") = DivOk (parse "21") (parse "5") 0
  /\ digits_value (Norm (parse "2")) * digits_value (Norm (parse "5"))
     + digits_value (Norm (parse "1")) <> digits_value (Norm (parse "10")).
Proof.
  split; [|split].
  - vm_compute; reflexivity.
  - vm_compute; reflexivity.
  - vm_compute; discriminate.
Qed.

(** C5: [Mul10] breaks the invariants. On the zero value it trims every
    digit and leaves an empty buffer of length 0 (I1); on 0.05 it only
    lowers [decimals] and leaves the integer portion 00 (I4). *)
Theorem Mul10_breaks_invariants :
  invariants New = true
  /\ Mul10 New 0 = mkAnalysis [] 1 0 0
  /\ I1 (Mul10 New 0) = false
  /\ invariants (parse "0.05") = true
  /\ Mul10 (parse "0.05") 1 = mkAnalysis (runes "005") 1 1 3
  /\ I4 (Mul10 (parse "0.05") 1) = false.
Proof. repeat (split; [vm_compute; reflexivity|]); vm_compute; reflexivity. Qed.

(** C7: 100 divided by -0.7 with the default options is -142.857142
    with a repetend of length 6, rendered -142.(857142). *)
Theorem Div_100_by_minus_0_7 :
  exists r : BigFloat,
    Div New (parse "100") (parse "-0.7") []
    = DivOk (mkAnalysis (runes "142857142") (-1) 6 9) r 6
    /\ StringF (mkAnalysis (runes "142857142") (-1) 6 9) 6 [] = "-142.(857142)"%string
    /\ decimalPlaces default_divOptions = -1.
Proof. eexists; (split; [|split]); vm_compute; reflexivity. Qed.

(** ** Projections through the mutators *)

Lemma Sign_body_fields (z : BigFloat -> bool) (f : BigFloat) (s : Z) :
  Norm (Sign_body z f s) = Norm f /\ Decimals (Sign_body z f s) = Decimals f
  /\ Len (Sign_body z f s) = Len f.
Proof. unfold Sign_body. destruct (s =? -1); auto. Qed.

Lemma Sign_Norm (f : BigFloat) (s : Z) : Norm (bigfloat.Sign f s) = Norm f.
Proof. apply Sign_body_fields. Qed.

Lemma Sign_Decimals (f : BigFloat) (s : Z) : Decimals (bigfloat.Sign f s) = Decimals f.
Proof. apply Sign_body_fields. Qed.

Lemma Sign_Len (f : BigFloat) (s : Z) : Len (bigfloat.Sign f s) = Len f.
Proof. apply Sign_body_fields. Qed.

Lemma Sign_positive (f : BigFloat) : bigfloat.Sign f 1 = with_Sign f 1.
Proof. reflexivity. Qed.

Lemma SetDecimals_Decimals (f : BigFloat) (n : Z) : Decimals (SetDecimals f n) = n.
Proof.
  unfold SetDecimals, SetDecimals_body.
  destruct (n =? Decimals f) eqn:E.
  - rewrite (proj1 (proj2 (Sign_body_fields _ _ _))). lia.
  - rewrite (proj1 (proj2 (Sign_body_fields _ _ _))). reflexivity.
Qed.

Lemma align2_MaxDecLen (a b : BigFloat) :
  MaxDecLen (align [a; b]) = if Decimals b >? Decimals a then Decimals b else Decimals a.
Proof. reflexivity. Qed.

Lemma add_Decimals (a b : BigFloat) : Decimals (add a b) = MaxDecLen (align [a; b]).
Proof. unfold add. destruct (add_loop _ _ _ _ _ _). reflexivity. Qed.

Lemma sub_Decimals (a b : BigFloat) : Decimals (sub a b) = MaxDecLen (align [a; b]).
Proof. reflexivity. Qed.

Lemma Add_Decimals_equal (a b : BigFloat) (n : Z) :
  Decimals a = n -> Decimals b = n -> Decimals (Add a b) = n.
Proof.
  intros Ha Hb. unfold Add.
  destruct (IsInt64 a 0); [exact Hb|].
  destruct (IsInt64 b 0); [exact Ha|].
  destruct (_ =? _).
  { rewrite add_Decimals, align2_MaxDecLen, Ha, Hb. destruct (n >? n); reflexivity. }
  destruct (CompareAbs a b =? 0).
  { rewrite SetDecimals_Decimals, Ha, Hb. lia. }
  destruct (CompareAbs a b <? 0); rewrite Sign_Decimals, sub_Decimals, align2_MaxDecLen;
    unfold Abs, Copy; rewrite !Sign_Decimals, Ha, Hb; destruct (n >? n); reflexivity.
Qed.

Lemma Div10_Decimals (f : BigFloat) (n : Z) : Decimals (Div10 f n) = Decimals f + n.
Proof. unfold Div10. destruct (_ >=? _); reflexivity. Qed.

(** C6 (amended): rounding 1.25 to 1 decimal gives 1.3 and rounding
    -1.55555 to 1 decimal gives -1.6: [Round(n)] with [n] below the
    stored decimal count leaves exactly [n] decimals, the dropped
    digits are not replaced by zeros; a dropped digit below 5 leaves the
    kept digits as they are, a digit from 5 on adds one unit at
    position [n]. *)
Theorem Round_sets_decimals :
  Round (parse "1.25") 1 = Some (parse "1.3")
  /\ Round (parse "-1.55555") 1 = Some (parse "-1.6")
  /\ forall (f : BigFloat) (n : Z),
       0 <= n < Decimals f ->
       exists f' : BigFloat,
         Round f n = Some f' /\ Decimals f' = n
         /\ ((idx (Norm f) (Len f - Decimals f + n) <? ch "5") = true ->
             Norm f' = slice_to (Norm f) (Len f - Decimals f + n)).
Proof.
  split; [vm_compute; reflexivity|].
  split; [vm_compute; reflexivity|].
  intros f n Hn. unfold Round.
  replace (n <? 0) with false by lia.
  replace (n <? Decimals f) with true by lia.
  eexists. split; [reflexivity|]. split.
  - rewrite Sign_Decimals. destruct (_ >=? _); [|reflexivity].
    apply Add_Decimals_equal; [reflexivity|].
    rewrite Sign_Decimals, Div10_Decimals, SetInt64_1. reflexivity.
  - intros Hd. rewrite Sign_Norm.
    replace (_ >=? _) with false by lia. reflexivity.
Qed.

Lemma Round_sets_decimals_witness :
  exists f' : BigFloat,
    Round (parse "1.25") 1 = Some f' /\ Decimals f' = 1
    /\ ((idx (Norm (parse "1.25")) (Len (parse "1.25") - Decimals (parse "1.25") + 1)
           <? ch "5") = true ->
        Norm f' = slice_to (Norm (parse "1.25"))
                    (Len (parse "1.25") - Decimals (parse "1.25") + 1)).
Proof.
  apply (proj2 (proj2 Round_sets_decimals) (parse "1.25") 1).
  change (Decimals (parse "1.25")) with 2. lia.
Defined.

(** C6 as stated fails: the results are not 1.30 and -1.60000. *)
Lemma Round_drops_trailing_zeros :
  Round (parse "1.25") 1 <> Some (parse "1.30")
  /\ Round (parse "-1.55555") 1 <> Some (parse "-1.60000").
Proof. split; vm_compute; discriminate. Qed.

(** ** The zero test *)

Ltac zbool := rewrite ?Z.gtb_ltb, ?Z.geb_leb in *.

Lemma bytes_eqb_true (a b : list Z) : bytes_eqb a b = true <-> a = b.
Proof. unfold bytes_eqb. apply bool_decide_eq_true. Qed.

Lemma all_zero_repeat (l : list Z) :
  all_zero l = true <-> l = repeat (ch "0") (length l).
Proof.
  induction l as [|x l IH]; cbn [all_zero forallb length repeat].
  - split; reflexivity.
  - fold (all_zero l). rewrite andb_true_iff, IH, Z.eqb_eq. split.
    + intros [-> E]. f_equal. exact E.
    + intros E. injection E as E1 E2. split; assumption.
Qed.

Lemma SetDecimals_New (n : Z) :
  0 <= n ->
  SetDecimals New n = mkAnalysis (repeat (ch "0") (Z.to_nat (n + 1))) 1 n (n + 1).
Proof.
  intros Hn. unfold SetDecimals, SetDecimals_body.
  cbn [Decimals New Norm Len stranalyzer.Sign].
  destruct (n =? 0) eqn:E0.
  - apply Z.eqb_eq in E0. subst n. reflexivity.
  - apply Z.eqb_neq in E0. replace (n >? 0) with true by (zbool; lia).
    unfold Sign_body. cbn [Z.eqb with_Sign Norm Decimals Len stranalyzer.Sign].
    unfold fill. rewrite Z.sub_0_r.
    replace (Z.to_nat (n + 1)) with (S (Z.to_nat n)) by lia.
    cbn [repeat app]. unfold len. cbn [length]. rewrite repeat_length.
    unfold with_Sign. cbn [Norm Decimals Len]. f_equal. lia.
Qed.

Lemma IsInt64_0_spec (f : BigFloat) :
  0 <= Decimals f ->
  IsInt64 f 0 = true <->
  stranalyzer.Sign f = 1 /\ Len f = Decimals f + 1
  /\ Norm f = repeat (ch "0") (Z.to_nat (Decimals f + 1)).
Proof.
  intros Hd. unfold IsInt64, IsInt64_body. rewrite SetInt64_0.
  fold SetDecimals. rewrite (SetDecimals_New _ Hd).
  cbn [stranalyzer.Sign Decimals Len Norm].
  rewrite !andb_true_iff, !Z.eqb_eq, bytes_eqb_true. tauto.
Qed.

Lemma invariants_fields (f : BigFloat) :
  invariants f = true ->
  digits_ok f = true /\ I1 f = true /\ I2 f = true /\ I3 f = true /\ I4 f = true.
Proof. unfold invariants. rewrite !andb_true_iff. tauto. Qed.

Lemma forallb_slice {A : Type} (p : A -> bool) (l : list A) (n : Z) :
  forallb p l = true ->
  forallb p (slice_to l n) = true /\ forallb p (slice_from l n) = true.
Proof.
  intros H. unfold slice_to, slice_from.
  rewrite <- (firstn_skipn (Z.to_nat n) l), forallb_app, andb_true_iff in H.
  exact H.
Qed.

Lemma slice_to_length {A : Type} (l : list A) (n : Z) :
  0 <= n <= len l -> length (slice_to l n) = Z.to_nat n.
Proof. intros H. unfold slice_to, len in *. rewrite length_take. lia. Qed.

(** On a value that satisfies the invariants and has an integer digit,
    [IsInt64(0)] is the test that the magnitude is zero. *)
Lemma IsInt64_0_magnitude (f : BigFloat) :
  invariants f = true -> has_integer_digit f = true ->
  IsInt64 f 0 = magnitude_zero f.
Proof.
  intros Hinv Hint. apply invariants_fields in Hinv as (_ & H1 & H2 & H3 & H4).
  unfold I1, I2, I3, I4, has_integer_digit in *.
  rewrite !andb_true_iff in *. destruct H1 as [H1 H1']. destruct H2 as [H2 H2'].
  destruct H3 as [H3 H3'].
  apply Z.eqb_eq in H1. apply Z.leb_le in H1', H2, H2'. apply Z.ltb_lt in Hint.
  apply eq_true_iff_eq. rewrite (IsInt64_0_spec _ H2). unfold magnitude_zero.
  rewrite all_zero_repeat. split.
  - intros (_ & HL & HN).
    assert (E : length (Norm f) = Z.to_nat (Decimals f + 1))
      by (rewrite HN, repeat_length; reflexivity).
    rewrite E. exact HN.
  - intros HN. assert (Hz : all_zero (Norm f) = true) by (apply all_zero_repeat; exact HN).
    rewrite Hz in H3'. cbn [implb] in H3'. apply Z.eqb_eq in H3'.
    split; [exact H3'|].
    assert (HL : Len f = Decimals f + 1).
    { remember (slice_to (Norm f) (Len f - Decimals f)) as ip eqn:Eip.
      assert (Hlen : length ip = Z.to_nat (Len f - Decimals f)).
      { subst ip. apply slice_to_length. unfold len in *. lia. }
      assert (Hz' : all_zero ip = true).
      { subst ip. apply forallb_slice. exact Hz. }
      destruct ip as [|c [|c' ip]]; cbn [length] in Hlen; [lia|lia|].
      cbn [all_zero forallb] in Hz'. apply andb_true_iff in Hz' as [Hc _].
      rewrite Hc in H4. discriminate. }
    split; [exact HL|]. rewrite HN at 1. f_equal. unfold len in *. lia.
Qed.

(** ** Division by zero *)

Lemma divmod_finish_not_DivisionByZero (a b : BigFloat) (t : bool) (ro : divOptionsType)
    (g : Z) (st : loop_state) (f' r' : BigFloat) :
  divmod_finish a b t ro g st <> DivisionByZero f' r'.
Proof.
  unfold divmod_finish. destruct st.
  repeat match goal with
         | |- context [if ?c then _ else _] => destruct c
         | |- context [match ?c with Some _ => _ | None => _ end] => destruct c
         | |- context [let '(_, _) := ?c in _] => destruct c
         end; discriminate.
Qed.

Lemma divmod_DivisionByZero (f a b rem : BigFloat) (t : bool) (options : list DivOption)
    (f' r' : BigFloat) :
  divmod f a b rem t options = DivisionByZero f' r' <->
  IsInt64 a 0 = false /\ IsInt64 b 0 = true /\ f' = f /\ r' = rem.
Proof.
  unfold divmod. destruct (IsInt64 a 0).
  { split; [discriminate|]. intros (H & _). discriminate. }
  destruct (IsInt64 b 0).
  { split.
    - intros H. injection H as -> ->. auto.
    - intros (_ & _ & -> & ->). reflexivity. }
  split; [|intros (_ & H & _); discriminate].
  destruct (shifted a b) as [aCopy bCopy].
  destruct (IsInt64 bCopy 1); [discriminate|].
  destruct (divmod_loop _ _ _); try discriminate.
  intros H. exfalso. revert H. apply divmod_finish_not_DivisionByZero.
Qed.

(** C2 (amended): [Div] and [DivMod] fail with the division-by-zero
    error exactly when the divisor is zero and the dividend is not; the
    failing call leaves the destination [f] and the remainder value as
    they were. A zero dividend is answered with 0 before the divisor is
    looked at. *)
Theorem DivisionByZero_iff (f a b : BigFloat) (options : list DivOption) :
  invariants a = true -> has_integer_digit a = true ->
  invariants b = true -> has_integer_digit b = true ->
  (forall f' r' : BigFloat,
     Div f a b options = DivisionByZero f' r' <->
     magnitude_zero b = true /\ magnitude_zero a = false /\ f' = f /\ r' = empty)
  /\ (forall f' r' : BigFloat,
        DivMod f a b = DivisionByZero f' r' <->
        magnitude_zero b = true /\ magnitude_zero a = false /\ f' = f /\ r' = empty)
  /\ (magnitude_zero a = true ->
      is_DivisionByZero (Div f a b options) = false
      /\ is_DivisionByZero (DivMod f a b) = false).
Proof.
  intros Ha Ha' Hb Hb'.
  pose proof (IsInt64_0_magnitude a Ha Ha') as Ea.
  pose proof (IsInt64_0_magnitude b Hb Hb') as Eb.
  split; [|split].
  - intros f' r'. unfold Div. rewrite divmod_DivisionByZero, Ea, Eb. tauto.
  - intros f' r'. unfold DivMod. rewrite divmod_DivisionByZero, Ea, Eb. tauto.
  - intros Hz. unfold Div, DivMod, divmod. rewrite Ea, Hz. split; reflexivity.
Qed.

Lemma DivisionByZero_iff_witness :
  (forall f' r' : BigFloat,
     Div New (parse "1") (parse "0") [] = DivisionByZero f' r' <->
     magnitude_zero (parse "0") = true /\ magnitude_zero (parse "1") = false
     /\ f' = New /\ r' = empty)
  /\ (forall f' r' : BigFloat,
        DivMod New (parse "1") (parse "0") = DivisionByZero f' r' <->
        magnitude_zero (parse "0") = true /\ magnitude_zero (parse "1") = false
        /\ f' = New /\ r' = empty)
  /\ (magnitude_zero (parse "1") = true ->
      is_DivisionByZero (Div New (parse "1") (parse "0") []) = false
      /\ is_DivisionByZero (DivMod New (parse "1") (parse "0")) = false).
Proof.
  apply (DivisionByZero_iff New (parse "1") (parse "0") []); vm_compute; reflexivity.
Defined.

(** C2 as stated fails: a zero divisor under a zero dividend is not
    an error. *)
Lemma zero_by_zero_is_not_an_error :
  magnitude_zero (parse "0") = true
  /\ is_DivisionByZero (Div New (parse "0") (parse "0") []) = false
  /\ is_DivisionByZero (DivMod New (parse "0") (parse "0")) = false.
Proof. split; [|split]; vm_compute; reflexivity. Qed.

(** ** Termination of the long-division loop *)

Lemma divmod_step_measure (env : loop_env) (st st' : loop_state) :
  divmod_step env st = Continue st' ->
  (loop_bound env st' < loop_bound env st)%nat.
Proof.
  unfold divmod_step, loop_bound. destruct st. intros H.
  repeat case_match; simplify_eq; cbn [ls_i decimals]; zbool; lia.
Qed.

Lemma divmod_step_cap (env : loop_env) (st st' : loop_state) :
  divmod_step env st = Continue st' ->
  ls_i st' = ls_i st + 1
  /\ (bDecimals st' = true -> decimals st' < ro_max env).
Proof.
  unfold divmod_step. destruct st. intros H.
  repeat case_match; simplify_eq; cbn [ls_i decimals bDecimals]; zbool;
    (split; [lia|]); intros; try discriminate; try lia.
Qed.

Lemma divmod_loop_exits (env : loop_env) (fuel : nat) :
  forall st : loop_state,
    (loop_bound env st <= fuel)%nat -> divmod_loop fuel env st <> OutOfFuel.
Proof.
  induction fuel as [|fuel IH]; intros st Hb.
  - unfold loop_bound in Hb. lia.
  - cbn [divmod_loop]. destruct (divmod_step env st) as [st'| |] eqn:E; try discriminate.
    apply IH. apply divmod_step_measure in E. lia.
Qed.

Lemma divmod_loop_more_fuel (env : loop_env) (fuel : nat) :
  forall (st : loop_state) (k : nat),
    divmod_loop fuel env st <> OutOfFuel ->
    divmod_loop (fuel + k) env st = divmod_loop fuel env st.
Proof.
  induction fuel as [|fuel IH]; intros st k H.
  - exfalso. apply H. reflexivity.
  - cbn [divmod_loop Nat.add] in *. destruct (divmod_step env st); auto.
Qed.

(** ** Leading zeros *)

Lemma leading_count_bounds (v : Z) (l : list Z) : 0 <= leading_count v l <= len l.
Proof.
  unfold len. induction l as [|x l IH]; cbn [leading_count length]; [lia|].
  destruct (x =? v); lia.
Qed.

Lemma leading_count_skip (v : Z) (l : list Z) :
  forallb (fun c => c =? v) l = false ->
  exists d rest, slice_from l (leading_count v l) = d :: rest /\ d <> v.
Proof.
  unfold slice_from. induction l as [|x l IH]; cbn [forallb leading_count]; [discriminate|].
  destruct (x =? v) eqn:E; cbn [andb]; intros H.
  - destruct (IH H) as (d & rest & Hs & Hd). exists d, rest. split; [|exact Hd].
    pose proof (leading_count_bounds v l).
    replace (Z.to_nat (1 + leading_count v l)) with (S (Z.to_nat (leading_count v l))) by lia.
    exact Hs.
  - exists x, l. split; [reflexivity|]. lia.
Qed.

Lemma slice_to_all {A : Type} (l : list A) : slice_to l (len l) = l.
Proof. unfold slice_to, len. rewrite Nat2Z.id. apply firstn_all. Qed.

Lemma slice_from_length {A : Type} (l : list A) (n : Z) :
  0 <= n <= len l -> len (slice_from l n) = len l - n.
Proof. unfold slice_from, len. intros H. rewrite length_skipn. lia. Qed.

Lemma len_app {A : Type} (l1 l2 : list A) : len (l1 ++ l2) = len l1 + len l2.
Proof. unfold len. rewrite length_app. lia. Qed.

Lemma len_fill (n v : Z) : 0 <= n -> len (fill n v) = n.
Proof. unfold len, fill. rewrite repeat_length. lia. Qed.

Lemma len_nonneg {A : Type} (l : list A) : 0 <= len l.
Proof. unfold len. lia. Qed.

(** ** The shifted operands *)

Lemma Mul10_shift (f : BigFloat) (n : Z) :
  Len f = len (Norm f) -> Decimals f <= n ->
  Mul10 f n =
  let norm := Norm f ++ fill (n - Decimals f) (ch "0") in
  mkAnalysis (slice_from norm (leading_count 48 norm)) (stranalyzer.Sign f) 0
    (len norm - leading_count 48 norm).
Proof.
  intros HL Hn. unfold Mul10. replace (Decimals f - n >? 0) with false by (zbool; lia).
  cbv zeta. rewrite Z.sub_0_r.
  assert (E : Len f + (n - Decimals f) = len (Norm f ++ fill (n - Decimals f) (ch "0"))).
  { rewrite len_app, len_fill by lia. lia. }
  rewrite E, slice_to_all.
  destruct (_ >? 0) eqn:E0; [reflexivity|].
  pose proof (leading_count_bounds 48 (Norm f ++ fill (n - Decimals f) (ch "0"))).
  assert (E1 : leading_count 48 (Norm f ++ fill (n - Decimals f) (ch "0")) = 0)
    by (zbool; lia).
  rewrite E1. unfold slice_from. cbn [Z.to_nat skipn]. f_equal. lia.
Qed.

Lemma is_digit_zero_fill (n : Z) : forallb is_digit (fill n (ch "0")) = true.
Proof. unfold fill. induction (Z.to_nat n); cbn; auto. Qed.

Lemma forallb_false_app_l {A : Type} (p : A -> bool) (l1 l2 : list A) :
  forallb p l1 = false -> forallb p (l1 ++ l2) = false.
Proof. intros H. rewrite forallb_app, H. reflexivity. Qed.

(** A value that satisfies the invariants and is not zero becomes a
    canonical positive integer under [Abs] and a shift by at least its
    decimals. *)
Lemma shift_positive_integer (f : BigFloat) (n : Z) :
  invariants f = true -> magnitude_zero f = false -> Decimals f <= n ->
  positive_integer (if n >? 0 then Mul10 (Abs (Copy f)) n else Abs (Copy f)) = true.
Proof.
  intros Hinv Hz Hn. apply invariants_fields in Hinv as (Hd & H1 & H2 & H3 & H4).
  unfold digits_ok, I1, I2, I4, magnitude_zero, all_zero in *.
  apply andb_true_iff in H1 as [H1 H1']. apply andb_true_iff in H2 as [H2 H2'].
  unfold Abs, Copy. rewrite Sign_positive.
  assert (Hmul : positive_integer (Mul10 (with_Sign f 1) n) = true).
  { rewrite Mul10_shift; cbn [with_Sign Len Norm Decimals]; [|lia|lia].
    cbv zeta. unfold positive_integer. cbn [stranalyzer.Sign Decimals Len Norm].
    set (norm := Norm f ++ fill (n - Decimals f) (ch "0")).
    pose proof (leading_count_bounds 48 norm) as Hlc.
    destruct (leading_count_skip 48 norm) as (d & rest & Hs & Hne).
    { apply forallb_false_app_l. exact Hz. }
    assert (Hdig : forallb is_digit norm = true).
    { unfold norm. rewrite forallb_app, Hd, is_digit_zero_fill. reflexivity. }
    rewrite (slice_from_length norm) by lia.
    rewrite (proj2 (forallb_slice is_digit norm (leading_count 48 norm) Hdig)).
    rewrite Hs. rewrite !andb_true_iff. cbn [with_Sign stranalyzer.Sign].
    change (ch "0") with 48. repeat split; lia. }
  destruct (n >? 0) eqn:E; [exact Hmul|].
  assert (n = 0) by (zbool; lia). subst n.
  assert (Decimals f = 0) by lia.
  unfold positive_integer. cbn [with_Sign stranalyzer.Sign Decimals Len Norm].
  rewrite Hd. replace (Len f - Decimals f) with (len (Norm f)) in H4 by lia.
  rewrite slice_to_all in H4.
  destruct (Norm f) as [|c [|c' l]] eqn:EN.
  - discriminate.
  - cbn [forallb andb] in Hz. rewrite andb_true_r in Hz. rewrite Hz.
    rewrite !andb_true_iff. repeat split; lia.
  - rewrite H4. rewrite !andb_true_iff. repeat split; lia.
Qed.

Lemma shifted_divisor (a b : BigFloat) :
  invariants a = true -> invariants b = true -> magnitude_zero b = false ->
  positive_integer (snd (shifted a b)) = true.
Proof.
  intros Ha Hb Hz. unfold shifted.
  pose proof (shift_positive_integer b (Decimals a + Decimals b) Hb Hz) as H.
  apply invariants_fields in Ha as (_ & _ & H2 & _). unfold I2 in H2.
  destruct (_ >? 0); cbn [snd]; apply H; lia.
Qed.

Lemma shifted_dividend (a b : BigFloat) :
  invariants a = true -> invariants b = true -> magnitude_zero a = false ->
  positive_integer (fst (shifted a b)) = true.
Proof.
  intros Ha Hb Hz. unfold shifted.
  pose proof (shift_positive_integer a (Decimals a + Decimals b) Ha Hz) as H.
  apply invariants_fields in Hb as (_ & _ & H2 & _). unfold I2 in H2.
  destruct (_ >? 0); cbn [fst]; apply H; lia.
Qed.

(** ** The quotient estimate never divides by zero *)

Lemma digits_fold_positive (l : list Z) :
  forall acc : Z,
    forallb is_digit l = true -> 1 <= acc ->
    1 <= fold_left (fun acc c => 10 * acc + (c - 48)) l acc.
Proof.
  induction l as [|c l IH]; intros acc Hd Hacc; cbn [fold_left]; [exact Hacc|].
  cbn [forallb] in Hd. apply andb_true_iff in Hd as [Hc Hd].
  apply IH; [exact Hd|]. unfold is_digit in Hc. lia.
Qed.

Lemma Atoi_digits (s : list Z) :
  forallb is_digit s = true -> s <> [] -> Atoi s = digits_value s.
Proof.
  intros Hd Hne. destruct s as [|c rest]; [congruence|].
  unfold Atoi. rewrite Hd.
  replace (bytes_eqb (c :: rest) []) with false
    by (symmetry; apply bool_decide_eq_false; discriminate).
  cbn [forallb] in Hd. apply andb_true_iff in Hd as [Hc _]. unfold is_digit in Hc.
  change (ch "-") with 45. change (ch "+") with 43.
  replace (c =? 45) with false by lia. replace (c =? 43) with false by lia.
  reflexivity.
Qed.

Lemma positive_integer_fields (f : BigFloat) :
  positive_integer f = true ->
  stranalyzer.Sign f = 1 /\ Decimals f = 0 /\ Len f = len (Norm f)
  /\ forallb is_digit (Norm f) = true
  /\ exists d rest, Norm f = d :: rest /\ d <> 48.
Proof.
  unfold positive_integer. rewrite !andb_true_iff.
  intros ((((Hs & Hd) & HL) & Hdig) & Hh).
  repeat split; try lia; try assumption.
  destruct (Norm f) as [|d rest]; [discriminate|].
  exists d, rest. split; [reflexivity|]. change (ch "0") with 48 in Hh. lia.
Qed.

Lemma divPart2Int_positive (aCopy bCopy : BigFloat) (ro : divOptionsType) :
  positive_integer bCopy = true ->
  1 <= divPart2Int (divmod_env aCopy bCopy ro).
Proof.
  intros Hp. apply positive_integer_fields in Hp as (_ & _ & HL & Hdig & d & rest & HN & Hd).
  unfold divmod_env. cbn [divPart2Int].
  set (maxLen := if 5 >? Len bCopy then Len bCopy else 5).
  assert (Hm : 1 <= maxLen).
  { unfold maxLen. rewrite HL, HN. unfold len. cbn [length]. destruct (5 >? Z.of_nat (S (length rest))); lia. }
  assert (Hc : exists rest', slice_to (Norm bCopy) maxLen = d :: rest').
  { rewrite HN. unfold slice_to.
    replace (Z.to_nat maxLen) with (S (Z.to_nat (maxLen - 1))) by lia.
    cbn [firstn]. eauto. }
  destruct Hc as (rest' & Hc).
  assert (Hdc : forallb is_digit (slice_to (Norm bCopy) maxLen) = true)
    by (apply forallb_slice; exact Hdig).
  rewrite Atoi_digits; [|exact Hdc|rewrite Hc; discriminate].
  rewrite Hc in *. unfold digits_value. cbn [fold_left].
  cbn [forallb] in Hdc. apply andb_true_iff in Hdc as [Hd1 Hd2].
  apply digits_fold_positive; [exact Hd2|]. unfold is_digit in Hd1. lia.
Qed.

Lemma estimate_total (env : loop_env) (dp : list Z) :
  divPart2Int env <> 0 -> estimate env dp <> None.
Proof.
  intros Hne. unfold estimate. destruct (_ <? _); [discriminate|].
  replace (divPart2Int env =? 0) with false by lia. discriminate.
Qed.

Lemma divmod_step_no_panic (env : loop_env) (st : loop_state) :
  divPart2Int env <> 0 -> divmod_step env st <> StepPanic.
Proof.
  intros Hne. unfold divmod_step. destruct st.
  repeat case_match; simplify_eq; try discriminate;
    match goal with
    | H : estimate _ _ = None |- _ => exfalso; revert H; apply estimate_total; exact Hne
    end.
Qed.

Lemma divmod_loop_no_panic (env : loop_env) (fuel : nat) :
  divPart2Int env <> 0 ->
  forall st : loop_state, divmod_loop fuel env st <> LoopPanic.
Proof.
  intros Hne. induction fuel as [|fuel IH]; intros st; cbn [divmod_loop]; [discriminate|].
  destruct (divmod_step env st) eqn:E; try discriminate; [apply IH|].
  exfalso. revert E. apply divmod_step_no_panic. exact Hne.
Qed.

(** ** The part after the loop always returns *)

Lemma Round_total (f : BigFloat) (n : Z) : 0 <= n -> exists f', Round f n = Some f'.
Proof.
  intros Hn. unfold Round. replace (n <? 0) with false by lia.
  destruct (n <? Decimals f); eauto.
Qed.

Lemma divmod_finish_ok (a b : BigFloat) (t : bool) (ro : divOptionsType) (g : Z)
    (st : loop_state) :
  exists f' r' rep, divmod_finish a b t ro g st = DivOk f' r' rep.
Proof.
  unfold divmod_finish. destruct st as [i dp bDec map repInd dec lastRem rem shared res].
  set (res' := add_bytes res 48).
  set (rep := if repInd >=? 0 then dec - repInd else 0).
  assert (Hpad : exists res2 dec2 rep2,
    (if (g >=? 0) && (g >? dec)
     then let '(repeatStr, repeatDecimals) :=
            if rep >? 0 then (slice_from res' (len res' - rep), 0) else ([ch "0"], rep) in
          match bytes_Repeat repeatStr (Z.quot (g - dec) (len repeatStr) + 1) with
          | Some trailStr => Some (res' ++ slice_to trailStr (g - dec), g, repeatDecimals)
          | None => None
          end
     else Some (res', dec, rep)) = Some (res2, dec2, rep2)).
  { destruct ((g >=? 0) && (g >? dec)) eqn:E; [|eauto].
    apply andb_true_iff in E as [_ E]. rewrite Z.gtb_ltb in E.
    assert (Hrep : forall repeatStr : list Z,
               exists trailStr,
                 bytes_Repeat repeatStr (Z.quot (g - dec) (len repeatStr) + 1)
                 = Some trailStr).
    { intros repeatStr. unfold bytes_Repeat.
      assert (0 <= Z.quot (g - dec) (len repeatStr)).
      { pose proof (len_nonneg repeatStr).
        destruct (Z.eq_dec (len repeatStr) 0) as [-> | Hne].
        - replace (Z.quot (g - dec) 0) with 0 by (destruct (g - dec); reflexivity). lia.
        - apply Z.quot_pos; lia. }
      replace (_ <? 0) with false by lia. eauto. }
    destruct (rep >? 0).
    - cbv beta iota. destruct (Hrep (slice_from res' (len res' - rep))) as (t' & ->). eauto.
    - cbv beta iota. destruct (Hrep [ch "0"]) as (t' & ->). eauto. }
  destruct Hpad as (res2 & dec2 & rep2 & ->).
  cbv zeta. cbn [Decimals].
  destruct ((decimalPlaces ro >=? 0) && (decimalPlaces ro <? dec2)) eqn:E; [|eauto].
  apply andb_true_iff in E as [E _]. zbool.
  destruct t.
  - unfold Trunc. cbn [Z.ltb Z.compare]. eauto.
  - destruct (Round_total (mkAnalysis res2 (stranalyzer.Sign a * stranalyzer.Sign b) dec2 (len res2))
                (decimalPlaces ro)) as (f' & ->); [lia|]. eauto.
Qed.

(** C9: the long-division loop leaves through one of its exits after
    at most [loop_bound] iterations, whatever the operands and options:
    each iteration that continues moves to the next position, and in
    fractional territory it continues only while the count of fractional
    digits is below [maxDecimalPlaces]. Hence [divmod], and with it
    [Div] and [DivMod], returns a result on every divisor that is not
    zero. *)
Theorem divmod_terminates (f a b remainder : BigFloat) (bTrunc : bool)
    (options : list DivOption) :
  invariants a = true -> invariants b = true -> magnitude_zero b = false ->
  (forall (env : loop_env) (st : loop_state) (k : nat),
     exists r : loop_result,
       r <> OutOfFuel /\ divmod_loop (loop_bound env st + k) env st = r)
  /\ (forall (env : loop_env) (st st' : loop_state),
        divmod_step env st = Continue st' ->
        ls_i st' = ls_i st + 1
        /\ (bDecimals st' = true -> decimals st' < ro_max env))
  /\ (exists f' r' rep, divmod f a b remainder bTrunc options = DivOk f' r' rep)
  /\ (exists f' r' rep, Div f a b options = DivOk f' r' rep)
  /\ (exists f' r' rep, DivMod f a b = DivOk f' r' rep).
Proof.
  intros Ha Hb Hz.
  assert (Hloop : forall env st k, exists r : loop_result,
             r <> OutOfFuel /\ divmod_loop (loop_bound env st + k) env st = r).
  { intros env st k. eexists. split; [|reflexivity].
    apply divmod_loop_exits. lia. }
  assert (Hdiv : forall f rem t opts,
             exists f' r' rep, divmod f a b rem t opts = DivOk f' r' rep).
  { clear f remainder bTrunc options. intros f rem t opts. unfold divmod.
    destruct (IsInt64 a 0); [eauto|].
    destruct (IsInt64 b 0) eqn:Eb.
    { exfalso. apply invariants_fields in Hb as (_ & _ & H2 & _). unfold I2 in H2.
      assert (0 <= Decimals b) by lia.
      apply IsInt64_0_spec in Eb as (_ & _ & HN); [|assumption].
      unfold magnitude_zero in Hz.
      assert (all_zero (Norm b) = true); [|congruence].
      apply all_zero_repeat. rewrite HN at 1. rewrite HN, repeat_length. reflexivity. }
    pose proof (shifted_divisor a b Ha Hb Hz) as Hp.
    destruct (shifted a b) as [aCopy bCopy]. cbn [snd] in Hp.
    destruct (IsInt64 bCopy 1); [eauto|].
    pose proof (divPart2Int_positive aCopy bCopy
                  (fold_left (fun ro option => option ro) opts default_divOptions) Hp) as Hd.
    destruct (divmod_loop _ _ _) eqn:E.
    - apply divmod_finish_ok.
    - exfalso. revert E. apply divmod_loop_no_panic. lia.
    - exfalso. revert E. apply divmod_loop_exits. lia. }
  split; [exact Hloop|]. split; [exact divmod_step_cap|].
  split; [apply Hdiv|]. split; apply Hdiv.
Qed.

Lemma divmod_terminates_witness :
  (forall (env : loop_env) (st : loop_state) (k : nat),
     exists r : loop_result,
       r <> OutOfFuel /\ divmod_loop (loop_bound env st + k) env st = r)
  /\ (forall (env : loop_env) (st st' : loop_state),
        divmod_step env st = Continue st' ->
        ls_i st' = ls_i st + 1
        /\ (bDecimals st' = true -> decimals st' < ro_max env))
  /\ (exists f' r' rep,
        divmod New (parse "1") (parse "7") empty false [WithDivMaxDecimalPlaces 3]
        = DivOk f' r' rep)
  /\ (exists f' r' rep,
        Div New (parse "1") (parse "7") [WithDivMaxDecimalPlaces 3] = DivOk f' r' rep)
  /\ (exists f' r' rep, DivMod New (parse "1") (parse "7") = DivOk f' r' rep).
Proof.
  apply (divmod_terminates New (parse "1") (parse "7") empty false
           [WithDivMaxDecimalPlaces 3]); vm_compute; reflexivity.
Defined.

(** ** The counters of the division loop *)

Lemma divmod_init_counters (aCopy bCopy remainder : BigFloat) (ro : divOptionsType) :
  counters_invariant (divmod_env aCopy bCopy ro) (divmod_init aCopy bCopy remainder).
Proof.
  unfold counters_invariant, divmod_init. cbn [decimals remIndxMap repDecimalsInd result].
  split; [lia|]. split; [lia|]. split; [apply map_Forall_empty|].
  split; [reflexivity|]. left; reflexivity.
Qed.

Lemma remembered_indices_insert (map : gmap (list Z) Z) (dp : list Z) (dec : Z) :
  0 <= dec ->
  map_Forall (fun _ ind => 0 <= ind < dec) map ->
  map_Forall (fun _ ind => 0 <= ind < dec + 1) (<[dp := dec]> map).
Proof.
  intros Hd H. apply map_Forall_insert_2; [lia|].
  eapply map_Forall_impl; [exact H|]. cbv beta. intros; lia.
Qed.

Lemma divmod_step_counters (env : loop_env) (st st' : loop_state) :
  counters_invariant env st -> divmod_step env st = Continue st' ->
  counters_invariant env st'.
Proof.
  unfold counters_invariant, divmod_step. destruct st.
  cbn [decimals remIndxMap repDecimalsInd result].
  intros (H0 & Hg & Hm & Hr & Hl) H.
  repeat case_match; simplify_eq; cbn [decimals remIndxMap repDecimalsInd result];
    rewrite ?len_app; unfold len in *; cbn [length] in *;
    (split; [lia|]); (split; [intros; zbool; lia|]);
    (split; [first [exact Hm | apply remembered_indices_insert; assumption]|]);
    (split; [reflexivity|]); zbool; lia.
Qed.

Lemma divmod_step_exit (env : loop_env) (st st' : loop_state) :
  counters_invariant env st -> divmod_step env st = Break st' ->
  counters_at_exit env st'.
Proof.
  unfold counters_invariant, counters_at_exit, divmod_step.
  destruct st as [i dp bDec map repInd dec lastRem rem shared res].
  cbn [decimals remIndxMap repDecimalsInd result].
  intros (H0 & Hg & Hm & Hr & Hl) H.
  repeat case_match; simplify_eq; cbn [decimals remIndxMap repDecimalsInd result];
    rewrite ?len_app; unfold len in *; cbn [length] in *;
    (split; [lia|]); (split; [intros; zbool; lia|]);
    (split; [|zbool; lia]);
    try (left; reflexivity);
    right;
    match goal with
    | Hl : map !! _ = Some _ |- _ => apply Hm in Hl; cbv beta in Hl
    end; zbool; lia.
Qed.

Lemma divmod_loop_exit (env : loop_env) (fuel : nat) :
  forall st st' : loop_state,
    counters_invariant env st -> divmod_loop fuel env st = Exited st' ->
    counters_at_exit env st'.
Proof.
  induction fuel as [|fuel IH]; intros st st' Hinv; cbn [divmod_loop]; [discriminate|].
  destruct (divmod_step env st) as [st1|st1|] eqn:E; try discriminate.
  - apply IH. eapply divmod_step_counters; eassumption.
  - intros H. injection H as <-. eapply divmod_step_exit; eassumption.
Qed.

(** ** The repetend length handed out by [Div] *)

Lemma slice_from_app_r {A : Type} (l1 l2 : list A) (k : Z) :
  0 <= k -> slice_from (l1 ++ l2) (len l1 + k) = slice_from l2 k.
Proof.
  intros Hk. unfold slice_from, len.
  replace (Z.to_nat (Z.of_nat (length l1) + k)) with (length l1 + Z.to_nat k)%nat by lia.
  rewrite skipn_app, Nat.add_comm, Nat.add_sub.
  rewrite (skipn_all2 l1) by lia. reflexivity.
Qed.

Lemma slice_from_slice_from {A : Type} (l : list A) (n k : Z) :
  0 <= n -> 0 <= k -> slice_from (slice_from l n) k = slice_from l (n + k).
Proof.
  intros Hn Hk. unfold slice_from. rewrite skipn_skipn. f_equal. lia.
Qed.

Lemma len_cons {A : Type} (x : A) (l : list A) : len (x :: l) = 1 + len l.
Proof. unfold len. cbn [length]. lia. Qed.

(** The cut of [StringF] at the last [rep] bytes of the rendering takes
    fractional digits only. *)
Lemma StringWith_cut (f : BigFloat) (options : list StringOption) (rep : Z) :
  Len f = len (Norm f) -> 0 < rep <= Decimals f -> Decimals f < Len f ->
  slice_from (StringWith_bytes f options) (len (StringWith_bytes f options) - rep)
  = slice_from (Norm f) (Len f - rep).
Proof.
  intros HL Hrep Hd. unfold StringWith_bytes.
  set (sign := if stranalyzer.Sign f =? -1 then _ else _).
  replace (Decimals f >? 0) with true by (zbool; lia).
  set (ip := slice_to (Norm f) (Len f - Decimals f)).
  set (fp := slice_from (Norm f) (Len f - Decimals f)).
  assert (Hfp : len fp = Decimals f).
  { unfold fp. rewrite slice_from_length; lia. }
  rewrite app_assoc.
  change (ch "." :: fp) with ([ch "."] ++ fp). rewrite app_assoc.
  rewrite (len_app _ fp).
  replace (len ((sign ++ ip) ++ [ch "."]) + len fp - rep)
    with (len ((sign ++ ip) ++ [ch "."]) + (Decimals f - rep)) by lia.
  rewrite slice_from_app_r by lia.
  unfold fp. rewrite slice_from_slice_from by lia. f_equal. lia.
Qed.

Lemma len_add_bytes (l : list Z) (v : Z) : len (add_bytes l v) = len l.
Proof. unfold len, add_bytes. rewrite length_map. reflexivity. Qed.

Lemma divmod_finish_repetend (a b f' r' : BigFloat) (ro : divOptionsType) (env : loop_env)
    (st : loop_state) (rep : Z) :
  decimalsGoal env
  = (if decimalPlaces ro >=? 0 then decimalPlaces ro + 1 else decimalPlaces ro) ->
  counters_at_exit env st ->
  divmod_finish a b false ro (decimalsGoal env) st = DivOk f' r' rep ->
  0 <= rep <= Decimals f'
  /\ (0 <= decimalPlaces ro -> rep = 0)
  /\ (0 < rep -> Len f' = len (Norm f') /\ Decimals f' < Len f').
Proof.
  intros Hg. unfold counters_at_exit, divmod_finish.
  destruct st as [i dp bDec map repInd dec lastRem rem shared res].
  cbn [decimals repDecimalsInd result]. rewrite Hg. clear Hg.
  intros (H0 & Hgoal & Hrep & Hlen) H.
  rewrite <- (len_add_bytes res 48) in Hlen.
  set (res' := add_bytes res 48) in *. clearbody res'.
  repeat case_match; simplify_eq; cbn [Decimals Len Norm];
    rewrite ?SetDecimals_Decimals; zbool.
  all: (split; [lia|]); (split; [lia|]); intros; split; first [reflexivity | lia].
Qed.

Lemma shifted_dividend_Decimals (a b : BigFloat) :
  0 <= Decimals a -> 0 <= Decimals (fst (shifted a b)).
Proof.
  intros Ha. unfold shifted, Abs, Copy, Mul10.
  repeat case_match; cbn [fst Decimals]; rewrite ?Sign_Decimals in *; zbool; lia.
Qed.

(** C10: the repetend length [rep] that a successful [Div] returns
    lies between 0 and the decimals of the result; it is 0 whenever a
    fixed [decimalPlaces >= 0] was requested; and when it is positive
    the last [rep] bytes of the rendering, where [StringF] cuts, are
    the last [rep] digits of the result, all of them fractional. *)
Theorem Div_repetend_length (f a b f' r' : BigFloat) (options : list DivOption) (rep : Z) :
  invariants a = true -> invariants b = true ->
  Div f a b options = DivOk f' r' rep ->
  0 <= rep <= Decimals f'
  /\ (0 <= decimalPlaces (fold_left (fun ro option => option ro) options default_divOptions)
      -> rep = 0)
  /\ (0 < rep ->
      forall sopts : list StringOption,
        slice_from (StringWith_bytes f' sopts) (len (StringWith_bytes f' sopts) - rep)
        = slice_from (Norm f') (Len f' - rep)
        /\ Len f' - Decimals f' <= Len f' - rep < Len f').
Proof.
  intros Ha Hb. unfold Div, divmod.
  set (ro := fold_left (fun ro option => option ro) options default_divOptions).
  apply invariants_fields in Ha as (_ & _ & Ha & _). unfold I2 in Ha.
  assert (Hda : 0 <= Decimals a) by lia. clear Ha.
  destruct (IsInt64 a 0).
  { rewrite SetInt64_0. intros H. injection H as <- <- <-.
    destruct (decimalPlaces ro >=? 0) eqn:E; rewrite ?SetDecimals_Decimals;
      cbn [Decimals New]; zbool; repeat split; lia. }
  destruct (IsInt64 b 0); [discriminate|].
  pose proof (shifted_dividend_Decimals a b Hda) as Hsd.
  destruct (shifted a b) as [aCopy bCopy]. cbn [fst] in Hsd.
  destruct (IsInt64 bCopy 1).
  { intros H. injection H as <- <- <-.
    destruct (decimalPlaces ro >=? 0) eqn:E;
      rewrite ?SetDecimals_Decimals, ?Sign_Decimals; zbool; repeat split; lia. }
  destruct (divmod_loop _ _ _) as [st| |] eqn:E; try discriminate.
  intros H.
  apply divmod_loop_exit in E; [|apply divmod_init_counters].
  eapply divmod_finish_repetend in H; [|reflexivity|exact E].
  destruct H as (H1 & H2 & H3).
  split; [exact H1|]. split; [exact H2|].
  intros Hrep sopts. destruct (H3 Hrep) as [HL Hd].
  split; [|lia]. apply StringWith_cut; lia.
Qed.

Lemma Div_repetend_length_witness :
  0 <= 6 <= Decimals (mkAnalysis (runes "142857142") (-1) 6 9)
  /\ (0 <= decimalPlaces (fold_left (fun ro option => option ro) [] default_divOptions)
      -> 6 = 0)
  /\ (0 < 6 ->
      forall sopts : list StringOption,
        slice_from (StringWith_bytes (mkAnalysis (runes "142857142") (-1) 6 9) sopts)
          (len (StringWith_bytes (mkAnalysis (runes "142857142") (-1) 6 9) sopts) - 6)
        = slice_from (Norm (mkAnalysis (runes "142857142") (-1) 6 9))
            (Len (mkAnalysis (runes "142857142") (-1) 6 9) - 6)
        /\ Len (mkAnalysis (runes "142857142") (-1) 6 9)
           - Decimals (mkAnalysis (runes "142857142") (-1) 6 9)
           <= Len (mkAnalysis (runes "142857142") (-1) 6 9) - 6
           < Len (mkAnalysis (runes "142857142") (-1) 6 9)).
Proof.
  apply (Div_repetend_length New (parse "100") (parse "-0.7")
           (mkAnalysis (runes "142857142") (-1) 6 9)
           (mkAnalysis (runes "6") 1 0 1) [] 6);
    vm_compute; reflexivity.
Defined.

(** ** Parsing what the formatter prints *)

Lemma ch_byte_to_ascii (b : Z) : 0 <= b < 256 -> ch (byte_to_ascii b) = b.
Proof.
  intros Hb. unfold ch, byte_to_ascii. rewrite N_ascii_embedding; lia.
Qed.

Lemma runes_string_of_bytes (l : list Z) :
  Forall (fun b => 0 <= b < 256) l -> runes (string_of_bytes l) = l.
Proof.
  intros H. unfold runes, string_of_bytes.
  rewrite list_ascii_of_string_of_list_ascii.
  induction H as [|b l Hb _ IH]; cbn [map]; [reflexivity|].
  rewrite ch_byte_to_ascii, IH by exact Hb. reflexivity.
Qed.

Lemma scan_rune_digit (i c : Z) (sf : bool) (sg : Z) (dpf : bool) (es : Z)
    (esf df nz : bool) (nb eb : list Z) (al ad : Z) :
  is_digit c = true ->
  scan_rune i c (mkScanner sf sg dpf false es esf df nz nb eb al ad)
  = inl (if dpf || negb (c =? 48) || (df && nz)
         then mkScanner sf sg dpf false es esf true (nz || negb (c =? 48))
                (nb ++ [c]) eb (al + 1) (if dpf then ad + 1 else ad)
         else mkScanner sf sg dpf false es esf true nz nb eb al ad).
Proof.
  intros Hc. unfold scan_rune, IsDigit. rewrite Hc. unfold is_digit in Hc.
  assert (Hv : visible c = true) by (unfold visible; lia).
  rewrite Hv. cbn [negb].
  change (ch "+") with 43. change (ch "-") with 45. change (ch ".") with 46.
  change (ch "E") with 69. change (ch "e") with 101. change (ch "0") with 48.
  replace (c =? 43) with false by lia. replace (c =? 45) with false by lia.
  replace (c =? 46) with false by lia. replace (c =? 69) with false by lia.
  replace (c =? 101) with false by lia. cbn [orb negb].
  unfold to_byte. rewrite Z.mod_small by lia.
  destruct (c =? 48), nz, dpf, df; reflexivity.
Qed.

(** A run of digits scanned in a state that keeps every digit: after
    the decimal point, or after a non-zero digit. *)
Lemma scan_digits_kept (ds rest : list Z) :
  forallb is_digit ds = true ->
  forall (i : Z) (sf : bool) (sg : Z) (dpf : bool) (es : Z) (esf nz : bool)
         (nb eb : list Z) (al ad : Z),
    dpf || nz = true ->
    scan (ds ++ rest) i (mkScanner sf sg dpf false es esf true nz nb eb al ad)
    = scan rest (i + len ds)
        (mkScanner sf sg dpf false es esf true (nz || negb (all_zero ds))
           (nb ++ ds) eb (al + len ds) (if dpf then ad + len ds else ad)).
Proof.
  induction ds as [|c ds IH]; intros Hd i sf sg dpf es esf nz nb eb al ad Hk.
  - cbn [app all_zero forallb negb]. unfold len. cbn [length].
    rewrite orb_false_r, app_nil_r, !Z.add_0_r. destruct dpf; reflexivity.
  - cbn [forallb] in Hd. apply andb_true_iff in Hd as [Hc Hd].
    cbn [app scan]. rewrite scan_rune_digit by exact Hc.
    replace (dpf || negb (c =? 48) || (true && nz)) with true
      by (destruct dpf, nz, (c =? 48); try reflexivity; discriminate).
    rewrite IH; [|exact Hd|destruct dpf, nz; try reflexivity; discriminate].
    rewrite len_cons. unfold all_zero. cbn [forallb]. change (ch "0") with 48.
    f_equal; [lia|]. f_equal.
    + rewrite negb_andb, orb_assoc. reflexivity.
    + rewrite <- app_assoc. reflexivity.
    + lia.
    + destruct dpf; lia.
Qed.

Lemma scan_rune_point (i : Z) (sf : bool) (sg es : Z) (esf df nz : bool)
    (nb eb : list Z) (al ad : Z) :
  scan_rune i 46 (mkScanner sf sg false false es esf df nz nb eb al ad)
  = inl (if nz
         then mkScanner sf sg true false es esf df nz nb eb al ad
         else mkScanner sf sg true false es esf df nz (nb ++ [48]) eb (al + 1) ad).
Proof. destruct nz; reflexivity. Qed.

Lemma all_zero_app (l1 l2 : list Z) : all_zero (l1 ++ l2) = all_zero l1 && all_zero l2.
Proof. apply forallb_app. Qed.

(** The integer portion allowed by I4 is ["0"] as soon as it is zero. *)
Lemma integer_portion_zero (ip : list Z) :
  match ip with c :: _ :: _ => negb (c =? ch "0") | _ => true end = true ->
  ip <> [] -> all_zero ip = true -> ip = [48].
Proof.
  intros H4 Hne Hz. destruct ip as [|c [|c' ip]]; [congruence| |].
  - cbn [all_zero forallb] in Hz. change (ch "0") with 48 in Hz.
    rewrite andb_true_r in Hz. f_equal. lia.
  - cbn [all_zero forallb] in Hz. apply andb_true_iff in Hz as [Hc _].
    rewrite Hc in H4. discriminate.
Qed.

(** The integer digits, scanned right after the optional sign. *)
Lemma scan_integer_portion (ip rest : list Z) (i : Z) (sf : bool) (sg : Z) :
  forallb is_digit ip = true ->
  match ip with c :: _ :: _ => negb (c =? ch "0") | _ => true end = true ->
  ip <> [] ->
  scan (ip ++ rest) i (mkScanner sf sg false false 1 false false false [] [] 0 0)
  = scan rest (i + len ip)
      (mkScanner sf sg false false 1 false true (negb (all_zero ip))
         (if all_zero ip then [] else ip) [] (if all_zero ip then 0 else len ip) 0).
Proof.
  intros Hd H4 Hne. destruct (all_zero ip) eqn:Hz.
  - rewrite (integer_portion_zero ip H4 Hne Hz). cbn [app scan].
    rewrite scan_rune_digit by reflexivity. reflexivity.
  - destruct ip as [|c ip]; [congruence|].
    assert (Hc : (c =? 48) = false).
    { destruct ip as [|c' ip].
      - cbn [all_zero forallb] in Hz. change (ch "0") with 48 in Hz.
        rewrite andb_true_r in Hz. exact Hz.
      - change (ch "0") with 48 in H4. destruct (c =? 48); [discriminate|reflexivity]. }
    cbn [forallb] in Hd. apply andb_true_iff in Hd as [Hdc Hd].
    cbn [app scan]. rewrite scan_rune_digit by exact Hdc. rewrite Hc.
    cbn [orb negb andb]. rewrite scan_digits_kept by (exact Hd || reflexivity).
    cbn [orb app]. rewrite len_cons.
    replace (i + 1 + len ip) with (i + (1 + len ip)) by lia.
    replace (0 + 1 + len ip) with (1 + len ip) by lia. reflexivity.
Qed.

Lemma scan_sign_minus (rest : list Z) :
  scan (45 :: rest) 0 scanner0
  = scan rest 1 (mkScanner true (-1) false false 1 false false false [] [] 0 0).
Proof. reflexivity. Qed.

Lemma scan_sign_plus (rest : list Z) :
  scan (43 :: rest) 0 scanner0
  = scan rest 1 (mkScanner true 1 false false 1 false false false [] [] 0 0).
Proof. reflexivity. Qed.

Lemma digits_are_bytes (l : list Z) :
  forallb is_digit l = true -> Forall (fun b => 0 <= b < 256) l.
Proof.
  intros H. apply Forall_forall. intros x Hx. rewrite forallb_forall in H.
  specialize (H x). unfold is_digit in H.
  assert (In x l) by (apply list_elem_of_In; exact Hx). specialize (H H0). lia.
Qed.

(** The scan of a rendering: an optional sign that leaves the state
    [(sf, sg)], the integer digits, and the fractional digits behind a
    point when there are any. *)
Lemma scan_rendering (ip fp : list Z) (i : Z) (sf : bool) (sg : Z) :
  forallb is_digit ip = true -> forallb is_digit fp = true ->
  match ip with c :: _ :: _ => negb (c =? ch "0") | _ => true end = true ->
  ip <> [] ->
  exists (nb : list Z) (al : Z),
    scan (ip ++ (if len fp >? 0 then ch "." :: fp else [])) i
      (mkScanner sf sg false false 1 false false false [] [] 0 0)
    = inl (mkScanner sf sg (len fp >? 0) false 1 false true
             (negb (all_zero (ip ++ fp))) nb [] al (len fp))
    /\ (if al =? 0 then (nb ++ [ch "0"], al + 1) else (nb, al))
       = (ip ++ fp, len ip + len fp).
Proof.
  intros Hdi Hdf H4 Hne. rewrite scan_integer_portion by assumption.
  assert (Hlen : 1 <= len ip).
  { destruct ip; [congruence|]. rewrite len_cons. pose proof (len_nonneg ip). lia. }
  destruct (len fp >? 0) eqn:Hfp.
  - change (ch ".") with 46. cbn [scan]. rewrite scan_rune_point.
    assert (E : (if negb (all_zero ip)
                 then mkScanner sf sg true false 1 false true (negb (all_zero ip))
                        (if all_zero ip then [] else ip) []
                        (if all_zero ip then 0 else len ip) 0
                 else mkScanner sf sg true false 1 false true (negb (all_zero ip))
                        ((if all_zero ip then [] else ip) ++ [48]) []
                        ((if all_zero ip then 0 else len ip) + 1) 0)
                = mkScanner sf sg true false 1 false true (negb (all_zero ip))
                    ip [] (len ip) 0).
    { destruct (all_zero ip) eqn:Hz; cbn [negb]; [|reflexivity].
      rewrite (integer_portion_zero ip H4 Hne Hz). reflexivity. }
    rewrite E.
    pose proof (scan_digits_kept fp [] Hdf (i + len ip + 1) sf sg true 1 false
                  (negb (all_zero ip)) ip [] (len ip) 0 eq_refl) as Hs.
    rewrite app_nil_r in Hs. rewrite Hs. clear Hs.
    cbn [scan]. rewrite all_zero_app, negb_andb.
    exists (ip ++ fp), (len ip + len fp).
    split; [do 2 f_equal; lia|].
    pose proof (len_nonneg fp). replace (len ip + len fp =? 0) with false by lia.
    reflexivity.
  - assert (fp = []).
    { destruct fp; [reflexivity|]. rewrite len_cons in Hfp.
      pose proof (len_nonneg fp). zbool. lia. }
    subst fp. cbn [scan]. rewrite app_nil_r.
    eexists _, _. split; [reflexivity|].
    change (len (@nil Z)) with 0. rewrite Z.add_0_r.
    destruct (all_zero ip) eqn:Hz.
    + rewrite (integer_portion_zero ip H4 Hne Hz). reflexivity.
    + replace (len ip =? 0) with false by lia. reflexivity.
Qed.

Lemma finish_rendering (sf : bool) (sg : Z) (dpf nz : bool) (nb : list Z) (al ad : Z)
    (norm : list Z) (n : Z) :
  (if al =? 0 then (nb ++ [ch "0"], al + 1) else (nb, al)) = (norm, n) ->
  finish (mkScanner sf sg dpf false 1 false true nz nb [] al ad)
  = Parsed (mkAnalysis norm (if negb nz && negb (sg =? 1) then 1 else sg) ad n).
Proof.
  intros H. unfold finish. cbn [andb negb]. rewrite H. reflexivity.
Qed.

(** C8 (amended): a value that satisfies the invariants and has a
    non-empty integer portion is read back unchanged from its rendering,
    whatever the sign option; the rendering is an optional sign, the
    integer digits and, when [decimals > 0], a point followed by exactly
    [decimals] digits. *)
Theorem parse_format_roundtrip (x : BigFloat) (options : list StringOption) :
  invariants x = true -> has_integer_digit x = true ->
  Analyze (StringWith x options) = Parsed x
  /\ exists sgn ip fp : list Z,
       StringWith_bytes x options
       = sgn ++ ip ++ (if Decimals x >? 0 then ch "." :: fp else [])
       /\ (sgn = [] \/ sgn = [ch "-"] \/ sgn = [ch "+"])
       /\ forallb is_digit ip = true /\ forallb is_digit fp = true
       /\ len fp = Decimals x.
Proof.
  intros Hinv Hint. apply invariants_fields in Hinv as (Hd & H1 & H2 & H3 & H4).
  unfold digits_ok, I1, I2, I3, I4, has_integer_digit in *.
  apply andb_true_iff in H1 as [H1 H1']. apply andb_true_iff in H2 as [H2 H2'].
  apply andb_true_iff in H3 as [H3 H3'].
  set (ip := slice_to (Norm x) (Len x - Decimals x)) in *.
  set (fp := slice_from (Norm x) (Len x - Decimals x)).
  assert (HN : Norm x = ip ++ fp) by (symmetry; apply firstn_skipn).
  assert (Hfp : len fp = Decimals x) by (unfold fp; rewrite slice_from_length; lia).
  assert (Hip : len ip = Len x - Decimals x).
  { unfold ip, len. rewrite slice_to_length; unfold len in *; lia. }
  assert (Hne : ip <> []).
  { intros E. rewrite E in Hip. change (len (@nil Z)) with 0 in Hip. lia. }
  destruct (forallb_slice is_digit (Norm x) (Len x - Decimals x) Hd) as [Hdi Hdf].
  fold ip in Hdi. fold fp in Hdf.
  assert (Hbytes : exists sgn sf sg,
    StringWith_bytes x options
    = sgn ++ ip ++ (if len fp >? 0 then ch "." :: fp else [])
    /\ (sgn = [] \/ sgn = [ch "-"] \/ sgn = [ch "+"])
    /\ sg = stranalyzer.Sign x
    /\ forall rest, scan (sgn ++ rest) 0 scanner0
         = scan rest (len sgn)
             (mkScanner sf sg false false 1 false false false [] [] 0 0)).
  { unfold StringWith_bytes. fold ip. fold fp. rewrite Hfp.
    destruct (stranalyzer.Sign x =? -1) eqn:Es.
    - exists [ch "-"], true, (-1). (split; [reflexivity|]); (split; [tauto|]); (split; [lia|]).
      intros rest. apply scan_sign_minus.
    - destruct (_ && _).
      + exists [ch "+"], true, 1. (split; [reflexivity|]); (split; [tauto|]); (split; [lia|]).
        intros rest. apply scan_sign_plus.
      + exists [], false, 1. (split; [reflexivity|]); (split; [tauto|]); (split; [lia|]). reflexivity. }
  destruct Hbytes as (sgn & sf & sg & Hb & Hsgn & Hsg & Hscan).
  split.
  - unfold Analyze, StringWith. rewrite runes_string_of_bytes.
    2:{ rewrite Hb. rewrite !Forall_app. split; [|split].
        - destruct Hsgn as [-> | [-> | ->]]; repeat (constructor; [vm_compute; split; [discriminate|reflexivity]|]); constructor.
        - apply digits_are_bytes. exact Hdi.
        - destruct (_ >? _); [|constructor].
          constructor; [vm_compute; split; [discriminate|reflexivity]|]. apply digits_are_bytes. exact Hdf. }
    rewrite Hb, Hscan.
    destruct (scan_rendering ip fp (len sgn) sf sg Hdi Hdf H4 Hne) as (nb & al & -> & Hfin).
    rewrite (finish_rendering _ _ _ _ _ _ _ _ _ Hfin). f_equal.
    rewrite <- HN, Hfp. replace (len ip + Decimals x) with (Len x) by lia.
    fold (all_zero (Norm x)) in H3'. 
    assert (Es : (if negb (negb (all_zero (Norm x))) && negb (sg =? 1) then 1 else sg)
                 = stranalyzer.Sign x).
    { destruct (all_zero (Norm x)); cbn [negb andb implb] in *; [|exact Hsg].
      destruct (sg =? 1) eqn:E1; cbn [negb]; lia. }
    rewrite Es. destruct x; reflexivity.
  - exists sgn, ip, fp. rewrite <- Hfp at 1. auto.
Qed.

Lemma parse_format_roundtrip_witness :
  Analyze (StringWith (parse "-800.0100") [ForceSign false]) = Parsed (parse "-800.0100")
  /\ exists sgn ip fp : list Z,
       StringWith_bytes (parse "-800.0100") [ForceSign false]
       = sgn ++ ip ++ (if Decimals (parse "-800.0100") >? 0 then ch "." :: fp else [])
       /\ (sgn = [] \/ sgn = [ch "-"] \/ sgn = [ch "+"])
       /\ forallb is_digit ip = true /\ forallb is_digit fp = true
       /\ len fp = Decimals (parse "-800.0100").
Proof.
  apply (parse_format_roundtrip (parse "-800.0100") [ForceSign false]);
    vm_compute; reflexivity.
Defined.

(** C8 as stated fails on a value whose integer portion is empty, which
    I1-I5 allow: .5 is printed without an integer digit and read back
    with the digits 05. *)
Lemma empty_integer_portion_not_read_back :
  invariants (mkAnalysis [ch "5"] 1 1 1) = true
  /\ String (mkAnalysis [ch "5"] 1 1 1) = ".5"%string
  /\ Analyze (String (mkAnalysis [ch "5"] 1 1 1)) = Parsed (mkAnalysis (runes "05") 1 1 2)
  /\ Analyze (String (mkAnalysis [ch "5"] 1 1 1)) <> Parsed (mkAnalysis [ch "5"] 1 1 1).
Proof.
  split; [vm_compute; reflexivity|]. split; [vm_compute; reflexivity|].
  split; [vm_compute; reflexivity|]. vm_compute. discriminate.
Qed.

(** ** Values of digit lists *)

Lemma be_fold (l : list Z) (acc : Z) :
  fold_left (fun acc d => 10 * acc + d) l acc = acc * 10 ^ len l + be l.
Proof.
  unfold be. revert acc. induction l as [|d l IH]; intros acc.
  - cbn. change (len (@nil Z)) with 0. lia.
  - cbn [fold_left]. rewrite IH, (IH (10 * 0 + d)), len_cons.
    pose proof (len_nonneg l). rewrite Z.pow_add_r, Z.pow_1_r by lia. lia.
Qed.

Lemma be_nil : be [] = 0.
Proof. reflexivity. Qed.

Lemma be_cons (d : Z) (l : list Z) : be (d :: l) = d * 10 ^ len l + be l.
Proof. unfold be at 1. cbn [fold_left]. rewrite be_fold. lia. Qed.

Lemma be_app (l1 l2 : list Z) : be (l1 ++ l2) = be l1 * 10 ^ len l2 + be l2.
Proof.
  unfold be at 1. rewrite fold_left_app. fold (be l1). apply be_fold.
Qed.

Lemma be_snoc (l : list Z) (d : Z) : be (l ++ [d]) = 10 * be l + d.
Proof. rewrite be_app. change (len [d]) with 1. unfold be at 2. cbn. lia. Qed.

Lemma small_app (l1 l2 : list Z) : small (l1 ++ l2) <-> small l1 /\ small l2.
Proof. apply Forall_app. Qed.

Lemma be_bounds (l : list Z) : small l -> 0 <= be l < 10 ^ len l.
Proof.
  induction 1 as [|d l Hd _ IH].
  - rewrite be_nil. change (len (@nil Z)) with 0. lia.
  - rewrite be_cons, len_cons. pose proof (len_nonneg l).
    rewrite Z.pow_add_r, Z.pow_1_r by lia. nia.
Qed.

Lemma be_repeat_0 (n : nat) : be (repeat 0 n) = 0.
Proof.
  induction n as [|n IH]; [reflexivity|]. cbn [repeat]. rewrite be_cons, IH. lia.
Qed.

Lemma digits_value_raw (l : list Z) : digits_value l = be (raw l).
Proof.
  unfold digits_value, be, raw. generalize 0.
  induction l as [|c l IH]; intros acc; [reflexivity|]. cbn [fold_left map]. apply IH.
Qed.

Lemma small_raw (l : list Z) : forallb is_digit l = true -> small (raw l).
Proof.
  unfold small, raw. induction l as [|c l IH]; cbn [forallb map]; intros H.
  - constructor.
  - apply andb_true_iff in H as [Hc H]. constructor; [unfold is_digit in Hc; lia|auto].
Qed.

Lemma len_raw (l : list Z) : len (raw l) = len l.
Proof. unfold len, raw. rewrite length_map. reflexivity. Qed.

Lemma digits_value_bounds (l : list Z) :
  forallb is_digit l = true -> 0 <= digits_value l < 10 ^ len l.
Proof.
  intros H. rewrite digits_value_raw, <- len_raw. apply be_bounds, small_raw, H.
Qed.

Lemma digits_value_snoc (l : list Z) (c : Z) :
  digits_value (l ++ [c]) = 10 * digits_value l + (c - 48).
Proof. rewrite !digits_value_raw. unfold raw. rewrite map_app. apply be_snoc. Qed.

Lemma digits_value_app (l1 l2 : list Z) :
  digits_value (l1 ++ l2) = digits_value l1 * 10 ^ len l2 + digits_value l2.
Proof.
  rewrite !digits_value_raw. unfold raw. rewrite map_app, be_app.
  fold (raw l2). rewrite len_raw. reflexivity.
Qed.

(** A buffer that starts with a non-zero digit is at least the power
    of ten of its length. *)
Lemma digits_value_lower (d : Z) (l : list Z) :
  forallb is_digit (d :: l) = true -> d <> 48 ->
  10 ^ len l <= digits_value (d :: l).
Proof.
  intros H Hd. cbn [forallb] in H. apply andb_true_iff in H as [Hc H].
  rewrite digits_value_raw. unfold raw. cbn [map]. rewrite be_cons.
  fold (raw l). rewrite len_raw.
  pose proof (be_bounds (raw l) (small_raw l H)). unfold is_digit in Hc.
  pose proof (len_nonneg l). assert (0 < 10 ^ len l) by (apply Z.pow_pos_nonneg; lia).
  nia.
Qed.

(** The leading digits of a buffer are its value without the digits
    cut off. *)
Lemma digits_value_prefix (l : list Z) (k : Z) :
  forallb is_digit l = true -> 0 <= k <= len l ->
  digits_value (slice_to l (len l - k)) = digits_value l / 10 ^ k.
Proof.
  intros Hd Hk.
  assert (E : l = slice_to l (len l - k) ++ slice_from l (len l - k))
    by (symmetry; apply firstn_skipn).
  assert (Hlen : len (slice_from l (len l - k)) = k)
    by (rewrite slice_from_length; lia).
  pose proof (digits_value_app (slice_to l (len l - k)) (slice_from l (len l - k))) as Hv.
  rewrite <- E, Hlen in Hv. rewrite Hv.
  destruct (forallb_slice is_digit l (len l - k) Hd) as [_ H2].
  pose proof (digits_value_bounds _ H2) as Hb. rewrite Hlen in Hb.
  apply Z.div_unique with (r := digits_value (slice_from l (len l - k))); lia.
Qed.

(** ** Leading zeros and the final conversion to ASCII *)

Lemma to_byte_small (z : Z) : 0 <= z < 256 -> to_byte z = z.
Proof. intros H. unfold to_byte. apply Z.mod_small. exact H. Qed.

Lemma raw_add_bytes (l : list Z) : small l -> raw (add_bytes l 48) = l.
Proof.
  unfold small, raw, add_bytes. induction 1 as [|d l Hd _ IH]; [reflexivity|].
  cbn [map]. rewrite IH, to_byte_small by lia. f_equal. lia.
Qed.

Lemma is_digit_add_bytes (l : list Z) : small l -> forallb is_digit (add_bytes l 48) = true.
Proof.
  unfold small, add_bytes. induction 1 as [|d l Hd _ IH]; [reflexivity|].
  cbn [map forallb]. rewrite IH, to_byte_small by lia. unfold is_digit. lia.
Qed.

Lemma be_skip_zeros (l : list Z) (m : nat) :
  be (skipn (Z.to_nat (leading_count 0 (firstn m l))) l) = be l.
Proof.
  revert m. induction l as [|x l IH]; intros m.
  - rewrite firstn_nil. reflexivity.
  - destruct m as [|m]; [reflexivity|]. cbn [firstn leading_count].
    destruct (x =? 0) eqn:E; [|reflexivity].
    pose proof (leading_count_bounds 0 (firstn m l)).
    replace (Z.to_nat (1 + leading_count 0 (firstn m l)))
      with (S (Z.to_nat (leading_count 0 (firstn m l)))) by lia.
    cbn [skipn]. rewrite IH, be_cons. lia.
Qed.

Lemma small_skipn (l : list Z) (n : nat) : small l -> small (skipn n l).
Proof.
  unfold small. intros H. rewrite <- (firstn_skipn n l) in H.
  apply Forall_app in H. tauto.
Qed.

Lemma trim_leading_be (l : list Z) : be (trim_leading l 0) = be l.
Proof.
  unfold trim_leading, slice_from, slice_to. destruct (_ >? _); [|reflexivity].
  apply be_skip_zeros.
Qed.

Lemma trim_leading_small (l : list Z) : small l -> small (trim_leading l 0).
Proof.
  intros H. unfold trim_leading, slice_from. destruct (_ >? _); [|exact H].
  apply small_skipn, H.
Qed.

(** All digits but the last are candidates for trimming: a non-zero
    number keeps a non-zero first digit. *)
Lemma trim_leading_head (l : list Z) :
  be l <> 0 -> exists d rest, trim_leading l 0 = d :: rest /\ d <> 0.
Proof.
  unfold trim_leading, slice_from, slice_to.
  induction l as [|x l IH]; intros Hv; [rewrite be_nil in Hv; congruence|].
  rewrite len_cons. pose proof (len_nonneg l).
  replace (1 + len l >? 0) with true by (zbool; lia).
  replace (Z.to_nat (1 + len l - 0 - 1)) with (length l) by (unfold len; lia).
  destruct l as [|y l].
  - cbn [length firstn leading_count Z.to_nat skipn]. exists x, []. split; [reflexivity|].
    intros ->. apply Hv. reflexivity.
  - cbn [length firstn leading_count]. destruct (x =? 0) eqn:E.
    + pose proof (leading_count_bounds 0 (firstn (length l) (y :: l))).
      replace (Z.to_nat (1 + leading_count 0 (firstn (length l) (y :: l))))
        with (S (Z.to_nat (leading_count 0 (firstn (length l) (y :: l))))) by lia.
      cbn [skipn].
      rewrite len_cons in IH. pose proof (len_nonneg l).
      replace (1 + len l >? 0) with true in IH by (zbool; lia).
      replace (Z.to_nat (1 + len l - 0 - 1)) with (length l) in IH by (unfold len; lia).
      apply IH. rewrite be_cons in Hv. lia.
    + cbn [Z.to_nat skipn]. exists x, (y :: l). split; [reflexivity|]. lia.
Qed.

(** The tail shared by [sub] and [Mul] on integers: reverse, trim, add
    48. On digit values of a positive number it builds a canonical
    positive integer of the same value. *)
Lemma normalized_positive (le : list Z) (s : Z) :
  small le -> 0 < be (rev le) -> s = 1 ->
  let norm := add_bytes (trim_leading (reverse le) 0) 48 in
  positive_integer (mkAnalysis norm s 0 (len norm)) = true
  /\ digits_value norm = be (rev le).
Proof.
  intros Hs Hv -> norm. unfold reverse in norm.
  assert (Hr : small (rev le)) by (apply Forall_rev; exact Hs).
  pose proof (trim_leading_small _ Hr) as Ht.
  destruct (trim_leading_head (rev le)) as (d & rest & Etrim & Hd); [lia|].
  split.
  - unfold positive_integer. cbn [stranalyzer.Sign Decimals Len Norm].
    unfold norm. rewrite is_digit_add_bytes by exact Ht.
    rewrite Etrim in *. unfold add_bytes. cbn [map].
    inversion Ht as [|? ? Hd0 _]; subst.
    rewrite to_byte_small by lia. change (ch "0") with 48.
    rewrite !andb_true_iff. repeat split; lia.
  - unfold norm. rewrite digits_value_raw, raw_add_bytes by exact Ht.
    apply trim_leading_be.
Qed.

(** ** Reading a digit is taking a decimal digit of the value *)

Lemma pow10_pos (k : Z) : 0 <= k -> 0 < 10 ^ k.
Proof. intros H. apply Z.pow_pos_nonneg; lia. Qed.

Lemma be_digit (l : list Z) (i : Z) :
  small l -> 0 <= i ->
  (be l / 10 ^ i) mod 10 = if i <? len l then nth (Z.to_nat (len l - 1 - i)) l 0 else 0.
Proof.
  intros Hs Hi. pose proof (be_bounds l Hs) as Hb. pose proof (pow10_pos i Hi).
  destruct (i <? len l) eqn:E.
  - assert (Hn : (Z.to_nat (len l - 1 - i) < length l)%nat).
    { apply Z.ltb_lt in E. unfold len in *. lia. }
    destruct (lookup_lt_is_Some_2 l _ Hn) as [x Hx].
    pose proof (take_drop_middle l _ x Hx) as Hl.
    rewrite (nth_lookup l _ 0), Hx. cbn [default from_option].
    set (n := Z.to_nat (len l - 1 - i)) in *.
    assert (Hsd : small (take n l) /\ small (x :: drop (S n) l)).
    { apply Forall_app. rewrite Hl. exact Hs. }
    destruct Hsd as [Hst Hsd]. inversion Hsd as [|? ? Hx0 Hsd']; subst.
    assert (Hld : len (drop (S n) l) = i).
    { unfold len. rewrite length_drop. unfold len in *. lia. }
    assert (Hv : be l = (10 * be (take n l) + x) * 10 ^ i + be (drop (S n) l)).
    { rewrite <- Hl at 1. rewrite (app_assoc _ [x] _) || rewrite cons_middle, app_assoc.
      rewrite be_app, be_snoc, Hld. reflexivity. }
    pose proof (be_bounds _ Hsd') as Hbd. rewrite Hld in Hbd.
    rewrite Hv.
    replace (((10 * be (take n l) + x) * 10 ^ i + be (drop (S n) l)) / 10 ^ i)
      with (10 * be (take n l) + x)
      by (apply Z.div_unique with (r := be (drop (S n) l)); lia).
    symmetry. apply Z.mod_unique with (q := be (take n l)); unfold id; lia.
  - assert (10 ^ len l <= 10 ^ i) by (apply Z.pow_le_mono_r; lia).
    rewrite Z.div_small by lia. reflexivity.
Qed.

Lemma nth_raw (l : list Z) (n : nat) :
  (n < length l)%nat -> nth n (raw l) 0 = nth n l 0 - 48.
Proof.
  intros H. unfold raw.
  rewrite (nth_indep _ 0 (0 - 48)) by (rewrite length_map; exact H).
  apply (map_nth (fun c => c - 48)).
Qed.

Lemma read_digit (x : BigFloat) (c : correction) (i : Z) :
  integer_operand x -> offset c = 0 -> 0 <= i ->
  read i x c (-48) = (digits_value (Norm x) / 10 ^ i) mod 10.
Proof.
  intros (_ & HL & Hd) Hc Hi. unfold read. rewrite Hc, HL.
  rewrite digits_value_raw, be_digit, len_raw by (try apply small_raw; assumption).
  pose proof (len_nonneg (Norm x)).
  destruct (i <? len (Norm x)) eqn:E.
  - replace ((len (Norm x) - i - 0 - 1 >=? 0) && (len (Norm x) - i - 0 - 1 <? len (Norm x)))
      with true by (zbool; lia).
    unfold idx. rewrite nth_raw by (unfold len in *; lia).
    replace (len (Norm x) - i - 0 - 1) with (len (Norm x) - 1 - i) by lia. lia.
  - replace ((len (Norm x) - i - 0 - 1 >=? 0) && (len (Norm x) - i - 0 - 1 <? len (Norm x)))
      with false by (zbool; lia).
    reflexivity.
Qed.

Lemma reverse_read_digit (x : BigFloat) (c : correction) (i M : Z) :
  integer_operand x -> creverse c = M - len (Norm x) -> 0 <= i < M ->
  len (Norm x) <= M ->
  reverse_read i x c (-48) = (digits_value (Norm x) / 10 ^ (M - 1 - i)) mod 10.
Proof.
  intros (_ & HL & Hd) Hc Hi HM. unfold reverse_read. rewrite Hc, HL.
  rewrite digits_value_raw, be_digit, len_raw by (try apply small_raw; assumption || lia).
  pose proof (len_nonneg (Norm x)).
  destruct (M - 1 - i <? len (Norm x)) eqn:E.
  - replace ((i - (M - len (Norm x)) >=? 0) && (i - (M - len (Norm x)) <? len (Norm x)))
      with true by (zbool; lia).
    unfold idx. rewrite nth_raw by (unfold len in *; lia).
    replace (len (Norm x) - 1 - (M - 1 - i)) with (i - (M - len (Norm x))) by lia. lia.
  - replace ((i - (M - len (Norm x)) >=? 0) && (i - (M - len (Norm x)) <? len (Norm x)))
      with false by (zbool; lia).
    reflexivity.
Qed.

(** The alignment of two integer operands. *)
Lemma align_integers (x y : BigFloat) :
  integer_operand x -> integer_operand y ->
  let M := Z.max (len (Norm x)) (len (Norm y)) in
  align [x; y]
  = mkAlignment M 0 (M + 0)
      [mkCorrection 0 (M - (len (Norm x) - 0)); mkCorrection 0 (M - (len (Norm y) - 0))].
Proof.
  intros (Hdx & HLx & _) (Hdy & HLy & _) M. unfold align.
  cbn [fold_left tail map]. rewrite Hdx, Hdy, HLx, HLy. cbn [Z.gtb Z.compare].
  rewrite !Z.sub_0_r.
  assert (E : (if len (Norm y) >? len (Norm x) then len (Norm y) else len (Norm x)) = M).
  { unfold M. destruct (_ >? _) eqn:E; zbool; lia. }
  rewrite E. reflexivity.
Qed.

(** ** Comparison of integers *)

Lemma mod_pow10_succ (X k : Z) :
  0 <= k -> X mod 10 ^ (k + 1) = (X / 10 ^ k) mod 10 * 10 ^ k + X mod 10 ^ k.
Proof.
  intros Hk. pose proof (pow10_pos k Hk).
  rewrite Z.pow_add_r, Z.pow_1_r by lia. rewrite Z.rem_mul_r by lia. lia.
Qed.

Lemma multiRead_pair (i : Z) (x y : BigFloat) (M : Z) (cx cy : correction)
    (fn : readFnType) :
  multiRead i [x; y] (mkAlignment M 0 (M + 0) [cx; cy]) (-48) fn
  = [fn i x cx (-48); fn i y cy (-48)].
Proof. reflexivity. Qed.

Lemma idx_0 (a : Z) (l : list Z) : idx (a :: l) 0 = a.
Proof. reflexivity. Qed.

Lemma idx_1 (a b : Z) (l : list Z) : idx (a :: b :: l) 1 = b.
Proof. reflexivity. Qed.

Lemma compare_loop_integers (x y : BigFloat) (s : Z) :
  integer_operand x -> integer_operand y ->
  let M := Z.max (len (Norm x)) (len (Norm y)) in
  forall (k : nat) (i : Z),
    0 <= i -> i + Z.of_nat k = M ->
    compare_loop [x; y] (align [x; y]) k i s
    = s * Z.sgn (digits_value (Norm x) mod 10 ^ Z.of_nat k
                 - digits_value (Norm y) mod 10 ^ Z.of_nat k).
Proof.
  intros Hx Hy M. rewrite (align_integers x y Hx Hy). fold M.
  set (X := digits_value (Norm x)). set (Y := digits_value (Norm y)).
  induction k as [|k IH]; intros i Hi HM.
  - cbn [compare_loop]. change (Z.of_nat 0) with 0. rewrite Z.pow_0_r, !Z.mod_1_r. lia.
  - cbn [compare_loop]. rewrite multiRead_pair, !idx_0, !idx_1.
    rewrite (reverse_read_digit x _ i M), (reverse_read_digit y _ i M);
      cbn [creverse]; try assumption; try lia.
    fold X Y. replace (M - 1 - i) with (Z.of_nat k) by lia.
    replace (Z.of_nat (S k)) with (Z.of_nat k + 1) by lia.
    rewrite !mod_pow10_succ by lia.
    set (xk := (X / 10 ^ Z.of_nat k) mod 10). set (yk := (Y / 10 ^ Z.of_nat k) mod 10).
    pose proof (pow10_pos (Z.of_nat k) ltac:(lia)) as Hp.
    pose proof (Z.mod_pos_bound X (10 ^ Z.of_nat k) Hp).
    pose proof (Z.mod_pos_bound Y (10 ^ Z.of_nat k) Hp).
    destruct (xk <? yk) eqn:E1.
    + assert (Hs : Z.sgn (xk * 10 ^ Z.of_nat k + X mod 10 ^ Z.of_nat k
                          - (yk * 10 ^ Z.of_nat k + Y mod 10 ^ Z.of_nat k)) = -1).
      { apply Z.sgn_neg. nia. }
      rewrite Hs. lia.
    + destruct (xk >? yk) eqn:E2.
      * assert (Hs : Z.sgn (xk * 10 ^ Z.of_nat k + X mod 10 ^ Z.of_nat k
                            - (yk * 10 ^ Z.of_nat k + Y mod 10 ^ Z.of_nat k)) = 1).
        { apply Z.sgn_pos. zbool. nia. }
        rewrite Hs. lia.
      * rewrite IH by lia. assert (xk = yk) by (zbool; lia).
        do 2 f_equal. lia.
Qed.

(** [Compare] and [CompareAbs] on positive integers are the order of
    the values. *)
Lemma Compare_integers (x y : BigFloat) :
  integer_operand x -> integer_operand y ->
  stranalyzer.Sign x = 1 -> stranalyzer.Sign y = 1 ->
  Compare x y = Z.sgn (digits_value (Norm x) - digits_value (Norm y))
  /\ CompareAbs x y = Z.sgn (digits_value (Norm x) - digits_value (Norm y)).
Proof.
  intros Hx Hy Hsx Hsy.
  pose proof (compare_loop_integers x y 1 Hx Hy) as H. cbv zeta in H.
  set (M := Z.max (len (Norm x)) (len (Norm y))) in *.
  assert (HA : ALen (align [x; y]) = M).
  { rewrite (align_integers x y Hx Hy). cbn [ALen]. fold M. lia. }
  pose proof (len_nonneg (Norm x)). pose proof (len_nonneg (Norm y)).
  specialize (H (Z.to_nat M) 0 ltac:(lia) ltac:(lia)).
  destruct Hx as (_ & _ & Hdx). destruct Hy as (_ & _ & Hdy).
  pose proof (digits_value_bounds _ Hdx) as Hbx.
  pose proof (digits_value_bounds _ Hdy) as Hby.
  assert (10 ^ len (Norm x) <= 10 ^ M) by (apply Z.pow_le_mono_r; lia).
  assert (10 ^ len (Norm y) <= 10 ^ M) by (apply Z.pow_le_mono_r; lia).
  rewrite Z2Nat.id in H by lia. rewrite !Z.mod_small in H by lia.
  unfold Compare, CompareAbs, compare. rewrite Hsx, Hsy, HA. cbn [orb Z.eqb Pos.eqb].
  rewrite H. split; lia.
Qed.

(** ** Subtraction of integers *)

Lemma len_rev {A : Type} (l : list A) : len (rev l) = len l.
Proof. unfold len. rewrite length_rev. reflexivity. Qed.

Lemma sub_loop_integers (x y : BigFloat) :
  integer_operand x -> integer_operand y ->
  let X := digits_value (Norm x) in
  let Y := digits_value (Norm y) in
  forall (k : nat) (i b : Z) (D : list Z),
    0 <= i -> len D = i -> b = 0 \/ b = 1 -> small D ->
    be (rev D) - b * 10 ^ i = X mod 10 ^ i - Y mod 10 ^ i ->
    let D' := sub_loop [x; y] (align [x; y]) k i b D in
    small D' /\ len D' = i + Z.of_nat k
    /\ exists b', (b' = 0 \/ b' = 1)
         /\ be (rev D') - b' * 10 ^ (i + Z.of_nat k)
            = X mod 10 ^ (i + Z.of_nat k) - Y mod 10 ^ (i + Z.of_nat k).
Proof.
  intros Hx Hy X Y. rewrite (align_integers x y Hx Hy).
  set (M := Z.max (len (Norm x)) (len (Norm y))).
  induction k as [|k IH]; intros i b D Hi HD Hb Hs Hv.
  - cbn [sub_loop]. rewrite Z.add_0_r. split; [exact Hs|]. split; [exact HD|]. eauto.
  - cbn [sub_loop]. rewrite multiRead_pair, !idx_0, !idx_1.
    rewrite (read_digit x), (read_digit y) by (assumption || reflexivity).
    fold X Y.
    set (xi := (X / 10 ^ i) mod 10). set (yi := (Y / 10 ^ i) mod 10).
    assert (Hxi : 0 <= xi < 10) by (apply Z.mod_pos_bound; lia).
    assert (Hyi : 0 <= yi < 10) by (apply Z.mod_pos_bound; lia).
    replace (i + Z.of_nat (S k)) with (i + 1 + Z.of_nat k) by lia.
    pose proof (pow10_pos i Hi) as Hp.
    destruct (xi - b <? yi) eqn:E.
    + apply IH; try lia.
      * rewrite len_app. change (len [to_byte (xi - b + 10 - yi)]) with 1. lia.
      * apply small_app. split; [exact Hs|]. repeat constructor;
          rewrite to_byte_small; lia.
      * rewrite rev_app_distr. cbn [rev app]. rewrite be_cons, len_rev, HD.
        rewrite to_byte_small by lia. rewrite !mod_pow10_succ by lia.
        fold xi yi. rewrite Z.pow_add_r, Z.pow_1_r by lia. lia.
    + apply IH; try lia.
      * rewrite len_app. change (len [to_byte (xi - b - yi)]) with 1. lia.
      * apply small_app. split; [exact Hs|]. repeat constructor;
          rewrite to_byte_small; lia.
      * rewrite rev_app_distr. cbn [rev app]. rewrite be_cons, len_rev, HD.
        rewrite to_byte_small by lia. rewrite !mod_pow10_succ by lia.
        fold xi yi. lia.
Qed.

Lemma positive_integer_operand (x : BigFloat) :
  positive_integer x = true -> integer_operand x.
Proof.
  intros H. apply positive_integer_fields in H as (_ & Hd & HL & Hdig & _).
  repeat split; assumption.
Qed.

Lemma integer_operand_New : integer_operand New.
Proof. repeat split. Qed.

(** The internal [sub] of a smaller integer from a larger one. *)
Lemma sub_integers (x y : BigFloat) :
  integer_operand x -> integer_operand y ->
  0 <= digits_value (Norm y) < digits_value (Norm x) ->
  positive_integer (sub x y) = true
  /\ digits_value (Norm (sub x y)) = digits_value (Norm x) - digits_value (Norm y).
Proof.
  intros Hx Hy Hv.
  pose proof (sub_loop_integers x y Hx Hy) as H. cbv zeta in H.
  set (M := Z.max (len (Norm x)) (len (Norm y))).
  pose proof (len_nonneg (Norm x)). pose proof (len_nonneg (Norm y)).
  specialize (H (Z.to_nat M) 0 0 [] ltac:(lia) eq_refl ltac:(lia) ltac:(constructor)).
  rewrite Z.pow_0_r, !Z.mod_1_r in H. specialize (H eq_refl).
  destruct H as (Hs & Hlen & b' & Hb' & Hbe).
  unfold sub.
  assert (HA : align [x; y] = mkAlignment M 0 (M + 0)
                 [mkCorrection 0 (M - (len (Norm x) - 0));
                  mkCorrection 0 (M - (len (Norm y) - 0))])
    by (apply align_integers; assumption).
  rewrite HA in *. cbn [ALen MaxDecLen] in *. rewrite Z.add_0_r in *.
  set (D := sub_loop _ _ _ _ _ _) in *.
  rewrite Z.add_0_l, Z2Nat.id in Hlen, Hbe by lia.
  destruct Hx as (_ & _ & Hdx). destruct Hy as (_ & _ & Hdy).
  pose proof (digits_value_bounds _ Hdx) as Hbx.
  pose proof (digits_value_bounds _ Hdy) as Hby.
  assert (10 ^ len (Norm x) <= 10 ^ M) by (apply Z.pow_le_mono_r; lia).
  assert (10 ^ len (Norm y) <= 10 ^ M) by (apply Z.pow_le_mono_r; lia).
  rewrite !Z.mod_small in Hbe by lia.
  assert (Hr : small (rev D)) by (apply Forall_rev; exact Hs).
  pose proof (be_bounds _ Hr) as Hbr. rewrite len_rev, Hlen in Hbr.
  assert (b' = 0) by lia. subst b'.
  destruct (normalized_positive D 1 Hs ltac:(lia) eq_refl) as [Hp Hval].
  split; [exact Hp|]. cbn [Norm]. rewrite Hval. lia.
Qed.

Lemma with_Sign_id (x : BigFloat) : stranalyzer.Sign x = 1 -> with_Sign x 1 = x.
Proof. destruct x. cbn. intros ->. reflexivity. Qed.

Lemma IsInt64_0_positive (x : BigFloat) : positive_integer x = true -> IsInt64 x 0 = false.
Proof.
  intros H. apply positive_integer_fields in H as (_ & Hd & _ & _ & d & rest & HN & Hne).
  destruct (IsInt64 x 0) eqn:E; [|reflexivity].
  apply IsInt64_0_spec in E; [|lia]. destruct E as (_ & _ & E).
  rewrite Hd, HN in E. cbn in E. injection E as E _. change (ch "0") with 48 in E. lia.
Qed.

Lemma IsInt64_0_New : IsInt64 New 0 = true.
Proof. vm_compute. reflexivity. Qed.

(** The public [Sub] on naturals, the first not smaller. *)
Lemma Sub_integers (x y : BigFloat) :
  positive_integer x = true -> natural y ->
  digits_value (Norm y) <= digits_value (Norm x) ->
  natural (Sub x y)
  /\ digits_value (Norm (Sub x y)) = digits_value (Norm x) - digits_value (Norm y).
Proof.
  intros Hx Hy Hv. unfold Sub. rewrite (IsInt64_0_positive x Hx).
  destruct Hy as [-> | Hy].
  { rewrite IsInt64_0_New. split; [right; exact Hx|].
    change (digits_value (Norm New)) with 0. lia. }
  rewrite (IsInt64_0_positive y Hy).
  pose proof (positive_integer_fields x Hx) as (Hsx & _).
  pose proof (positive_integer_fields y Hy) as (Hsy & _).
  rewrite Hsx, Hsy. cbn [Z.eqb Pos.eqb negb].
  pose proof (positive_integer_operand x Hx) as Hox.
  pose proof (positive_integer_operand y Hy) as Hoy.
  destruct (Compare_integers x y Hox Hoy Hsx Hsy) as [_ ->].
  destruct (Z.sgn _ =? 0) eqn:E0.
  { rewrite SetInt64_0. destruct Hox as (-> & _). destruct Hoy as (-> & _).
    replace (SetDecimals New (maxInt 0 0)) with New by (vm_compute; reflexivity).
    split; [left; reflexivity|]. change (digits_value (Norm New)) with 0. lia. }
  replace (Z.sgn (digits_value (Norm x) - digits_value (Norm y)) <? 0) with false by lia.
  cbv beta iota. unfold Abs, Copy.
  rewrite !Sign_positive, (with_Sign_id x), (with_Sign_id y) by assumption.
  pose proof (digits_value_bounds (Norm y) (proj2 (proj2 Hoy))).
  destruct (sub_integers x y Hox Hoy) as [Hp Hval]; [lia|].
  rewrite with_Sign_id by (apply positive_integer_fields in Hp; tauto).
  split; [right; exact Hp|exact Hval].
Qed.

(** ** Multiplication by one digit *)

Lemma mul_digits (c x : Z) :
  is_digit c = true -> is_digit x = true -> mul c x = (c - 48) * (x - 48).
Proof.
  unfold is_digit, mul. intros Hc Hx.
  rewrite (to_byte_small (c - 48)), (to_byte_small (x - 48)) by lia.
  apply to_byte_small. nia.
Qed.

Lemma divmod10_nonneg (t : Z) : 0 <= t -> divmod10 t = (t / 10, t mod 10).
Proof.
  intros H. unfold divmod10. rewrite Z.quot_div_nonneg, Z.rem_mod_nonneg by lia.
  reflexivity.
Qed.

Lemma product_loop_spec (c : Z) :
  is_digit c = true ->
  forall (ra : list Z) (o : Z) (cb : list Z),
    forallb is_digit ra = true -> 0 <= o <= 8 -> small cb ->
    small (snd (product_loop c ra o cb))
    /\ 0 <= fst (product_loop c ra o cb) <= 8
    /\ len (snd (product_loop c ra o cb)) = len cb + len ra
    /\ be (rev (snd (product_loop c ra o cb)))
       + fst (product_loop c ra o cb) * 10 ^ len (snd (product_loop c ra o cb))
       = be (rev cb) + (o + (c - 48) * be (rev (raw ra))) * 10 ^ len cb.
Proof.
  intros Hc. induction ra as [|x ra IH]; intros o cb Hd Ho Hs.
  - cbn [product_loop fst snd raw map rev]. rewrite be_nil.
    change (len (@nil Z)) with 0. repeat split; try assumption; lia.
  - cbn [forallb] in Hd. apply andb_true_iff in Hd as [Hx Hd].
    cbn [product_loop]. rewrite mul_digits by assumption.
    assert (Hc' : 0 <= c - 48 <= 9) by (unfold is_digit in Hc; lia).
    assert (Hx' : 0 <= x - 48 <= 9) by (unfold is_digit in Hx; lia).
    set (total := (c - 48) * (x - 48) + o).
    assert (Ht : 0 <= total <= 89) by (unfold total; nia).
    rewrite divmod10_nonneg by lia.
    assert (Hr : 0 <= total mod 10 < 10) by (apply Z.mod_pos_bound; lia).
    assert (Hq : 0 <= total / 10 <= 8).
    { split; [apply Z.div_pos; lia|].
      assert (total / 10 < 9) by (apply Z.div_lt_upper_bound; lia). lia. }
    specialize (IH (total / 10) (cb ++ [total mod 10]) Hd Hq).
    destruct IH as (H1 & H2 & H3 & H4).
    { apply small_app. split; [exact Hs|]. repeat constructor; lia. }
    split; [exact H1|]. split; [exact H2|].
    rewrite len_app in H3. change (len [total mod 10]) with 1 in H3.
    split; [rewrite H3, len_cons; lia|].
    rewrite H4. rewrite rev_app_distr. cbn [rev app]. rewrite be_cons, len_rev.
    rewrite len_app. change (len [total mod 10]) with 1.
    cbn [raw map rev]. fold (raw ra). rewrite be_snoc.
    pose proof (len_nonneg cb). rewrite Z.pow_add_r, Z.pow_1_r by lia.
    pose proof (Z.div_mod total 10 ltac:(lia)) as Hdm. unfold total in *. nia.
Qed.

Lemma column_single (sp : subProduct) (pos o : Z) :
  sp_offset sp = 0 -> 0 <= pos ->
  column [sp] pos o = o + idx (product sp) pos.
Proof.
  intros H0 Hp. unfold column. cbn [fold_left]. rewrite H0, Z.sub_0_r.
  destruct ((pos >=? 0) && (pos <? len (product sp))) eqn:E; [reflexivity|].
  unfold idx. rewrite nth_overflow; [lia|]. unfold len in E. lia.
Qed.

Lemma idx_small (l : list Z) (i : Z) : small l -> 0 <= idx l i <= 9.
Proof.
  intros Hs. unfold idx. destruct (nth_in_or_default (Z.to_nat i) l 0) as [Hin | ->]; [|lia].
  unfold small in Hs. rewrite Forall_forall in Hs. apply Hs.
  apply list_elem_of_In. exact Hin.
Qed.

Lemma sum_loop_single (sp : subProduct) :
  sp_offset sp = 0 -> small (product sp) ->
  forall (k : nat) (pos : Z) (tb : list Z),
    0 <= pos ->
    sum_loop [sp] k pos 0 tb
    = (0, tb ++ map (fun j => idx (product sp) (pos + Z.of_nat j)) (seq 0 k)).
Proof.
  intros H0 Hs. induction k as [|k IH]; intros pos tb Hp.
  - cbn [sum_loop seq map]. rewrite app_nil_r. reflexivity.
  - cbn [sum_loop]. rewrite column_single by assumption.
    pose proof (idx_small (product sp) pos Hs) as Hi.
    rewrite divmod10_nonneg by lia.
    rewrite Z.div_small, Z.mod_small by lia. rewrite to_byte_small by lia.
    rewrite IH by lia. cbn [seq map]. rewrite <- app_assoc. cbn [app].
    rewrite Z.add_0_l, Z.add_0_r. do 3 f_equal.
    rewrite <- seq_shift, map_map. apply map_ext. intros j. f_equal. lia.
Qed.

Lemma idx_padding (l : list Z) :
  forall k : nat,
    (length l <= k)%nat ->
    map (fun j => idx l (0 + Z.of_nat j)) (seq 0 k) = l ++ repeat 0 (k - length l).
Proof.
  induction l as [|x l IH]; intros k Hk.
  - cbn [length app]. rewrite Nat.sub_0_r. clear Hk.
    induction k as [|k IHk]; [reflexivity|].
    rewrite seq_S, map_app, IHk. cbn [map repeat]. rewrite repeat_cons.
    do 2 f_equal. unfold idx. destruct (Z.to_nat _); reflexivity.
  - destruct k as [|k]; [cbn in Hk; lia|]. cbn [length] in *.
    cbn [seq map app Nat.sub]. f_equal.
    rewrite <- seq_shift, map_map, <- (IH k) by lia.
    apply map_ext. intros j. unfold idx.
    replace (Z.to_nat (0 + Z.of_nat (S j))) with (S (Z.to_nat (0 + Z.of_nat j))) by lia.
    reflexivity.
Qed.

Lemma be_rev_padded (l : list Z) (n : nat) : be (rev (l ++ repeat 0 n)) = be (rev l).
Proof.
  rewrite rev_app_distr, be_app, rev_repeat, be_repeat_0. lia.
Qed.

(** The long multiplication of [Mul] when the second factor is a single
    non-zero digit. *)
Lemma Mul_by_digit (a b : BigFloat) (c : Z) :
  positive_integer a = true -> b = mkAnalysis [c] 1 0 1 ->
  is_digit c = true -> c <> 48 ->
  IsInt64 a 0 || IsInt64 b 0 = false ->
  IsInt64 a 1 = false -> IsInt64 a (-1) = false ->
  IsInt64 b 1 = false -> IsInt64 b (-1) = false ->
  positive_integer (Mul a b) = true
  /\ digits_value (Norm (Mul a b)) = (c - 48) * digits_value (Norm a).
Proof.
  intros Ha -> Hc Hne T0 T1 T2 T3 T4. unfold Mul. rewrite T0, T1, T2, T3, T4.
  clear T0 T1 T2 T3 T4.
  apply positive_integer_fields in Ha as (Hsa & Hda & HLa & Hdig & d & rest & HN & Hd).
  cbn [Norm Len Decimals stranalyzer.Sign subProducts].
  change (ch "0") with 48. replace (c =? 48) with false by lia.
  assert (Hrd : forallb is_digit (rev (Norm a)) = true).
  { rewrite forallb_forall in *. intros x Hx. apply Hdig. apply in_rev. exact Hx. }
  pose proof (product_loop_spec c Hc (rev (Norm a)) 0 [] Hrd ltac:(lia) ltac:(constructor))
    as (P1 & P2 & P3 & P4).
  destruct (product_loop c (rev (Norm a)) 0 []) as [o cBuf].
  cbn [fst snd] in P1, P2, P3, P4.
  change (len (@nil Z)) with 0 in P3, P4. cbn [rev] in P4.
  rewrite be_nil, Z.pow_0_r in P4.
  assert (Hraw : be (rev (raw (rev (Norm a)))) = digits_value (Norm a)).
  { unfold raw. rewrite map_rev, rev_involutive. symmetry. apply digits_value_raw. }
  rewrite Hraw in P4. rewrite len_rev in P3.
  set (cBuf' := if negb (o =? 0) then cBuf ++ [o] else cBuf).
  assert (Hs' : small cBuf').
  { unfold cBuf'. destruct (o =? 0); cbn [negb]; [exact P1|].
    apply small_app. split; [exact P1|]. repeat constructor; lia. }
  assert (Hv' : be (rev cBuf') = (c - 48) * digits_value (Norm a)).
  { unfold cBuf'. destruct (o =? 0) eqn:Eo; cbn [negb].
    - assert (o = 0) by lia. subst o. lia.
    - rewrite rev_app_distr. cbn [rev app]. rewrite be_cons, len_rev. lia. }
  assert (Hl' : len cBuf' <= len (Norm a) + 1).
  { unfold cBuf'. destruct (o =? 0); cbn [negb]; rewrite ?len_app;
      change (len [o]) with 1; lia. }
  cbn [app]. replace (1 - 0 - 1) with 0 by lia.
  rewrite (sum_loop_single (mkSubProduct 0 cBuf') eq_refl Hs') by lia.
  cbn [product app]. rewrite idx_padding by (unfold len in *; lia).
  rewrite Hsa, Hda. change (0 + 0) with 0. change (1 * 1) with 1.
  change (0 >? 0) with false. cbv beta iota. change (to_byte 0) with 0.
  set (le := (cBuf' ++ repeat 0 (Z.to_nat (Len a + 1) - length cBuf')) ++ [0]).
  assert (Hle : small le).
  { unfold le. apply small_app. split; [|repeat constructor; lia].
    apply small_app. split; [exact Hs'|]. apply Forall_forall.
    intros x Hx. apply list_elem_of_In, repeat_spec in Hx. lia. }
  assert (Hbe : be (rev le) = (c - 48) * digits_value (Norm a)).
  { unfold le. rewrite rev_app_distr. cbn [rev app]. rewrite be_cons, be_rev_padded. lia. }
  assert (Hpos : 0 < digits_value (Norm a)).
  { rewrite HN. rewrite HN in Hdig. pose proof (digits_value_lower d rest Hdig Hd).
    pose proof (pow10_pos (len rest) (len_nonneg rest)). lia. }
  destruct (normalized_positive le 1 Hle) as [Hp Hval]; [unfold is_digit in Hc; nia|reflexivity|].
  split; [exact Hp|]. cbn [Norm]. rewrite Hval. exact Hbe.
Qed.

Lemma IsInt64_minus_1 (a : BigFloat) :
  stranalyzer.Sign a = 1 -> Decimals a = 0 -> IsInt64 a (-1) = false.
Proof.
  intros Hs Hd. unfold IsInt64, IsInt64_body. rewrite Hd, Hs.
  replace (SetDecimals_body IsZero (SetInt64 empty (-1)) 0)
    with (mkAnalysis [49] (-1) 0 1) by (vm_compute; reflexivity).
  reflexivity.
Qed.

Lemma MulInt64_digit (f : BigFloat) (e : Z) :
  2 <= e <= 9 -> MulInt64 f e = Mul f (mkAnalysis [48 + e] 1 0 1).
Proof.
  intros He.
  assert (Hcases : e = 2 \/ e = 3 \/ e = 4 \/ e = 5 \/ e = 6 \/ e = 7 \/ e = 8 \/ e = 9)
    by lia.
  destruct Hcases as [-> | [-> | [-> | [-> | [-> | [-> | [-> | ->]]]]]]];
    cbv -[Mul]; reflexivity.
Qed.

Lemma MulInt64_ten (f : BigFloat) : MulInt64 f 10 = Mul10 f 1.
Proof. cbv -[Mul10]. reflexivity. Qed.

(** [MulInt64] of a canonical positive integer other than 1 by a
    quotient guess. *)
Lemma MulInt64_guess (a : BigFloat) (e : Z) :
  positive_integer a = true -> IsInt64 a 1 = false -> 2 <= e <= 10 ->
  positive_integer (MulInt64 a e) = true
  /\ digits_value (Norm (MulInt64 a e)) = e * digits_value (Norm a).
Proof.
  intros Ha H1 He. destruct (Z.eq_dec e 10) as [-> | Hne].
  - rewrite MulInt64_ten.
    pose proof (positive_integer_fields a Ha) as (Hs & Hd & HL & Hdig & d & rest & HN & Hd0).
    rewrite Mul10_shift by lia. cbv zeta. rewrite Hd. change (fill (1 - 0) (ch "0")) with [48].
    assert (Hlc : leading_count 48 (Norm a ++ [48]) = 0).
    { rewrite HN. cbn [app leading_count]. replace (d =? 48) with false by lia. reflexivity. }
    rewrite Hlc. unfold slice_from. change (Z.to_nat 0) with O. rewrite drop_0, Z.sub_0_r.
    split.
    + unfold positive_integer. cbn [stranalyzer.Sign Decimals Len Norm].
      rewrite forallb_app, Hdig, HN. cbn [app forallb]. change (ch "0") with 48.
      rewrite !andb_true_iff. repeat split; try lia.
    + cbn [Norm]. rewrite digits_value_snoc. lia.
  - rewrite MulInt64_digit by lia.
    pose proof (positive_integer_fields a Ha) as (Hs & Hd & _).
    assert (Hcases : e = 2 \/ e = 3 \/ e = 4 \/ e = 5 \/ e = 6 \/ e = 7 \/ e = 8 \/ e = 9)
      by lia.
    replace e with (48 + e - 48) at 3 by lia.
    apply Mul_by_digit;
      [ exact Ha | reflexivity | unfold is_digit; lia | lia
      | rewrite (IsInt64_0_positive a Ha); cbn [orb]
      | exact H1 | apply IsInt64_minus_1; assumption | | ];
      destruct Hcases as [-> | [-> | [-> | [-> | [-> | [-> | [-> | ->]]]]]]];
      vm_compute; reflexivity.
Qed.

(** ** The quotient-digit guess *)

Lemma canonical_head (dp : list Z) :
  canonical dp = true -> forallb is_digit dp = true -> 0 < digits_value dp ->
  exists d rest, dp = d :: rest /\ d <> 48.
Proof.
  intros Hc Hd Hv. destruct dp as [|d [|d' rest]].
  - cbn in Hv. lia.
  - exists d, []. split; [reflexivity|]. intros ->. cbn in Hv. lia.
  - exists d, (d' :: rest). split; [reflexivity|]. cbn [canonical] in Hc. lia.
Qed.

Lemma divisor_bounds (env : loop_env) :
  division_env env ->
  10 ^ (len (Norm (bCopy env)) - 1) <= divisor env < 10 ^ len (Norm (bCopy env))
  /\ 1 <= len (Norm (bCopy env)).
Proof.
  intros (Hp & _). apply positive_integer_fields in Hp as (_ & _ & _ & Hdig & d & rest & HN & Hd).
  unfold divisor. rewrite HN in *. rewrite len_cons.
  pose proof (len_nonneg rest). replace (1 + len rest - 1) with (len rest) by lia.
  pose proof (digits_value_lower d rest Hdig Hd).
  pose proof (digits_value_bounds _ Hdig) as Hb. rewrite len_cons in Hb. lia.
Qed.

(** Dividing the leading digits: [A'] and [B'] are [V] and [B]
    without their last [k] digits ([P] is the power of ten), [e] the
    quotient of the leading digits, [q] the true quotient. *)
Lemma guess_within_one (V B P A' B' e q : Z) :
  0 < P -> 1 <= B' ->
  A' * P <= V < A' * P + P -> B' * P <= B < B' * P + P ->
  e * B' <= A' < e * B' + B' -> q * B <= V < q * B + B ->
  0 <= q <= 9 -> 0 <= e -> P = 1 \/ 10000 <= B' ->
  q <= e <= q + 1.
Proof.
  intros HP HB' HA HB He Hq Hq9 He0 Hbig. split.
  - destruct (Z_lt_le_dec e q) as [Hlt|]; [|assumption]. exfalso.
    assert (H1 : (e + 1) * B' <= q * B') by (apply Z.mul_le_mono_nonneg_r; lia).
    assert (H2 : (A' + 1) * P <= q * B' * P) by (apply Z.mul_le_mono_nonneg_r; lia).
    assert (H3 : q * (B' * P) <= q * B) by (apply Z.mul_le_mono_nonneg_l; lia).
    lia.
  - destruct (Z_le_gt_dec e (q + 1)) as [|Hgt]; [assumption|]. exfalso.
    assert (H1 : (q + 2) * B' <= e * B') by (apply Z.mul_le_mono_nonneg_r; lia).
    assert (H2 : (q + 2) * B' * P <= A' * P) by (apply Z.mul_le_mono_nonneg_r; lia).
    assert (H3 : (q + 1) * B < (q + 1) * (B' * P + P)) by (apply Z.mul_lt_mono_pos_l; lia).
    assert (H4 : (q + 2) * B' * P < (q + 1) * (B' + 1) * P) by lia.
    apply Z.mul_lt_mono_pos_r in H4; [|exact HP].
    assert (H5 : B' < q + 1) by lia.
    destruct Hbig as [-> | Hbig]; [|lia].
    assert (B = B') by lia. subst B. lia.
Qed.

(** The guess is the true quotient digit or one more. *)
Lemma estimate_spec (env : loop_env) (dp : list Z) :
  division_env env ->
  forallb is_digit dp = true ->
  0 <= digits_value dp < 10 * divisor env ->
  exists e,
    estimate env dp = Some e
    /\ (e = digits_value dp / divisor env \/ e = digits_value dp / divisor env + 1)
    /\ (0 < e -> 0 < digits_value dp).
Proof.
  intros Henv Hd HV. pose proof (divisor_bounds env Henv) as (HB & Hnb).
  destruct Henv as (Hp & _ & Hcmp & Hd2 & _).
  pose proof (positive_integer_fields _ Hp) as (_ & _ & HL & Hdig & _).
  set (B := divisor env) in *. set (V := digits_value dp) in *.
  set (nb := len (Norm (bCopy env))) in *.
  assert (HBpos : 0 < B).
  { pose proof (pow10_pos (nb - 1) ltac:(lia)). lia. }
  unfold estimate. rewrite HL. fold nb.
  destruct (len dp <? nb) eqn:Elen.
  { exists 0. split; [reflexivity|].
    pose proof (digits_value_bounds dp Hd) as Hb. fold V in Hb.
    assert (10 ^ len dp <= 10 ^ (nb - 1)) by (apply Z.pow_le_mono_r; lia).
    rewrite Z.div_small by lia. split; [left; reflexivity|lia]. }
  set (m := if 5 >? nb then nb else 5).
  assert (Hm : 1 <= m <= nb /\ m <= 5) by (unfold m; destruct (5 >? nb) eqn:E; zbool; lia).
  assert (Hlc : len (cmpStr env) = m).
  { rewrite Hcmp, HL. fold nb m. unfold len. rewrite slice_to_length; unfold len in *; lia. }
  rewrite Hlc. set (k := nb - m). assert (Hk : 0 <= k) by (unfold k; lia).
  pose proof (pow10_pos k Hk) as HP.
  assert (HB' : divPart2Int env = B / 10 ^ k).
  { rewrite Hd2, Hcmp, HL. fold nb m.
    assert (Hds : forallb is_digit (slice_to (Norm (bCopy env)) m) = true)
      by (apply forallb_slice; exact Hdig).
    rewrite Atoi_digits; [|exact Hds|].
    - replace m with (len (Norm (bCopy env)) - k) by (unfold k, nb; lia).
      apply digits_value_prefix; [exact Hdig|fold nb; lia].
    - intros E. apply (f_equal length) in E. rewrite slice_to_length in E;
        unfold len in *; cbn in E; lia. }
  assert (HB'lo : 10 ^ (m - 1) <= B / 10 ^ k).
  { apply Z.div_le_lower_bound; [lia|].
    rewrite <- Z.pow_add_r by lia. replace (k + (m - 1)) with (nb - 1) by (unfold k; lia).
    lia. }
  pose proof (pow10_pos (m - 1) ltac:(lia)) as HPm.
  replace (divPart2Int env =? 0) with false by lia.
  assert (HA' : Atoi (slice_to dp (len dp - k)) = V / 10 ^ k).
  { assert (Hds : forallb is_digit (slice_to dp (len dp - k)) = true)
      by (apply forallb_slice; exact Hd).
    rewrite Atoi_digits; [|exact Hds|].
    - apply digits_value_prefix; [exact Hd|lia].
    - intros E. apply (f_equal length) in E. rewrite slice_to_length in E;
        unfold len in *; cbn in E; lia. }
  rewrite HA', HB'.
  set (P := 10 ^ k) in *. set (A' := V / P). set (B' := B / P) in *.
  assert (HAdm : A' * P <= V < A' * P + P).
  { pose proof (Z.div_mod V P ltac:(lia)). pose proof (Z.mod_pos_bound V P HP).
    unfold A'. lia. }
  assert (HBdm : B' * P <= B < B' * P + P).
  { pose proof (Z.div_mod B P ltac:(lia)). pose proof (Z.mod_pos_bound B P HP).
    unfold B'. lia. }
  assert (HB'pos : 1 <= B') by lia.
  assert (HA'pos : 0 <= A') by (apply Z.div_pos; lia).
  rewrite Z.quot_div_nonneg by lia.
  set (e := A' / B'). set (q := V / B).
  assert (Hedm : e * B' <= A' < e * B' + B').
  { pose proof (Z.div_mod A' B' ltac:(lia)). pose proof (Z.mod_pos_bound A' B' ltac:(lia)).
    unfold e. lia. }
  assert (Hqdm : q * B <= V < q * B + B).
  { pose proof (Z.div_mod V B ltac:(lia)). pose proof (Z.mod_pos_bound V B HBpos).
    unfold q. lia. }
  assert (Hq : 0 <= q <= 9).
  { split; [apply Z.div_pos; lia|].
    assert (q < 10) by (apply Z.div_lt_upper_bound; lia). lia. }
  assert (He0 : 0 <= e) by (apply Z.div_pos; lia).
  assert (Hbig : P = 1 \/ 10000 <= B').
  { assert (Hk0 : k = 0 \/ 0 < k) by lia. destruct Hk0 as [Hk0 | Hk0].
    - left. unfold P. rewrite Hk0. reflexivity.
    - right. assert (Hm5 : m = 5) by (unfold k, m in *; destruct (5 >? nb) eqn:E; zbool; lia).
      fold m in HB'lo. rewrite Hm5 in HB'lo.
      change (10 ^ (5 - 1)) with 10000 in HB'lo. exact HB'lo. }
  pose proof (guess_within_one V B P A' B' e q HP HB'pos HAdm HBdm Hedm Hqdm Hq He0 Hbig)
    as [Hlow Hup].
  exists e. rewrite to_byte_small by lia.
  split; [reflexivity|]. split; [lia|].
  intros Hepos.
  assert (1 * B' <= e * B') by (apply Z.mul_le_mono_nonneg_r; lia).
  assert (1 * P <= A' * P) by (apply Z.mul_le_mono_nonneg_r; lia).
  lia.
Qed.

Lemma natural_digits (x : BigFloat) :
  natural x ->
  forallb is_digit (Norm x) = true /\ canonical (Norm x) = true.
Proof.
  intros [-> | H]; [split; reflexivity|].
  apply positive_integer_fields in H as (_ & _ & _ & Hdig & d & rest & HN & Hd).
  split; [exact Hdig|]. rewrite HN. destruct rest; [reflexivity|]. cbn [canonical]. lia.
Qed.

Lemma remainder_operand (dp : list Z) :
  forallb is_digit dp = true -> canonical dp = true -> 0 < digits_value dp ->
  positive_integer (mkAnalysis dp 1 0 (len dp)) = true.
Proof.
  intros Hd Hc Hv. destruct (canonical_head dp Hc Hd Hv) as (d & rest & -> & Hne).
  unfold positive_integer. cbn [stranalyzer.Sign Decimals Len Norm]. rewrite Hd.
  change (ch "0") with 48. rewrite !andb_true_iff. repeat split; lia.
Qed.

(** Multiply, compare, fix the guess once, subtract: the result is the
    quotient digit and the remainder. *)
Lemma correct_digit_spec (env : loop_env) (dp : list Z) (e : Z) :
  division_env env ->
  forallb is_digit dp = true -> canonical dp = true ->
  0 < digits_value dp < 10 * divisor env ->
  e = digits_value dp / divisor env \/ e = digits_value dp / divisor env + 1 ->
  0 < e ->
  fst (correct_digit env dp e) = digits_value dp / divisor env
  /\ natural (snd (correct_digit env dp e))
  /\ digits_value (Norm (snd (correct_digit env dp e)))
     = digits_value dp - digits_value dp / divisor env * divisor env.
Proof.
  intros Henv Hd Hc HV He Hepos.
  pose proof (divisor_bounds env Henv) as (HB & Hnb).
  destruct Henv as (Hp & H1 & _).
  set (B := divisor env) in *. set (V := digits_value dp) in *.
  assert (HBpos : 0 < B) by (pose proof (pow10_pos (len (Norm (bCopy env)) - 1) ltac:(lia)); lia).
  set (q := V / B) in *.
  assert (Hqdm : q * B <= V < q * B + B).
  { pose proof (Z.div_mod V B ltac:(lia)). pose proof (Z.mod_pos_bound V B HBpos).
    unfold q. lia. }
  assert (Hq : 0 <= q <= 9).
  { split; [apply Z.div_pos; lia|].
    assert (q < 10) by (apply Z.div_lt_upper_bound; lia). lia. }
  unfold correct_digit, Copy.
  set (fProduct := if e >? 1 then MulInt64 (bCopy env) e else bCopy env).
  assert (HfP : positive_integer fProduct = true /\ digits_value (Norm fProduct) = e * B).
  { unfold fProduct. destruct (e >? 1) eqn:E1.
    - apply MulInt64_guess; try assumption. zbool. lia.
    - assert (e = 1) by (zbool; lia). subst e. split; [exact Hp|]. unfold B, divisor. lia. }
  destruct HfP as [HfP HfV].
  set (rem := mkAnalysis dp 1 0 (len dp)).
  assert (Hrem : positive_integer rem = true) by (apply remainder_operand; assumption || lia).
  pose proof (positive_integer_fields _ HfP) as (Hsf & _).
  pose proof (positive_integer_fields _ Hrem) as (Hsr & _).
  destruct (Compare_integers fProduct rem (positive_integer_operand _ HfP)
              (positive_integer_operand _ Hrem) Hsf Hsr) as [Hcmp _].
  rewrite Hcmp, HfV. change (digits_value (Norm rem)) with V.
  destruct (Z.sgn (e * B - V) =? 1) eqn:Es.
  - assert (Heq : e = q + 1).
    { destruct He as [He | He]; [|exact He]. exfalso. subst e.
      assert (0 < q * B - V) by (apply Z.sgn_pos_iff; lia). lia. }
    cbn [fst snd]. rewrite to_byte_small by lia. split; [lia|].
    destruct (Sub_integers fProduct (bCopy env) HfP (or_intror Hp)) as [Hn1 Hv1].
    { rewrite HfV. fold (divisor env). fold B. nia. }
    rewrite HfV in Hv1. fold (divisor env) in Hv1. fold B in Hv1.
    destruct (Sub_integers rem (Sub fProduct (bCopy env)) Hrem Hn1) as [Hn2 Hv2].
    { rewrite Hv1. change (digits_value (Norm rem)) with V. nia. }
    split; [exact Hn2|]. rewrite Hv2, Hv1. change (digits_value (Norm rem)) with V. nia.
  - assert (Heq : e = q).
    { destruct He as [He | He]; [exact He|]. exfalso.
      assert (Z.sgn (e * B - V) = 1) by (apply Z.sgn_pos; nia). lia. }
    cbn [fst snd]. split; [exact Heq|].
    destruct (Sub_integers rem fProduct Hrem (or_intror HfP)) as [Hn2 Hv2].
    { rewrite HfV. change (digits_value (Norm rem)) with V. nia. }
    split; [exact Hn2|]. rewrite Hv2, HfV. change (digits_value (Norm rem)) with V. nia.
Qed.

(** ** One iteration of the loop *)

Lemma next_divPart_spec (dp : list Z) (digit : Z) :
  forallb is_digit dp = true -> canonical dp = true -> is_digit digit = true ->
  forallb is_digit (next_divPart dp digit) = true
  /\ canonical (next_divPart dp digit) = true
  /\ digits_value (next_divPart dp digit) = 10 * digits_value dp + (digit - 48).
Proof.
  intros Hd Hc Hdig. unfold next_divPart. destruct (bytes_eqb dp [ch "0"]) eqn:E.
  - apply bytes_eqb_true in E. subst dp. cbn [forallb]. rewrite Hdig.
    split; [reflexivity|]. split; [reflexivity|].
    change (digits_value [ch "0"]) with 0. unfold digits_value. cbn [fold_left]. lia.
  - rewrite forallb_app, Hd. cbn [forallb]. rewrite Hdig.
    split; [reflexivity|]. split; [|apply digits_value_snoc].
    destruct dp as [|c [|c' rest]]; [reflexivity| |exact Hc].
    cbn [app canonical]. destruct (c =? 48) eqn:Ec; [|reflexivity].
    exfalso. assert (c = 48) by lia. subst c.
    unfold bytes_eqb in E. apply bool_decide_eq_false in E. apply E. reflexivity.
Qed.

Lemma next_digit_is_digit (env : loop_env) (st : loop_state) :
  forallb is_digit (aBuf env) = true -> 0 <= ls_i st ->
  is_digit (next_digit env st) = true.
Proof.
  intros Hd Hi. unfold next_digit. destruct (ls_i st >=? len (aBuf env)) eqn:E; [reflexivity|].
  rewrite forallb_forall in Hd. apply Hd. unfold idx. apply nth_In.
  unfold len in E. zbool. lia.
Qed.

(** What a continuing iteration does to the running remainder and to
    the emitted digits, in terms of the guess and its correction. *)
Lemma divmod_step_continue (env : loop_env) (st st' : loop_state) :
  divmod_step env st = Continue st' ->
  let dp := next_divPart (divPart st) (next_digit env st) in
  exists e,
    estimate env dp = Some e
    /\ ls_i st' = ls_i st + 1
    /\ exists d dpn,
         (if e >? 0
          then d = fst (correct_digit env dp e) /\ dpn = Norm (snd (correct_digit env dp e))
          else d = e /\ dpn = dp)
         /\ divPart st' = dpn
         /\ (result st' = result st \/ result st' = result st ++ [d]
             \/ result st' = result st ++ [0; d])
         /\ (result st' = result st -> d <= 0).
Proof.
  unfold divmod_step, next_divPart, next_digit.
  destruct st as [i dp bDec map repInd dec lastRem rem shared res].
  cbn [ls_i divPart result].
  repeat case_match; simplify_eq; intros H; simplify_eq; cbn [ls_i divPart result];
    eexists; (split; [eassumption|]); (split; [reflexivity|]);
    match goal with
    | Hz : (?z >? 0) = _ |- context [if ?z >? 0 then _ else _] => rewrite Hz
    end;
    try match goal with
        | Hc : correct_digit _ _ _ = _ |- _ => rewrite Hc; cbn [fst snd]
        end;
    eexists _, _; (split; [split; reflexivity|]); (split; [reflexivity|]);
    rewrite <- ?app_assoc; cbn [app];
    (split; [auto|]); try (intros _; zbool; lia);
    intros Hres; apply (f_equal length) in Hres; rewrite ?length_app in Hres;
    cbn [length] in Hres; lia.
Qed.

(** The digit computed at a state that satisfies the invariant. *)
Lemma quotient_digit_facts (env : loop_env) (st : loop_state) :
  division_env env -> division_invariant env st ->
  let dp := next_divPart (divPart st) (next_digit env st) in
  let q := digits_value dp / divisor env in
  forallb is_digit dp = true /\ canonical dp = true
  /\ 0 <= digits_value dp < 10 * divisor env
  /\ 0 <= q <= 9
  /\ 0 <= digits_value dp - q * divisor env < divisor env
  /\ exists e,
       estimate env dp = Some e
       /\ (e = q \/ e = q + 1)
       /\ (0 < e ->
           fst (correct_digit env dp e) = q
           /\ natural (snd (correct_digit env dp e))
           /\ digits_value (Norm (snd (correct_digit env dp e)))
              = digits_value dp - q * divisor env)
       /\ (e <= 0 -> e = 0 /\ q = 0).
Proof.
  intros Henv (Hi & Hd & Hc & Hv & _) dp q.
  pose proof (next_digit_is_digit env st (proj2 (proj2 (proj2 (proj2 Henv)))) Hi) as Hdig.
  destruct (next_divPart_spec (divPart st) (next_digit env st) Hd Hc Hdig) as (Hd' & Hc' & HV).
  fold dp in Hd', Hc', HV.
  assert (Hrange : 0 <= digits_value dp < 10 * divisor env)
    by (unfold is_digit in Hdig; lia).
  assert (HBpos : 0 < divisor env) by lia.
  assert (Hqdm : q * divisor env <= digits_value dp < q * divisor env + divisor env).
  { pose proof (Z.div_mod (digits_value dp) (divisor env) ltac:(lia)).
    pose proof (Z.mod_pos_bound (digits_value dp) (divisor env) HBpos). unfold q. lia. }
  assert (Hq : 0 <= q <= 9).
  { split; [apply Z.div_pos; lia|].
    assert (q < 10) by (apply Z.div_lt_upper_bound; lia). lia. }
  split; [exact Hd'|]. split; [exact Hc'|]. split; [exact Hrange|].
  split; [exact Hq|]. split; [lia|].
  destruct (estimate_spec env dp Henv Hd' Hrange) as (e & He & Hcase & Hpos).
  fold q in Hcase. exists e. split; [exact He|]. split; [exact Hcase|]. split.
  - intros Hepos. apply correct_digit_spec; try assumption.
    specialize (Hpos Hepos). lia.
  - intros Hle. lia.
Qed.

Lemma divmod_step_division (env : loop_env) (st st' : loop_state) :
  division_env env -> division_invariant env st ->
  divmod_step env st = Continue st' ->
  let dp := next_divPart (divPart st) (next_digit env st) in
  let q := digits_value dp / divisor env in
  division_invariant env st'
  /\ digits_value (divPart st') = digits_value dp - q * divisor env
  /\ (result st' = result st /\ q = 0
      \/ result st' = result st ++ [q] \/ result st' = result st ++ [0; q]).
Proof.
  intros Henv Hinv Hstep dp q.
  destruct (quotient_digit_facts env st Henv Hinv)
    as (Hd & Hc & HV & Hq & Hr & e & He & Hcase & Hpos & Hzero).
  fold dp in Hd, Hc, HV, Hq, Hr, He, Hcase, Hpos, Hzero.
  fold q in Hq, Hr, Hcase, Hpos, Hzero.
  destruct (divmod_step_continue env st st' Hstep) as (e' & He' & Hi' & d & dpn & Hd' & Hdp & Hres & Hskip).
  fold dp in He', Hd'. rewrite He in He'. injection He' as <-.
  destruct Hinv as (Hi & _ & _ & _ & Hsmall).
  assert (Hdq : d = q /\ forallb is_digit dpn = true /\ canonical dpn = true
                /\ digits_value dpn = digits_value dp - q * divisor env).
  { destruct (e >? 0) eqn:E.
    - destruct Hd' as [-> ->]. destruct (Hpos ltac:(zbool; lia)) as (H1 & H2 & H3).
      destruct (natural_digits _ H2). auto.
    - destruct Hd' as [-> ->]. destruct (Hzero ltac:(zbool; lia)) as [-> H0].
      rewrite H0. repeat split; try assumption; lia. }
  destruct Hdq as (-> & Hdn & Hcn & Hvn).
  split; [|split].
  - unfold division_invariant. rewrite Hdp, Hi'. repeat split; try assumption; try lia.
    destruct Hres as [-> | [-> | ->]]; [exact Hsmall| |];
      apply small_app; (split; [exact Hsmall|]); repeat constructor; lia.
  - rewrite Hdp. exact Hvn.
  - destruct Hres as [Hres | [Hres | Hres]]; [left|right; left|right; right]; try exact Hres.
    split; [exact Hres|]. specialize (Hskip Hres). lia.
Qed.

Lemma reachable_division (env : loop_env) (st0 st : loop_state) :
  division_env env -> division_invariant env st0 ->
  reachable env st0 st -> division_invariant env st.
Proof.
  intros Henv H0 Hr. induction Hr as [|st st' _ IH Hstep]; [exact H0|].
  apply (divmod_step_division env st st' Henv IH Hstep).
Qed.

(** ** The loop as [divmod] starts it *)

Lemma divmod_env_division (x y : BigFloat) (ro : divOptionsType) :
  positive_integer x = true -> positive_integer y = true ->
  IsInt64 y 1 = false ->
  division_env (divmod_env x y ro).
Proof.
  intros Ha Hb H1. unfold division_env, divmod_env.
  cbn [bCopy cmpStr divPart2Int aBuf].
  apply positive_integer_fields in Ha as (_ & _ & _ & Hdig & _). auto.
Qed.

Lemma divmod_init_division (x y remainder : BigFloat) (ro : divOptionsType) :
  positive_integer x = true -> positive_integer y = true ->
  IsInt64 y 1 = false ->
  division_invariant (divmod_env x y ro) (divmod_init x y remainder).
Proof.
  intros Ha Hb H1.
  pose proof (divisor_bounds _ (divmod_env_division x y ro Ha Hb H1)) as (HB & Hnb).
  unfold division_invariant, divmod_init. cbn [ls_i divPart result].
  change (bCopy (divmod_env x y ro)) with y in *.
  apply positive_integer_fields in Ha as (_ & _ & _ & Hdig & d & rest & HN & Hd).
  apply positive_integer_fields in Hb as (_ & _ & HL & _).
  set (initLen := if Len y - 1 >? len (Norm x) then len (Norm x) else Len y - 1).
  pose proof (len_nonneg (Norm x)).
  assert (Hil : 0 <= initLen <= len (Norm x) /\ initLen <= len (Norm y) - 1).
  { unfold initLen. destruct (_ >? _) eqn:E; zbool; lia. }
  assert (Hpre : forallb is_digit (slice_to (Norm x) initLen) = true)
    by (apply forallb_slice; exact Hdig).
  split; [lia|]. split; [exact Hpre|]. split; [|split; [|constructor]].
  - rewrite HN. unfold slice_to. destruct (Z.to_nat initLen) as [|[|n]]; [reflexivity| |].
    + cbn [firstn]. reflexivity.
    + cbn [firstn]. destruct rest; cbn [firstn canonical]; [reflexivity|lia].
  - pose proof (digits_value_bounds _ Hpre) as Hb.
    assert (Hlen : len (slice_to (Norm x) initLen) = initLen).
    { unfold len. rewrite slice_to_length; unfold len in *; lia. }
    rewrite Hlen in Hb.
    assert (10 ^ initLen <= 10 ^ (len (Norm y) - 1)) by (apply Z.pow_le_mono_r; lia).
    lia.
Qed.

(** C3: at every iteration of the long-division loop -- from the state
    [divmod] starts with, for operands that are not zero and a shifted
    divisor other than 1 -- the running remainder is a number below the
    divisor and the emitted digits are decimal digits; [divPart] with
    the next digit taken in is below ten times the divisor; the guess
    from the leading digits is the quotient digit [q] or [q + 1]; a
    positive guess is corrected to [q] with the remainder
    [divPart - q * divisor], a guess of 0 is [q]; and an iteration that
    continues leaves that remainder as the new [divPart] and emits [q],
    unless [q] is a leading zero. *)
Theorem quotient_digit_correct (a b remainder : BigFloat) (ro : divOptionsType)
    (st : loop_state) :
  invariants a = true -> invariants b = true ->
  magnitude_zero a = false -> magnitude_zero b = false ->
  IsInt64 (snd (shifted a b)) 1 = false ->
  let env := divmod_env (fst (shifted a b)) (snd (shifted a b)) ro in
  reachable env (divmod_init (fst (shifted a b)) (snd (shifted a b)) remainder) st ->
  let dp := next_divPart (divPart st) (next_digit env st) in
  let q := digits_value dp / divisor env in
  (0 <= digits_value (divPart st) < divisor env /\ small (result st))
  /\ 0 <= digits_value dp < 10 * divisor env
  /\ 0 <= q <= 9
  /\ (exists e,
        estimate env dp = Some e
        /\ (e = q \/ e = q + 1)
        /\ (0 < e ->
            fst (correct_digit env dp e) = q
            /\ digits_value (Norm (snd (correct_digit env dp e)))
               = digits_value dp - q * divisor env)
        /\ (e <= 0 -> e = 0 /\ q = 0))
  /\ 0 <= digits_value dp - q * divisor env < divisor env
  /\ forall st',
       divmod_step env st = Continue st' ->
       digits_value (divPart st') = digits_value dp - q * divisor env
       /\ (result st' = result st /\ q = 0
           \/ result st' = result st ++ [q] \/ result st' = result st ++ [0; q]).
Proof.
  intros Ha Hb Hza Hzb H1 env Hreach dp q.
  pose proof (shifted_dividend a b Ha Hb Hza) as Hpa.
  pose proof (shifted_divisor a b Ha Hb Hzb) as Hpb.
  pose proof (divmod_env_division _ _ ro Hpa Hpb H1) as Henv. fold env in Henv.
  pose proof (divmod_init_division _ _ remainder ro Hpa Hpb H1) as Hinit. fold env in Hinit.
  pose proof (reachable_division env _ st Henv Hinit Hreach) as Hinv.
  destruct (quotient_digit_facts env st Henv Hinv)
    as (_ & _ & HV & Hq & Hr & e & He & Hcase & Hpos & Hzero).
  split; [destruct Hinv as (_ & _ & _ & Hv & Hs); split; assumption|].
  split; [exact HV|]. split; [exact Hq|]. split.
  - exists e. split; [exact He|]. split; [exact Hcase|]. split; [|exact Hzero].
    intros Hepos. destruct (Hpos Hepos) as (P1 & _ & P3). split; assumption.
  - split; [exact Hr|]. intros st' Hstep.
    apply (divmod_step_division env st st' Henv Hinv Hstep).
Qed.

Lemma quotient_digit_correct_witness :
  let env := divmod_env (fst (shifted (parse "100") (parse "-0.7")))
               (snd (shifted (parse "100") (parse "-0.7"))) default_divOptions in
  let st := divmod_init (fst (shifted (parse "100") (parse "-0.7")))
              (snd (shifted (parse "100") (parse "-0.7"))) empty in
  let dp := next_divPart (divPart st) (next_digit env st) in
  let q := digits_value dp / divisor env in
  (0 <= digits_value (divPart st) < divisor env /\ small (result st))
  /\ 0 <= digits_value dp < 10 * divisor env
  /\ 0 <= q <= 9
  /\ (exists e,
        estimate env dp = Some e
        /\ (e = q \/ e = q + 1)
        /\ (0 < e ->
            fst (correct_digit env dp e) = q
            /\ digits_value (Norm (snd (correct_digit env dp e)))
               = digits_value dp - q * divisor env)
        /\ (e <= 0 -> e = 0 /\ q = 0))
  /\ 0 <= digits_value dp - q * divisor env < divisor env
  /\ forall st',
       divmod_step env st = Continue st' ->
       digits_value (divPart st') = digits_value dp - q * divisor env
       /\ (result st' = result st /\ q = 0
           \/ result st' = result st ++ [q] \/ result st' = result st ++ [0; q]).
Proof.
  apply (quotient_digit_correct (parse "100") (parse "-0.7") empty default_divOptions);
    [vm_compute; reflexivity | vm_compute; reflexivity | vm_compute; reflexivity
    | vm_compute; reflexivity | vm_compute; reflexivity | apply reachable_init].
Defined.

(** ** The analyzer on literals without exponent *)

Lemma slice_to_app_l {A : Type} (l1 l2 : list A) (n : Z) :
  n <= len l1 -> slice_to (l1 ++ l2) n = slice_to l1 n.
Proof.
  intros H. unfold slice_to, len in *. rewrite firstn_app.
  replace (Z.to_nat n - length l1)%nat with 0%nat by lia.
  simpl. apply app_nil_r.
Qed.

Lemma canonical_snoc_head (nb : list Z) (c : Z) :
  match nb with d :: _ => d <> 48 | [] => True end -> (nb = [] -> c <> 48 \/ True) ->
  canonical (nb ++ [c]) = true \/ nb = [].
Proof.
  destruct nb as [|d nb]; [now right|]. intros H _. left.
  simpl. destruct (nb ++ [c]) eqn:E; [destruct nb; discriminate|].
  apply negb_true_iff. apply Z.eqb_neq. exact H.
Qed.







Lemma scan_rune_position (i j c : Z) (st : scanner) :
  match scan_rune i c st, scan_rune j c st with
  | inl a, inl b => a = b
  | inr _, inr _ => True
  | _, _ => False
  end.
Proof.
  destruct st as [sf sg dpf ef es esf df nz nb eb al ad].
  unfold scan_rune; cbv beta iota zeta.
  repeat match goal with
         | |- context [if ?b then _ else _] => destruct b
         end; auto.
Qed.

Lemma scan_position (r : list Z) :
  forall (i j : Z) (st : scanner),
    match scan r i st, scan r j st with
    | inl a, inl b => a = b
    | inr _, inr _ => True
    | _, _ => False
    end.
Proof.
  induction r as [|c r IH]; intros i j st; cbn [scan]; [reflexivity|].
  pose proof (scan_rune_position i j c st) as H.
  destruct (scan_rune i c st) as [a|e], (scan_rune j c st) as [b|e']; try contradiction; auto.
  subst b. apply IH.
Qed.

Lemma scan_rune_skipped (i c : Z) (st : scanner) :
  skipped c = true -> scan_rune i c st = inl st.
Proof.
  intros H. destruct st as [sf sg dpf ef es esf df nz nb eb al ad].
  unfold scan_rune; cbv beta iota zeta.
  unfold skipped in H.
  destruct (negb (visible c)) eqn:V; [reflexivity|].
  simpl in H. apply Z.eqb_eq in H. subst c. reflexivity.
Qed.

Lemma scan_app (r1 r2 : list Z) :
  forall (i : Z) (st : scanner),
    scan (r1 ++ r2) i st
    = match scan r1 i st with
      | inl st1 => scan r2 (i + len r1) st1
      | inr e => inr e
      end.
Proof.
  induction r1 as [|c r1 IH]; intros i st; cbn [scan app].
  - change (len (@nil Z)) with 0. rewrite Z.add_0_r. reflexivity.
  - destruct (scan_rune i c st) as [st1|e]; [|reflexivity].
    rewrite IH. rewrite len_cons. replace (i + 1 + len r1) with (i + (1 + len r1)) by lia.
    reflexivity.
Qed.

Lemma runes_app (s1 s2 : string) : runes (s1 ++ s2) = runes s1 ++ runes s2.
Proof.
  unfold runes. induction s1 as [|c s1 IH]; simpl; [reflexivity|].
  f_equal. exact IH.
Qed.

(** X2: a space or a non-graphic rune may stand anywhere in a literal:
    [Analyze] gives the same value (or panics alike, or fails alike, the
    position in the message apart) as without it. *)
Theorem Analyze_skips_blanks (s1 s2 : string) (c : ascii) :
  skipped (ch c) = true ->
  same_outcome (Analyze (s1 ++ String.String c s2)) (Analyze (s1 ++ s2)).
Proof.
  intros Hc. unfold Analyze. rewrite !runes_app. rewrite !scan_app.
  destruct (scan (runes s1) 0 scanner0) as [st1|e]; [|exact I].
  change (runes (String.String c s2)) with (ch c :: runes s2). cbn [scan].
  rewrite scan_rune_skipped by exact Hc.
  pose proof (scan_position (runes s2) (0 + len (runes s1) + 1) (0 + len (runes s1)) st1) as H.
  destruct (scan (runes s2) (0 + len (runes s1) + 1) st1) as [a|e1],
           (scan (runes s2) (0 + len (runes s1)) st1) as [b|e2]; try contradiction.
  - subst b. unfold same_outcome. destruct (finish a); auto.
  - exact I.
Qed.

Lemma Analyze_skips_blanks_witness :
  same_outcome (Analyze ("- 1" ++ String.String " " "000.5")) (Analyze ("- 1" ++ "000.5")).
Proof. apply (Analyze_skips_blanks "- 1" "000.5" " "). vm_compute; reflexivity. Defined.

Lemma scan_rune_no_digit (i c : Z) (st st' : scanner) :
  IsDigit c = false -> digitFound st = false ->
  scan_rune i c st = inl st' -> digitFound st' = false.
Proof.
  destruct st as [sf sg dpf ef es esf df nz nb eb al ad]. cbn [digitFound].
  intros Hc -> H. unfold scan_rune in H; cbv beta iota zeta in H. rewrite Hc in H.
  repeat match type of H with
         | context [if ?b then _ else _] => destruct b
         end; try discriminate; injection H; intros <-; reflexivity.
Qed.

Lemma scan_no_digit (r : list Z) :
  forallb (fun c => negb (IsDigit c)) r = true ->
  forall (i : Z) (st st' : scanner),
    digitFound st = false -> scan r i st = inl st' -> digitFound st' = false.
Proof.
  induction r as [|c r IH]; intros Hr i st st' Hdf H; cbn [scan forallb] in *.
  - injection H; intros <-. exact Hdf.
  - apply andb_true_iff in Hr as [Hc Hr]. apply negb_true_iff in Hc.
    destruct (scan_rune i c st) as [st1|e] eqn:E; [|discriminate].
    eapply IH; [exact Hr| |exact H]. eapply scan_rune_no_digit; eauto.
Qed.

(** X3: a text without a decimal digit, the empty text included, is
    rejected with an error. *)
Theorem Analyze_needs_digit (s : string) :
  forallb (fun c => negb (IsDigit c)) (runes s) = true ->
  exists e : ParseError, Analyze s = Failed e.
Proof.
  intros Hs. unfold Analyze.
  destruct (scan (runes s) 0 scanner0) as [st|e] eqn:E; [|eexists; reflexivity].
  assert (Hdf : digitFound st = false).
  { eapply scan_no_digit; [exact Hs| |exact E]. reflexivity. }
  destruct st as [sf sg dpf ef es esf df nz nb eb al ad]. cbn [digitFound] in Hdf. subst df.
  unfold finish. destruct (ef && bytes_eqb eb []); eexists; reflexivity.
Qed.

Lemma Analyze_needs_digit_witness :
  exists e : ParseError, Analyze "-." = Failed e.
Proof. apply (Analyze_needs_digit "-."). vm_compute; reflexivity. Defined.

(** ** The decimal text of an integer *)

Lemma string_of_bytes_runes (s : string) : string_of_bytes (runes s) = s.
Proof.
  unfold string_of_bytes, runes. induction s as [|c s IH]; simpl; [reflexivity|].
  f_equal; [|exact IH].
  unfold byte_to_ascii, ch. rewrite N2Z.id. apply ascii_N_embedding.
Qed.

Lemma uint_digits (d : Decimal.uint) :
  forallb is_digit (runes (NilEmpty.string_of_uint d)) = true
  /\ forall acc : positive,
       fold_left (fun acc c => 10 * acc + (c - 48)) (runes (NilEmpty.string_of_uint d))
         (Z.pos acc)
       = Z.pos (Pos.of_uint_acc d acc).
Proof.
  induction d as [|d [IH1 IH2]|d [IH1 IH2]|d [IH1 IH2]|d [IH1 IH2]|d [IH1 IH2]
                  |d [IH1 IH2]|d [IH1 IH2]|d [IH1 IH2]|d [IH1 IH2]|d [IH1 IH2]];
    (split; [try reflexivity; exact IH1|]); intros acc; try reflexivity;
    cbn [NilEmpty.string_of_uint Pos.of_uint_acc];
    unfold runes; cbn [list_ascii_of_string map fold_left];
    fold (runes (NilEmpty.string_of_uint d)); rewrite <- IH2; f_equal;
    match goal with |- context [ch ?c] =>
      let v := eval vm_compute in (ch c) in change (ch c) with v end; lia.
Qed.

Lemma unorm_head (l : Decimal.uint) :
  match Decimal.unorm l with Decimal.D0 l' => l' = Decimal.Nil | _ => True end.
Proof. induction l; simpl; auto. Qed.

(** The decimal text of a positive number: digits, the first of them
    not ['0'], that read back as the number. *)
Lemma to_uint_digits (p : positive) :
  exists c rest,
    runes (NilZero.string_of_uint (Pos.to_uint p)) = c :: rest
    /\ c <> 48 /\ forallb is_digit (c :: rest) = true
    /\ digits_value (c :: rest) = Z.pos p.
Proof.
  pose proof (DecimalPos.Unsigned.of_to p) as Hof.
  pose proof (DecimalPos.Unsigned.to_uint_nonzero p) as Hnz.
  pose proof (DecimalPos.Unsigned.to_of (Pos.to_uint p)) as Hto.
  rewrite Hof in Hto. change (N.to_uint (N.pos p)) with (Pos.to_uint p) in Hto.
  pose proof (unorm_head (Pos.to_uint p)) as Hh. rewrite <- Hto in Hh.
  destruct (uint_digits (Pos.to_uint p)) as [Hd _].
  destruct (Pos.to_uint p) as [|d|d|d|d|d|d|d|d|d|d] eqn:E;
    [discriminate Hof | subst d; contradiction | | | | | | | | |];
    cbn [NilZero.string_of_uint NilEmpty.string_of_uint];
    unfold runes; cbn [list_ascii_of_string map];
    fold (runes (NilEmpty.string_of_uint d));
    (eexists; eexists; split; [reflexivity|]);
    (split; [vm_compute; discriminate|]);
    (split; [exact Hd|]);
    cbn [Pos.of_uint] in Hof; injection Hof; intros Hp;
    unfold digits_value; cbn [fold_left];
    destruct (uint_digits d) as [_ Hv]; 
    match goal with |- fold_left _ _ ?a = _ => 
      let a' := eval vm_compute in a in change a with a' end;
    rewrite Hv, Hp; reflexivity.
Qed.

Lemma Analyze_integer_text (c : Z) (rest : list Z) (neg : bool) (s : string) :
  runes s = (if neg then [ch "-"] else []) ++ c :: rest ->
  c <> 48 -> forallb is_digit (c :: rest) = true ->
  Analyze s = Parsed (mkAnalysis (c :: rest) (if neg then -1 else 1) 0 (len (c :: rest))).
Proof.
  intros Hs Hc Hd. unfold Analyze. rewrite Hs.
  assert (Hcan : match c :: rest with d :: _ :: _ => negb (d =? ch "0") | _ => true end = true).
  { destruct rest; [reflexivity|]. apply negb_true_iff, Z.eqb_neq. exact Hc. }
  assert (Hne : c :: rest <> []) by discriminate.
  assert (Hz : all_zero (c :: rest) = false).
  { unfold all_zero. cbn [forallb]. change (ch "0") with 48.
    replace (c =? 48) with false by lia. reflexivity. }
  assert (Hscan : exists sf,
    scan ((if neg then [ch "-"] else []) ++ c :: rest) 0 scanner0
    = scan (c :: rest) (if neg then 1 else 0)
        (mkScanner sf (if neg then -1 else 1) false false 1 false false false [] [] 0 0)).
  { destruct neg.
    - exists true. apply scan_sign_minus.
    - exists false. reflexivity. }
  destruct Hscan as [sf ->].
  destruct (scan_rendering (c :: rest) [] (if neg then 1 else 0) sf (if neg then -1 else 1)
              Hd eq_refl Hcan Hne) as (nb & al & Hsc & Hfin).
  change (len (@nil Z) >? 0) with false in Hsc. cbv iota in Hsc.
  rewrite app_nil_r in Hsc. rewrite Hsc.
  rewrite (finish_rendering _ _ _ _ _ _ _ _ _ Hfin). rewrite Hz.
  rewrite app_nil_r. change (len (@nil Z)) with 0. rewrite Z.add_0_r.
  destruct neg; reflexivity.
Qed.

Lemma wellformed_integer (c : Z) (rest : list Z) (s : Z) :
  c <> 48 -> forallb is_digit (c :: rest) = true -> s = 1 \/ s = -1 ->
  wellformed (mkAnalysis (c :: rest) s 0 (len (c :: rest))) = true.
Proof.
  intros Hc Hd Hs.
  unfold wellformed, invariants, digits_ok, I1, I2, I3, I4, has_integer_digit, all_zero.
  cbn [Norm stranalyzer.Sign Decimals Len]. rewrite Hd.
  rewrite Z.sub_0_r, slice_to_all. rewrite len_cons. pose proof (len_nonneg rest).
  cbn [forallb]. change (ch "0") with 48. replace (c =? 48) with false by lia.
  repeat (apply andb_true_iff; split); try lia; try reflexivity.
  destruct rest; reflexivity.
Qed.

(** [SetInt64] builds the integer [n] and [String] prints it back. *)
Lemma SetInt64_spec (f : BigFloat) (n : Z) :
  wellformed (SetInt64 f n) = true
  /\ Decimals (SetInt64 f n) = 0
  /\ scaled (SetInt64 f n) 0 = n
  /\ String (SetInt64 f n) = FormatInt n.
Proof.
  destruct n as [|p|p].
  - rewrite SetInt64_0. repeat split; vm_compute; reflexivity.
  - destruct (to_uint_digits p) as (c & rest & Hr & Hc & Hd & Hv).
    assert (HA : Analyze (FormatInt (Z.pos p))
                 = Parsed (mkAnalysis (c :: rest) 1 0 (len (c :: rest)))).
    { apply (Analyze_integer_text c rest false); auto. }
    unfold SetInt64, SetString. rewrite HA.
    split; [|split; [reflexivity|split]].
    + apply wellformed_integer; auto.
    + unfold scaled. cbn [Norm stranalyzer.Sign Decimals]. rewrite Hv. 
      change (10 ^ (0 - 0)) with 1. lia.
    + unfold String, StringWith, StringWith_bytes.
      cbn [Norm stranalyzer.Sign Decimals Len fold_left ForceSign andb].
      change (1 =? -1) with false. change (0 >? 0) with false. cbv iota.
      rewrite Z.sub_0_r, slice_to_all, app_nil_r. cbn [app].
      rewrite <- Hr. apply string_of_bytes_runes.
  - destruct (to_uint_digits p) as (c & rest & Hr & Hc & Hd & Hv).
    assert (HA : Analyze (FormatInt (Z.neg p))
                 = Parsed (mkAnalysis (c :: rest) (-1) 0 (len (c :: rest)))).
    { apply (Analyze_integer_text c rest true); auto.
      unfold FormatInt. cbn [Z.to_int NilZero.string_of_int].
      change (runes (String.String "-" ?s)) with (ch "-" :: runes s).
      rewrite Hr. reflexivity. }
    unfold SetInt64, SetString. rewrite HA.
    split; [|split; [reflexivity|split]].
    + apply wellformed_integer; auto.
    + unfold scaled. cbn [Norm stranalyzer.Sign Decimals]. rewrite Hv. 
      change (10 ^ (0 - 0)) with 1. lia.
    + unfold String, StringWith, StringWith_bytes.
      cbn [Norm stranalyzer.Sign Decimals Len fold_left ForceSign andb].
      change (-1 =? -1) with true. change (0 >? 0) with false. cbv iota.
      rewrite Z.sub_0_r, slice_to_all, app_nil_r. 
      unfold FormatInt. cbn [Z.to_int NilZero.string_of_int].
      change ([ch "-"] ++ c :: rest) with (ch "-" :: c :: rest).
      rewrite <- Hr.
      change (ch "-" :: runes ?s) with (runes (String.String "-" s)).
      apply string_of_bytes_runes.
Qed.

(** X4: [SetInt64] builds the well-formed integer value [n], whatever
    the receiver held, and [String] prints it as [strconv.FormatInt]
    does. *)
Theorem SetInt64_String (f : BigFloat) (n : Z) :
  wellformed (SetInt64 f n) = true
  /\ Decimals (SetInt64 f n) = 0
  /\ scaled (SetInt64 f n) 0 = n
  /\ String (SetInt64 f n) = FormatInt n.
Proof. exact (SetInt64_spec f n). Qed.

(** ** Sign, decimals and powers of ten on well-formed values *)

Lemma wellformed_elim (f : BigFloat) :
  wellformed f = true ->
  forallb is_digit (Norm f) = true
  /\ Len f = len (Norm f)
  /\ 0 <= Decimals f < Len f
  /\ (stranalyzer.Sign f = 1 \/ stranalyzer.Sign f = -1)
  /\ (all_zero (Norm f) = true -> stranalyzer.Sign f = 1)
  /\ canonical (slice_to (Norm f) (Len f - Decimals f)) = true.
Proof.
  unfold wellformed. intros H. apply andb_true_iff in H as [Hinv Hint].
  apply invariants_fields in Hinv as (Hd & H1 & H2 & H3 & H4).
  unfold digits_ok, I1, I2, I3, I4, has_integer_digit in *.
  apply andb_true_iff in H1 as [H1 H1']. apply andb_true_iff in H2 as [H2 H2'].
  apply andb_true_iff in H3 as [H3 H3'].
  repeat split; try lia; auto.
Qed.

Lemma wellformed_intro (f : BigFloat) :
  forallb is_digit (Norm f) = true ->
  Len f = len (Norm f) ->
  0 <= Decimals f < Len f ->
  stranalyzer.Sign f = 1 \/ stranalyzer.Sign f = -1 ->
  (all_zero (Norm f) = true -> stranalyzer.Sign f = 1) ->
  canonical (slice_to (Norm f) (Len f - Decimals f)) = true ->
  wellformed f = true.
Proof.
  intros Hd Hl Hdec Hs Hz Hc.
  unfold wellformed, invariants, digits_ok, I1, I2, I3, I4, has_integer_digit.
  rewrite Hd. unfold canonical in Hc. change (ch "0") with 48. rewrite Hc.
  repeat (apply andb_true_iff; split); try lia; try reflexivity.
Qed.

Lemma wellformed_invariants (f : BigFloat) :
  wellformed f = true -> invariants f = true /\ has_integer_digit f = true.
Proof. unfold wellformed. intros H. apply andb_true_iff in H. exact H. Qed.

Lemma wellformed_with_Sign_1 (f : BigFloat) :
  wellformed f = true -> wellformed (with_Sign f 1) = true.
Proof.
  intros H. apply wellformed_elim in H as (Hd & Hl & Hdec & Hs & Hz & Hc).
  apply wellformed_intro; cbn [with_Sign Norm Len Decimals stranalyzer.Sign]; auto.
Qed.

(** What [Sign] does on a value whose fields are well-formed up to the
    sign: the zero test of the source is the test of the digits. *)
Lemma Sign_wellformed (f : BigFloat) (s : Z) :
  wellformed (with_Sign f 1) = true -> s = 1 \/ s = -1 ->
  bigfloat.Sign f s = with_Sign f (if all_zero (Norm f) then 1 else s)
  /\ wellformed (bigfloat.Sign f s) = true.
Proof.
  intros Hw Hs.
  assert (HZ : IsZero (with_Sign f 1) = all_zero (Norm f)).
  { rewrite <- IsInt64_0_knot.
    destruct (wellformed_invariants _ Hw) as [Hi Hh].
    rewrite (IsInt64_0_magnitude _ Hi Hh). reflexivity. }
  assert (E : bigfloat.Sign f s = with_Sign f (if all_zero (Norm f) then 1 else s)).
  { unfold bigfloat.Sign, Sign_body. destruct Hs as [-> | ->].
    - change (1 =? -1) with false. cbv iota. destruct (all_zero (Norm f)); reflexivity.
    - change (-1 =? -1) with true. cbv iota zeta. rewrite HZ.
      destruct (all_zero (Norm f)); reflexivity. }
  split; [exact E|]. rewrite E.
  apply wellformed_elim in Hw as (Hd & Hl & Hdec & _ & _ & Hc).
  cbn [with_Sign Norm Len Decimals stranalyzer.Sign] in *.
  apply wellformed_intro; cbn [with_Sign Norm Len Decimals stranalyzer.Sign]; auto.
  - destruct (all_zero (Norm f)); [left; reflexivity|exact Hs].
  - intros ->. reflexivity.
Qed.

Lemma with_Sign_same (f : BigFloat) : with_Sign f (stranalyzer.Sign f) = f.
Proof. destruct f; reflexivity. Qed.

(** X5: on a well-formed value [Neg] is an involution; it leaves zero
    as it is and flips the sign of every other value, keeping the
    digits, and its result is well-formed. *)
Theorem Neg_involutive (f : BigFloat) :
  wellformed f = true ->
  Neg (Neg f) = f
  /\ wellformed (Neg f) = true
  /\ Norm (Neg f) = Norm f /\ Decimals (Neg f) = Decimals f
  /\ (magnitude_zero f = true -> Neg f = f)
  /\ (magnitude_zero f = false -> stranalyzer.Sign (Neg f) = - stranalyzer.Sign f).
Proof.
  intros Hw. pose proof (wellformed_with_Sign_1 f Hw) as Hw1.
  pose proof (wellformed_elim f Hw) as (Hd & Hl & Hdec & Hs & Hz & Hc).
  assert (Hs' : stranalyzer.Sign f * -1 = 1 \/ stranalyzer.Sign f * -1 = -1) by lia.
  destruct (Sign_wellformed f _ Hw1 Hs') as [E Hwn].
  assert (EN : Neg f = with_Sign f (if all_zero (Norm f) then 1 else stranalyzer.Sign f * -1))
    by exact E.
  unfold magnitude_zero. rewrite EN.
  split; [|split; [rewrite <- EN; exact Hwn|split; [reflexivity|split; [reflexivity|split]]]].
  - set (g := with_Sign f (if all_zero (Norm f) then 1 else stranalyzer.Sign f * -1)).
    assert (Hg1 : wellformed (with_Sign g 1) = true) by exact Hw1.
    assert (Hsg : stranalyzer.Sign g * -1 = 1 \/ stranalyzer.Sign g * -1 = -1).
    { subst g. cbn [with_Sign stranalyzer.Sign]. destruct (all_zero (Norm f)); lia. }
    destruct (Sign_wellformed g _ Hg1 Hsg) as [E2 _]. unfold Neg. rewrite E2.
    subst g. clear - Hz Hs. destruct f as [N S D L].
    unfold with_Sign; cbn [Norm Len Decimals stranalyzer.Sign] in *. f_equal.
    destruct (all_zero N); [symmetry; auto|lia].
  - intros Ez. rewrite Ez. clear - Hz Ez. destruct f as [N S D L].
    unfold with_Sign; cbn [Norm Len Decimals stranalyzer.Sign] in *. f_equal. symmetry; auto.
  - intros Ez. rewrite Ez. cbn [with_Sign stranalyzer.Sign]. lia.
Qed.

Lemma Neg_involutive_witness :
  Neg (Neg (parse "-12.50")) = parse "-12.50"
  /\ wellformed (Neg (parse "-12.50")) = true
  /\ Norm (Neg (parse "-12.50")) = Norm (parse "-12.50")
  /\ Decimals (Neg (parse "-12.50")) = Decimals (parse "-12.50")
  /\ (magnitude_zero (parse "-12.50") = true -> Neg (parse "-12.50") = parse "-12.50")
  /\ (magnitude_zero (parse "-12.50") = false ->
      stranalyzer.Sign (Neg (parse "-12.50")) = - stranalyzer.Sign (parse "-12.50")).
Proof. apply (Neg_involutive (parse "-12.50")). vm_compute; reflexivity. Defined.

Lemma all_zero_fill (n : Z) : all_zero (fill n (ch "0")) = true.
Proof.
  unfold all_zero, fill. induction (Z.to_nat n) as [|k IH]; [reflexivity|].
  simpl. exact IH.
Qed.

Lemma digits_value_fill (n : Z) : digits_value (fill n (ch "0")) = 0.
Proof.
  unfold fill. induction (Z.to_nat n) as [|k IH]; [reflexivity|].
  change (repeat (ch "0") (S k)) with ([ch "0"] ++ repeat (ch "0") k).
  rewrite digits_value_app, IH. reflexivity.
Qed.

Lemma digits_value_zeros_l (z l : list Z) :
  all_zero z = true -> digits_value (z ++ l) = digits_value l.
Proof.
  intros Hz. rewrite digits_value_app.
  assert (digits_value z = 0) as ->; [|lia].
  induction z as [|c z IH]; [reflexivity|].
  unfold all_zero in *. cbn [forallb] in Hz. apply andb_true_iff in Hz as [Hc Hz].
  change (c :: z) with ([c] ++ z). rewrite digits_value_app, (IH Hz).
  apply Z.eqb_eq in Hc. subst c. reflexivity.
Qed.

Lemma canonical_prefix (l : list Z) (m : Z) :
  canonical l = true -> canonical (slice_to l m) = true.
Proof.
  unfold slice_to. destruct l as [|c [|c' l]]; intros H.
  - rewrite firstn_nil. reflexivity.
  - destruct (Z.to_nat m) as [|[|k]]; reflexivity.
  - destruct (Z.to_nat m) as [|[|k]]; try reflexivity. exact H.
Qed.

Lemma slice_to_slice_to {A : Type} (l : list A) (m k : Z) :
  k <= m -> slice_to (slice_to l m) k = slice_to l k.
Proof.
  intros H. unfold slice_to. rewrite firstn_firstn. f_equal. lia.
Qed.

(** [SetDecimals] on a value that is well-formed up to its sign. *)
Lemma SetDecimals_spec (f : BigFloat) (n : Z) :
  wellformed (with_Sign f 1) = true ->
  stranalyzer.Sign f = 1 \/ stranalyzer.Sign f = -1 -> 0 <= n ->
  let norm := if n >? Decimals f then Norm f ++ fill (n - Decimals f) (ch "0")
              else slice_to (Norm f) (Len f - Decimals f + n) in
  SetDecimals f n
  = mkAnalysis norm (if all_zero norm then 1 else stranalyzer.Sign f) n (len norm)
  /\ wellformed (SetDecimals f n) = true
  /\ slice_to norm (len norm - n) = slice_to (Norm f) (Len f - Decimals f).
Proof.
  intros Hw Hs Hn norm.
  pose proof (wellformed_elim _ Hw) as (Hd & Hl & Hdec & _ & _ & Hc).
  cbn [with_Sign Norm Len Decimals stranalyzer.Sign] in *.
  assert (Hlen : len norm = Len f - Decimals f + n).
  { subst norm. destruct (n >? Decimals f) eqn:E.
    - rewrite len_app, len_fill by lia. lia.
    - unfold len at 1. rewrite slice_to_length by lia. lia. }
  assert (Hip : slice_to norm (len norm - n) = slice_to (Norm f) (Len f - Decimals f)).
  { rewrite Hlen. replace (Len f - Decimals f + n - n) with (Len f - Decimals f) by lia.
    subst norm. destruct (n >? Decimals f) eqn:E.
    - apply slice_to_app_l. lia.
    - apply slice_to_slice_to. lia. }
  set (g := mkAnalysis norm (stranalyzer.Sign f) n (len norm)).
  assert (Hg : wellformed (with_Sign g 1) = true).
  { apply wellformed_intro; cbn [g with_Sign Norm Len Decimals stranalyzer.Sign]; auto.
    - subst norm. destruct (n >? Decimals f).
      + rewrite forallb_app, Hd. apply is_digit_zero_fill.
      + apply forallb_slice. exact Hd.
    - lia.
    - rewrite Hip. exact Hc. }
  destruct (Sign_wellformed g (stranalyzer.Sign f) Hg Hs) as [E Hwg].
  assert (ES : SetDecimals f n = bigfloat.Sign g (stranalyzer.Sign f)).
  { unfold SetDecimals, SetDecimals_body. destruct (n =? Decimals f) eqn:En.
    - apply Z.eqb_eq in En. fold (bigfloat.Sign f (stranalyzer.Sign f)).
      f_equal. subst g norm. replace (n >? Decimals f) with false by lia.
      rewrite En. replace (Len f - Decimals f + Decimals f) with (len (Norm f)) by lia.
      rewrite slice_to_all. rewrite <- Hl. destruct f; reflexivity.
    - reflexivity. }
  rewrite ES. split; [exact E|split; [exact Hwg|exact Hip]].
Qed.

(** X6: [SetDecimals] keeps a value well-formed and sets its count of
    decimals; raising the count pads with zeros and keeps the number,
    so that lowering it back restores the value, and lowering the count
    cuts digits off (truncation towards zero). *)
Theorem SetDecimals_wellformed (f : BigFloat) (n : Z) :
  wellformed f = true -> 0 <= n ->
  wellformed (SetDecimals f n) = true
  /\ Decimals (SetDecimals f n) = n
  /\ (Decimals f <= n ->
      scaled (SetDecimals f n) n = scaled f n
      /\ SetDecimals (SetDecimals f n) (Decimals f) = f)
  /\ (n <= Decimals f ->
      digits_value (Norm (SetDecimals f n))
      = digits_value (Norm f) / 10 ^ (Decimals f - n)).
Proof.
  intros Hw Hn.
  pose proof (wellformed_elim _ Hw) as (Hd & Hl & Hdec & Hs & Hz & Hc).
  destruct (SetDecimals_spec f n (wellformed_with_Sign_1 f Hw) Hs Hn) as (E & Hwn & Hip).
  split; [exact Hwn|]. split; [apply SetDecimals_Decimals|]. split.
  - intros Hle.
    assert (En : SetDecimals f n
                 = mkAnalysis (Norm f ++ fill (n - Decimals f) (ch "0"))
                     (stranalyzer.Sign f) n (Len f + (n - Decimals f))).
    { rewrite E. destruct (n >? Decimals f) eqn:Egt.
      - rewrite len_app, len_fill by lia. rewrite all_zero_app, all_zero_fill, andb_true_r.
        rewrite <- Hl. f_equal. destruct (all_zero (Norm f)) eqn:Ez; auto. symmetry; auto.
      - assert (n = Decimals f) as -> by lia.
        replace (Len f - Decimals f + Decimals f) with (len (Norm f)) by lia.
        rewrite slice_to_all. rewrite Z.sub_diag. change (fill 0 (ch "0")) with (@nil Z).
        rewrite List.app_nil_r, <- Hl, Z.add_0_r. f_equal.
        destruct (all_zero (Norm f)) eqn:Ez; auto. symmetry; auto. }
    split.
    + rewrite En. unfold scaled. cbn [Norm stranalyzer.Sign Decimals].
      rewrite digits_value_app, digits_value_fill, len_fill by lia.
      rewrite Z.sub_diag. change (10 ^ 0) with 1. lia.
    + rewrite En.
      set (g := mkAnalysis _ _ _ _).
      assert (Hwg : wellformed g = true) by (unfold g; rewrite <- En; exact Hwn).
      destruct (SetDecimals_spec g (Decimals f) (wellformed_with_Sign_1 g Hwg) Hs
                  ltac:(lia)) as (Eg & _ & _).
      rewrite Eg. subst g. cbn [Norm stranalyzer.Sign Decimals Len].
      destruct (Decimals f >? n) eqn:Egt; [lia|].
      replace (Len f + (n - Decimals f) - n + Decimals f) with (len (Norm f)) by lia.
      rewrite slice_to_app_l by lia. rewrite slice_to_all, <- Hl.
      destruct f as [N S D L]; cbn [Norm stranalyzer.Sign Decimals Len] in *. f_equal.
      destruct (all_zero N) eqn:Ez; auto. symmetry; auto.
  - intros Hle. rewrite E. cbn [Norm].
    destruct (n >? Decimals f) eqn:Egt; [lia|].
    replace (Len f - Decimals f + n) with (len (Norm f) - (Decimals f - n)) by lia.
    apply digits_value_prefix; [exact Hd|lia].
Qed.

Lemma SetDecimals_wellformed_witness :
  wellformed (SetDecimals (parse "-0.19") 1) = true
  /\ Decimals (SetDecimals (parse "-0.19") 1) = 1
  /\ (Decimals (parse "-0.19") <= 1 ->
      scaled (SetDecimals (parse "-0.19") 1) 1 = scaled (parse "-0.19") 1
      /\ SetDecimals (SetDecimals (parse "-0.19") 1) (Decimals (parse "-0.19"))
         = parse "-0.19")
  /\ (1 <= Decimals (parse "-0.19") ->
      digits_value (Norm (SetDecimals (parse "-0.19") 1))
      = digits_value (Norm (parse "-0.19")) / 10 ^ (Decimals (parse "-0.19") - 1)).
Proof. apply (SetDecimals_wellformed (parse "-0.19") 1); [vm_compute; reflexivity|lia]. Defined.

Lemma canonical_zero_head (z rest : list Z) :
  len z = 1 -> canonical (slice_to (z ++ rest) 1) = true.
Proof.
  destruct z as [|c [|c' z]]; unfold len; simpl; intros H; try lia; reflexivity.
Qed.

Lemma Div10_spec (f : BigFloat) (n : Z) :
  wellformed f = true -> 0 <= n ->
  wellformed (Div10 f n) = true
  /\ stranalyzer.Sign (Div10 f n) = stranalyzer.Sign f
  /\ Decimals (Div10 f n) = Decimals f + n
  /\ digits_value (Norm (Div10 f n)) = digits_value (Norm f).
Proof.
  intros Hw Hn.
  pose proof (wellformed_elim _ Hw) as (Hd & Hl & Hdec & Hs & Hz & Hc).
  unfold Div10. destruct (Decimals f + n >=? Len f) eqn:E.
  - cbn [Norm stranalyzer.Sign Decimals Len].
    split; [|split; [reflexivity|split; [reflexivity|]]].
    + apply wellformed_intro; cbn [Norm stranalyzer.Sign Decimals Len]; auto.
      * rewrite forallb_app, Hd, is_digit_zero_fill. reflexivity.
      * rewrite len_app. lia.
      * rewrite len_fill by lia. lia.
      * rewrite all_zero_app. intros H. apply andb_true_iff in H as [_ H]. auto.
      * rewrite len_fill by lia.
        replace (Len f + (n - (Len f - Decimals f) + 1) - (Decimals f + n)) with 1 by lia.
        replace (n - (Len f - Decimals f) + 1) with (1 + (n - (Len f - Decimals f))) by lia.
        unfold fill. rewrite Z2Nat.inj_add by lia. rewrite repeat_app.
        rewrite <- app_assoc. apply canonical_zero_head. reflexivity.
    + apply digits_value_zeros_l. apply all_zero_fill.
  - cbn [Norm stranalyzer.Sign Decimals Len].
    split; [|split; [reflexivity|split; [reflexivity|reflexivity]]].
    apply wellformed_intro; cbn [Norm stranalyzer.Sign Decimals Len]; auto.
    + lia.
    + rewrite <- (slice_to_slice_to (Norm f) (Len f - Decimals f)) by lia.
      apply canonical_prefix. exact Hc.
Qed.

(** X7: [Div10] keeps a value well-formed; it leaves the sign and the
    number the digits spell alone and raises the count of decimals by
    [n], which divides the value by [10^n]. *)
Theorem Div10_wellformed (f : BigFloat) (n : Z) :
  wellformed f = true -> 0 <= n ->
  wellformed (Div10 f n) = true
  /\ Decimals (Div10 f n) = Decimals f + n
  /\ forall d : Z, Decimals f <= d -> scaled (Div10 f n) (d + n) = scaled f d.
Proof.
  intros Hw Hn. destruct (Div10_spec f n Hw Hn) as (H1 & H2 & H3 & H4).
  split; [exact H1|split; [exact H3|]].
  intros d Hd. unfold scaled. rewrite H2, H3, H4. f_equal. f_equal. lia.
Qed.

Lemma Div10_wellformed_witness :
  wellformed (Div10 (parse "-12.5") 3) = true
  /\ Decimals (Div10 (parse "-12.5") 3) = Decimals (parse "-12.5") + 3
  /\ forall d : Z, Decimals (parse "-12.5") <= d ->
       scaled (Div10 (parse "-12.5") 3) (d + 3) = scaled (parse "-12.5") d.
Proof. apply (Div10_wellformed (parse "-12.5") 3); [vm_compute; reflexivity|lia]. Defined.

Lemma digits_value_skip_zeros (l : list Z) :
  digits_value (slice_from l (leading_count 48 l)) = digits_value l.
Proof.
  induction l as [|c l IH]; [reflexivity|].
  cbn [leading_count]. destruct (c =? 48) eqn:E.
  - apply Z.eqb_eq in E. subst c.
    pose proof (leading_count_bounds 48 l) as Hb.
    unfold slice_from. rewrite Z2Nat.inj_add by lia. change (Z.to_nat 1) with 1%nat.
    cbn [Nat.add skipn]. fold (slice_from l (leading_count 48 l)). rewrite IH.
    change (48 :: l) with ([48] ++ l). rewrite digits_value_app. reflexivity.
  - reflexivity.
Qed.

(** [Mul10] in terms of the value: sign, decimals and the scaled
    magnitude of the result. *)
Lemma Mul10_spec (f : BigFloat) (n : Z) :
  Len f = len (Norm f) ->
  stranalyzer.Sign (Mul10 f n) = stranalyzer.Sign f
  /\ Decimals (Mul10 f n) = Z.max (Decimals f - n) 0
  /\ (forall d : Z, Decimals (Mul10 f n) <= d -> scaled (Mul10 f n) d = scaled f (d + n))
  /\ (wellformed f = true -> magnitude_zero f = false -> Decimals f <= n ->
      wellformed (Mul10 f n) = true).
Proof.
  intros Hl. destruct (Decimals f - n >? 0) eqn:E.
  - assert (EM : Mul10 f n
                 = mkAnalysis (Norm f) (stranalyzer.Sign f) (Decimals f - n) (Len f))
      by (unfold Mul10; rewrite E; reflexivity).
    rewrite EM. cbn [Norm stranalyzer.Sign Decimals Len].
    split; [reflexivity|split; [lia|split]].
    + intros d Hd. unfold scaled. cbn [Norm stranalyzer.Sign Decimals Len].
      f_equal. f_equal. lia.
    + intros _ _ Hle. lia.
  - assert (Hle : Decimals f <= n) by lia.
    rewrite (Mul10_shift f n Hl Hle). cbv zeta. cbn [Norm stranalyzer.Sign Decimals Len].
    set (norm := Norm f ++ fill (n - Decimals f) (ch "0")).
    split; [reflexivity|split; [lia|split]].
    + intros d Hd. unfold scaled. cbn [Norm stranalyzer.Sign Decimals Len].
      change 48 with (ch "0") at 1. change (ch "0") with 48 at 1.
      rewrite digits_value_skip_zeros. unfold norm.
      rewrite digits_value_app, digits_value_fill, len_fill by lia.
      rewrite Z.sub_0_r, Z.add_0_r.
      replace (d + n - Decimals f) with ((n - Decimals f) + d) by lia.
      rewrite Z.pow_add_r by lia. ring.
    + intros Hw Hz _.
      pose proof (wellformed_elim _ Hw) as (Hd & _ & Hdec & Hs & _ & _).
      assert (Hnz : forallb (fun c => c =? 48) norm = false).
      { unfold norm. apply forallb_false_app_l. exact Hz. }
      destruct (leading_count_skip 48 norm Hnz) as (c & rest & Hsk & Hc).
      pose proof (leading_count_bounds 48 norm) as Hb.
      assert (Hdn : forallb is_digit norm = true).
      { unfold norm. rewrite forallb_app, Hd. apply is_digit_zero_fill. }
      apply wellformed_intro; cbn [Norm stranalyzer.Sign Decimals Len]; auto.
      * apply forallb_slice. exact Hdn.
      * rewrite slice_from_length by lia. reflexivity.
      * assert (len (slice_from norm (leading_count 48 norm)) = len norm - leading_count 48 norm)
          by (apply slice_from_length; lia).
        rewrite Hsk, len_cons in H. pose proof (len_nonneg rest). lia.
      * rewrite Hsk. unfold all_zero. cbn [forallb]. change (ch "0") with 48.
        replace (c =? 48) with false by lia. discriminate.
      * rewrite Z.sub_0_r. rewrite <- slice_from_length by lia. rewrite slice_to_all.
        rewrite Hsk. unfold canonical. destruct rest; [reflexivity|].
        apply negb_true_iff, Z.eqb_neq. exact Hc.
Qed.

(** X8: [Mul10] multiplies the value by [10^n]: it lowers the count of
    decimals, or appends zeros once the decimals are used up; on a
    well-formed value other than zero with at most [n] decimals the
    result is a well-formed integer. *)
Theorem Mul10_scaled (f : BigFloat) (n : Z) :
  Len f = len (Norm f) ->
  stranalyzer.Sign (Mul10 f n) = stranalyzer.Sign f
  /\ Decimals (Mul10 f n) = Z.max (Decimals f - n) 0
  /\ (forall d : Z, Decimals (Mul10 f n) <= d -> scaled (Mul10 f n) d = scaled f (d + n))
  /\ (wellformed f = true -> magnitude_zero f = false -> Decimals f <= n ->
      wellformed (Mul10 f n) = true).
Proof. exact (Mul10_spec f n). Qed.

Lemma Mul10_scaled_witness :
  stranalyzer.Sign (Mul10 (parse "-0.125") 2) = stranalyzer.Sign (parse "-0.125")
  /\ Decimals (Mul10 (parse "-0.125") 2) = Z.max (Decimals (parse "-0.125") - 2) 0
  /\ (forall d : Z, Decimals (Mul10 (parse "-0.125") 2) <= d ->
        scaled (Mul10 (parse "-0.125") 2) d = scaled (parse "-0.125") (d + 2))
  /\ (wellformed (parse "-0.125") = true -> magnitude_zero (parse "-0.125") = false ->
      Decimals (parse "-0.125") <= 2 -> wellformed (Mul10 (parse "-0.125") 2) = true).
Proof. apply (Mul10_scaled (parse "-0.125") 2). vm_compute; reflexivity. Defined.

Lemma digits_value_one_zeros (n : nat) : digits_value (49 :: repeat 48 n) = 10 ^ Z.of_nat n.
Proof.
  change (49 :: repeat 48 n) with ([49] ++ fill (Z.of_nat 0 + 0) 48 ++ repeat 48 n).
  change (fill (Z.of_nat 0 + 0) 48) with (@nil Z). cbn [app].
  change (49 :: repeat 48 n) with ([49] ++ repeat 48 n).
  rewrite digits_value_app.
  replace (repeat 48 n) with (fill (Z.of_nat n) (ch "0")) by (unfold fill; rewrite Nat2Z.id; reflexivity).
  rewrite digits_value_fill, len_fill by lia. change (digits_value [49]) with 1. lia.
Qed.

(** X9: [Pow10] overwrites the receiver with the well-formed value
    [10^n]: the digit 1 followed by [n] zeros, or, for a negative [n],
    the digit 1 in the last of [-n] decimals. *)
Theorem Pow10_value (f : BigFloat) (n : Z) :
  wellformed (Pow10 f n) = true
  /\ stranalyzer.Sign (Pow10 f n) = 1
  /\ (0 <= n -> Decimals (Pow10 f n) = 0 /\ digits_value (Norm (Pow10 f n)) = 10 ^ n)
  /\ (n < 0 -> Decimals (Pow10 f n) = - n /\ digits_value (Norm (Pow10 f n)) = 1).
Proof.
  unfold Pow10. destruct (n <? 0) eqn:E.
  - rewrite SetInt64_1.
    assert (Hw : wellformed (mkAnalysis [ch "1"] 1 0 1) = true) by (vm_compute; reflexivity).
    destruct (Div10_spec _ (- n) Hw ltac:(lia)) as (H1 & H2 & H3 & H4).
    split; [exact H1|split; [exact H2|split; [lia|]]].
    intros _. rewrite H3, H4. split; reflexivity.
  - assert (Hf : fill (n + 1) 48 = 48 :: repeat 48 (Z.to_nat n)).
    { unfold fill. rewrite Z2Nat.inj_add by lia. rewrite Nat.add_comm. reflexivity. }
    rewrite Hf. change (to_byte (48 + 1)) with 49.
    split; [|split; [reflexivity|split; [|lia]]].
    + apply (wellformed_integer 49 (repeat 48 (Z.to_nat n)) 1); [lia| |left; reflexivity].
      cbn [forallb]. change (is_digit 49) with true. cbn [andb].
      fold (fill n (ch "0")). apply is_digit_zero_fill.
    + intros Hn. cbn [Norm Decimals]. split; [reflexivity|].
      rewrite digits_value_one_zeros. rewrite Z2Nat.id by lia. reflexivity.
Qed.

Lemma set_range_suffix (v : Z) (l : list Z) :
  forall lo hi : Z,
    len l <= hi ->
    set_range l lo hi v = slice_to l lo ++ repeat v (length l - Z.to_nat lo).
Proof.
  induction l as [|x l IH]; intros lo hi Hhi.
  - unfold set_range, slice_to. rewrite firstn_nil. reflexivity.
  - rewrite len_cons in Hhi. pose proof (len_nonneg l).
    unfold set_range. rewrite imap_cons.
    assert (Ht : imap ((fun (i : nat) (x0 : Z) =>
                          if (lo <=? Z.of_nat i) && (Z.of_nat i <? hi) then v else x0) ∘ S) l
                 = set_range l (lo - 1) (hi - 1) v).
    { unfold set_range. apply imap_ext. intros i y _. unfold compose.
      replace (lo - 1 <=? Z.of_nat i) with (lo <=? Z.of_nat (S i)) by lia.
      replace (Z.of_nat i <? hi - 1) with (Z.of_nat (S i) <? hi) by lia.
      reflexivity. }
    rewrite Ht, IH by lia. unfold slice_to.
    destruct (Z.to_nat lo) as [|k] eqn:Ek.
    + replace (Z.to_nat (lo - 1)) with 0%nat by lia.
      replace ((lo <=? Z.of_nat 0) && (Z.of_nat 0 <? hi)) with true by lia.
      cbn [firstn app length Nat.sub]. rewrite Nat.sub_0_r. reflexivity.
    + replace (Z.to_nat (lo - 1)) with k by lia.
      replace ((lo <=? Z.of_nat 0) && (Z.of_nat 0 <? hi)) with false by lia.
      cbn [firstn app length Nat.sub]. reflexivity.
Qed.

(** X10: on a well-formed value [Trunc] panics exactly on a negative
    count; with the count 0 it yields the integer portion as a
    well-formed integer (truncation towards zero, and zero is never
    negative), and without options it keeps the count of decimals and
    sets every decimal to ['0']. *)
Theorem Trunc_integer_part (f : BigFloat) :
  wellformed f = true ->
  let ip := slice_to (Norm f) (Len f - Decimals f) in
  (forall d : Z, Trunc f (Some d) = None <-> d < 0)
  /\ (exists g : BigFloat,
        Trunc f (Some 0) = Some g /\ wellformed g = true
        /\ Decimals g = 0 /\ Norm g = ip
        /\ stranalyzer.Sign g = (if all_zero ip then 1 else stranalyzer.Sign f)
        /\ digits_value (Norm g) = digits_value (Norm f) / 10 ^ Decimals f)
  /\ (exists g : BigFloat,
        Trunc f None = Some g /\ wellformed g = true
        /\ Decimals g = Decimals f
        /\ Norm g = ip ++ repeat (ch "0") (Z.to_nat (Decimals f))).
Proof.
  intros Hw ip.
  pose proof (wellformed_elim _ Hw) as (Hd & Hl & Hdec & Hs & Hz & Hc).
  set (g0 := mkAnalysis (set_range (Norm f) (Len f - Decimals f) (Len f) (ch "0"))
               (stranalyzer.Sign f) (Decimals f) (Len f)).
  assert (Hn0 : Norm g0 = ip ++ repeat (ch "0") (Z.to_nat (Decimals f))).
  { cbv delta [g0]; cbn [Norm]. rewrite set_range_suffix by lia. fold ip. f_equal. f_equal.
    unfold len in Hl. lia. }
  assert (Hlip : len ip = Len f - Decimals f).
  { unfold ip, len. rewrite slice_to_length; unfold len in *; lia. }
  assert (Hdip : forallb is_digit ip = true) by (apply forallb_slice; exact Hd).
  assert (Hg0 : wellformed (with_Sign g0 1) = true).
  { apply wellformed_intro; cbn [with_Sign Norm Len Decimals stranalyzer.Sign]; auto.
    - rewrite Hn0, forallb_app, Hdip. fold (fill (Decimals f) (ch "0")).
      apply is_digit_zero_fill.
    - rewrite Hn0, len_app, Hlip. fold (fill (Decimals f) (ch "0")).
      rewrite len_fill by lia. cbv delta [g0]; cbn [Len]. lia.
    - rewrite Hn0. cbv delta [g0]; cbn [Len Decimals]. rewrite slice_to_app_l by lia.
      rewrite <- Hlip, slice_to_all. exact Hc. }
  assert (Hs0 : stranalyzer.Sign g0 = 1 \/ stranalyzer.Sign g0 = -1) by exact Hs.
  split; [|split].
  - intros d. unfold Trunc. destruct (d <? 0) eqn:E; split; intros H; try lia; try discriminate.
    reflexivity.
  - destruct (SetDecimals_spec g0 0 Hg0 Hs0 ltac:(lia)) as (E & Hwg & _).
    exists (SetDecimals g0 0). split; [reflexivity|]. split; [exact Hwg|].
    split; [apply SetDecimals_Decimals|].
    assert (En : (if 0 >? Decimals g0 then Norm g0 ++ fill (0 - Decimals g0) (ch "0")
                  else slice_to (Norm g0) (Len g0 - Decimals g0 + 0)) = ip).
    { rewrite Hn0. change (Decimals g0) with (Decimals f). change (Len g0) with (Len f).
      replace (0 >? Decimals f) with false by lia.
      rewrite slice_to_app_l by lia.
      replace (Len f - Decimals f + 0) with (len ip) by lia. apply slice_to_all. }
    rewrite En in E. rewrite E. cbn [Norm stranalyzer.Sign].
    split; [reflexivity|split; [reflexivity|]].
    unfold ip. replace (Len f - Decimals f) with (len (Norm f) - Decimals f) by lia.
    apply digits_value_prefix; [exact Hd|lia].
  - destruct (SetDecimals_spec g0 (Decimals f) Hg0 Hs0 ltac:(lia)) as (E & Hwg & _).
    exists (SetDecimals g0 (Decimals f)).
    split; [unfold Trunc; replace (Decimals f <? 0) with false by lia; reflexivity|].
    split; [exact Hwg|].
    split; [apply SetDecimals_Decimals|].
    rewrite E. cbn [Norm]. rewrite Hn0.
    change (Decimals g0) with (Decimals f). change (Len g0) with (Len f).
    replace (Decimals f >? Decimals f) with false by lia.
    replace (Len f - Decimals f + Decimals f)
      with (len (ip ++ repeat (ch "0") (Z.to_nat (Decimals f)))).
    + apply slice_to_all.
    + rewrite len_app, Hlip. fold (fill (Decimals f) (ch "0")). rewrite len_fill by lia. lia.
Qed.

Lemma Trunc_integer_part_witness :
  let f := parse "-0.75" in
  let ip := slice_to (Norm f) (Len f - Decimals f) in
  (forall d : Z, Trunc f (Some d) = None <-> d < 0)
  /\ (exists g : BigFloat,
        Trunc f (Some 0) = Some g /\ wellformed g = true
        /\ Decimals g = 0 /\ Norm g = ip
        /\ stranalyzer.Sign g = (if all_zero ip then 1 else stranalyzer.Sign f)
        /\ digits_value (Norm g) = digits_value (Norm f) / 10 ^ Decimals f)
  /\ (exists g : BigFloat,
        Trunc f None = Some g /\ wellformed g = true
        /\ Decimals g = Decimals f
        /\ Norm g = ip ++ repeat (ch "0") (Z.to_nat (Decimals f))).
Proof. apply (Trunc_integer_part (parse "-0.75")). vm_compute; reflexivity. Defined.

(** X11: on a well-formed value [Frac] yields the well-formed value
    made of the digit 0 and the decimals of the receiver, with the sign
    kept unless these are all zero; a second [Frac] changes nothing, and
    the digits of the receiver are those of its integer portion followed
    by those of [Frac]. *)
Theorem Frac_idempotent (f : BigFloat) :
  wellformed f = true ->
  let fp := slice_from (Norm f) (Len f - Decimals f) in
  wellformed (Frac f) = true
  /\ Norm (Frac f) = ch "0" :: fp
  /\ Decimals (Frac f) = Decimals f
  /\ stranalyzer.Sign (Frac f) = (if all_zero fp then 1 else stranalyzer.Sign f)
  /\ Frac (Frac f) = Frac f
  /\ digits_value (Norm (Frac f)) = digits_value (Norm f) mod 10 ^ Decimals f
  /\ digits_value (Norm f)
     = digits_value (slice_to (Norm f) (Len f - Decimals f)) * 10 ^ Decimals f
       + digits_value (Norm (Frac f)).
Proof.
  intros Hw fp.
  pose proof (wellformed_elim _ Hw) as (Hd & Hl & Hdec & Hs & Hz & Hc).
  assert (Hlfp : len fp = Decimals f) by (unfold fp; rewrite slice_from_length; lia).
  assert (Hdfp : forallb is_digit fp = true) by (apply forallb_slice; exact Hd).
  assert (EF : Frac f = mkAnalysis (ch "0" :: fp) (if all_zero fp then 1 else stranalyzer.Sign f)
                          (Decimals f) (1 + Decimals f)).
  { unfold Frac. replace (Len f - Decimals f >? 0) with true by lia. cbv zeta.
    fold fp. rewrite slice_to_all. rewrite len_cons, Hlfp.
    change (forallb (fun c => c =? ch "0") (ch "0" :: fp)) with (all_zero fp).
    destruct (all_zero fp); reflexivity. }
  assert (Hv : digits_value (ch "0" :: fp) = digits_value fp).
  { change (ch "0" :: fp) with ([ch "0"] ++ fp). apply digits_value_zeros_l. reflexivity. }
  assert (Hsplit : digits_value (Norm f)
                   = digits_value (slice_to (Norm f) (Len f - Decimals f)) * 10 ^ Decimals f
                     + digits_value fp).
  { assert (HN : Norm f = slice_to (Norm f) (Len f - Decimals f) ++ fp)
      by (symmetry; apply firstn_skipn).
    rewrite HN at 1. rewrite digits_value_app, Hlfp. reflexivity. }
  rewrite EF. cbn [Norm stranalyzer.Sign Decimals Len].
  split; [|split; [reflexivity|split; [reflexivity|split; [reflexivity|split; [|split]]]]].
  - apply wellformed_intro; cbn [Norm stranalyzer.Sign Decimals Len].
    + cbn [forallb]. rewrite Hdfp. reflexivity.
    + rewrite len_cons. lia.
    + lia.
    + destruct (all_zero fp); [left; reflexivity|exact Hs].
    + unfold all_zero at 1. cbn [forallb]. fold (all_zero fp).
      change (ch "0" =? ch "0") with true. cbn [andb]. intros ->. reflexivity.
    + replace (1 + Decimals f - Decimals f) with 1 by lia. reflexivity.
  - unfold Frac. cbn [Norm stranalyzer.Sign Decimals Len].
    replace (1 + Decimals f - Decimals f) with 1 by lia. change (1 >? 0) with true. cbv zeta iota.
    change (slice_from (ch "0" :: fp) 1) with fp.
    rewrite slice_to_all. rewrite len_cons, Hlfp.
    change (forallb (fun c => c =? ch "0") (ch "0" :: fp)) with (all_zero fp).
    destruct (all_zero fp); reflexivity.
  - rewrite Hv, Hsplit.
    pose proof (digits_value_bounds fp Hdfp) as Hb. rewrite Hlfp in Hb.
    rewrite Z.add_comm, Z.mod_add by lia. symmetry. apply Z.mod_small. exact Hb.
  - rewrite Hv. exact Hsplit.
Qed.

Lemma Frac_idempotent_witness :
  let f := parse "-12.50" in
  let fp := slice_from (Norm f) (Len f - Decimals f) in
  wellformed (Frac f) = true
  /\ Norm (Frac f) = ch "0" :: fp
  /\ Decimals (Frac f) = Decimals f
  /\ stranalyzer.Sign (Frac f) = (if all_zero fp then 1 else stranalyzer.Sign f)
  /\ Frac (Frac f) = Frac f
  /\ digits_value (Norm (Frac f)) = digits_value (Norm f) mod 10 ^ Decimals f
  /\ digits_value (Norm f)
     = digits_value (slice_to (Norm f) (Len f - Decimals f)) * 10 ^ Decimals f
       + digits_value (Norm (Frac f)).
Proof. apply (Frac_idempotent (parse "-12.50")). vm_compute; reflexivity. Defined.

(** ** Comparison, addition and subtraction of well-formed values *)

Lemma padded_operand (f : BigFloat) (d : Z) :
  forallb is_digit (Norm f) = true -> Len f = len (Norm f) -> Decimals f <= d ->
  integer_operand (padded f d)
  /\ digits_value (Norm (padded f d)) = digits_value (Norm f) * 10 ^ (d - Decimals f)
  /\ len (Norm (padded f d)) = Len f - Decimals f + d.
Proof.
  intros Hd Hl Hle. unfold padded, integer_operand. cbn [Norm Decimals Len].
  rewrite len_app, len_fill by lia. repeat split; try lia.
  - rewrite forallb_app, Hd. apply is_digit_zero_fill.
  - rewrite digits_value_app, digits_value_fill, len_fill by lia. lia.
Qed.

Lemma align_pair (a b : BigFloat) :
  align [a; b]
  = mkAlignment (Z.max (Len a - Decimals a) (Len b - Decimals b))
      (Z.max (Decimals a) (Decimals b))
      (Z.max (Len a - Decimals a) (Len b - Decimals b) + Z.max (Decimals a) (Decimals b))
      [mkCorrection (Decimals a - Z.max (Decimals a) (Decimals b))
         (Z.max (Len a - Decimals a) (Len b - Decimals b) - (Len a - Decimals a));
       mkCorrection (Decimals b - Z.max (Decimals a) (Decimals b))
         (Z.max (Len a - Decimals a) (Len b - Decimals b) - (Len b - Decimals b))].
Proof.
  unfold align. cbn [fold_left tail map].
  assert (E1 : (if Len b - Decimals b >? Len a - Decimals a
                then Len b - Decimals b else Len a - Decimals a)
               = Z.max (Len a - Decimals a) (Len b - Decimals b))
    by (rewrite Z.gtb_ltb; destruct (_ <? _) eqn:E; lia).
  assert (E2 : (if Decimals b >? Decimals a then Decimals b else Decimals a)
               = Z.max (Decimals a) (Decimals b))
    by (rewrite Z.gtb_ltb; destruct (_ <? _) eqn:E; lia).
  rewrite E1, E2. reflexivity.
Qed.

Lemma idx_padding_zeros (l : list Z) (z i : Z) :
  0 <= i < len l + z ->
  idx (l ++ fill z (ch "0")) i + -48 = if i <? len l then idx l i + -48 else 0.
Proof.
  intros Hi. unfold idx. destruct (i <? len l) eqn:E.
  - rewrite app_nth1 by (unfold len in *; lia). reflexivity.
  - rewrite app_nth2 by (unfold len in *; lia).
    unfold fill. rewrite nth_repeat_lt by (unfold len in *; lia). reflexivity.
Qed.

Lemma read_padded (f : BigFloat) (d r r' p : Z) :
  Len f = len (Norm f) -> Decimals f <= d -> 0 <= p ->
  read p f (mkCorrection (Decimals f - d) r) (-48)
  = read p (padded f d) (mkCorrection 0 r') (-48).
Proof.
  intros Hl Hle Hp. unfold read, padded. cbn [Norm Decimals Len offset].
  replace (Len f + (d - Decimals f) - p - 0 - 1) with (Len f - p - (Decimals f - d) - 1) by lia.
  set (c := Len f - p - (Decimals f - d) - 1).
  destruct (c >=? 0) eqn:E0; [|reflexivity]. cbn [andb].
  destruct (c <? Len f + (d - Decimals f)) eqn:E1.
  - rewrite idx_padding_zeros by lia. rewrite <- Hl. reflexivity.
  - replace (c <? Len f) with false by lia. reflexivity.
Qed.

Lemma reverse_read_padded (f : BigFloat) (d o o' r p : Z) :
  Len f = len (Norm f) -> Decimals f <= d ->
  reverse_read p f (mkCorrection o r) (-48)
  = reverse_read p (padded f d) (mkCorrection o' r) (-48).
Proof.
  intros Hl Hle. unfold reverse_read, padded. cbn [Norm Decimals Len creverse].
  set (c := p - r).
  destruct (c >=? 0) eqn:E0; [|reflexivity]. cbn [andb].
  destruct (c <? Len f + (d - Decimals f)) eqn:E1.
  - rewrite idx_padding_zeros by lia. rewrite <- Hl. reflexivity.
  - replace (c <? Len f) with false by lia. reflexivity.
Qed.

(** The aligned reads of two operands are the reads of the padded
    integer operands. *)
Lemma multiRead_padded (a b : BigFloat) (p : Z) :
  Len a = len (Norm a) -> Len b = len (Norm b) -> 0 <= p ->
  let d := Z.max (Decimals a) (Decimals b) in
  ALen (align [a; b]) = ALen (align [padded a d; padded b d])
  /\ multiRead p [a; b] (align [a; b]) (-48) read
     = multiRead p [padded a d; padded b d] (align [padded a d; padded b d]) (-48) read
  /\ multiRead p [a; b] (align [a; b]) (-48) reverse_read
     = multiRead p [padded a d; padded b d] (align [padded a d; padded b d]) (-48)
         reverse_read.
Proof.
  intros Ha Hb Hp d. rewrite (align_pair a b), (align_pair (padded a d) (padded b d)).
  fold d. unfold multiRead. cbn [corrections zip_with ALen].
  change (Decimals (padded a d)) with 0. change (Decimals (padded b d)) with 0.
  change (Len (padded a d)) with (Len a + (d - Decimals a)).
  change (Len (padded b d)) with (Len b + (d - Decimals b)).
  assert (E : Z.max (Len a + (d - Decimals a) - 0) (Len b + (d - Decimals b) - 0)
              = Z.max (Len a - Decimals a) (Len b - Decimals b) + d) by lia.
  rewrite E. change (Z.max 0 0) with 0.
  split; [lia|]. split.
  - f_equal; [apply read_padded; lia|]. f_equal. apply read_padded; lia.
  - f_equal; [|f_equal].
    + replace (Z.max (Len a - Decimals a) (Len b - Decimals b) + d - (Len a + (d - Decimals a) - 0))
        with (Z.max (Len a - Decimals a) (Len b - Decimals b) - (Len a - Decimals a)) by lia.
      apply reverse_read_padded; lia.
    + replace (Z.max (Len a - Decimals a) (Len b - Decimals b) + d - (Len b + (d - Decimals b) - 0))
        with (Z.max (Len a - Decimals a) (Len b - Decimals b) - (Len b - Decimals b)) by lia.
      apply reverse_read_padded; lia.
Qed.

Lemma compare_loop_padded (a b : BigFloat) (s : Z) :
  Len a = len (Norm a) -> Len b = len (Norm b) ->
  let d := Z.max (Decimals a) (Decimals b) in
  forall (k : nat) (i : Z),
    0 <= i ->
    compare_loop [a; b] (align [a; b]) k i s
    = compare_loop [padded a d; padded b d] (align [padded a d; padded b d]) k i s.
Proof.
  intros Ha Hb d. induction k as [|k IH]; intros i Hi; cbn [compare_loop]; [reflexivity|].
  destruct (multiRead_padded a b i Ha Hb Hi) as (_ & _ & ->). fold d.
  rewrite IH by lia. reflexivity.
Qed.

Lemma digits_value_zero_iff (l : list Z) :
  forallb is_digit l = true -> (digits_value l = 0 <-> all_zero l = true).
Proof.
  intros Hd. split.
  - induction l as [|c l IH]; intros H; [reflexivity|].
    cbn [forallb] in Hd. apply andb_true_iff in Hd as [Hc Hl].
    change (c :: l) with ([c] ++ l) in H. rewrite digits_value_app in H.
    pose proof (digits_value_bounds l Hl) as Hb.
    change (digits_value [c]) with (c - 48) in H. unfold is_digit in Hc.
    pose proof (len_nonneg l). pose proof (pow10_pos (len l) ltac:(lia)).
    assert (c = 48) by nia. subst c.
    unfold all_zero. cbn [forallb]. change (48 =? ch "0") with true.
    apply IH; [exact Hl|lia].
  - intros Hz. rewrite <- (List.app_nil_r l). rewrite digits_value_zeros_l by exact Hz. reflexivity.
Qed.

Lemma digits_value_pos (l : list Z) :
  forallb is_digit l = true -> all_zero l = false -> 0 < digits_value l.
Proof.
  intros Hd Hz. pose proof (digits_value_bounds l Hd).
  destruct (Z.eq_dec (digits_value l) 0) as [E|E]; [|lia].
  apply digits_value_zero_iff in E; [congruence|exact Hd].
Qed.

(** The magnitude of a well-formed value in units of [10^-d]. *)
Lemma scaled_padded (f : BigFloat) (d : Z) :
  wellformed f = true -> Decimals f <= d ->
  integer_operand (padded f d)
  /\ scaled f d = stranalyzer.Sign f * digits_value (Norm (padded f d))
  /\ 0 <= digits_value (Norm (padded f d)) < 10 ^ len (Norm (padded f d))
  /\ len (Norm (padded f d)) = Len f - Decimals f + d
  /\ (stranalyzer.Sign f = -1 -> 0 < digits_value (Norm (padded f d)))
  /\ (magnitude_zero f = false -> 0 < digits_value (Norm (padded f d))).
Proof.
  intros Hw Hle.
  pose proof (wellformed_elim _ Hw) as (Hd & Hl & Hdec & Hs & Hz & Hc).
  destruct (padded_operand f d Hd Hl Hle) as (Ho & Hv & Hlen).
  split; [exact Ho|]. split; [unfold scaled; rewrite Hv; lia|].
  split; [apply digits_value_bounds; apply Ho|]. split; [exact Hlen|].
  assert (Hpos : all_zero (Norm f) = false -> 0 < digits_value (Norm (padded f d))).
  { intros Hnz. rewrite Hv. pose proof (digits_value_pos _ Hd Hnz).
    pose proof (pow10_pos (d - Decimals f) ltac:(lia)). nia. }
  split; [|exact Hpos].
  intros Hneg. apply Hpos. destruct (all_zero (Norm f)); [|reflexivity].
  specialize (Hz eq_refl). lia.
Qed.

Lemma compare_spec (a b : BigFloat) :
  wellformed a = true -> wellformed b = true ->
  let d := Z.max (Decimals a) (Decimals b) in
  Compare a b = Z.sgn (scaled a d - scaled b d)
  /\ CompareAbs a b = Z.sgn (Z.abs (scaled a d) - Z.abs (scaled b d)).
Proof.
  intros Hwa Hwb d.
  pose proof (wellformed_elim _ Hwa) as (Hda & Hla & Hdeca & Hsa & _ & _).
  pose proof (wellformed_elim _ Hwb) as (Hdb & Hlb & Hdecb & Hsb & _ & _).
  destruct (scaled_padded a d Hwa ltac:(lia)) as (Hoa & Hva & Hba & Hlena & Hnega & _).
  destruct (scaled_padded b d Hwb ltac:(lia)) as (Hob & Hvb & Hbb & Hlenb & Hnegb & _).
  set (X := digits_value (Norm (padded a d))) in *.
  set (Y := digits_value (Norm (padded b d))) in *.
  set (M := Z.max (len (Norm (padded a d))) (len (Norm (padded b d)))).
  assert (HA : ALen (align [a; b]) = M).
  { destruct (multiRead_padded a b 0 Hla Hlb ltac:(lia)) as (-> & _ & _). fold d.
    rewrite (align_integers _ _ Hoa Hob). cbn [ALen]. fold M. lia. }
  assert (HM : 0 <= M) by (unfold M; lia).
  assert (Hloop : forall s, compare_loop [a; b] (align [a; b]) (Z.to_nat M) 0 s
                            = s * Z.sgn (X - Y)).
  { intros s. rewrite (compare_loop_padded a b s Hla Hlb) by lia. fold d.
    pose proof (compare_loop_integers (padded a d) (padded b d) s Hoa Hob) as H.
    cbv zeta in H. fold M in H. rewrite (H (Z.to_nat M) 0) by lia.
    fold X Y. rewrite Z2Nat.id by lia.
    assert (10 ^ len (Norm (padded a d)) <= 10 ^ M) by (apply Z.pow_le_mono_r; lia).
    assert (10 ^ len (Norm (padded b d)) <= 10 ^ M) by (apply Z.pow_le_mono_r; lia).
    rewrite !Z.mod_small by lia. reflexivity. }
  rewrite Hva, Hvb. unfold Compare, CompareAbs, compare. rewrite HA. cbn [orb].
  split.
  - destruct (stranalyzer.Sign a =? stranalyzer.Sign b) eqn:E.
    + rewrite Hloop. apply Z.eqb_eq in E. rewrite <- E.
      destruct Hsa as [-> | ->]; [f_equal; lia|].
      rewrite <- Z.sgn_opp. f_equal. lia.
    + apply Z.eqb_neq in E. destruct Hsa as [Ea | Ea], Hsb as [Eb | Eb]; try (exfalso; lia);
        rewrite Ea, Eb; symmetry.
      * specialize (Hnegb Eb). apply Z.sgn_pos. lia.
      * specialize (Hnega Ea). apply Z.sgn_neg. lia.
  - rewrite Hloop. f_equal.
    destruct Hsa as [-> | ->], Hsb as [-> | ->]; lia.
Qed.

(** X12: on well-formed values [Compare] is the order of the numbers
    they stand for, and [CompareAbs] the order of their magnitudes. *)
Theorem Compare_order (a b : BigFloat) :
  wellformed a = true -> wellformed b = true ->
  let d := Z.max (Decimals a) (Decimals b) in
  Compare a b = Z.sgn (scaled a d - scaled b d)
  /\ CompareAbs a b = Z.sgn (Z.abs (scaled a d) - Z.abs (scaled b d)).
Proof. exact (compare_spec a b). Qed.

Lemma Compare_order_witness :
  let a := parse "-12.5" in
  let b := parse "3.125" in
  let d := Z.max (Decimals a) (Decimals b) in
  Compare a b = Z.sgn (scaled a d - scaled b d)
  /\ CompareAbs a b = Z.sgn (Z.abs (scaled a d) - Z.abs (scaled b d)).
Proof. apply (Compare_order (parse "-12.5") (parse "3.125")); vm_compute; reflexivity. Defined.

Lemma add_loop_padded (a b : BigFloat) :
  Len a = len (Norm a) -> Len b = len (Norm b) ->
  let d := Z.max (Decimals a) (Decimals b) in
  forall (k : nat) (i o : Z) (T : list Z),
    0 <= i ->
    add_loop [a; b] (align [a; b]) k i o T
    = add_loop [padded a d; padded b d] (align [padded a d; padded b d]) k i o T.
Proof.
  intros Ha Hb d. induction k as [|k IH]; intros i o T Hi; cbn [add_loop]; [reflexivity|].
  destruct (multiRead_padded a b i Ha Hb Hi) as (_ & -> & _). fold d.
  destruct (divmod10 _) as [o' r]. rewrite IH by lia. reflexivity.
Qed.

Lemma sub_loop_padded (a b : BigFloat) :
  Len a = len (Norm a) -> Len b = len (Norm b) ->
  let d := Z.max (Decimals a) (Decimals b) in
  forall (k : nat) (i o : Z) (T : list Z),
    0 <= i ->
    sub_loop [a; b] (align [a; b]) k i o T
    = sub_loop [padded a d; padded b d] (align [padded a d; padded b d]) k i o T.
Proof.
  intros Ha Hb d. induction k as [|k IH]; intros i o T Hi; cbn [sub_loop]; [reflexivity|].
  destruct (multiRead_padded a b i Ha Hb Hi) as (_ & -> & _). fold d.
  destruct (_ <? _); rewrite IH by lia; reflexivity.
Qed.

Lemma add_loop_integers (x y : BigFloat) :
  integer_operand x -> integer_operand y ->
  let X := digits_value (Norm x) in
  let Y := digits_value (Norm y) in
  forall (k : nat) (i o : Z) (T : list Z),
    0 <= i -> len T = i -> o = 0 \/ o = 1 -> small T ->
    be (rev T) + o * 10 ^ i = X mod 10 ^ i + Y mod 10 ^ i ->
    let r := add_loop [x; y] (align [x; y]) k i o T in
    small (snd r) /\ len (snd r) = i + Z.of_nat k
    /\ (fst r = 0 \/ fst r = 1)
    /\ be (rev (snd r)) + fst r * 10 ^ (i + Z.of_nat k)
       = X mod 10 ^ (i + Z.of_nat k) + Y mod 10 ^ (i + Z.of_nat k).
Proof.
  intros Hx Hy X Y. rewrite (align_integers x y Hx Hy).
  set (M := Z.max (len (Norm x)) (len (Norm y))).
  induction k as [|k IH]; intros i o T Hi HT Ho Hs Hv.
  - cbn [add_loop fst snd]. rewrite Z.add_0_r. auto.
  - cbn [add_loop]. rewrite multiRead_pair, !idx_0, !idx_1.
    rewrite (read_digit x), (read_digit y) by (assumption || reflexivity).
    fold X Y.
    set (xi := (X / 10 ^ i) mod 10). set (yi := (Y / 10 ^ i) mod 10).
    assert (Hxi : 0 <= xi < 10) by (apply Z.mod_pos_bound; lia).
    assert (Hyi : 0 <= yi < 10) by (apply Z.mod_pos_bound; lia).
    rewrite divmod10_nonneg by lia.
    replace (i + Z.of_nat (S k)) with (i + 1 + Z.of_nat k) by lia.
    pose proof (pow10_pos i Hi) as Hp.
    assert (Hq : (o + (xi + yi)) / 10 = 0 \/ (o + (xi + yi)) / 10 = 1).
    { assert (0 <= (o + (xi + yi)) / 10 < 2); [|lia].
      split; [apply Z.div_pos; lia|apply Z.div_lt_upper_bound; lia]. }
    pose proof (Z.mod_pos_bound (o + (xi + yi)) 10 ltac:(lia)) as Hm.
    pose proof (Z.div_mod (o + (xi + yi)) 10 ltac:(lia)) as Hdm.
    apply IH; try lia.
    + rewrite len_app. change (len [to_byte ((o + (xi + yi)) mod 10)]) with 1. lia.
    + apply small_app. split; [exact Hs|]. repeat constructor; rewrite to_byte_small; lia.
    + rewrite rev_app_distr. cbn [rev app]. rewrite be_cons, len_rev, HT.
      rewrite to_byte_small by lia. rewrite !mod_pow10_succ by lia.
      fold xi yi. rewrite Z.pow_add_r, Z.pow_1_r by lia. nia.
Qed.

Lemma leading_count_all (v : Z) (l : list Z) :
  forallb (fun c => c =? v) l = true -> leading_count v l = len l.
Proof.
  induction l as [|c l IH]; [reflexivity|]. cbn [forallb leading_count].
  intros H. apply andb_true_iff in H as [Hc Hl]. rewrite Hc, IH by exact Hl.
  rewrite len_cons. reflexivity.
Qed.

(** What the trimming of leading zeros leaves: the same number, more
    digits than decimals, and an integer portion that starts with 0
    only when it is the single digit 0. *)
Lemma trim_leading_spec (l : list Z) (d : Z) :
  small l -> 0 <= d < len l ->
  let t := trim_leading l d in
  be t = be l /\ small t /\ d < len t
  /\ match slice_to t (len t - d) with c :: _ :: _ => c <> 0 | _ => True end.
Proof.
  intros Hs Hd. cbv zeta. unfold trim_leading.
  replace (len l >? d) with true by lia.
  set (m := len l - d - 1).
  set (lc := leading_count 0 (slice_to l m)).
  set (t := slice_from l lc).
  pose proof (leading_count_bounds 0 (slice_to l m)) as Hb. fold lc in Hb.
  assert (Hlm : len (slice_to l m) = m).
  { unfold len. rewrite slice_to_length by lia. lia. }
  rewrite Hlm in Hb.
  assert (Hlt : len t = len l - lc) by (unfold t; apply slice_from_length; lia).
  split; [apply be_skip_zeros|]. split; [apply small_skipn; exact Hs|]. split; [lia|].
  destruct (Z.eq_dec lc m) as [E|E].
  - replace (len t - d) with 1 by lia. unfold slice_to.
    destruct t as [|c [|c' t']]; exact I.
  - assert (Hnz : forallb (fun c => c =? 0) (slice_to l m) = false).
    { destruct (forallb _ _) eqn:F; [|reflexivity].
      apply leading_count_all in F. fold lc in F. lia. }
    destruct (leading_count_skip 0 _ Hnz) as (c & rest & Hsk & Hc). fold lc in Hsk.
    assert (Ht : t = c :: rest ++ slice_from l m).
    { unfold t. rewrite <- (firstn_skipn (Z.to_nat m) l) at 1.
      fold (slice_to l m). fold (slice_from l m).
      unfold slice_from at 1. rewrite skipn_app.
      fold (slice_from (slice_to l m) lc). rewrite Hsk.
      replace (Z.to_nat lc - length (slice_to l m))%nat with 0%nat
        by (unfold len in Hlm; lia).
      reflexivity. }
    rewrite Ht. unfold slice_to.
    destruct (Z.to_nat (len (c :: rest ++ slice_from l m) - d)) as [|[|k]]; try exact I.
    cbn [firstn]. destruct (rest ++ slice_from l m); [exact I|exact Hc].
Qed.

(** The conversion of a trimmed sum or difference to ASCII. *)
Lemma ascii_digits_spec (t : list Z) (d : Z) :
  small t ->
  match slice_to t (len t - d) with c :: _ :: _ => c <> 0 | _ => True end ->
  let norm := add_bytes t 48 in
  forallb is_digit norm = true /\ len norm = len t
  /\ digits_value norm = be t
  /\ canonical (slice_to norm (len norm - d)) = true.
Proof.
  intros Hs Hc norm. unfold norm.
  split; [apply is_digit_add_bytes; exact Hs|]. split; [apply len_add_bytes|].
  split; [rewrite digits_value_raw, raw_add_bytes by exact Hs; reflexivity|].
  rewrite len_add_bytes. unfold add_bytes, slice_to in *. rewrite firstn_map.
  destruct (firstn (Z.to_nat (len t - d)) t) as [|c [|c' r]] eqn:E; try reflexivity.
  cbn [map canonical].
  assert (Hin : 0 <= c <= 9).
  { assert (Hf : small (firstn (Z.to_nat (len t - d)) t)) by (apply Forall_take; exact Hs).
    rewrite E in Hf. inversion Hf; assumption. }
  rewrite to_byte_small by lia. apply negb_true_iff, Z.eqb_neq. lia.
Qed.

(** The internal [add] on operands whose fields are well-formed. *)
Lemma add_spec (a b : BigFloat) :
  forallb is_digit (Norm a) = true -> Len a = len (Norm a) -> 0 <= Decimals a < Len a ->
  forallb is_digit (Norm b) = true -> Len b = len (Norm b) -> 0 <= Decimals b < Len b ->
  let d := Z.max (Decimals a) (Decimals b) in
  let r := add a b in
  forallb is_digit (Norm r) = true /\ Len r = len (Norm r)
  /\ Decimals r = d /\ d < Len r
  /\ stranalyzer.Sign r = stranalyzer.Sign a
  /\ canonical (slice_to (Norm r) (Len r - Decimals r)) = true
  /\ digits_value (Norm r)
     = digits_value (Norm (padded a d)) + digits_value (Norm (padded b d)).
Proof.
  intros Hda Hla Hdeca Hdb Hlb Hdecb d r.
  destruct (padded_operand a d Hda Hla ltac:(lia)) as (Hoa & _ & Hlena).
  destruct (padded_operand b d Hdb Hlb ltac:(lia)) as (Hob & _ & Hlenb).
  set (X := digits_value (Norm (padded a d))).
  set (Y := digits_value (Norm (padded b d))).
  set (M := Z.max (len (Norm (padded a d))) (len (Norm (padded b d)))).
  assert (HM : d < M) by lia.
  assert (HA : ALen (align [a; b]) = M).
  { destruct (multiRead_padded a b 0 Hla Hlb ltac:(lia)) as (-> & _ & _). fold d.
    rewrite (align_integers _ _ Hoa Hob). cbn [ALen]. fold M. lia. }
  assert (HD : MaxDecLen (align [a; b]) = d) by (rewrite align_pair; reflexivity).
  pose proof (add_loop_integers _ _ Hoa Hob (Z.to_nat M) 0 0 [] ltac:(lia) eq_refl
                ltac:(lia) ltac:(constructor)) as H.
  cbv zeta in H. rewrite Z.pow_0_r, !Z.mod_1_r in H. specialize (H eq_refl).
  rewrite <- (add_loop_padded a b Hla Hlb) in H by lia.
  fold X Y in H. rewrite Z.add_0_l, Z2Nat.id in H by lia.
  unfold r, add. rewrite HA, HD.
  destruct (add_loop [a; b] (align [a; b]) (Z.to_nat M) 0 0 []) as [o T].
  cbn [fst snd] in H. destruct H as (Hs & Hlen & Ho & Hbe).
  pose proof (digits_value_bounds _ (proj2 (proj2 Hoa))) as Hbx. fold X in Hbx.
  pose proof (digits_value_bounds _ (proj2 (proj2 Hob))) as Hby. fold Y in Hby.
  assert (10 ^ len (Norm (padded a d)) <= 10 ^ M) by (apply Z.pow_le_mono_r; lia).
  assert (10 ^ len (Norm (padded b d)) <= 10 ^ M) by (apply Z.pow_le_mono_r; lia).
  rewrite !Z.mod_small in Hbe by lia.
  set (l := reverse (T ++ [to_byte o])).
  assert (Hl : l = o :: rev T).
  { unfold l, reverse. rewrite rev_app_distr. rewrite to_byte_small by lia. reflexivity. }
  assert (Hsl : small l).
  { rewrite Hl. constructor; [lia|]. apply Forall_rev. exact Hs. }
  assert (Hll : len l = M + 1) by (rewrite Hl, len_cons, len_rev; lia).
  assert (Hbl : be l = X + Y) by (rewrite Hl, be_cons, len_rev, Hlen; lia).
  destruct (trim_leading_spec l d Hsl ltac:(lia)) as (Hbt & Hst & Hlt & Hct).
  destruct (ascii_digits_spec (trim_leading l d) d Hst Hct) as (Hdn & Hln & Hvn & Hcn).
  cbn [Norm Len Decimals stranalyzer.Sign].
  repeat split; try assumption; try lia.
Qed.

(** The internal [sub] on operands whose fields are well-formed, the
    first not smaller in magnitude than the second. *)
Lemma sub_spec (a b : BigFloat) :
  forallb is_digit (Norm a) = true -> Len a = len (Norm a) -> 0 <= Decimals a < Len a ->
  forallb is_digit (Norm b) = true -> Len b = len (Norm b) -> 0 <= Decimals b < Len b ->
  let d := Z.max (Decimals a) (Decimals b) in
  digits_value (Norm (padded b d)) <= digits_value (Norm (padded a d)) ->
  let r := sub a b in
  forallb is_digit (Norm r) = true /\ Len r = len (Norm r)
  /\ Decimals r = d /\ d < Len r
  /\ stranalyzer.Sign r = 1
  /\ canonical (slice_to (Norm r) (Len r - Decimals r)) = true
  /\ digits_value (Norm r)
     = digits_value (Norm (padded a d)) - digits_value (Norm (padded b d)).
Proof.
  intros Hda Hla Hdeca Hdb Hlb Hdecb d Hle r.
  destruct (padded_operand a d Hda Hla ltac:(lia)) as (Hoa & _ & Hlena).
  destruct (padded_operand b d Hdb Hlb ltac:(lia)) as (Hob & _ & Hlenb).
  set (X := digits_value (Norm (padded a d))) in *.
  set (Y := digits_value (Norm (padded b d))) in *.
  set (M := Z.max (len (Norm (padded a d))) (len (Norm (padded b d)))).
  assert (HM : d < M) by lia.
  assert (HA : ALen (align [a; b]) = M).
  { destruct (multiRead_padded a b 0 Hla Hlb ltac:(lia)) as (-> & _ & _). fold d.
    rewrite (align_integers _ _ Hoa Hob). cbn [ALen]. fold M. lia. }
  assert (HD : MaxDecLen (align [a; b]) = d) by (rewrite align_pair; reflexivity).
  pose proof (sub_loop_integers _ _ Hoa Hob (Z.to_nat M) 0 0 [] ltac:(lia) eq_refl
                ltac:(lia) ltac:(constructor)) as H.
  cbv zeta in H. rewrite Z.pow_0_r, !Z.mod_1_r in H. specialize (H eq_refl).
  rewrite <- (sub_loop_padded a b Hla Hlb) in H by lia.
  fold X Y in H. rewrite Z.add_0_l, Z2Nat.id in H by lia.
  unfold r, sub. rewrite HA, HD.
  set (T := sub_loop [a; b] (align [a; b]) (Z.to_nat M) 0 0 []) in *.
  destruct H as (Hs & Hlen & o & Ho & Hbe).
  pose proof (digits_value_bounds _ (proj2 (proj2 Hoa))) as Hbx. fold X in Hbx.
  pose proof (digits_value_bounds _ (proj2 (proj2 Hob))) as Hby. fold Y in Hby.
  assert (10 ^ len (Norm (padded a d)) <= 10 ^ M) by (apply Z.pow_le_mono_r; lia).
  assert (10 ^ len (Norm (padded b d)) <= 10 ^ M) by (apply Z.pow_le_mono_r; lia).
  rewrite !Z.mod_small in Hbe by lia.
  assert (Hr : small (reverse T)) by (apply Forall_rev; exact Hs).
  pose proof (be_bounds _ Hr) as Hbr. unfold reverse in Hbr. rewrite len_rev, Hlen in Hbr.
  assert (o = 0) by lia. subst o.
  assert (Hll : len (reverse T) = M) by (unfold reverse; rewrite len_rev; exact Hlen).
  destruct (trim_leading_spec (reverse T) d Hr ltac:(lia)) as (Hbt & Hst & Hlt & Hct).
  destruct (ascii_digits_spec (trim_leading (reverse T) d) d Hst Hct) as (Hdn & Hln & Hvn & Hcn).
  cbn [Norm Len Decimals stranalyzer.Sign].
  repeat split; try assumption; try lia. unfold reverse in *. lia.
Qed.

Lemma scaled_shift (f : BigFloat) (d1 d2 : Z) :
  Decimals f <= d1 -> d1 <= d2 -> scaled f d2 = scaled f d1 * 10 ^ (d2 - d1).
Proof.
  intros H1 H2. unfold scaled.
  replace (d2 - Decimals f) with ((d1 - Decimals f) + (d2 - d1)) by lia.
  rewrite Z.pow_add_r by lia. ring.
Qed.

Lemma scaled_zero (f : BigFloat) (d : Z) :
  forallb is_digit (Norm f) = true -> all_zero (Norm f) = true -> scaled f d = 0.
Proof.
  intros Hd Hz. unfold scaled. apply digits_value_zero_iff in Hz; [|exact Hd].
  rewrite Hz. lia.
Qed.

(** A sum or difference of magnitudes with the sign set on it. *)
Lemma signed_result (r : BigFloat) (s V d : Z) :
  forallb is_digit (Norm r) = true -> Len r = len (Norm r) ->
  Decimals r = d -> 0 <= d < Len r ->
  canonical (slice_to (Norm r) (Len r - Decimals r)) = true ->
  digits_value (Norm r) = V -> 0 < V -> s = 1 \/ s = -1 ->
  wellformed (bigfloat.Sign r s) = true
  /\ Decimals (bigfloat.Sign r s) = d
  /\ scaled (bigfloat.Sign r s) d = s * V.
Proof.
  intros Hd Hl Hdec Hb Hc Hv Hpos Hs.
  assert (Hw : wellformed (with_Sign r 1) = true).
  { apply wellformed_intro; cbn [with_Sign Norm Len Decimals stranalyzer.Sign]; auto. lia. }
  destruct (Sign_wellformed r s Hw Hs) as [E Hws].
  split; [exact Hws|]. rewrite E.
  assert (Hnz : all_zero (Norm r) = false).
  { destruct (all_zero (Norm r)) eqn:Ez; [|reflexivity].
    apply digits_value_zero_iff in Ez; [lia|exact Hd]. }
  rewrite Hnz. unfold scaled. cbn [with_Sign Norm Len Decimals stranalyzer.Sign].
  split; [exact Hdec|]. rewrite Hv, Hdec, Z.sub_diag. change (10 ^ 0) with 1. lia.
Qed.

Lemma zero_result (d : Z) :
  0 <= d ->
  wellformed (SetDecimals (SetInt64 empty 0) d) = true
  /\ Decimals (SetDecimals (SetInt64 empty 0) d) = d
  /\ scaled (SetDecimals (SetInt64 empty 0) d) d = 0.
Proof.
  intros Hd. rewrite SetInt64_0, (SetDecimals_New d Hd).
  assert (Hz : all_zero (repeat (ch "0") (Z.to_nat (d + 1))) = true)
    by (apply (all_zero_fill (d + 1))).
  assert (Hdg : forallb is_digit (repeat (ch "0") (Z.to_nat (d + 1))) = true)
    by (apply (is_digit_zero_fill (d + 1))).
  split; [|split; [reflexivity|apply scaled_zero; assumption]].
  apply wellformed_intro; cbn [Norm Len Decimals stranalyzer.Sign]; auto.
  - symmetry. apply (len_fill (d + 1) (ch "0")). lia.
  - lia.
  - replace (d + 1 - d) with 1 by lia.
    replace (Z.to_nat (d + 1)) with (1 + Z.to_nat d)%nat by lia. reflexivity.
Qed.

Lemma padded_with_Sign (f : BigFloat) (s d : Z) :
  Norm (padded (with_Sign f s) d) = Norm (padded f d).
Proof. reflexivity. Qed.

(** The magnitudes of two well-formed operands at their common count
    of decimals, and what [IsInt64(0)] and [CompareAbs] say of them. *)
Lemma operands_spec (a b : BigFloat) :
  wellformed a = true -> wellformed b = true ->
  let d := Z.max (Decimals a) (Decimals b) in
  let X := digits_value (Norm (padded a d)) in
  let Y := digits_value (Norm (padded b d)) in
  scaled a d = stranalyzer.Sign a * X /\ scaled b d = stranalyzer.Sign b * Y
  /\ 0 <= X /\ 0 <= Y
  /\ (IsInt64 a 0 = true -> X = 0) /\ (IsInt64 a 0 = false -> 0 < X)
  /\ (IsInt64 b 0 = true -> Y = 0) /\ (IsInt64 b 0 = false -> 0 < Y)
  /\ CompareAbs a b = Z.sgn (X - Y).
Proof.
  intros Hwa Hwb d X Y.
  destruct (scaled_padded a d Hwa ltac:(lia)) as (Hoa & Hva & Hba & _ & _ & Hpa).
  destruct (scaled_padded b d Hwb ltac:(lia)) as (Hob & Hvb & Hbb & _ & _ & Hpb).
  fold X in Hva, Hba, Hpa. fold Y in Hvb, Hbb, Hpb.
  pose proof (wellformed_elim _ Hwa) as (Hda & _ & _ & Hsa & _ & _).
  pose proof (wellformed_elim _ Hwb) as (Hdb & _ & _ & Hsb & _ & _).
  destruct (wellformed_invariants _ Hwa) as [Hia Hha].
  destruct (wellformed_invariants _ Hwb) as [Hib Hhb].
  rewrite (IsInt64_0_magnitude a Hia Hha), (IsInt64_0_magnitude b Hib Hhb).
  destruct (compare_spec a b Hwa Hwb) as [_ Hc]. fold d in Hc.
  split; [exact Hva|]. split; [exact Hvb|].
  split; [exact (proj1 Hba)|]. split; [exact (proj1 Hbb)|].
  split.
  { intros Hz. pose proof (scaled_zero a d Hda Hz) as H0. rewrite Hva in H0.
    clear - H0 Hsa. destruct Hsa as [E | E]; rewrite E in H0; lia. }
  split; [exact Hpa|]. split.
  { intros Hz. pose proof (scaled_zero b d Hdb Hz) as H0. rewrite Hvb in H0.
    clear - H0 Hsb. destruct Hsb as [E | E]; rewrite E in H0; lia. }
  split; [exact Hpb|].
  rewrite Hc, Hva, Hvb. f_equal.
  assert (HX : 0 <= X) by exact (proj1 Hba). assert (HY : 0 <= Y) by exact (proj1 Hbb).
  clear - Hsa Hsb HX HY. destruct Hsa as [-> | ->], Hsb as [-> | ->]; lia.
Qed.

Lemma Add_spec (a b : BigFloat) :
  wellformed a = true -> wellformed b = true ->
  let d := Z.max (Decimals a) (Decimals b) in
  wellformed (Add a b) = true
  /\ Decimals (Add a b) <= d
  /\ scaled (Add a b) d = scaled a d + scaled b d.
Proof.
  intros Hwa Hwb d.
  destruct (operands_spec a b Hwa Hwb) as (Hva & Hvb & HX & HY & Hza & Hpa & Hzb & Hpb & Hc).
  fold d in Hva, Hvb, HX, HY, Hza, Hpa, Hzb, Hpb, Hc.
  set (X := digits_value (Norm (padded a d))) in *.
  set (Y := digits_value (Norm (padded b d))) in *.
  pose proof (wellformed_elim _ Hwa) as (Hda & Hla & Hdeca & Hsa & _ & _).
  pose proof (wellformed_elim _ Hwb) as (Hdb & Hlb & Hdecb & Hsb & _ & _).
  rewrite Hva, Hvb. unfold Add.
  destruct (IsInt64 a 0) eqn:Ea.
  { rewrite (Hza eq_refl). split; [exact Hwb|]. split; [apply Z.le_max_r|]. rewrite Hvb. ring. }
  destruct (IsInt64 b 0) eqn:Eb.
  { rewrite (Hzb eq_refl). split; [exact Hwa|]. split; [apply Z.le_max_l|]. rewrite Hva. ring. }
  specialize (Hpa eq_refl). specialize (Hpb eq_refl).
  destruct (stranalyzer.Sign a =? stranalyzer.Sign b) eqn:Es.
  { apply Z.eqb_eq in Es.
    destruct (add_spec a b Hda Hla Hdeca Hdb Hlb Hdecb)
      as (Hdr & Hlr & Hdecr & Hbr & Hsr & Hcr & Hvr).
    fold d in Hdecr, Hbr, Hvr. fold X Y in Hvr.
    assert (Hnz : all_zero (Norm (add a b)) = false).
    { destruct (all_zero (Norm (add a b))) eqn:Ez; [|reflexivity].
      apply digits_value_zero_iff in Ez; [clear - Ez Hvr Hpa Hpb; lia|exact Hdr]. }
    split; [|split; [rewrite Hdecr; apply Z.le_refl|]].
    - apply wellformed_intro;
        [exact Hdr|exact Hlr|clear - Hdecr Hbr Hdeca; lia|rewrite Hsr; exact Hsa
        |rewrite Hnz; discriminate|exact Hcr].
    - unfold scaled. rewrite Hsr, Hvr, Hdecr, Z.sub_diag. change (10 ^ 0) with 1.
      rewrite <- Es. ring. }
  apply Z.eqb_neq in Es. rewrite Hc.
  destruct (Z.sgn (X - Y) =? 0) eqn:E0.
  { destruct (zero_result d ltac:(lia)) as (Hw0 & Hd0 & Hv0). fold d.
    split; [exact Hw0|]. split; [rewrite Hd0; apply Z.le_refl|]. rewrite Hv0.
    assert (X = Y) by (clear - E0; lia).
    clear - H Hsa Hsb Es. destruct Hsa as [Ha | Ha], Hsb as [Hb | Hb]; rewrite Ha, Hb in *; lia. }
  destruct (Z.sgn (X - Y) <? 0) eqn:E1.
  - unfold Abs, Copy. rewrite !Sign_positive.
    destruct (sub_spec (with_Sign b 1) (with_Sign a 1) Hdb Hlb Hdecb Hda Hla Hdeca)
      as (Hdr & Hlr & Hdecr & Hbr & Hsr & Hcr & Hvr).
    { cbn [with_Sign Decimals]. rewrite !padded_with_Sign, (Z.max_comm (Decimals b)).
      fold d X Y. clear - E1. lia. }
    cbn [with_Sign Decimals] in Hdecr, Hbr, Hvr.
    rewrite !padded_with_Sign, (Z.max_comm (Decimals b)) in Hvr. fold d X Y in Hvr.
    rewrite (Z.max_comm (Decimals b)) in Hdecr, Hbr. fold d in Hdecr, Hbr.
    destruct (signed_result _ (stranalyzer.Sign b) (Y - X) d Hdr Hlr Hdecr ltac:(lia) Hcr Hvr
                ltac:(lia) Hsb) as (Hw & Hd' & Hv).
    split; [exact Hw|]. split; [rewrite Hd'; apply Z.le_refl|]. rewrite Hv.
    clear - Hsa Hsb Es. destruct Hsa as [Ha | Ha], Hsb as [Hb | Hb]; rewrite Ha, Hb in *; lia.
  - unfold Abs, Copy. rewrite !Sign_positive.
    destruct (sub_spec (with_Sign a 1) (with_Sign b 1) Hda Hla Hdeca Hdb Hlb Hdecb)
      as (Hdr & Hlr & Hdecr & Hbr & Hsr & Hcr & Hvr).
    { cbn [with_Sign Decimals]. rewrite !padded_with_Sign. fold d X Y. clear - E0 E1. lia. }
    cbn [with_Sign Decimals] in Hdecr, Hbr, Hvr.
    rewrite !padded_with_Sign in Hvr. fold d X Y in Hvr. fold d in Hdecr, Hbr.
    destruct (signed_result _ (stranalyzer.Sign a) (X - Y) d Hdr Hlr Hdecr ltac:(lia) Hcr Hvr
                ltac:(lia) Hsa) as (Hw & Hd' & Hv).
    split; [exact Hw|]. split; [rewrite Hd'; apply Z.le_refl|]. rewrite Hv.
    clear - Hsa Hsb Es. destruct Hsa as [Ha | Ha], Hsb as [Hb | Hb]; rewrite Ha, Hb in *; lia.
Qed.

(** X13: on well-formed values [Add] yields a well-formed value that
    stands for the sum, with at most as many decimals as the operand
    that has more. *)
Theorem Add_value (a b : BigFloat) :
  wellformed a = true -> wellformed b = true ->
  wellformed (Add a b) = true
  /\ Decimals (Add a b) <= Z.max (Decimals a) (Decimals b)
  /\ forall d : Z,
       Z.max (Decimals a) (Decimals b) <= d ->
       scaled (Add a b) d = scaled a d + scaled b d.
Proof.
  intros Hwa Hwb. destruct (Add_spec a b Hwa Hwb) as (Hw & Hd & Hv).
  split; [exact Hw|]. split; [exact Hd|]. intros d Hle.
  rewrite (scaled_shift (Add a b) (Z.max (Decimals a) (Decimals b)) d) by lia.
  rewrite (scaled_shift a (Z.max (Decimals a) (Decimals b)) d) by lia.
  rewrite (scaled_shift b (Z.max (Decimals a) (Decimals b)) d) by lia.
  rewrite Hv. ring.
Qed.

Lemma Add_value_witness :
  wellformed (Add (parse "-12.5") (parse "3.125")) = true
  /\ Decimals (Add (parse "-12.5") (parse "3.125"))
     <= Z.max (Decimals (parse "-12.5")) (Decimals (parse "3.125"))
  /\ forall d : Z,
       Z.max (Decimals (parse "-12.5")) (Decimals (parse "3.125")) <= d ->
       scaled (Add (parse "-12.5") (parse "3.125")) d
       = scaled (parse "-12.5") d + scaled (parse "3.125") d.
Proof. apply (Add_value (parse "-12.5") (parse "3.125")); vm_compute; reflexivity. Defined.

Lemma Neg_spec (f : BigFloat) (d : Z) :
  wellformed f = true ->
  wellformed (Neg f) = true /\ Decimals (Neg f) = Decimals f
  /\ scaled (Neg f) d = - scaled f d.
Proof.
  intros Hw. pose proof (wellformed_elim _ Hw) as (Hd & _ & _ & Hs & _ & _).
  assert (Hs' : stranalyzer.Sign f * -1 = 1 \/ stranalyzer.Sign f * -1 = -1)
    by (clear - Hs; lia).
  destruct (Sign_wellformed f _ (wellformed_with_Sign_1 f Hw) Hs') as [E Hwn].
  unfold Neg. split; [exact Hwn|]. rewrite E. split; [reflexivity|].
  unfold scaled. cbn [with_Sign Norm Decimals stranalyzer.Sign].
  destruct (all_zero (Norm f)) eqn:Ez.
  - apply digits_value_zero_iff in Ez; [|exact Hd]. rewrite Ez. ring.
  - ring.
Qed.

Lemma Sub_spec (a b : BigFloat) :
  wellformed a = true -> wellformed b = true ->
  let d := Z.max (Decimals a) (Decimals b) in
  wellformed (Sub a b) = true
  /\ Decimals (Sub a b) <= d
  /\ scaled (Sub a b) d = scaled a d - scaled b d.
Proof.
  intros Hwa Hwb d.
  destruct (operands_spec a b Hwa Hwb) as (Hva & Hvb & HX & HY & Hza & Hpa & Hzb & Hpb & Hc).
  fold d in Hva, Hvb, HX, HY, Hza, Hpa, Hzb, Hpb, Hc.
  set (X := digits_value (Norm (padded a d))) in *.
  set (Y := digits_value (Norm (padded b d))) in *.
  pose proof (wellformed_elim _ Hwa) as (Hda & Hla & Hdeca & Hsa & _ & _).
  pose proof (wellformed_elim _ Hwb) as (Hdb & Hlb & Hdecb & Hsb & _ & _).
  unfold Sub.
  destruct (IsInt64 a 0) eqn:Ea.
  { destruct (Neg_spec b d Hwb) as (Hw & Hd' & Hv).
    split; [exact Hw|]. split; [rewrite Hd'; apply Z.le_max_r|].
    rewrite Hv, Hva, (Hza eq_refl). ring. }
  destruct (IsInt64 b 0) eqn:Eb.
  { split; [exact Hwa|]. split; [apply Z.le_max_l|]. rewrite Hvb, (Hzb eq_refl). ring. }
  specialize (Hpa eq_refl). specialize (Hpb eq_refl). rewrite Hva, Hvb.
  destruct (stranalyzer.Sign a =? stranalyzer.Sign b) eqn:Es; cbn [negb].
  2:{ apply Z.eqb_neq in Es. unfold Abs, Copy. rewrite !Sign_positive.
      destruct (add_spec (with_Sign a 1) (with_Sign b 1) Hda Hla Hdeca Hdb Hlb Hdecb)
        as (Hdr & Hlr & Hdecr & Hbr & Hsr & Hcr & Hvr).
      cbn [with_Sign Decimals] in Hdecr, Hbr, Hvr.
      rewrite !padded_with_Sign in Hvr. fold d X Y in Hvr. fold d in Hdecr, Hbr.
      destruct (signed_result _ (stranalyzer.Sign a) (X + Y) d Hdr Hlr Hdecr
                  ltac:(clear - Hbr Hdeca; lia) Hcr Hvr ltac:(clear - Hpa Hpb; lia) Hsa)
        as (Hw & Hd' & Hv).
      split; [exact Hw|]. split; [rewrite Hd'; apply Z.le_refl|]. rewrite Hv.
      clear - Hsa Hsb Es.
      destruct Hsa as [Ha | Ha], Hsb as [Hb | Hb]; rewrite Ha, Hb in *; lia. }
  apply Z.eqb_eq in Es. rewrite Hc.
  assert (Em : maxInt (Decimals a) (Decimals b) = d).
  { unfold maxInt, d. rewrite Z.gtb_ltb. destruct (_ <? _) eqn:E; lia. }
  destruct (Z.sgn (X - Y) =? 0) eqn:E0.
  { rewrite Em. destruct (zero_result d ltac:(clear - Hdeca; lia)) as (Hw0 & Hd0 & Hv0).
    split; [exact Hw0|]. split; [rewrite Hd0; apply Z.le_refl|]. rewrite Hv0.
    assert (X = Y) by (clear - E0; lia). rewrite Es, H. ring. }
  destruct (Z.sgn (X - Y) <? 0) eqn:E1.
  - unfold Abs, Copy. rewrite !Sign_positive.
    destruct (sub_spec (with_Sign b 1) (with_Sign a 1) Hdb Hlb Hdecb Hda Hla Hdeca)
      as (Hdr & Hlr & Hdecr & Hbr & Hsr & Hcr & Hvr).
    { cbn [with_Sign Decimals]. rewrite !padded_with_Sign, (Z.max_comm (Decimals b)).
      fold d X Y. clear - E1. lia. }
    cbn [with_Sign Decimals] in Hdecr, Hbr, Hvr.
    rewrite !padded_with_Sign, (Z.max_comm (Decimals b)) in Hvr. fold d X Y in Hvr.
    rewrite (Z.max_comm (Decimals b)) in Hdecr, Hbr. fold d in Hdecr, Hbr.
    destruct (signed_result _ (stranalyzer.Sign b * -1) (Y - X) d Hdr Hlr Hdecr
                ltac:(clear - Hbr Hdeca; lia) Hcr Hvr ltac:(clear - E1; lia)
                ltac:(clear - Hsb; lia))
      as (Hw & Hd' & Hv).
    split; [exact Hw|]. split; [rewrite Hd'; apply Z.le_refl|]. rewrite Hv, Es. ring.
  - unfold Abs, Copy. rewrite !Sign_positive.
    destruct (sub_spec (with_Sign a 1) (with_Sign b 1) Hda Hla Hdeca Hdb Hlb Hdecb)
      as (Hdr & Hlr & Hdecr & Hbr & Hsr & Hcr & Hvr).
    { cbn [with_Sign Decimals]. rewrite !padded_with_Sign. fold d X Y. clear - E0 E1. lia. }
    cbn [with_Sign Decimals] in Hdecr, Hbr, Hvr.
    rewrite !padded_with_Sign in Hvr. fold d X Y in Hvr. fold d in Hdecr, Hbr.
    destruct (signed_result _ (stranalyzer.Sign a) (X - Y) d Hdr Hlr Hdecr
                ltac:(clear - Hbr Hdeca; lia) Hcr Hvr ltac:(clear - E0 E1; lia) Hsa)
      as (Hw & Hd' & Hv).
    split; [exact Hw|]. split; [rewrite Hd'; apply Z.le_refl|]. rewrite Hv, Es. ring.
Qed.

(** X14: on well-formed values [Sub] yields a well-formed value that
    stands for the difference, with at most as many decimals as the
    operand that has more. *)
Theorem Sub_value (a b : BigFloat) :
  wellformed a = true -> wellformed b = true ->
  wellformed (Sub a b) = true
  /\ Decimals (Sub a b) <= Z.max (Decimals a) (Decimals b)
  /\ forall d : Z,
       Z.max (Decimals a) (Decimals b) <= d ->
       scaled (Sub a b) d = scaled a d - scaled b d.
Proof.
  intros Hwa Hwb. destruct (Sub_spec a b Hwa Hwb) as (Hw & Hd & Hv).
  split; [exact Hw|]. split; [exact Hd|]. intros d Hle.
  rewrite (scaled_shift (Sub a b) (Z.max (Decimals a) (Decimals b)) d) by lia.
  rewrite (scaled_shift a (Z.max (Decimals a) (Decimals b)) d) by lia.
  rewrite (scaled_shift b (Z.max (Decimals a) (Decimals b)) d) by lia.
  rewrite Hv. ring.
Qed.

Lemma Sub_value_witness :
  wellformed (Sub (parse "-12.5") (parse "-3.125")) = true
  /\ Decimals (Sub (parse "-12.5") (parse "-3.125"))
     <= Z.max (Decimals (parse "-12.5")) (Decimals (parse "-3.125"))
  /\ forall d : Z,
       Z.max (Decimals (parse "-12.5")) (Decimals (parse "-3.125")) <= d ->
       scaled (Sub (parse "-12.5") (parse "-3.125")) d
       = scaled (parse "-12.5") d - scaled (parse "-3.125") d.
Proof. apply (Sub_value (parse "-12.5") (parse "-3.125")); vm_compute; reflexivity. Defined.

(** ** Multiplication of well-formed values *)

Lemma column_digits (R : list subProduct) (pos : Z) :
  forall s : Z, column R pos s = s + column R pos 0.
Proof.
  unfold column. induction R as [|sp R IH]; intros s; cbn [fold_left]; [lia|].
  match goal with
  | |- fold_left _ R ?x = s + fold_left _ R ?y => rewrite (IH x), (IH y)
  end.
  destruct ((pos - sp_offset sp >=? 0) && (pos - sp_offset sp <? len (product sp))); lia.
Qed.

Lemma column_cons (sp : subProduct) (R : list subProduct) (pos : Z) :
  column (sp :: R) pos 0 = digit_at sp pos + column R pos 0.
Proof.
  unfold column at 1. cbn [fold_left]. 
  match goal with
  | |- fold_left ?f R ?x = _ => change (fold_left f R x) with (column R pos x)
  end.
  rewrite column_digits. unfold digit_at. cbv zeta.
  destruct ((pos - sp_offset sp >=? 0) && (pos - sp_offset sp <? len (product sp))); lia.
Qed.

Lemma weighted_add (f g : Z -> Z) (n : nat) :
  weighted (fun p => f p + g p) n = weighted f n + weighted g n.
Proof. induction n as [|k IH]; cbn [weighted]; [reflexivity|]. rewrite IH. ring. Qed.

Lemma weighted_ext (f g : Z -> Z) (n : nat) :
  (forall p, 0 <= p -> f p = g p) -> weighted f n = weighted g n.
Proof.
  intros H. induction n as [|k IH]; cbn [weighted]; [reflexivity|].
  rewrite IH, H by lia. reflexivity.
Qed.

Lemma weighted_zero (n : nat) : weighted (fun _ => 0) n = 0.
Proof. induction n as [|k IH]; cbn [weighted]; [reflexivity|]. rewrite IH. ring. Qed.

Lemma firstn_snoc_nth (l : list Z) (n : nat) :
  (n < length l)%nat -> firstn (S n) l = firstn n l ++ [nth n l 0].
Proof.
  revert n. induction l as [|x l IH]; intros n H; [cbn in H; lia|].
  destruct n as [|n]; [reflexivity|].
  cbn [firstn nth app]. f_equal. apply IH. cbn in H. lia.
Qed.

Lemma weighted_digit_at (sp : subProduct) (n : nat) :
  0 <= sp_offset sp ->
  weighted (digit_at sp) n
  = be (rev (firstn (n - Z.to_nat (sp_offset sp)) (product sp))) * 10 ^ sp_offset sp.
Proof.
  intros Hoff. set (off := sp_offset sp) in *. set (P := product sp).
  induction n as [|k IH]; cbn [weighted].
  - replace (0 - Z.to_nat off)%nat with 0%nat by lia. reflexivity.
  - rewrite IH. unfold digit_at. cbv zeta. fold off P.
    destruct (Z.of_nat k - off >=? 0) eqn:E1; cbn [andb].
    + destruct (Z.of_nat k - off <? len P) eqn:E2.
      * replace (S k - Z.to_nat off)%nat with (S (k - Z.to_nat off)) by lia.
        rewrite firstn_snoc_nth by (unfold len in E2; lia).
        rewrite rev_app_distr. cbn [rev app]. rewrite be_cons, len_rev.
        assert (Hl : len (firstn (k - Z.to_nat off) P) = Z.of_nat k - off).
        { unfold len. rewrite length_firstn. unfold len in E2. lia. }
        rewrite Hl. unfold idx.
        replace (Z.to_nat (Z.of_nat k - off)) with (k - Z.to_nat off)%nat by lia.
        assert (Hpow : 10 ^ Z.of_nat k = 10 ^ (Z.of_nat k - off) * 10 ^ off)
          by (rewrite <- Z.pow_add_r by lia; f_equal; lia).
        rewrite Hpow. ring.
      * rewrite !firstn_all2 by (unfold len in E2; lia). ring.
    + replace (S k - Z.to_nat off)%nat with 0%nat by lia.
      replace (k - Z.to_nat off)%nat with 0%nat by lia. ring.
Qed.

Lemma weighted_column (n : nat) (R : list subProduct) :
  Forall (subProduct_ok (Z.of_nat n)) R ->
  weighted (fun pos => column R pos 0) n = subProducts_value R.
Proof.
  induction R as [|sp R IH]; intros H.
  - cbn [subProducts_value fold_right]. unfold column. cbn [fold_left]. apply weighted_zero.
  - inversion H as [|? ? (Hs & Hoff & Hn) HR]; subst.
    rewrite (weighted_ext _ (fun pos => digit_at sp pos + column R pos 0))
      by (intros p _; apply column_cons).
    rewrite weighted_add, IH by exact HR.
    rewrite weighted_digit_at by exact Hoff.
    rewrite firstn_all2 by (unfold len in Hn; lia).
    reflexivity.
Qed.

Lemma digit_at_nonneg (n : Z) (sp : subProduct) (pos : Z) :
  subProduct_ok n sp -> 0 <= digit_at sp pos.
Proof.
  intros (Hs & _ & _). unfold digit_at. cbv zeta.
  destruct (_ && _); [|lia]. apply idx_small. exact Hs.
Qed.

Lemma column_nonneg (n : Z) (R : list subProduct) (pos : Z) :
  Forall (subProduct_ok n) R -> 0 <= column R pos 0.
Proof.
  induction R as [|sp R IH]; intros H.
  - unfold column. cbn [fold_left]. lia.
  - inversion H as [|? ? Hsp HR]; subst. rewrite column_cons.
    pose proof (digit_at_nonneg n sp pos Hsp). specialize (IH HR). lia.
Qed.

(** The carry propagation of [Mul] over the column sums. *)
Lemma sum_loop_spec (n : Z) (R : list subProduct) :
  Forall (subProduct_ok n) R ->
  forall (k : nat) (pos o : Z) (T : list Z),
    0 <= pos -> len T = pos -> small T -> 0 <= o ->
    be (rev T) + o * 10 ^ pos = weighted (fun p => column R p 0) (Z.to_nat pos) ->
    let r := sum_loop R k pos o T in
    small (snd r) /\ len (snd r) = pos + Z.of_nat k /\ 0 <= fst r
    /\ be (rev (snd r)) + fst r * 10 ^ (pos + Z.of_nat k)
       = weighted (fun p => column R p 0) (Z.to_nat (pos + Z.of_nat k)).
Proof.
  intros HR. induction k as [|k IH]; intros pos o T Hp HT Hs Ho Hv.
  - cbn [sum_loop fst snd]. rewrite Z.add_0_r. auto.
  - cbn [sum_loop]. rewrite column_digits.
    pose proof (column_nonneg n R pos HR) as Hc.
    set (s := o + column R pos 0) in *.
    rewrite divmod10_nonneg by lia.
    pose proof (Z.mod_pos_bound s 10 ltac:(lia)) as Hm.
    pose proof (Z.div_mod s 10 ltac:(lia)) as Hdm.
    assert (Hq : 0 <= s / 10) by (apply Z.div_pos; lia).
    replace (pos + Z.of_nat (S k)) with (pos + 1 + Z.of_nat k) by lia.
    apply IH; try lia.
    + rewrite len_app. change (len [to_byte (s mod 10)]) with 1. lia.
    + apply small_app. split; [exact Hs|]. repeat constructor; rewrite to_byte_small; lia.
    + rewrite rev_app_distr. cbn [rev app]. rewrite be_cons, len_rev, HT.
      rewrite to_byte_small by lia.
      replace (Z.to_nat (pos + 1)) with (S (Z.to_nat pos)) by lia.
      cbn [weighted]. rewrite <- Hv. rewrite Z2Nat.id by lia.
      rewrite Z.pow_add_r, Z.pow_1_r by lia. unfold s in *. nia.
Qed.

Lemma subProducts_value_app (R : list subProduct) (sp : subProduct) :
  subProducts_value (R ++ [sp])
  = subProducts_value R + be (rev (product sp)) * 10 ^ sp_offset sp.
Proof.
  unfold subProducts_value. induction R as [|x R IH]; cbn [app fold_right]; [lia|].
  rewrite IH. ring.
Qed.

(** The sub-products of [Mul] add up to the product of the digit
    strings. *)
Lemma subProducts_spec (aStr : list Z) (bLen : Z) :
  forallb is_digit aStr = true ->
  forall (bStr : list Z) (bd : Z) (R : list subProduct),
    forallb is_digit bStr = true -> 0 <= bd -> bLen - bd = len bStr ->
    Forall (subProduct_ok (len aStr + bLen)) R ->
    let R' := subProducts aStr bLen bStr bd R in
    Forall (subProduct_ok (len aStr + bLen)) R'
    /\ subProducts_value R' = subProducts_value R + digits_value aStr * digits_value bStr.
Proof.
  intros Ha. induction bStr as [|c rest IH]; intros bd R Hb Hbd Hlen HR.
  - cbn [subProducts]. split; [exact HR|]. change (digits_value []) with 0. lia.
  - cbn [forallb] in Hb. apply andb_true_iff in Hb as [Hc Hrest].
    rewrite len_cons in Hlen. pose proof (len_nonneg rest).
    assert (Hv : digits_value (c :: rest) = (c - 48) * 10 ^ len rest + digits_value rest).
    { change (c :: rest) with ([c] ++ rest). rewrite digits_value_app. reflexivity. }
    cbn [subProducts]. destruct (c =? ch "0") eqn:E0.
    + destruct (IH (bd + 1) R Hrest ltac:(lia) ltac:(lia) HR) as [H1 H2].
      split; [exact H1|]. rewrite H2, Hv. apply Z.eqb_eq in E0. rewrite E0.
      change (ch "0" - 48) with 0. ring.
    + assert (Hrd : forallb is_digit (rev aStr) = true).
      { rewrite forallb_forall in *. intros x Hx. apply Ha. apply in_rev. exact Hx. }
      pose proof (product_loop_spec c Hc (rev aStr) 0 [] Hrd ltac:(lia) ltac:(constructor))
        as (P1 & P2 & P3 & P4).
      destruct (product_loop c (rev aStr) 0 []) as [o cBuf].
      cbn [fst snd] in P1, P2, P3, P4.
      change (len (@nil Z)) with 0 in P3, P4. cbn [rev] in P4.
      rewrite be_nil, Z.pow_0_r in P4.
      assert (Hraw : be (rev (raw (rev aStr))) = digits_value aStr).
      { unfold raw. rewrite map_rev, rev_involutive. symmetry. apply digits_value_raw. }
      rewrite Hraw in P4. rewrite len_rev in P3.
      set (cBuf' := if negb (o =? 0) then cBuf ++ [o] else cBuf).
      assert (Hs' : small cBuf').
      { unfold cBuf'. destruct (o =? 0); cbn [negb]; [exact P1|].
        apply small_app. split; [exact P1|]. repeat constructor; lia. }
      assert (Hv' : be (rev cBuf') = (c - 48) * digits_value aStr).
      { unfold cBuf'. destruct (o =? 0) eqn:Eo; cbn [negb].
        - assert (o = 0) by lia. subst o. lia.
        - rewrite rev_app_distr. cbn [rev app]. rewrite be_cons, len_rev. lia. }
      assert (Hl' : len cBuf' <= len aStr + 1).
      { unfold cBuf'. destruct (o =? 0); cbn [negb]; rewrite ?len_app;
          change (len [o]) with 1; lia. }
      destruct (IH (bd + 1) (R ++ [mkSubProduct (bLen - bd - 1) cBuf']) Hrest
                  ltac:(lia) ltac:(lia)) as [H1 H2].
      { apply Forall_app. split; [exact HR|]. constructor; [|constructor].
        unfold subProduct_ok. cbn [product sp_offset]. split; [exact Hs'|]. lia. }
      split; [exact H1|]. rewrite H2, subProducts_value_app. cbn [product sp_offset].
      rewrite Hv', Hv. replace (bLen - bd - 1) with (len rest) by lia. ring.
Qed.

Lemma leading_count_prefix (v : Z) (l : list Z) :
  firstn (Z.to_nat (leading_count v l)) l = repeat v (Z.to_nat (leading_count v l)).
Proof.
  induction l as [|c l IH]; [reflexivity|]. cbn [leading_count].
  destruct (c =? v) eqn:E; [|reflexivity].
  pose proof (leading_count_bounds v l).
  replace (Z.to_nat (1 + leading_count v l)) with (S (Z.to_nat (leading_count v l))) by lia.
  cbn [firstn repeat]. rewrite IH. apply Z.eqb_eq in E. subst c. reflexivity.
Qed.

(** The trimming of trailing zeros of [Mul]: the digits cut off are
    zeros, and the integer portion stays. *)
Lemma trailing_trim_spec (t : list Z) (nd : Z) :
  small t -> 0 <= nd < len t ->
  let iTrim := leading_count 0 (slice_to (rev t) nd) in
  let t' := slice_to t (len t - iTrim) in
  0 <= iTrim <= nd /\ be t = be t' * 10 ^ iTrim /\ small t'
  /\ len t' = len t - iTrim
  /\ slice_to t' (len t' - (nd - iTrim)) = slice_to t (len t - nd).
Proof.
  intros Hs Hnd iTrim t'.
  pose proof (leading_count_bounds 0 (slice_to (rev t) nd)) as Hb. fold iTrim in Hb.
  assert (Hlr : len (slice_to (rev t) nd) = nd).
  { unfold len. rewrite slice_to_length by (rewrite len_rev; lia). lia. }
  rewrite Hlr in Hb.
  assert (Hz : slice_from t (len t - iTrim) = repeat 0 (Z.to_nat iTrim)).
  { pose proof (leading_count_prefix 0 (slice_to (rev t) nd)) as Hp. fold iTrim in Hp.
    unfold slice_to in Hp at 1. rewrite firstn_firstn in Hp.
    replace (Init.Nat.min (Z.to_nat iTrim) (Z.to_nat nd)) with (Z.to_nat iTrim) in Hp by lia.
    rewrite firstn_rev in Hp.
    apply (f_equal (@rev Z)) in Hp. rewrite rev_involutive, rev_repeat in Hp.
    rewrite <- Hp. unfold slice_from. f_equal. unfold len. lia. }
  assert (Hlt : len t' = len t - iTrim).
  { unfold t', len. rewrite slice_to_length; unfold len in *; lia. }
  split; [exact Hb|]. split; [|split; [|split; [exact Hlt|]]].
  - rewrite <- (firstn_skipn (Z.to_nat (len t - iTrim)) t) at 1.
    fold (slice_to t (len t - iTrim)). fold t'. fold (slice_from t (len t - iTrim)).
    rewrite Hz, be_app, be_repeat_0. unfold len at 1. rewrite repeat_length.
    rewrite Z2Nat.id by lia. lia.
  - apply Forall_take. exact Hs.
  - rewrite Hlt. unfold t'. rewrite slice_to_slice_to by lia. f_equal. lia.
Qed.

(** [IsInt64] with 1 or -1 holds of the values that stand for it. *)
Lemma IsInt64_unit (f : BigFloat) (s : Z) :
  s = 1 \/ s = -1 -> 0 <= Decimals f -> IsInt64 f s = true ->
  stranalyzer.Sign f = s /\ digits_value (Norm f) = 10 ^ Decimals f.
Proof.
  intros Hs Hd H. unfold IsInt64, IsInt64_body in H. fold SetDecimals in H.
  set (g := mkAnalysis [ch "1"] s 0 1).
  assert (Eg : SetInt64 empty s = g) by (destruct Hs as [-> | ->]; vm_compute; reflexivity).
  rewrite Eg in H.
  assert (Hw : wellformed (with_Sign g 1) = true) by reflexivity.
  destruct (SetDecimals_spec g (Decimals f) Hw Hs Hd) as (E & _ & _).
  rewrite E in H. cbn [Norm Decimals Len stranalyzer.Sign] in H.
  change (Decimals g) with 0 in H. change (Norm g) with [ch "1"] in H.
  change (Len g) with 1 in H. change (stranalyzer.Sign g) with s in H.
  set (norm := if Decimals f >? 0 then [ch "1"] ++ fill (Decimals f - 0) (ch "0")
               else slice_to [ch "1"] (1 - 0 + Decimals f)) in *.
  assert (Hn : norm = ch "1" :: fill (Decimals f) (ch "0")).
  { unfold norm. destruct (Decimals f >? 0) eqn:E0.
    - rewrite Z.sub_0_r. reflexivity.
    - assert (Decimals f = 0) as -> by lia. reflexivity. }
  rewrite Hn in H. change (all_zero (ch "1" :: fill (Decimals f) (ch "0"))) with false in H.
  cbv iota in H.
  apply andb_true_iff in H as [H H4]. apply andb_true_iff in H as [H H3].
  apply andb_true_iff in H as [H1 H2].
  apply bytes_eqb_true in H4. split; [lia|]. rewrite H4.
  change (ch "1" :: fill (Decimals f) (ch "0")) with ([ch "1"] ++ fill (Decimals f) (ch "0")).
  rewrite digits_value_app, digits_value_fill, len_fill by lia.
  change (digits_value [ch "1"]) with 1. lia.
Qed.

Lemma product_bound (A B la lb : Z) :
  0 <= A < 10 ^ la -> 0 <= B < 10 ^ lb -> 0 <= la -> 0 <= lb ->
  A * B < 10 ^ (la + lb).
Proof. intros HA HB Hla Hlb. rewrite Z.pow_add_r by lia. nia. Qed.

Lemma carry_zero (V o n X : Z) :
  0 <= V -> 0 <= o -> 0 <= n -> V + o * 10 ^ n = X -> X < 10 ^ n -> o = 0.
Proof. intros HV Ho Hn E HX. pose proof (pow10_pos n Hn). nia. Qed.

(** The long multiplication of [Mul] on two values other than zero. *)
Lemma Mul_long (a b : BigFloat) :
  forallb is_digit (Norm a) = true -> Len a = len (Norm a) -> 0 <= Decimals a < Len a ->
  forallb is_digit (Norm b) = true -> Len b = len (Norm b) -> 0 <= Decimals b < Len b ->
  stranalyzer.Sign a * stranalyzer.Sign b = 1 \/ stranalyzer.Sign a * stranalyzer.Sign b = -1 ->
  0 < digits_value (Norm a) -> 0 < digits_value (Norm b) ->
  IsInt64 a 0 || IsInt64 b 0 = false ->
  IsInt64 a 1 = false -> IsInt64 a (-1) = false ->
  IsInt64 b 1 = false -> IsInt64 b (-1) = false ->
  wellformed (Mul a b) = true
  /\ Decimals (Mul a b) <= Decimals a + Decimals b
  /\ scaled (Mul a b) (Decimals a + Decimals b)
     = stranalyzer.Sign a * stranalyzer.Sign b
       * (digits_value (Norm a) * digits_value (Norm b)).
Proof.
  intros Hda Hla Hdeca Hdb Hlb Hdecb Hs12 HA HB T0 T1 T2 T3 T4.
  unfold Mul. rewrite T0, T1, T2, T3, T4. clear T0 T1 T2 T3 T4.
  set (A := digits_value (Norm a)) in *. set (B := digits_value (Norm b)) in *.
  set (n := Len a + Len b). set (nd := Decimals a + Decimals b).
  assert (Hn : 0 <= n) by (unfold n; clear - Hdeca Hdecb; lia).
  assert (Hnd : 0 <= nd < n) by (unfold n, nd; clear - Hdeca Hdecb; lia).
  destruct (subProducts_spec (Norm a) (Len b) Hda (Norm b) 0 [] Hdb (Z.le_refl 0)
              ltac:(clear - Hlb; lia) ltac:(constructor)) as [HR HRv].
  cbv zeta in HR, HRv. set (R := subProducts (Norm a) (Len b) (Norm b) 0 []) in *.
  change (subProducts_value []) with 0 in HRv. rewrite Z.add_0_l in HRv. fold A B in HRv.
  rewrite <- Hla in HR. fold n in HR.
  pose proof (sum_loop_spec n R HR (Z.to_nat n) 0 0 [] (Z.le_refl 0) eq_refl
                ltac:(constructor) (Z.le_refl 0) eq_refl) as H.
  cbv zeta in H. rewrite Z.add_0_l, Z2Nat.id in H by exact Hn.
  rewrite <- (Z2Nat.id n) in HR by exact Hn. rewrite (weighted_column _ R HR), HRv in H.
  clear HR HRv. clearbody R.
  destruct (sum_loop R (Z.to_nat n) 0 0 []) as [o T]. cbn [fst snd] in H.
  destruct H as (Hs & Hlen & Ho & Hbe).
  assert (Hr : small (rev T)) by (apply Forall_rev; exact Hs).
  pose proof (be_bounds _ Hr) as Hbr. rewrite len_rev, Hlen in Hbr.
  pose proof (digits_value_bounds _ Hda) as HbA. fold A in HbA. rewrite <- Hla in HbA.
  pose proof (digits_value_bounds _ Hdb) as HbB. fold B in HbB. rewrite <- Hlb in HbB.
  assert (HAB : A * B < 10 ^ n).
  { apply product_bound; [exact HbA|exact HbB|clear - Hdeca; lia|clear - Hdecb; lia]. }
  assert (o = 0) by (exact (carry_zero _ o n _ (proj1 Hbr) Ho Hn Hbe HAB)).
  subst o. change (to_byte 0) with 0. rewrite Z.mul_0_l, Z.add_0_r in Hbe.
  set (l := reverse (T ++ [0])).
  assert (Hl : l = 0 :: rev T) by (unfold l, reverse; rewrite rev_app_distr; reflexivity).
  assert (Hsl : small l) by (rewrite Hl; constructor; [clear; lia|exact Hr]).
  assert (Hll : len l = n + 1) by (rewrite Hl, len_cons, len_rev, Hlen; clear; lia).
  assert (Hbl : be l = A * B) by (rewrite Hl, be_cons, len_rev, Hbe; clear; lia).
  clearbody l. clear Hl Hr Hbr Hs Hlen Hbe T.
  destruct (trim_leading_spec l nd Hsl ltac:(rewrite Hll; clear - Hnd; lia))
    as (Hbt & Hst & Hlt & Hct).
  set (t := trim_leading l nd) in *. rewrite Hbl in Hbt. clearbody t. clear Hsl Hll Hbl l.
  assert (HP : 0 < A * B) by (clear - HA HB; nia).
  destruct (nd >? 0) eqn:End.
  - destruct (trailing_trim_spec t nd Hst ltac:(clear - Hlt Hnd; lia))
      as (Hi & Hbe' & Hst' & Hlt' & Hip).
    set (iTrim := leading_count 0 (slice_to (rev t) nd)) in *.
    set (t' := slice_to t (len t - iTrim)) in *.
    assert (Hct' : match slice_to t' (len t' - (nd - iTrim)) with
                   | c :: _ :: _ => c <> 0 | _ => True end) by (rewrite Hip; exact Hct).
    destruct (ascii_digits_spec t' (nd - iTrim) Hst' Hct') as (Hdn & Hln & Hvn & Hcn).
    cbv zeta in Hdn, Hln, Hvn, Hcn. set (norm := add_bytes t' 48) in *.
    clearbody norm t' iTrim. rewrite Hbt in Hbe'.
    assert (Hpos : 0 < be t').
    { clear - Hbe' HP Hi. pose proof (pow10_pos iTrim (proj1 Hi)). nia. }
    split; [|split].
    + apply wellformed_intro; cbn [Norm Len Decimals stranalyzer.Sign];
        [exact Hdn|reflexivity|clear - Hln Hlt' Hlt Hi; lia|exact Hs12| |exact Hcn].
      intros Hz. apply digits_value_zero_iff in Hz; [|exact Hdn].
      exfalso. clear - Hz Hvn Hpos. lia.
    + cbn [Decimals]. clear - Hi. lia.
    + unfold scaled. cbn [Norm Len Decimals stranalyzer.Sign]. rewrite Hvn.
      replace (nd - (nd - iTrim)) with iTrim by (clear; lia).
      rewrite <- Z.mul_assoc, <- Hbe'. reflexivity.
  - destruct (ascii_digits_spec t nd Hst Hct) as (Hdn & Hln & Hvn & Hcn).
    cbv zeta in Hdn, Hln, Hvn, Hcn. set (norm := add_bytes t 48) in *.
    clearbody norm. rewrite Hbt in Hvn.
    split; [|split].
    + apply wellformed_intro; cbn [Norm Len Decimals stranalyzer.Sign];
        [exact Hdn|reflexivity|clear - Hln Hlt Hnd; lia|exact Hs12| |exact Hcn].
      intros Hz. apply digits_value_zero_iff in Hz; [|exact Hdn].
      exfalso. clear - Hz Hvn HP. lia.
    + cbn [Decimals]. apply Z.le_refl.
    + unfold scaled. cbn [Norm Len Decimals stranalyzer.Sign].
      rewrite Hvn, Z.sub_diag. change (10 ^ 0) with 1. ring.
Qed.

Lemma Mul_spec (a b : BigFloat) :
  wellformed a = true -> wellformed b = true ->
  wellformed (Mul a b) = true
  /\ Decimals (Mul a b) <= Decimals a + Decimals b
  /\ scaled (Mul a b) (Decimals a + Decimals b)
     = scaled a (Decimals a) * scaled b (Decimals b).
Proof.
  intros Hwa Hwb.
  pose proof (wellformed_elim _ Hwa) as (Hda & Hla & Hdeca & Hsa & _ & _).
  pose proof (wellformed_elim _ Hwb) as (Hdb & Hlb & Hdecb & Hsb & _ & _).
  destruct (wellformed_invariants _ Hwa) as [Hia Hha].
  destruct (wellformed_invariants _ Hwb) as [Hib Hhb].
  set (A := digits_value (Norm a)). set (B := digits_value (Norm b)).
  assert (Hva : forall d, scaled a d = stranalyzer.Sign a * A * 10 ^ (d - Decimals a))
    by reflexivity.
  assert (Hvb : forall d, scaled b d = stranalyzer.Sign b * B * 10 ^ (d - Decimals b))
    by reflexivity.
  rewrite Hva, Hvb, !Z.sub_diag. change (10 ^ 0) with 1. rewrite !Z.mul_1_r.
  assert (Hle1 : Decimals b <= Decimals a + Decimals b) by (clear - Hdeca; lia).
  assert (Hle2 : Decimals a <= Decimals a + Decimals b) by (clear - Hdecb; lia).
  assert (Hda0 : 0 <= Decimals a) by exact (proj1 Hdeca).
  assert (Hdb0 : 0 <= Decimals b) by exact (proj1 Hdecb).
  assert (Hm0 : 0 <= Z.max (Decimals a) (Decimals b)) by (clear - Hda0; lia).
  assert (Hm1 : Z.max (Decimals a) (Decimals b) <= Decimals a + Decimals b)
    by (clear - Hda0 Hdb0; lia).
  assert (Em : maxInt (Decimals a) (Decimals b) = Z.max (Decimals a) (Decimals b)).
  { unfold maxInt. rewrite Z.gtb_ltb. clear. destruct (_ <? _) eqn:E; lia. }
  assert (Hs12 : stranalyzer.Sign a * stranalyzer.Sign b = 1
                 \/ stranalyzer.Sign a * stranalyzer.Sign b = -1)
    by (clear - Hsa Hsb; destruct Hsa as [-> | ->], Hsb as [-> | ->]; lia).
  destruct (IsInt64 a 0 || IsInt64 b 0) eqn:Ez.
  { unfold Mul. rewrite Ez, Em.
    destruct (zero_result _ Hm0) as (Hw0 & Hd0 & Hv0).
    split; [exact Hw0|]. split; [rewrite Hd0; exact Hm1|].
    rewrite (scaled_shift _ (Z.max (Decimals a) (Decimals b)))
      by (rewrite ?Hd0; first [apply Z.le_refl|exact Hm1]).
    rewrite Hv0.
    rewrite (IsInt64_0_magnitude a Hia Hha), (IsInt64_0_magnitude b Hib Hhb) in Ez.
    unfold magnitude_zero in Ez.
    apply orb_true_iff in Ez as [Ez | Ez];
      apply digits_value_zero_iff in Ez; try assumption.
    - fold A in Ez. rewrite Ez. ring.
    - fold B in Ez. rewrite Ez. ring. }
  destruct (IsInt64 a 1) eqn:Ea1.
  { unfold Mul. rewrite Ez, Ea1.
    destruct (IsInt64_unit a 1 (or_introl eq_refl) Hda0 Ea1) as [Es Ev]. fold A in Ev.
    split; [exact Hwb|]. split; [exact Hle1|]. rewrite Hvb, Es, Ev.
    replace (Decimals a + Decimals b - Decimals b) with (Decimals a) by (clear; lia). ring. }
  destruct (IsInt64 a (-1)) eqn:Ea2.
  { unfold Mul. rewrite Ez, Ea1, Ea2.
    destruct (IsInt64_unit a (-1) (or_intror eq_refl) Hda0 Ea2) as [Es Ev]. fold A in Ev.
    destruct (Neg_spec b (Decimals a + Decimals b) Hwb) as (Hw & Hd' & Hv).
    split; [exact Hw|]. split; [rewrite Hd'; exact Hle1|]. rewrite Hv, Hvb, Es, Ev.
    replace (Decimals a + Decimals b - Decimals b) with (Decimals a) by (clear; lia). ring. }
  destruct (IsInt64 b 1) eqn:Eb1.
  { unfold Mul. rewrite Ez, Ea1, Ea2, Eb1.
    destruct (IsInt64_unit b 1 (or_introl eq_refl) Hdb0 Eb1) as [Es Ev]. fold B in Ev.
    split; [exact Hwa|]. split; [exact Hle2|]. rewrite Hva, Es, Ev.
    replace (Decimals a + Decimals b - Decimals a) with (Decimals b) by (clear; lia). ring. }
  destruct (IsInt64 b (-1)) eqn:Eb2.
  { unfold Mul. rewrite Ez, Ea1, Ea2, Eb1, Eb2.
    destruct (IsInt64_unit b (-1) (or_intror eq_refl) Hdb0 Eb2) as [Es Ev]. fold B in Ev.
    destruct (Neg_spec a (Decimals a + Decimals b) Hwa) as (Hw & Hd' & Hv).
    split; [exact Hw|]. split; [rewrite Hd'; exact Hle2|]. rewrite Hv, Hva, Es, Ev.
    replace (Decimals a + Decimals b - Decimals a) with (Decimals b) by (clear; lia). ring. }
  assert (HA : 0 < A /\ 0 < B).
  { rewrite (IsInt64_0_magnitude a Hia Hha), (IsInt64_0_magnitude b Hib Hhb) in Ez.
    unfold magnitude_zero in Ez. apply orb_false_iff in Ez as [Eza Ezb].
    split; apply digits_value_pos; assumption. }
  destruct (Mul_long a b Hda Hla Hdeca Hdb Hlb Hdecb Hs12 (proj1 HA) (proj2 HA)
              Ez Ea1 Ea2 Eb1 Eb2) as (H1 & H2 & H3).
  split; [exact H1|]. split; [exact H2|]. rewrite H3. fold A B. ring.
Qed.

(** X15: on well-formed values [Mul] yields a well-formed value that
    stands for the product: counted in units of [10^-(da+db)] it is the
    product of the operands counted in their own last decimals. *)
Theorem Mul_value (a b : BigFloat) :
  wellformed a = true -> wellformed b = true ->
  wellformed (Mul a b) = true
  /\ Decimals (Mul a b) <= Decimals a + Decimals b
  /\ scaled (Mul a b) (Decimals a + Decimals b)
     = scaled a (Decimals a) * scaled b (Decimals b).
Proof. exact (Mul_spec a b). Qed.

Lemma Mul_value_witness :
  wellformed (Mul (parse "-12.5") (parse "0.08")) = true
  /\ Decimals (Mul (parse "-12.5") (parse "0.08"))
     <= Decimals (parse "-12.5") + Decimals (parse "0.08")
  /\ scaled (Mul (parse "-12.5") (parse "0.08"))
       (Decimals (parse "-12.5") + Decimals (parse "0.08"))
     = scaled (parse "-12.5") (Decimals (parse "-12.5"))
       * scaled (parse "0.08") (Decimals (parse "0.08")).
Proof. apply (Mul_value (parse "-12.5") (parse "0.08")); vm_compute; reflexivity. Defined.

(** ** Integer division of well-formed values *)

(** One iteration over a digit of the dividend, before the decimal
    point: it continues, emits the digit unless it is a leading zero,
    and leaves the counters alone. *)
Lemma divmod_step_integer (env : loop_env) (st : loop_state) (e : Z) :
  bDecimals st = false -> ls_i st < len (aBuf env) ->
  (decimalsGoal env >? 0) && (decimals st =? decimalsGoal env) = false ->
  (decimals st >=? ro_max env) = false ->
  let dp := next_divPart (divPart st) (next_digit env st) in
  estimate env dp = Some e ->
  let d := if e >? 0 then fst (correct_digit env dp e) else e in
  exists lastRem rem shared,
    divmod_step env st
    = Continue (mkLoopState (ls_i st + 1)
                  (if e >? 0 then Norm (snd (correct_digit env dp e)) else dp)
                  false (remIndxMap st) (repDecimalsInd st) (decimals st) lastRem rem shared
                  (if (d >? 0) || (len (result st) >? 0) then result st ++ [d]
                   else result st)).
Proof.
  destruct st as [i dp0 bDec map repInd dec lastRem0 rem0 shared0 res].
  cbn [bDecimals ls_i decimals divPart remIndxMap repDecimalsInd result].
  intros -> Hi Hgoal Hmax. unfold next_divPart, next_digit. cbn [ls_i].
  unfold divmod_step.
  replace (i >=? len (aBuf env)) with false by lia.
  cbv beta iota zeta. cbn [andb orb]. rewrite Hgoal.
  destruct (bytes_eqb dp0 [ch "0"]) eqn:E0; cbv beta iota zeta;
    intros He; rewrite He; cbv beta iota zeta;
    destruct (e >? 0) eqn:Ee; cbv beta iota zeta;
    try (match goal with
         | |- context [correct_digit ?a ?b ?c] =>
             destruct (correct_digit a b c) as [d1 r1] eqn:Ec; cbn [fst snd];
             cbv beta iota zeta
         end);
    rewrite ?Ee, ?orb_false_r;
    match goal with
    | |- context [if ?c || ?c' then _ else _] =>
        destruct (c || c') eqn:Er; cbv beta iota zeta; cbn [andb];
        rewrite ?Hmax; eexists _, _, _; reflexivity
    end.
Qed.

(** The iteration past the last digit of the dividend when nothing is
    left over: the loop ends as it is. *)
Lemma divmod_step_exact (env : loop_env) (st : loop_state) :
  len (aBuf env) <= ls_i st -> bytes_eqb (divPart st) [ch "0"] = true ->
  divmod_step env st
  = Break (mkLoopState (ls_i st) (divPart st) true (remIndxMap st) (repDecimalsInd st)
             (decimals st) (lastRemainder st) (remainder st) (remShared st) (result st)).
Proof.
  destruct st as [i dp0 bDec map repInd dec lastRem0 rem0 shared0 res].
  cbn [bDecimals ls_i decimals divPart remIndxMap repDecimalsInd result lastRemainder
       remainder remShared].
  intros Hi E0. unfold divmod_step.
  replace (i >=? len (aBuf env)) with true by lia.
  cbv beta iota zeta. rewrite E0. reflexivity.
Qed.

(** The iteration at which the count of decimals has reached its goal:
    the loop ends as it is. *)
Lemma divmod_step_goal (env : loop_env) (st : loop_state) :
  len (aBuf env) <= ls_i st -> 0 < decimalsGoal env -> decimals st = decimalsGoal env ->
  divmod_step env st
  = Break (mkLoopState (ls_i st) (divPart st) true (remIndxMap st) (repDecimalsInd st)
             (decimals st) (lastRemainder st) (remainder st) (remShared st) (result st)).
Proof.
  destruct st as [i dp0 bDec map repInd dec lastRem0 rem0 shared0 res].
  cbn [bDecimals ls_i decimals divPart remIndxMap repDecimalsInd result lastRemainder
       remainder remShared].
  intros Hi Hg Hd. unfold divmod_step.
  replace (i >=? len (aBuf env)) with true by lia.
  cbv beta iota zeta.
  replace ((decimalsGoal env >? 0) && (dec =? decimalsGoal env)) with true by lia.
  rewrite orb_true_r. reflexivity.
Qed.

(** The first iteration past the last digit of the dividend when
    something is left over: the remainder is remembered, a zero is
    taken in and the first decimal is emitted. *)
Lemma divmod_step_first_decimal (env : loop_env) (st : loop_state) (e : Z) :
  len (aBuf env) <= ls_i st -> bytes_eqb (divPart st) [ch "0"] = false ->
  remIndxMap st = ∅ ->
  (decimalsGoal env >? 0) && (decimals st =? decimalsGoal env) = false ->
  (decimals st + 1 >=? ro_max env) = false ->
  let dp := divPart st ++ [ch "0"] in
  estimate env dp = Some e ->
  let d := if e >? 0 then fst (correct_digit env dp e) else e in
  exists rem shared,
    divmod_step env st
    = Continue (mkLoopState (ls_i st + 1)
                  (if e >? 0 then Norm (snd (correct_digit env dp e)) else dp)
                  true (<[divPart st := decimals st]> ∅) (repDecimalsInd st)
                  (decimals st + 1)
                  (mkAnalysis (divPart st) 1 0 (len (divPart st))) rem shared
                  ((if len (result st) =? 0 then result st ++ [0] else result st) ++ [d])).
Proof.
  destruct st as [i dp0 bDec map repInd dec lastRem0 rem0 shared0 res].
  cbn [bDecimals ls_i decimals divPart remIndxMap repDecimalsInd result lastRemainder
       remainder remShared].
  intros Hi E0 -> Hgoal Hmax. unfold divmod_step.
  replace (i >=? len (aBuf env)) with true by lia.
  cbv beta iota zeta. rewrite E0, Hgoal. cbn [andb orb]. rewrite lookup_empty.
  cbv beta iota zeta. intros He; rewrite He; cbv beta iota zeta;
    destruct (e >? 0) eqn:Ee; cbv beta iota zeta;
    try (match goal with
         | |- context [correct_digit ?a ?b ?c] =>
             destruct (correct_digit a b c) as [d1 r1] eqn:Ec; cbn [fst snd];
             cbv beta iota zeta
         end);
    rewrite ?Ee, ?orb_true_r; cbv beta iota zeta; cbn [andb]; rewrite Hmax;
    eexists _, _; reflexivity.
Qed.

Lemma slice_to_succ (l : list Z) (i : Z) :
  0 <= i < len l -> slice_to l (i + 1) = slice_to l i ++ [idx l i].
Proof.
  intros Hi. unfold slice_to, idx.
  replace (Z.to_nat (i + 1)) with (S (Z.to_nat i)) by lia.
  apply firstn_snoc_nth. unfold len in Hi. lia.
Qed.

Lemma div_mod_unique (A B q r : Z) :
  0 <= r < B -> q * B + r = A -> q = A / B /\ r = A mod B.
Proof.
  intros Hr E. split.
  - apply Z.div_unique with (r := r); lia.
  - apply Z.mod_unique with (q := q); lia.
Qed.

Lemma divmod_loop_integer (env : loop_env) :
  division_env env -> decimalsGoal env = 1 -> 1 < ro_max env ->
  0 < digits_value (aBuf env) ->
  forall (m : nat) (st : loop_state) (fuel : nat),
    integer_phase env st ->
    Z.of_nat m = Z.max 0 (len (aBuf env) - ls_i st) -> (m + 2 <= fuel)%nat ->
    exists st', divmod_loop fuel env st = Exited st' /\ integer_division_done env st'.
Proof.
  intros Henv Hgoal Hmax HA.
  assert (Hcond : forall dec, dec = 0 ->
            (decimalsGoal env >? 0) && (dec =? decimalsGoal env) = false)
    by (intros dec ->; rewrite Hgoal; reflexivity).
  induction m as [|m IH]; intros st fuel Hph Hm Hfuel.
  - destruct Hph as (Hinv & HbD & Hdec & Hmap & Hrep & Hval & Hcan & Hne).
    pose proof Hinv as (Hi0 & Hd & Hc & Hv & Hsm).
    assert (Hi : len (aBuf env) <= ls_i st) by (clear - Hm; lia).
    assert (Hpre : slice_to (aBuf env) (ls_i st) = aBuf env).
    { unfold slice_to. apply firstn_all2. unfold len in Hi. clear - Hi Hi0. lia. }
    rewrite Hpre in Hval.
    destruct (div_mod_unique _ _ _ _ Hv Hval) as [HQ HV].
    assert (Hdpne : divPart st <> []) by (destruct Hne as [H | H]; [exact H|clear - H Hi; lia]).
    destruct fuel as [|fuel]; [clear - Hfuel; lia|]. cbn [divmod_loop].
    destruct (bytes_eqb (divPart st) [ch "0"]) eqn:E0.
    + rewrite (divmod_step_exact env st Hi E0). eexists. split; [reflexivity|].
      unfold integer_division_done. cbn [repDecimalsInd decimals result lastRemainder].
      split; [exact Hrep|]. left.
      apply bytes_eqb_true in E0. rewrite E0 in HV. change (digits_value [ch "0"]) with 0 in HV.
      split; [symmetry; exact HV|]. split; [exact Hdec|].
      split; [exact Hsm|]. split; [exact HQ|].
      destruct (result st) as [|d rest] eqn:Er.
      * rewrite E0 in Hval. change (be []) with 0 in Hval.
        change (digits_value [ch "0"]) with 0 in Hval. clear - Hval HA. lia.
      * left. exact Hcan.
    + assert (Hvpos : digits_value (divPart st) <> 0).
      { intros Hz. apply digits_value_zero_iff in Hz; [|exact Hd].
        apply (integer_portion_zero _ Hc Hdpne) in Hz. rewrite Hz in E0.
        discriminate E0. }
      destruct (quotient_digit_facts env st Henv Hinv)
        as (Hd' & Hc' & HVd & Hq & Hr & e & He & Hcase & Hpos & Hzero).
      assert (Edp : next_divPart (divPart st) (next_digit env st) = divPart st ++ [ch "0"]).
      { unfold next_digit, next_divPart. rewrite E0.
        replace (ls_i st >=? len (aBuf env)) with true by (clear - Hi; lia). reflexivity. }
      rewrite Edp in Hd', Hc', HVd, Hq, Hr, He, Hcase, Hpos, Hzero.
      set (dp := divPart st ++ [ch "0"]) in *.
      set (q := digits_value dp / divisor env) in *.
      assert (Hd1 : (if e >? 0 then fst (correct_digit env dp e) else e) = q).
      { destruct (e >? 0) eqn:Ee.
        - apply Hpos. clear - Ee. lia.
        - destruct (Hzero ltac:(clear - Ee; lia)) as [-> ->]. reflexivity. }
      destruct (divmod_step_first_decimal env st e Hi E0 Hmap (Hcond _ Hdec)
                  ltac:(rewrite Hdec; clear - Hmax; lia) He) as (rem1 & sh1 & Hstep).
      fold dp in Hstep. rewrite Hd1 in Hstep. rewrite Hstep.
      destruct fuel as [|fuel]; [clear - Hfuel; lia|]. cbn [divmod_loop].
      rewrite divmod_step_goal; cbn [ls_i decimals];
        [|clear - Hi; lia|rewrite Hgoal; reflexivity|rewrite Hdec, Hgoal; reflexivity].
      eexists. split; [reflexivity|].
      unfold integer_division_done.
      cbn [repDecimalsInd decimals result lastRemainder ls_i divPart remIndxMap].
      split; [exact Hrep|]. right.
      split; [rewrite <- HV; exact Hvpos|]. split; [rewrite Hdec; reflexivity|]. split.
      * eexists _, q. split; [reflexivity|]. split; [exact Hq|].
        destruct (result st) as [|d rest] eqn:Er.
        -- change (len (@nil Z) =? 0) with true. cbv iota. cbn [app].
           split; [repeat constructor; clear; lia|]. split; [exact HQ|]. right. reflexivity.
        -- replace (len (d :: rest) =? 0) with false
             by (rewrite len_cons; pose proof (len_nonneg rest); lia).
           split; [exact Hsm|]. split; [exact HQ|]. left. exact Hcan.
      * exists (divPart st). repeat split; assumption.
  - destruct Hph as (Hinv & HbD & Hdec & Hmap & Hrep & Hval & Hcan & Hne).
    pose proof Hinv as (Hi0 & Hd & Hc & Hv & Hsm).
    assert (Hi : ls_i st < len (aBuf env)) by (clear - Hm; lia).
    destruct (quotient_digit_facts env st Henv Hinv)
      as (Hd' & Hc' & HVd & Hq & Hr & e & He & Hcase & Hpos & Hzero).
    pose proof (next_digit_is_digit env st (proj2 (proj2 (proj2 (proj2 Henv)))) Hi0) as Hdig.
    destruct (next_divPart_spec (divPart st) (next_digit env st) Hd Hc Hdig) as (_ & _ & HVn).
    assert (Edig : next_digit env st = idx (aBuf env) (ls_i st)).
    { unfold next_digit. replace (ls_i st >=? len (aBuf env)) with false by (clear - Hi; lia).
      reflexivity. }
    set (dp := next_divPart (divPart st) (next_digit env st)) in *.
    set (q := digits_value dp / divisor env) in *.
    assert (Hd1 : (if e >? 0 then fst (correct_digit env dp e) else e) = q).
    { destruct (e >? 0) eqn:Ee.
      - apply Hpos. clear - Ee. lia.
      - destruct (Hzero ltac:(clear - Ee; lia)) as [-> ->]. reflexivity. }
    assert (Hdpn : let dpn := if e >? 0 then Norm (snd (correct_digit env dp e)) else dp in
                   forallb is_digit dpn = true /\ canonical dpn = true /\ dpn <> []
                   /\ digits_value dpn = digits_value dp - q * divisor env).
    { cbv zeta. destruct (e >? 0) eqn:Ee.
      - destruct (Hpos ltac:(clear - Ee; lia)) as (_ & Hnat & Hvn).
        destruct (natural_digits _ Hnat) as [H1 H2].
        repeat split; try assumption.
        destruct Hnat as [-> | Hp]; [discriminate|].
        apply positive_integer_fields in Hp as (_ & _ & _ & _ & c & rest & -> & _).
        discriminate.
      - destruct (Hzero ltac:(clear - Ee; lia)) as [_ Hq0]. rewrite Hq0.
        repeat split; try assumption; [|clear; lia].
        unfold dp, next_divPart. destruct (bytes_eqb _ _); [discriminate|].
        destruct (divPart st); discriminate. }
    cbv zeta in Hdpn. destruct Hdpn as (Hdn & Hcn & Hnn & Hvn).
    destruct (divmod_step_integer env st e HbD Hi (Hcond _ Hdec)
                ltac:(rewrite Hdec; clear - Hmax; lia) He) as (lr1 & rem1 & sh1 & Hstep).
    fold dp in Hstep. rewrite Hd1 in Hstep.
    destruct fuel as [|fuel]; [clear - Hfuel; lia|]. cbn [divmod_loop]. rewrite Hstep.
    apply IH; [|cbn [ls_i]; clear - Hm; lia|clear - Hfuel; lia].
    unfold integer_phase, division_invariant.
    cbn [ls_i divPart bDecimals decimals remIndxMap repDecimalsInd result].
    assert (Hpre : digits_value (slice_to (aBuf env) (ls_i st + 1))
                   = 10 * digits_value (slice_to (aBuf env) (ls_i st))
                     + (next_digit env st - 48)).
    { rewrite slice_to_succ by (clear - Hi Hi0; lia). rewrite digits_value_snoc, Edig.
      reflexivity. }
    assert (Hres : let r' := if (q >? 0) || (len (result st) >? 0)
                             then result st ++ [q] else result st in
                   small r' /\ be r' = 10 * be (result st) + q
                   /\ match r' with d :: _ => d <> 0 | [] => True end).
    { cbv zeta. destruct ((q >? 0) || (len (result st) >? 0)) eqn:Eq.
      - split; [apply small_app; split; [exact Hsm|repeat constructor; clear - Hq; lia]|].
        split; [apply be_snoc|].
        destruct (result st) as [|d rest] eqn:Er; [|exact Hcan].
        cbn [app]. change (len (@nil Z) >? 0) with false in Eq.
        rewrite orb_false_r in Eq. clear - Eq. lia.
      - apply orb_false_iff in Eq as [Eq1 Eq2].
        assert (result st = []) as ->.
        { destruct (result st) as [|d rest]; [reflexivity|]. rewrite len_cons in Eq2.
          pose proof (len_nonneg rest). clear - Eq2 H. lia. }
        split; [constructor|]. split; [|exact I].
        change (be []) with 0. clear - Eq1 Hq. lia. }
    cbv zeta in Hres. destruct Hres as (Hsm' & Hbe' & Hcan').
    split; [|split; [reflexivity|split; [exact Hdec|split; [exact Hmap|split; [exact Hrep|]]]]].
    + split; [clear - Hi0; lia|]. split; [exact Hdn|]. split; [exact Hcn|].
      split; [rewrite Hvn; exact Hr|exact Hsm'].
    + split; [|split; [exact Hcan'|left; exact Hnn]].
      rewrite Hbe', Hvn, Hpre, <- Hval, HVn. ring.
Qed.

Lemma divmod_init_integer_phase (x y remainder : BigFloat) (ro : divOptionsType) :
  positive_integer x = true -> positive_integer y = true -> IsInt64 y 1 = false ->
  integer_phase (divmod_env x y ro) (divmod_init x y remainder).
Proof.
  intros Hx Hy H1.
  pose proof (divmod_init_division x y remainder ro Hx Hy H1) as Hinv.
  unfold integer_phase. split; [exact Hinv|].
  unfold divmod_init, divmod_env.
  cbn [bDecimals decimals remIndxMap repDecimalsInd result divPart ls_i aBuf].
  apply positive_integer_fields in Hx as (_ & _ & _ & _ & c & rest & HN & _).
  apply positive_integer_fields in Hy as (_ & _ & HLy & _ & c' & rest' & HN' & _).
  assert (Hlx : 1 <= len (Norm x)) by (rewrite HN, len_cons; pose proof (len_nonneg rest); lia).
  assert (Hly : 1 <= Len y) by (rewrite HLy, HN', len_cons; pose proof (len_nonneg rest'); lia).
  repeat split.
  - change (be []) with 0. rewrite Z.mul_0_l, Z.add_0_l.
    destruct (Len y - 1 >? len (Norm x)) eqn:E; [|reflexivity].
    rewrite slice_to_all. unfold slice_to. rewrite firstn_all2; [reflexivity|].
    unfold len in *. lia.
  - destruct (Z.eq_dec (Len y) 1) as [E1 | E1]; [right; lia|left].
    assert (Hl : len (slice_to (Norm x)
                        (if Len y - 1 >? len (Norm x) then len (Norm x) else Len y - 1)) >= 1).
    { unfold len at 1. rewrite slice_to_length; destruct (_ >? _) eqn:E; lia. }
    intros E. rewrite E in Hl. change (len (@nil Z)) with 0 in Hl. lia.
Qed.

(** [Trunc] with the count 0 on a value that is well-formed up to its
    sign. *)
Lemma Trunc_zero_spec (f : BigFloat) :
  wellformed (with_Sign f 1) = true ->
  stranalyzer.Sign f = 1 \/ stranalyzer.Sign f = -1 ->
  let ip := slice_to (Norm f) (Len f - Decimals f) in
  Trunc f (Some 0)
  = Some (mkAnalysis ip (if all_zero ip then 1 else stranalyzer.Sign f) 0 (len ip))
  /\ wellformed (mkAnalysis ip (if all_zero ip then 1 else stranalyzer.Sign f) 0 (len ip))
     = true.
Proof.
  intros Hw Hs ip.
  pose proof (wellformed_elim _ Hw) as (Hd & Hl & Hdec & _ & _ & Hc).
  cbn [with_Sign Norm Len Decimals stranalyzer.Sign] in Hd, Hl, Hdec, Hc.
  set (g0 := mkAnalysis (set_range (Norm f) (Len f - Decimals f) (Len f) (ch "0"))
               (stranalyzer.Sign f) (Decimals f) (Len f)).
  assert (Hn0 : Norm g0 = ip ++ repeat (ch "0") (Z.to_nat (Decimals f))).
  { unfold g0. cbn [Norm]. rewrite set_range_suffix by lia. fold ip. f_equal. f_equal.
    unfold len in Hl. lia. }
  assert (Hlip : len ip = Len f - Decimals f).
  { unfold ip, len. rewrite slice_to_length; unfold len in *; lia. }
  assert (Hdip : forallb is_digit ip = true) by (apply forallb_slice; exact Hd).
  assert (Hg0 : wellformed (with_Sign g0 1) = true).
  { apply wellformed_intro; cbn [with_Sign Norm Len Decimals stranalyzer.Sign].
    - rewrite Hn0, forallb_app, Hdip. fold (fill (Decimals f) (ch "0")).
      apply is_digit_zero_fill.
    - rewrite Hn0, len_app, Hlip. fold (fill (Decimals f) (ch "0")).
      rewrite len_fill by lia. unfold g0. cbn [Len]. lia.
    - exact Hdec.
    - left. reflexivity.
    - reflexivity.
    - rewrite Hn0. change (Len g0) with (Len f). change (Decimals g0) with (Decimals f).
      rewrite slice_to_app_l by lia. rewrite <- Hlip, slice_to_all. exact Hc. }
  destruct (SetDecimals_spec g0 0 Hg0 Hs ltac:(lia)) as (E & Hwg & _).
  assert (En : (if 0 >? Decimals g0 then Norm g0 ++ fill (0 - Decimals g0) (ch "0")
                else slice_to (Norm g0) (Len g0 - Decimals g0 + 0)) = ip).
  { rewrite Hn0. change (Decimals g0) with (Decimals f). change (Len g0) with (Len f).
    replace (0 >? Decimals f) with false by lia.
    rewrite slice_to_app_l by lia.
    replace (Len f - Decimals f + 0) with (len ip) by lia. apply slice_to_all. }
  rewrite En in E. change (stranalyzer.Sign g0) with (stranalyzer.Sign f) in E.
  split; [|rewrite <- E; exact Hwg].
  unfold Trunc. change (0 <? 0) with false. cbv iota. fold g0. rewrite E. reflexivity.
Qed.

Lemma quotient_digits_ascii (rq : list Z) (Q : Z) :
  quotient_digits rq Q ->
  forallb is_digit (add_bytes rq 48) = true /\ canonical (add_bytes rq 48) = true
  /\ digits_value (add_bytes rq 48) = Q /\ 1 <= len rq
  /\ all_zero (add_bytes rq 48) = (Q =? 0) /\ 0 <= Q.
Proof.
  intros (Hs & Hbe & Hc).
  assert (Hd : forallb is_digit (add_bytes rq 48) = true) by (apply is_digit_add_bytes; exact Hs).
  assert (Hv : digits_value (add_bytes rq 48) = Q)
    by (rewrite digits_value_raw, raw_add_bytes by exact Hs; exact Hbe).
  pose proof (digits_value_bounds _ Hd) as Hb. rewrite Hv in Hb.
  split; [exact Hd|]. split; [|split; [exact Hv|split; [|split; [|lia]]]].
  - destruct rq as [|d [|d' rest]]; [contradiction|reflexivity|].
    inversion Hs as [|? ? Hd0 _]; subst. destruct Hc as [Hc | Hc]; [|discriminate].
    cbn [add_bytes map canonical]. rewrite to_byte_small by lia.
    apply negb_true_iff, Z.eqb_neq. lia.
  - destruct rq; [contradiction|]. rewrite len_cons. pose proof (len_nonneg rq). lia.
  - destruct (all_zero (add_bytes rq 48)) eqn:Ez.
    + apply digits_value_zero_iff in Ez; [|exact Hd]. rewrite Hv in Ez. symmetry.
      apply Z.eqb_eq. exact Ez.
    + pose proof (digits_value_pos _ Hd Ez). rewrite Hv in H. symmetry. lia.
Qed.

(** The part of [divmod] after the loop, for an integer division that
    the loop has ended. *)
Lemma divmod_finish_integer (a b : BigFloat) (env : loop_env) (st : loop_state) :
  integer_division_done env st -> decimalsGoal env = 1 ->
  stranalyzer.Sign a * stranalyzer.Sign b = 1 \/ stranalyzer.Sign a * stranalyzer.Sign b = -1 ->
  0 <= Decimals a + Decimals b ->
  let X := digits_value (aBuf env) in
  let Y := divisor env in
  exists q r,
    divmod_finish a b true (mkDivOptions 0 (ro_max env)) (decimalsGoal env) st = DivOk q r 0
    /\ wellformed q = true /\ Decimals q = 0
    /\ stranalyzer.Sign q
       = (if X / Y =? 0 then 1 else stranalyzer.Sign a * stranalyzer.Sign b)
    /\ digits_value (Norm q) = X / Y
    /\ (X mod Y <> 0 ->
        wellformed r = true /\ Decimals r = Decimals a + Decimals b
        /\ stranalyzer.Sign r = 1 /\ digits_value (Norm r) = X mod Y).
Proof.
  intros Hdone Hgoal Hs Hdd X Y. rewrite Hgoal.
  destruct Hdone as (Hrep & Hcase). fold X Y in Hcase.
  destruct st as [i dp0 bDec map repInd dec lastRem0 rem0 shared0 res].
  cbn [repDecimalsInd decimals result lastRemainder] in Hrep, Hcase. subst repInd.
  assert (Hshape : exists rq x,
            quotient_digits rq (X / Y) /\ 0 <= x <= 9
            /\ divmod_finish a b true (mkDivOptions 0 (ro_max env)) 1
                 (mkLoopState i dp0 bDec map (-1) dec lastRem0 rem0 shared0 res)
               = match Trunc (mkAnalysis (add_bytes (rq ++ [x]) 48)
                                (stranalyzer.Sign a * stranalyzer.Sign b) 1
                                (len (add_bytes (rq ++ [x]) 48))) (Some 0) with
                 | Some f => DivOk f (Div10 lastRem0 (Decimals a + Decimals b)) 0
                 | None => DivPanic
                 end).
  { destruct Hcase as [(_ & -> & Hq) | (_ & -> & (rq & q1 & -> & Hq1 & Hq) & _)].
    - exists res, 0. split; [exact Hq|]. split; [lia|].
      unfold divmod_finish. cbv beta iota zeta.
      change (-1 >=? 0) with false. change ((1 >=? 0) && (1 >? 0)) with true.
      cbv beta iota zeta. change (0 >? 0) with false. cbv beta iota zeta.
      change (bytes_Repeat [ch "0"] (Z.quot (1 - 0) (len [ch "0"]) + 1)) with (Some [48; 48]).
      cbv beta iota zeta. change (slice_to [48; 48] (1 - 0)) with [48].
      cbn [Decimals decimalPlaces]. change ((0 >=? 0) && (0 <? 1)) with true. cbv iota.
      replace (add_bytes res 48 ++ [48]) with (add_bytes (res ++ [0]) 48)
        by (unfold add_bytes; rewrite map_app; reflexivity).
      reflexivity.
    - exists rq, q1. split; [exact Hq|]. split; [exact Hq1|].
      unfold divmod_finish. cbv beta iota zeta.
      change (-1 >=? 0) with false. change ((1 >=? 0) && (1 >? 1)) with false.
      cbv beta iota zeta. cbn [Decimals decimalPlaces].
      change ((0 >=? 0) && (0 <? 1)) with true. cbv iota. reflexivity. }
  destruct Hshape as (rq & x & Hq & Hx & ->).
  destruct (quotient_digits_ascii rq _ Hq) as (Hdq & Hcq & Hvq & Hlq & Hzq & HQ0).
  destruct Hq as (Hsq & _ & _).
  set (f := mkAnalysis (add_bytes (rq ++ [x]) 48) (stranalyzer.Sign a * stranalyzer.Sign b) 1
              (len (add_bytes (rq ++ [x]) 48))).
  assert (Hnf : Norm f = add_bytes rq 48 ++ [to_byte (x + 48)]).
  { unfold f. cbn [Norm]. unfold add_bytes. rewrite map_app. reflexivity. }
  assert (Hlf : Len f = len rq + 1).
  { unfold f. cbn [Len]. rewrite len_add_bytes, len_app. reflexivity. }
  assert (Hip : slice_to (Norm f) (Len f - Decimals f) = add_bytes rq 48).
  { rewrite Hnf, Hlf. change (Decimals f) with 1.
    replace (len rq + 1 - 1) with (len (add_bytes rq 48)) by (rewrite len_add_bytes; lia).
    rewrite slice_to_app_l by lia. apply slice_to_all. }
  assert (Hwf : wellformed (with_Sign f 1) = true).
  { apply wellformed_intro; cbn [with_Sign Norm Len Decimals stranalyzer.Sign].
    - unfold f. cbn [Norm]. apply is_digit_add_bytes. apply small_app.
      split; [exact Hsq|]. repeat constructor; lia.
    - reflexivity.
    - rewrite Hlf. change (Decimals f) with 1. lia.
    - left. reflexivity.
    - reflexivity.
    - rewrite Hip. exact Hcq. }
  destruct (Trunc_zero_spec f Hwf Hs) as [ET HwT]. cbv zeta in ET, HwT.
  rewrite Hip in ET, HwT. rewrite ET.
  eexists _, _. split; [reflexivity|]. split; [exact HwT|]. split; [reflexivity|].
  cbn [Norm stranalyzer.Sign]. rewrite Hzq. split; [reflexivity|]. split; [exact Hvq|].
  intros Hrem.
  destruct Hcase as [(H0 & _) | (_ & _ & _ & dp & -> & Hd & Hc & Hne & Hv)]; [contradiction|].
  assert (Hwl : wellformed (mkAnalysis dp 1 0 (len dp)) = true).
  { apply wellformed_intro; cbn [Norm Len Decimals stranalyzer.Sign].
    - exact Hd.
    - reflexivity.
    - destruct dp; [contradiction|]. rewrite len_cons. pose proof (len_nonneg dp). lia.
    - left. reflexivity.
    - reflexivity.
    - rewrite Z.sub_0_r, slice_to_all. exact Hc. }
  destruct (Div10_spec _ (Decimals a + Decimals b) Hwl Hdd) as (H1 & H2 & H3 & H4).
  split; [exact H1|]. split; [exact H3|]. split; [exact H2|]. rewrite H4. exact Hv.
Qed.

Lemma shift_value (f : BigFloat) (n : Z) :
  Len f = len (Norm f) -> 0 <= Decimals f <= n ->
  digits_value (Norm (if n >? 0 then Mul10 (Abs (Copy f)) n else Abs (Copy f)))
  = digits_value (Norm f) * 10 ^ (n - Decimals f).
Proof.
  intros Hl Hd. unfold Abs, Copy. rewrite Sign_positive.
  destruct (n >? 0) eqn:E.
  - rewrite Mul10_shift; [|exact Hl|cbn [with_Sign Decimals]; lia].
    cbv zeta. cbn [with_Sign Len Norm Decimals].
    rewrite digits_value_skip_zeros, digits_value_app, digits_value_fill, len_fill by lia.
    lia.
  - assert (n = 0) by lia. subst n. assert (Decimals f = 0) as -> by lia.
    cbn [with_Sign Norm]. change (10 ^ (0 - 0)) with 1. lia.
Qed.

Lemma shifted_values (a b : BigFloat) :
  wellformed a = true -> wellformed b = true ->
  digits_value (Norm (fst (shifted a b))) = digits_value (Norm a) * 10 ^ Decimals b
  /\ digits_value (Norm (snd (shifted a b))) = digits_value (Norm b) * 10 ^ Decimals a.
Proof.
  intros Hwa Hwb.
  pose proof (wellformed_elim _ Hwa) as (_ & Hla & Hdeca & _).
  pose proof (wellformed_elim _ Hwb) as (_ & Hlb & Hdecb & _).
  pose proof (shift_value a (Decimals a + Decimals b) Hla ltac:(lia)) as Ha.
  pose proof (shift_value b (Decimals a + Decimals b) Hlb ltac:(lia)) as Hb.
  replace (Decimals a + Decimals b - Decimals a) with (Decimals b) in Ha by lia.
  replace (Decimals a + Decimals b - Decimals b) with (Decimals a) in Hb by lia.
  unfold shifted. destruct (Decimals a + Decimals b >? 0); cbn [fst snd]; auto.
Qed.

Lemma loop_bound_enough (env : loop_env) (st : loop_state) (m : nat) :
  Z.of_nat m = Z.max 0 (len (aBuf env) - ls_i st) -> decimals st = 0 -> 1 < ro_max env ->
  (m + 2 <= loop_bound env st)%nat.
Proof. intros Hm Hd Hr. unfold loop_bound. rewrite Hd. lia. Qed.

(** [DivMod] on well-formed operands, the divisor other than zero, in
    terms of the magnitudes [X] and [Y] of the operands at
    [da + db] decimals. *)
Lemma DivMod_spec (f a b : BigFloat) :
  wellformed a = true -> wellformed b = true -> magnitude_zero b = false ->
  let X := digits_value (Norm a) * 10 ^ Decimals b in
  let Y := digits_value (Norm b) * 10 ^ Decimals a in
  exists q r,
    DivMod f a b = DivOk q r 0
    /\ wellformed q = true /\ Decimals q = 0
    /\ scaled q 0 = stranalyzer.Sign a * stranalyzer.Sign b * (X / Y)
    /\ (X mod Y <> 0 ->
        wellformed r = true /\ Decimals r = Decimals a + Decimals b
        /\ scaled r (Decimals a + Decimals b) = X mod Y).
Proof.
  intros Hwa Hwb Hzb X Y.
  pose proof (wellformed_elim _ Hwa) as (Hda & Hla & Hdeca & Hsa & _ & _).
  pose proof (wellformed_elim _ Hwb) as (Hdb & Hlb & Hdecb & Hsb & _ & _).
  destruct (wellformed_invariants _ Hwa) as [Hia Hha].
  destruct (wellformed_invariants _ Hwb) as [Hib Hhb].
  assert (Hs : stranalyzer.Sign a * stranalyzer.Sign b = 1
               \/ stranalyzer.Sign a * stranalyzer.Sign b = -1)
    by (clear - Hsa Hsb; destruct Hsa as [-> | ->], Hsb as [-> | ->]; lia).
  assert (Hdd : 0 <= Decimals a + Decimals b) by (clear - Hdeca Hdecb; lia).
  pose proof (digits_value_pos _ Hdb Hzb) as HB.
  assert (HY : 0 < Y).
  { unfold Y. pose proof (pow10_pos (Decimals a) (proj1 Hdeca)) as Hp. clear - HB Hp. nia. }
  unfold DivMod, divmod.
  change (fold_left (fun ro option => option ro) [WithDivDecimalPlaces 0] default_divOptions)
    with (mkDivOptions 0 10000).
  cbn [decimalPlaces]. change (0 >=? 0) with true. cbv iota.
  rewrite (IsInt64_0_magnitude a Hia Hha), (IsInt64_0_magnitude b Hib Hhb), Hzb.
  destruct (magnitude_zero a) eqn:Hza.
  { rewrite SetInt64_0. replace (SetDecimals New 0) with New by (vm_compute; reflexivity).
    exists New, empty. split; [reflexivity|]. split; [reflexivity|]. split; [reflexivity|].
    unfold magnitude_zero in Hza. apply digits_value_zero_iff in Hza; [|exact Hda].
    assert (HX : X = 0) by (unfold X; rewrite Hza; reflexivity).
    rewrite HX. rewrite Z.div_0_l, Z.mod_0_l by (clear - HY; lia).
    split; [change (scaled New 0) with 0; ring|]. intros H. contradiction. }
  pose proof (shifted_dividend a b Hia Hib Hza) as Hx.
  pose proof (shifted_divisor a b Hia Hib Hzb) as Hy.
  destruct (shifted_values a b Hwa Hwb) as [HvX HvY]. fold X in HvX. fold Y in HvY.
  destruct (shifted a b) as [x y]. cbn [fst snd] in Hx, Hy, HvX, HvY.
  pose proof (positive_integer_fields x Hx) as (Hsx & Hdx & Hlx & Hdgx & cx & rx & HNx & Hcx).
  assert (HXpos : 0 < X).
  { rewrite <- HvX, HNx. rewrite HNx in Hdgx.
    pose proof (digits_value_lower cx rx Hdgx Hcx) as Hlow.
    pose proof (pow10_pos (len rx) (len_nonneg rx)) as Hp. clear - Hlow Hp. lia. }
  destruct (IsInt64 y 1) eqn:Ey1.
  { apply positive_integer_fields in Hy as (_ & Hdy & _).
    destruct (IsInt64_unit y 1 (or_introl eq_refl) ltac:(rewrite Hdy; apply Z.le_refl) Ey1)
      as [_ Ev].
    rewrite Hdy, HvY in Ev. change (10 ^ 0) with 1 in Ev.
    assert (Hwx1 : wellformed (with_Sign x 1) = true).
    { apply wellformed_intro; cbn [with_Sign Norm Len Decimals stranalyzer.Sign].
      - exact Hdgx.
      - exact Hlx.
      - rewrite Hdx, Hlx, HNx, len_cons. pose proof (len_nonneg rx) as Hn. clear - Hn. lia.
      - left. reflexivity.
      - reflexivity.
      - rewrite Hdx, Z.sub_0_r, Hlx, slice_to_all, HNx.
        destruct rx; [reflexivity|]. apply negb_true_iff, Z.eqb_neq. exact Hcx. }
    destruct (Sign_wellformed x _ Hwx1 Hs) as [ES HwS].
    assert (Hnz : all_zero (Norm x) = false).
    { rewrite HNx. unfold all_zero. cbn [forallb]. change (ch "0") with 48.
      apply Z.eqb_neq in Hcx. rewrite Hcx. reflexivity. }
    rewrite Hnz in ES.
    set (g := bigfloat.Sign x (stranalyzer.Sign a * stranalyzer.Sign b)) in *.
    assert (Hg1 : wellformed (with_Sign g 1) = true) by (rewrite ES; exact Hwx1).
    assert (Hsg : stranalyzer.Sign g = 1 \/ stranalyzer.Sign g = -1) by (rewrite ES; exact Hs).
    destruct (SetDecimals_spec g 0 Hg1 Hsg (Z.le_refl 0)) as (E & Hw & _).
    exists (SetDecimals g 0), empty. split; [reflexivity|]. split; [exact Hw|].
    split; [apply SetDecimals_Decimals|]. split.
    - rewrite E. unfold scaled. cbn [Norm stranalyzer.Sign Decimals].
      rewrite ES. cbn [with_Sign Norm stranalyzer.Sign Decimals Len].
      rewrite Hdx. change (0 >? 0) with false. cbv iota.
      rewrite Hlx, Z.sub_0_r, Z.add_0_r, slice_to_all, Hnz, HvX, Ev, Z.div_1_r.
      change (10 ^ (0 - 0)) with 1. ring.
    - rewrite Ev, Z.mod_1_r. intros H. contradiction. }
  set (ro := mkDivOptions 0 10000).
  set (env := divmod_env x y ro). set (st0 := divmod_init x y empty).
  pose proof (divmod_env_division x y ro Hx Hy Ey1) as Henv.
  pose proof (divmod_init_integer_phase x y empty ro Hx Hy Ey1) as Hph.
  fold env st0 in Henv, Hph.
  assert (HAe : 0 < digits_value (aBuf env)).
  { change (aBuf env) with (Norm x). rewrite HvX. exact HXpos. }
  assert (Hmax : 1 < ro_max env) by reflexivity.
  assert (Hm : Z.of_nat (Z.to_nat (Z.max 0 (len (aBuf env) - ls_i st0)))
               = Z.max 0 (len (aBuf env) - ls_i st0)).
  { generalize (len (aBuf env) - ls_i st0). clear. intros z. lia. }
  destruct (divmod_loop_integer env Henv eq_refl Hmax HAe _ st0 (loop_bound env st0) Hph Hm)
    as (st' & Hloop & Hdone).
  { apply loop_bound_enough; [exact Hm|reflexivity|exact Hmax]. }
  rewrite Hloop.
  destruct (divmod_finish_integer a b env st' Hdone eq_refl Hs Hdd)
    as (q & r & Hfin & Hwq & Hdq & Hsq & Hvq & Hr).
  change (mkDivOptions 0 (ro_max env)) with ro in Hfin. rewrite Hfin.
  change (digits_value (aBuf env)) with (digits_value (Norm x)) in Hsq, Hvq, Hr.
  change (divisor env) with (digits_value (Norm y)) in Hsq, Hvq, Hr.
  rewrite HvX, HvY in Hsq, Hvq, Hr.
  exists q, r. split; [reflexivity|]. split; [exact Hwq|]. split; [exact Hdq|]. split.
  - unfold scaled. rewrite Hsq, Hvq, Hdq. change (10 ^ (0 - 0)) with 1.
    destruct (X / Y =? 0) eqn:E0; [|ring].
    apply Z.eqb_eq in E0. rewrite E0. ring.
  - intros Hrem. destruct (Hr Hrem) as (Hwr & Hdr & Hsr & Hvr).
    split; [exact Hwr|]. split; [exact Hdr|].
    unfold scaled. rewrite Hsr, Hvr, Hdr, Z.sub_diag. change (10 ^ 0) with 1. ring.
Qed.

Lemma quot_rem_signs (sa sb X Y : Z) :
  sa = 1 \/ sa = -1 -> sb = 1 \/ sb = -1 -> 0 <= X -> 0 < Y ->
  Z.quot (sa * X) (sb * Y) = sa * sb * (X / Y)
  /\ Z.abs (Z.rem (sa * X) (sb * Y)) = X mod Y.
Proof.
  intros Ha Hb HX HY.
  pose proof (Z.quot_div_nonneg X Y HX HY) as Hq.
  pose proof (Z.rem_mod_nonneg X Y HX HY) as Hr.
  pose proof (Z.mod_pos_bound X Y HY) as Hm.
  destruct Ha as [-> | ->], Hb as [-> | ->];
    rewrite ?Z.mul_1_l;
    replace (-1 * X) with (- X) by ring; replace (-1 * Y) with (- Y) by ring;
    rewrite ?Z.quot_opp_l, ?Z.quot_opp_r, ?Z.rem_opp_l, ?Z.rem_opp_r by lia;
    rewrite Hq, Hr; split; lia.
Qed.

(** X16: [DivMod] on well-formed operands, the divisor other than
    zero, returns the quotient truncated towards zero as a well-formed
    integer; when the division leaves a remainder, the second result is
    the well-formed value that stands for its magnitude, at
    [da + db] decimals. *)
Theorem DivMod_value (f a b : BigFloat) :
  wellformed a = true -> wellformed b = true -> magnitude_zero b = false ->
  let d := Decimals a + Decimals b in
  exists q r,
    DivMod f a b = DivOk q r 0
    /\ wellformed q = true /\ Decimals q = 0
    /\ scaled q 0 = Z.quot (scaled a d) (scaled b d)
    /\ (Z.rem (scaled a d) (scaled b d) <> 0 ->
        wellformed r = true /\ Decimals r = d
        /\ scaled r d = Z.abs (Z.rem (scaled a d) (scaled b d))).
Proof.
  intros Hwa Hwb Hzb d.
  pose proof (wellformed_elim _ Hwa) as (Hda & _ & Hdeca & Hsa & _ & _).
  pose proof (wellformed_elim _ Hwb) as (Hdb & _ & Hdecb & Hsb & _ & _).
  destruct (DivMod_spec f a b Hwa Hwb Hzb) as (q & r & E & Hwq & Hdq & Hvq & Hr).
  cbv zeta in Hvq, Hr.
  set (X := digits_value (Norm a) * 10 ^ Decimals b) in *.
  set (Y := digits_value (Norm b) * 10 ^ Decimals a) in *.
  assert (HX : 0 <= X).
  { unfold X. pose proof (digits_value_bounds _ Hda).
    pose proof (pow10_pos (Decimals b) (proj1 Hdecb)). nia. }
  assert (HY : 0 < Y).
  { unfold Y. pose proof (digits_value_pos _ Hdb Hzb).
    pose proof (pow10_pos (Decimals a) (proj1 Hdeca)). nia. }
  assert (Ea : scaled a d = stranalyzer.Sign a * X).
  { unfold scaled, d, X. replace (Decimals a + Decimals b - Decimals a) with (Decimals b) by lia.
    ring. }
  assert (Eb : scaled b d = stranalyzer.Sign b * Y).
  { unfold scaled, d, Y. replace (Decimals a + Decimals b - Decimals b) with (Decimals a) by lia.
    ring. }
  destruct (quot_rem_signs _ _ X Y Hsa Hsb HX HY) as [Hq Hrm].
  rewrite Ea, Eb, Hq, Hrm.
  exists q, r. split; [exact E|]. split; [exact Hwq|]. split; [exact Hdq|].
  split; [exact Hvq|]. intros H. apply Hr. intros H0. apply H.
  rewrite H0 in Hrm. clear - Hrm. lia.
Qed.

Lemma DivMod_value_witness :
  let a := parse "-7.5" in
  let b := parse "0.2" in
  let d := Decimals a + Decimals b in
  exists q r,
    DivMod New a b = DivOk q r 0
    /\ wellformed q = true /\ Decimals q = 0
    /\ scaled q 0 = Z.quot (scaled a d) (scaled b d)
    /\ (Z.rem (scaled a d) (scaled b d) <> 0 ->
        wellformed r = true /\ Decimals r = d
        /\ scaled r d = Z.abs (Z.rem (scaled a d) (scaled b d))).
Proof.
  apply (DivMod_value New (parse "-7.5") (parse "0.2")); vm_compute; reflexivity.
Defined.

(** ** Rounding and multiplication by a machine integer *)

Lemma list_split_at (l : list Z) (pos : Z) :
  0 <= pos < len l ->
  l = slice_to l pos ++ idx l pos :: slice_from l (pos + 1)
  /\ len (slice_to l pos) = pos /\ len (slice_from l (pos + 1)) = len l - pos - 1.
Proof.
  intros H. unfold slice_to, slice_from, idx, len in *.
  replace (Z.to_nat (pos + 1)) with (S (Z.to_nat pos)) by lia.
  assert (Hn : (Z.to_nat pos < length l)%nat) by lia.
  split; [|split].
  - rewrite <- (firstn_skipn (Z.to_nat pos) l) at 1. f_equal.
    generalize dependent (Z.to_nat pos). clear. intros n.
    revert l. induction n as [|n IH]; intros [|a l] Hn; cbn in *; try lia; [reflexivity|].
    apply IH. lia.
  - rewrite length_firstn. lia.
  - rewrite length_skipn. lia.
Qed.

Lemma round_arith (T dv R P : Z) :
  0 <= T -> 0 <= dv <= 9 -> 0 <= R < P ->
  (2 * ((10 * T + dv) * P + R) + 10 * P) / (2 * (10 * P))
  = T + (if dv >=? 5 then 1 else 0).
Proof.
  intros HT Hd HR. symmetry.
  destruct (dv >=? 5) eqn:E.
  - apply (Z.div_unique_pos _ _ _ ((2 * dv - 10) * P + 2 * R)); [nia|ring].
  - apply (Z.div_unique_pos _ _ _ ((2 * dv + 10) * P + 2 * R)); [nia|ring].
Qed.

(** [Round] on a value that is well-formed up to its sign: [n]
    decimals are left, and the magnitude is the nearest multiple of
    [10^-n], a tie going away from zero. *)
Lemma Round_spec (f : BigFloat) (n : Z) :
  wellformed (with_Sign f 1) = true ->
  stranalyzer.Sign f = 1 \/ stranalyzer.Sign f = -1 -> 0 <= n < Decimals f ->
  let k := Decimals f - n in
  exists r,
    Round f n = Some r /\ wellformed r = true /\ Decimals r = n
    /\ scaled r n
       = stranalyzer.Sign f * ((2 * digits_value (Norm f) + 10 ^ k) / (2 * 10 ^ k)).
Proof.
  intros Hw Hs Hn k.
  pose proof (wellformed_elim _ Hw) as (Hdig & HL & Hdec & _ & _ & Hcan).
  cbn [with_Sign Norm Len Decimals] in Hdig, HL, Hdec, Hcan.
  unfold Round. replace (n <? 0) with false by (clear - Hn; lia).
  replace (n <? Decimals f) with true by (clear - Hn; lia).
  cbv zeta.
  set (pos := Len f - Decimals f + n).
  assert (Hpos : 0 <= pos < len (Norm f)) by (unfold pos; clear - Hn Hdec HL; lia).
  destruct (list_split_at (Norm f) pos Hpos) as (Hsplit & Hl1 & Hl2).
  set (l1 := slice_to (Norm f) pos) in *.
  set (dch := idx (Norm f) pos) in *.
  set (l2 := slice_from (Norm f) (pos + 1)) in *.
  assert (Hdigs : forallb is_digit l1 = true /\ is_digit dch = true
                  /\ forallb is_digit l2 = true).
  { rewrite Hsplit in Hdig. rewrite forallb_app in Hdig. cbn [forallb] in Hdig.
    rewrite !andb_true_iff in Hdig. tauto. }
  destruct Hdigs as (Hd1 & Hdc & Hd2).
  set (T := digits_value l1).
  pose proof (digits_value_bounds l1 Hd1) as HT. fold T in HT.
  pose proof (digits_value_bounds l2 Hd2) as HR.
  assert (Hk : len l2 = k - 1) by (unfold k, pos in *; clear - Hl2 HL; lia).
  rewrite Hk in HR.
  assert (HM : digits_value (Norm f) = (10 * T + (dch - 48)) * 10 ^ (k - 1) + digits_value l2).
  { rewrite Hsplit. change (dch :: l2) with ([dch] ++ l2).
    rewrite app_assoc, digits_value_app, digits_value_snoc, Hk. reflexivity. }
  assert (Hp10 : 10 ^ k = 10 * 10 ^ (k - 1)).
  { replace k with (1 + (k - 1)) at 1 by ring.
    rewrite Z.pow_add_r by (unfold k; clear - Hn; lia). reflexivity. }
  assert (Hval : (2 * digits_value (Norm f) + 10 ^ k) / (2 * 10 ^ k)
                 = T + (if dch >=? ch "5" then 1 else 0)).
  { rewrite HM, Hp10. rewrite round_arith.
    - change (ch "5") with 53. clear. destruct (dch - 48 >=? 5) eqn:E1, (dch >=? 53) eqn:E2;
        try reflexivity; lia.
    - exact (proj1 HT).
    - clear - Hdc. unfold is_digit in Hdc. lia.
    - exact HR. }
  rewrite Hval. clear Hval HM Hp10 HR Hk Hl2 Hd2 Hsplit.
  set (f1 := mkAnalysis l1 (stranalyzer.Sign f) n (Len f - (Decimals f - n))).
  assert (HL1 : Len f1 = len (Norm f1)).
  { cbn [f1 Len Norm]. rewrite Hl1. unfold pos. ring. }
  assert (Hdec1 : 0 <= Decimals f1 < Len f1).
  { cbn [f1 Len Decimals]. clear - Hn Hdec. lia. }
  assert (Hcan1 : canonical (slice_to (Norm f1) (Len f1 - Decimals f1)) = true).
  { cbn [f1 Len Decimals Norm]. unfold l1.
    replace (Len f - (Decimals f - n) - n) with (Len f - Decimals f) by ring.
    rewrite slice_to_slice_to by (unfold pos; clear - Hn; lia). exact Hcan. }
  assert (Hw1 : wellformed (with_Sign f1 1) = true).
  { apply wellformed_intro; cbn [with_Sign Norm Len Decimals stranalyzer.Sign].
    - exact Hd1.
    - exact HL1.
    - exact Hdec1.
    - left. reflexivity.
    - reflexivity.
    - exact Hcan1. }
  destruct (dch >=? ch "5") eqn:Eup.
  - (* rounding up *)
    set (c0 := Div10 (SetInt64 empty 1) n).
    assert (Hone : wellformed (SetInt64 empty 1) = true) by reflexivity.
    destruct (Div10_spec (SetInt64 empty 1) n Hone (proj1 Hn)) as (Hwc0 & Hsc0 & Hdc0 & Hvc0).
    fold c0 in Hwc0, Hsc0, Hdc0, Hvc0.
    change (stranalyzer.Sign (SetInt64 empty 1)) with 1 in Hsc0.
    change (Decimals (SetInt64 empty 1) + n) with n in Hdc0.
    change (digits_value (Norm (SetInt64 empty 1))) with 1 in Hvc0.
    assert (Hc01 : with_Sign c0 1 = c0) by (rewrite <- Hsc0; apply with_Sign_same).
    pose proof (wellformed_elim _ Hwc0) as (Hdigc & HLc & Hdecc & _ & _ & Hcanc).
    assert (Hnzc : all_zero (Norm c0) = false).
    { destruct (all_zero (Norm c0)) eqn:E; [|reflexivity].
      apply (digits_value_zero_iff _ Hdigc) in E. rewrite E in Hvc0. discriminate. }
    change (GetSign f1) with (stranalyzer.Sign f).
    assert (Hwc01 : wellformed (with_Sign c0 1) = true) by (rewrite Hc01; exact Hwc0).
    destruct (Sign_wellformed c0 (stranalyzer.Sign f) Hwc01 Hs) as [Ec Hwc].
    rewrite Hnzc in Ec.
    set (c := bigfloat.Sign c0 (stranalyzer.Sign f)) in *.
    assert (Hcz : IsInt64 c 0 = false).
    { destruct (wellformed_invariants _ Hwc) as [Hi Hh].
      rewrite (IsInt64_0_magnitude c Hi Hh). unfold magnitude_zero. rewrite Ec. exact Hnzc. }
    assert (Hsgn : bigfloat.Sign c (stranalyzer.Sign c) = c).
    { assert (Hwc1 : wellformed (with_Sign c 1) = true) by (rewrite Ec; exact Hwc01).
      assert (Esc : stranalyzer.Sign c = stranalyzer.Sign f) by (rewrite Ec; reflexivity).
      destruct (Sign_wellformed c (stranalyzer.Sign f) Hwc1 Hs) as [E _].
      rewrite Esc, E. replace (all_zero (Norm c)) with false by (rewrite Ec; symmetry; exact Hnzc).
      rewrite Ec. reflexivity. }
    unfold Add. rewrite Hcz.
    destruct (IsInt64 f1 0) eqn:Ez1.
    + exists c. split; [rewrite Hsgn; reflexivity|]. split; [exact Hwc|].
      split; [rewrite Ec; exact Hdc0|].
      apply IsInt64_0_spec in Ez1 as (_ & _ & HN); [|exact (proj1 Hdec1)].
      cbn [f1 Norm Decimals] in HN.
      assert (HT0 : T = 0).
      { unfold T. apply (digits_value_zero_iff _ Hd1). rewrite HN.
        apply all_zero_repeat. rewrite repeat_length. reflexivity. }
      unfold scaled. rewrite Ec. cbn [with_Sign Norm stranalyzer.Sign Decimals].
      rewrite Hvc0, Hdc0, Z.sub_diag, HT0. change (10 ^ 0) with 1. ring.
    + assert (Ess : (stranalyzer.Sign f1 =? stranalyzer.Sign c) = true).
      { rewrite Ec. cbn [f1 with_Sign stranalyzer.Sign]. apply Z.eqb_refl. }
      rewrite Ess.
      assert (HLcc : Len c = len (Norm c)) by (rewrite Ec; exact HLc).
      assert (Hdecc' : 0 <= Decimals c < Len c) by (rewrite Ec; exact Hdecc).
      assert (Hdigc' : forallb is_digit (Norm c) = true) by (rewrite Ec; exact Hdigc).
      destruct (add_spec f1 c Hd1 HL1 Hdec1 Hdigc' HLcc Hdecc')
        as (Hrd & HrL & Hrdec & Hrlen & Hrs & Hrcan & Hrv).
      assert (Edc : Decimals c = n) by (rewrite Ec; exact Hdc0).
      change (Decimals f1) with n in Hrdec, Hrlen, Hrv. rewrite Edc in Hrdec, Hrlen, Hrv.
      rewrite Z.max_id in Hrdec, Hrlen, Hrv.
      destruct (padded_operand f1 n Hd1 HL1 (Z.le_refl n)) as (_ & Hp1 & _).
      destruct (padded_operand c n Hdigc' HLcc ltac:(rewrite Edc; apply Z.le_refl))
        as (_ & Hp2 & _).
      rewrite Edc in Hp2. change (Decimals f1) with n in Hp1.
      rewrite Z.sub_diag in Hp1, Hp2. change (10 ^ 0) with 1 in Hp1, Hp2.
      rewrite Z.mul_1_r in Hp1, Hp2. rewrite Hp1, Hp2 in Hrv.
      change (digits_value (Norm f1)) with T in Hrv.
      replace (digits_value (Norm c)) with 1 in Hrv by (rewrite Ec; symmetry; exact Hvc0).
      change (stranalyzer.Sign f1) with (stranalyzer.Sign f) in Hrs.
      rewrite Hrs.
      destruct (signed_result (add f1 c) (stranalyzer.Sign f) (T + 1) n Hrd HrL Hrdec
                  (conj (proj1 Hn) Hrlen) Hrcan Hrv ltac:(clear - HT; lia) Hs)
        as (Hwr & Hdr & Hvr).
      exists (bigfloat.Sign (add f1 c) (stranalyzer.Sign f)).
      split; [reflexivity|]. split; [exact Hwr|]. split; [exact Hdr|exact Hvr].
  - (* rounding down *)
    change (stranalyzer.Sign f1) with (stranalyzer.Sign f).
    destruct (Sign_wellformed f1 (stranalyzer.Sign f) Hw1 Hs) as [E Hwr].
    exists (bigfloat.Sign f1 (stranalyzer.Sign f)).
    split; [reflexivity|]. split; [exact Hwr|]. rewrite E.
    split; [reflexivity|].
    unfold scaled. cbn [with_Sign f1 Norm stranalyzer.Sign Decimals].
    rewrite Z.sub_diag. change (10 ^ 0) with 1. fold T. rewrite Z.add_0_r.
    destruct (all_zero l1) eqn:Ez; [|ring].
    apply (digits_value_zero_iff _ Hd1) in Ez. fold T in Ez. rewrite Ez. ring.
Qed.

(** X17: [Round] on a well-formed value. A negative count is refused;
    a count that is not below the stored decimals leaves the value as it
    is; a smaller count [n] leaves a well-formed value of [n] decimals
    whose magnitude is the nearest multiple of [10^-n], a tie going away
    from zero. *)
Theorem Round_half_away (f : BigFloat) (n : Z) :
  wellformed f = true ->
  let k := Decimals f - n in
  (Round f n = None <-> n < 0)
  /\ (Decimals f <= n -> Round f n = Some f)
  /\ (0 <= n < Decimals f ->
      exists r,
        Round f n = Some r /\ wellformed r = true /\ Decimals r = n
        /\ scaled r n
           = stranalyzer.Sign f * ((2 * Z.abs (scaled f (Decimals f)) + 10 ^ k) / (2 * 10 ^ k))).
Proof.
  intros Hw k.
  pose proof (wellformed_elim _ Hw) as (Hdig & _ & Hdec & Hs & _ & _).
  split; [|split].
  - unfold Round. destruct (n <? 0) eqn:E.
    + split; [intros _; lia|reflexivity].
    + split; [|intros H; lia]. destruct (n <? Decimals f); discriminate.
  - intros H. unfold Round.
    replace (n <? 0) with false by lia. replace (n <? Decimals f) with false by lia.
    reflexivity.
  - intros Hn. destruct (Round_spec f n (wellformed_with_Sign_1 f Hw) Hs Hn) as (r & E & Hwr & Hdr & Hv).
    exists r. split; [exact E|]. split; [exact Hwr|]. split; [exact Hdr|].
    rewrite Hv. fold k. unfold scaled. rewrite Z.sub_diag. change (10 ^ 0) with 1.
    pose proof (digits_value_bounds _ Hdig) as Hb.
    replace (Z.abs (stranalyzer.Sign f * digits_value (Norm f) * 1))
      with (digits_value (Norm f)); [reflexivity|].
    clear - Hs Hb. destruct Hs as [-> | ->]; lia.
Qed.

Lemma Round_half_away_witness :
  let f := parse "-2.345" in
  (Round f 2 = None <-> 2 < 0)
  /\ (Decimals f <= 2 -> Round f 2 = Some f)
  /\ (0 <= 2 < Decimals f ->
      exists r,
        Round f 2 = Some r /\ wellformed r = true /\ Decimals r = 2
        /\ scaled r 2
           = stranalyzer.Sign f
             * ((2 * Z.abs (scaled f (Decimals f)) + 10 ^ (Decimals f - 2))
                / (2 * 10 ^ (Decimals f - 2)))).
Proof.
  apply (Round_half_away (parse "-2.345") 2). vm_compute; reflexivity.
Defined.

Lemma rev_repeat_same {A : Type} (x : A) (n : nat) : rev (repeat x n) = repeat x n.
Proof.
  induction n as [|n IH]; [reflexivity|].
  cbn [repeat rev]. rewrite IH. symmetry. apply repeat_cons.
Qed.

(** [strings.TrimRight(s, "0")] takes a run of ['0'] off the end. *)
Lemma TrimRight0_spec (s : list Z) :
  let k := len s - len (TrimRight0 s) in
  0 <= k /\ s = TrimRight0 s ++ repeat (ch "0") (Z.to_nat k).
Proof.
  unfold TrimRight0. set (r := rev s). set (lc := leading_count (ch "0") r).
  pose proof (leading_count_bounds (ch "0") r) as Hb. fold lc in Hb.
  pose proof (leading_count_prefix (ch "0") r) as Hp. fold lc in Hp.
  assert (Hlen : len (rev (slice_from r lc)) = len s - lc).
  { unfold len, slice_from in *. rewrite length_rev, length_skipn. unfold r in *.
    rewrite length_rev in *. lia. }
  cbv zeta. rewrite Hlen. replace (len s - (len s - lc)) with lc by ring.
  split; [exact (proj1 Hb)|].
  rewrite <- (rev_involutive s) at 1. fold r.
  rewrite <- (firstn_skipn (Z.to_nat lc) r) at 1. rewrite Hp, rev_app_distr, rev_repeat_same.
  reflexivity.
Qed.

(** The texts on which [MulInt64] shifts the decimals are those of
    the powers of ten. *)
Lemma FormatInt_power (n : Z) :
  n <> 0 ->
  let nStr := runes (FormatInt n) in
  let t := TrimRight0 nStr in
  let k := len nStr - len t in
  0 <= k
  /\ (t = runes "1" -> n = 10 ^ k)
  /\ (t = runes "-1" -> n = - 10 ^ k).
Proof.
  intros Hn. cbv zeta.
  destruct (TrimRight0_spec (runes (FormatInt n))) as [Hk Hs].
  set (nStr := runes (FormatInt n)) in *. set (t := TrimRight0 nStr) in *.
  set (k := len nStr - len t) in *. clearbody k.
  split; [exact Hk|].
  destruct n as [|p|p]; [contradiction| |].
  - destruct (to_uint_digits p) as (c & rest & Hr & Hc & Hd & Hv).
    change (runes (FormatInt (Z.pos p))) with
      (runes (NilZero.string_of_uint (Pos.to_uint p))) in nStr.
    unfold nStr in Hs. rewrite Hr in Hs. split; intros Ht; rewrite Ht in Hs.
    + rewrite <- Hv, Hs. change (runes "1") with [49]. change (ch "0") with 48.
      cbn [app]. rewrite digits_value_one_zeros. f_equal. lia.
    + exfalso. change (runes "-1") with [45; 49] in Hs. cbn [app] in Hs.
      injection Hs as Hc45 _. rewrite Hc45 in Hd. discriminate Hd.
  - destruct (to_uint_digits p) as (c & rest & Hr & Hc & Hd & Hv).
    assert (E : runes (FormatInt (Z.neg p)) = ch "-" :: c :: rest).
    { unfold FormatInt. cbn [Z.to_int NilZero.string_of_int].
      change (runes (String.String "-" ?s)) with (ch "-" :: runes s).
      rewrite Hr. reflexivity. }
    unfold nStr in Hs. rewrite E in Hs. split; intros Ht; rewrite Ht in Hs.
    + exfalso. change (runes "1") with [49] in Hs. cbn [app] in Hs.
      injection Hs as H45 _. discriminate H45.
    + change (runes "-1") with [45; 49] in Hs. cbn [app] in Hs.
      injection Hs as Hc49 Hrest.
      assert (Hp : Z.pos p = 10 ^ k).
      { rewrite <- Hv, Hc49, Hrest. change (ch "0") with 48.
        rewrite digits_value_one_zeros. f_equal. lia. }
      change (Z.neg p) with (- Z.pos p). rewrite Hp. reflexivity.
Qed.

Lemma scaled_with_Sign_opp (f : BigFloat) (d : Z) :
  scaled (with_Sign f (stranalyzer.Sign f * -1)) d = - scaled f d.
Proof. unfold scaled. cbn [with_Sign Norm stranalyzer.Sign Decimals]. ring. Qed.

(** [MulInt64] on a well-formed value, in terms of the value. *)
Lemma MulInt64_spec (f : BigFloat) (n : Z) :
  wellformed f = true ->
  Decimals (MulInt64 f n) <= Decimals f
  /\ (forall d : Z, Decimals f <= d -> scaled (MulInt64 f n) d = scaled f d * n)
  /\ ((forall k : Z, 0 < k -> n <> 10 ^ k /\ n <> - 10 ^ k) ->
      wellformed (MulInt64 f n) = true).
Proof.
  intros Hw.
  pose proof (wellformed_elim _ Hw) as (Hdig & HL & Hdec & Hs & Hz & Hcan).
  destruct (wellformed_invariants _ Hw) as [Hi Hh].
  unfold MulInt64.
  destruct (n =? 0) eqn:E0.
  { apply Z.eqb_eq in E0. subst n. cbn [Decimals].
    split; [apply Z.le_refl|]. split.
    - intros d _. unfold scaled. cbn [Norm stranalyzer.Sign Decimals].
      rewrite digits_value_fill. ring.
    - intros _. apply wellformed_intro; cbn [Norm stranalyzer.Sign Decimals Len].
      + apply is_digit_zero_fill.
      + rewrite len_fill; [reflexivity|clear - Hdec; lia].
      + clear - Hdec. lia.
      + left. reflexivity.
      + reflexivity.
      + replace (Decimals f + 1 - Decimals f) with 1 by ring.
        unfold slice_to. change (Z.to_nat 1) with 1%nat.
        destruct (fill (Decimals f + 1) (ch "0")) as [|a [|b l]]; reflexivity. }
  destruct (n =? 1) eqn:E1.
  { apply Z.eqb_eq in E1. subst n. split; [apply Z.le_refl|]. split.
    - intros d _. ring.
    - intros _. exact Hw. }
  destruct (n =? -1) eqn:Em1.
  { apply Z.eqb_eq in Em1. subst n. rewrite (IsInt64_0_magnitude f Hi Hh).
    destruct (magnitude_zero f) eqn:Ez; cbn [negb].
    - split; [apply Z.le_refl|]. split; [|intros _; exact Hw].
      intros d _. rewrite (scaled_zero f d Hdig Ez). reflexivity.
    - split; [apply Z.le_refl|]. split.
      + intros d _. rewrite scaled_with_Sign_opp. ring.
      + intros _. apply wellformed_intro; cbn [with_Sign Norm stranalyzer.Sign Decimals Len].
        * exact Hdig.
        * exact HL.
        * exact Hdec.
        * clear - Hs. destruct Hs as [-> | ->]; [right|left]; reflexivity.
        * intros H. unfold magnitude_zero in Ez. rewrite H in Ez. discriminate Ez.
        * exact Hcan. }
  assert (Hn0 : n <> 0) by (apply Z.eqb_neq; exact E0).
  destruct (FormatInt_power n Hn0) as (Hk & Hpos & Hneg).
  cbv zeta.
  set (nStr := runes (FormatInt n)) in *. set (t := TrimRight0 nStr) in *.
  set (k := len nStr - len t) in *. clearbody k. clearbody t. clear nStr.
  unfold bytes_eqb.
  destruct ((k >? 0) && (bool_decide (t = runes "1") || bool_decide (t = runes "-1"))) eqn:Eb.
  - apply andb_true_iff in Eb as [Hk0 Ht].
    assert (Hk0' : 0 < k) by (clear - Hk0; lia).
    set (f1 := if bool_decide (t = runes "-1") then with_Sign f (stranalyzer.Sign f * -1)
               else f).
    assert (Hf1 : Len f1 = len (Norm f1) /\ Decimals f1 = Decimals f
                  /\ forall d, scaled f1 d * 10 ^ k = scaled f d * n).
    { unfold f1. destruct (bool_decide (t = runes "-1")) eqn:Em.
      - apply bool_decide_eq_true in Em. rewrite (Hneg Em).
        split; [exact HL|]. split; [reflexivity|].
        intros d. rewrite scaled_with_Sign_opp. ring.
      - rewrite orb_false_r in Ht. apply bool_decide_eq_true in Ht. rewrite (Hpos Ht).
        split; [exact HL|]. split; [reflexivity|]. intros d. reflexivity. }
    destruct Hf1 as (HL1 & Hd1 & Hv1). clearbody f1.
    destruct (Mul10_spec f1 k HL1) as (_ & HdM & HvM & _).
    split; [rewrite HdM, Hd1; clear - Hdec Hk0'; lia|]. split.
    + intros d Hd. rewrite HvM by (rewrite HdM, Hd1; clear - Hd Hdec Hk0'; lia).
      rewrite (scaled_shift f1 d (d + k)) by (rewrite ?Hd1; clear - Hd Hk0'; lia).
      replace (d + k - d) with k by ring. apply Hv1.
    + intros Hnp. exfalso. destruct (Hnp k Hk0') as [Hp1 Hp2].
      apply orb_true_iff in Ht as [Ht | Ht]; apply bool_decide_eq_true in Ht.
      * exact (Hp1 (Hpos Ht)).
      * exact (Hp2 (Hneg Ht)).
  - destruct (SetInt64_spec empty n) as (Hwg & Hdg & Hvg & _).
    destruct (Mul_spec f (SetInt64 empty n) Hw Hwg) as (Hwm & Hdm & Hvm).
    rewrite Hdg, Z.add_0_r in Hdm, Hvm. rewrite Hvg in Hvm.
    split; [exact Hdm|]. split; [|intros _; exact Hwm].
    intros d Hd.
    rewrite (scaled_shift (Mul f (SetInt64 empty n)) (Decimals f) d Hdm Hd).
    rewrite (scaled_shift f (Decimals f) d (Z.le_refl _) Hd).
    rewrite Hvm. ring.
Qed.

(** X18: [MulInt64] on a well-formed value multiplies the value by
    [n] and does not add decimals; the result is well-formed unless [n]
    is a power of ten above 1 or the opposite of one, where the digits
    are shifted by [Mul10]. *)
Theorem MulInt64_value (f : BigFloat) (n : Z) :
  wellformed f = true ->
  Decimals (MulInt64 f n) <= Decimals f
  /\ (forall d : Z, Decimals f <= d -> scaled (MulInt64 f n) d = scaled f d * n)
  /\ ((forall k : Z, 0 < k -> n <> 10 ^ k /\ n <> - 10 ^ k) ->
      wellformed (MulInt64 f n) = true).
Proof. exact (MulInt64_spec f n). Qed.

Lemma MulInt64_value_witness :
  let f := parse "-1.25" in
  Decimals (MulInt64 f (-100)) <= Decimals f
  /\ (forall d : Z, Decimals f <= d -> scaled (MulInt64 f (-100)) d = scaled f d * -100)
  /\ ((forall k : Z, 0 < k -> -100 <> 10 ^ k /\ -100 <> - 10 ^ k) ->
      wellformed (MulInt64 f (-100)) = true).
Proof. apply (MulInt64_value (parse "-1.25") (-100)). vm_compute; reflexivity. Defined.

(** ** Division to decimal places and repeating decimals *)

Lemma expansion_step (X Y t : Z) :
  0 < Y -> 0 <= t ->
  quotient_at X Y (t + 1) = 10 * quotient_at X Y t + 10 * remainder_at X Y t / Y
  /\ remainder_at X Y (t + 1) = (10 * remainder_at X Y t) mod Y.
Proof.
  intros HY Ht. unfold quotient_at, remainder_at.
  rewrite Z.pow_add_r, Z.pow_1_r by lia.
  pose proof (Z.div_mod (X * 10 ^ t) Y ltac:(lia)) as E.
  set (N := X * 10 ^ t) in *. set (Q := N / Y) in *. set (R := N mod Y) in *.
  replace (X * (10 ^ t * 10)) with (10 * N) by (unfold N; ring).
  replace (10 * N) with (10 * Q * Y + 10 * R) by (rewrite E; ring).
  split.
  - rewrite Z.div_add_l by lia. reflexivity.
  - rewrite Z.add_comm, Z.mod_add by lia. reflexivity.
Qed.

Lemma remainder_at_bounds (X Y t : Z) : 0 < Y -> 0 <= remainder_at X Y t < Y.
Proof. intros HY. unfold remainder_at. apply Z.mod_pos_bound. exact HY. Qed.

Lemma decimal_digit_step (X Y t : Z) :
  0 < Y -> 0 <= t ->
  decimal_digit X Y (t + 1) = 10 * remainder_at X Y t / Y
  /\ 0 <= decimal_digit X Y (t + 1) <= 9
  /\ quotient_at X Y (t + 1) = 10 * quotient_at X Y t + decimal_digit X Y (t + 1).
Proof.
  intros HY Ht. destruct (expansion_step X Y t HY Ht) as [EQ _].
  pose proof (remainder_at_bounds X Y t HY) as HR.
  assert (Hd : 0 <= 10 * remainder_at X Y t / Y <= 9).
  { split; [apply Z.div_pos; lia|].
    assert (10 * remainder_at X Y t / Y < 10); [|lia].
    apply Z.div_lt_upper_bound; lia. }
  assert (E : decimal_digit X Y (t + 1) = 10 * remainder_at X Y t / Y).
  { unfold decimal_digit. rewrite EQ.
    replace (10 * quotient_at X Y t + 10 * remainder_at X Y t / Y)
      with (10 * remainder_at X Y t / Y + quotient_at X Y t * 10) by ring.
    rewrite Z.mod_add by lia. apply Z.mod_small. lia. }
  rewrite E. split; [reflexivity|]. split; [exact Hd|exact EQ].
Qed.

Lemma decimal_digits_S (X Y : Z) (t : nat) :
  decimal_digits X Y (S t) = decimal_digits X Y t ++ [decimal_digit X Y (Z.of_nat t + 1)].
Proof.
  unfold decimal_digits. rewrite seq_S, map_app. cbn [map]. do 3 f_equal. lia.
Qed.

Lemma decimal_digits_length (X Y : Z) (t : nat) : length (decimal_digits X Y t) = t.
Proof. unfold decimal_digits. rewrite length_map, length_seq. reflexivity. Qed.

Lemma decimal_digits_small (X Y : Z) (t : nat) : 0 < Y -> small (decimal_digits X Y t).
Proof.
  intros HY. induction t as [|t IH]; [constructor|].
  rewrite decimal_digits_S. apply small_app. split; [exact IH|].
  repeat constructor; apply (decimal_digit_step X Y (Z.of_nat t) HY); lia.
Qed.

Lemma decimal_digits_nth (X Y : Z) (t j : nat) :
  (j < t)%nat -> nth j (decimal_digits X Y t) 0 = decimal_digit X Y (Z.of_nat j + 1).
Proof.
  intros H. unfold decimal_digits.
  rewrite (nth_indep _ 0 ((fun j => decimal_digit X Y (Z.of_nat j)) 0%nat))
    by (rewrite length_map, length_seq; exact H).
  rewrite (map_nth (fun j => decimal_digit X Y (Z.of_nat j))), seq_nth by exact H.
  f_equal. lia.
Qed.

Lemma be_decimal_digits (X Y : Z) (rq : list Z) (t : nat) :
  0 < Y -> be rq = X / Y ->
  be (rq ++ decimal_digits X Y t) = quotient_at X Y (Z.of_nat t).
Proof.
  intros HY Hq. induction t as [|t IH].
  - cbn. rewrite app_nil_r, Hq. unfold quotient_at. rewrite Z.mul_1_r. reflexivity.
  - rewrite decimal_digits_S, app_assoc, be_snoc, IH.
    destruct (decimal_digit_step X Y (Z.of_nat t) HY ltac:(lia)) as (_ & _ & E).
    rewrite Nat2Z.inj_succ. unfold Z.succ. rewrite E. reflexivity.
Qed.

(** Once the division comes out even, every further decimal is 0. *)
Lemma expansion_exact (X Y t : Z) :
  0 < Y -> 0 <= t -> remainder_at X Y t = 0 ->
  forall j : Z, 0 <= j -> remainder_at X Y (t + j) = 0 /\ decimal_digit X Y (t + j + 1) = 0.
Proof.
  intros HY Ht H0 j Hj.
  assert (HR : forall n : nat, remainder_at X Y (t + Z.of_nat n) = 0).
  { induction n as [|n IH]; [rewrite Z.add_0_r; exact H0|].
    replace (t + Z.of_nat (S n)) with (t + Z.of_nat n + 1) by lia.
    destruct (expansion_step X Y (t + Z.of_nat n) HY ltac:(lia)) as [_ ->].
    rewrite IH. reflexivity. }
  specialize (HR (Z.to_nat j)). rewrite Z2Nat.id in HR by exact Hj.
  split; [exact HR|].
  destruct (decimal_digit_step X Y (t + j) HY ltac:(lia)) as (-> & _).
  rewrite HR. reflexivity.
Qed.

(** Once a remainder comes back, the decimals repeat. *)
Lemma expansion_periodic (X Y i t : Z) :
  0 < Y -> 0 <= i -> 0 <= t -> remainder_at X Y i = remainder_at X Y t ->
  forall j : Z, 0 <= j ->
    remainder_at X Y (i + j) = remainder_at X Y (t + j)
    /\ decimal_digit X Y (i + j + 1) = decimal_digit X Y (t + j + 1).
Proof.
  intros HY Hi Ht H0 j Hj.
  assert (HR : forall n : nat,
            remainder_at X Y (i + Z.of_nat n) = remainder_at X Y (t + Z.of_nat n)).
  { induction n as [|n IH]; [rewrite !Z.add_0_r; exact H0|].
    replace (i + Z.of_nat (S n)) with (i + Z.of_nat n + 1) by lia.
    replace (t + Z.of_nat (S n)) with (t + Z.of_nat n + 1) by lia.
    destruct (expansion_step X Y (i + Z.of_nat n) HY ltac:(lia)) as [_ ->].
    destruct (expansion_step X Y (t + Z.of_nat n) HY ltac:(lia)) as [_ ->].
    rewrite IH. reflexivity. }
  specialize (HR (Z.to_nat j)). rewrite Z2Nat.id in HR by exact Hj.
  split; [exact HR|].
  destruct (decimal_digit_step X Y (i + j) HY ltac:(lia)) as (-> & _).
  destruct (decimal_digit_step X Y (t + j) HY ltac:(lia)) as (-> & _).
  rewrite HR. reflexivity.
Qed.

(** The decimals from the period on, read off the period. *)
Lemma expansion_cycle (X Y i L : Z) :
  0 < Y -> 0 <= i -> 0 < L -> remainder_at X Y i = remainder_at X Y (i + L) ->
  forall j : Z, 0 <= j -> decimal_digit X Y (i + j + 1) = decimal_digit X Y (i + j mod L + 1).
Proof.
  intros HY Hi HL H0 j Hj.
  assert (H : forall (n : nat) (r : Z), 0 <= r ->
            decimal_digit X Y (i + (r + Z.of_nat n * L) + 1) = decimal_digit X Y (i + r + 1)).
  { induction n as [|n IH]; intros r Hr.
    - f_equal. lia.
    - destruct (expansion_periodic X Y i (i + L) HY Hi ltac:(lia) H0 (r + Z.of_nat n * L)
                  ltac:(nia)) as [_ E].
      replace (i + (r + Z.of_nat (S n) * L) + 1) with (i + L + (r + Z.of_nat n * L) + 1) by lia.
      rewrite <- E. apply IH. exact Hr. }
  pose proof (Z.div_mod j L ltac:(lia)) as Ej.
  pose proof (Z.mod_pos_bound j L HL) as Hm.
  assert (Hq : 0 <= j / L) by (apply Z.div_pos; lia).
  specialize (H (Z.to_nat (j / L)) (j mod L) (proj1 Hm)).
  rewrite Z2Nat.id in H by exact Hq.
  replace (j mod L + j / L * L) with j in H by lia. exact H.
Qed.

(** An iteration past the last digit of the dividend whose remainder
    has not been seen: the remainder is remembered, a zero is taken in
    and one more decimal is emitted; the loop goes on unless the count
    of decimals has reached [maxDecimalPlaces]. *)
Lemma divmod_step_decimal (env : loop_env) (st : loop_state) (e : Z) :
  len (aBuf env) <= ls_i st -> bytes_eqb (divPart st) [ch "0"] = false ->
  remIndxMap st !! divPart st = None ->
  (decimalsGoal env >? 0) && (decimals st =? decimalsGoal env) = false ->
  let dp := divPart st ++ [ch "0"] in
  estimate env dp = Some e ->
  let d := if e >? 0 then fst (correct_digit env dp e) else e in
  exists rem shared,
    let st' := mkLoopState
                 (if decimals st + 1 >=? ro_max env then ls_i st else ls_i st + 1)
                 (if e >? 0 then Norm (snd (correct_digit env dp e)) else dp)
                 true (<[divPart st := decimals st]> (remIndxMap st)) (repDecimalsInd st)
                 (decimals st + 1)
                 (mkAnalysis (divPart st) 1 0 (len (divPart st))) rem shared
                 ((if len (result st) =? 0 then result st ++ [0] else result st) ++ [d]) in
    divmod_step env st
    = if decimals st + 1 >=? ro_max env then Break st' else Continue st'.
Proof.
  destruct st as [i dp0 bDec map repInd dec lastRem0 rem0 shared0 res].
  cbn [bDecimals ls_i decimals divPart remIndxMap repDecimalsInd result lastRemainder
       remainder remShared].
  intros Hi E0 Hmap Hgoal. unfold divmod_step.
  replace (i >=? len (aBuf env)) with true by lia.
  cbv beta iota zeta. rewrite E0, Hgoal. cbn [andb orb]. rewrite Hmap.
  cbv beta iota zeta. intros He; rewrite He; cbv beta iota zeta;
    destruct (e >? 0) eqn:Ee; cbv beta iota zeta;
    try (match goal with
         | |- context [correct_digit ?a ?b ?c] =>
             destruct (correct_digit a b c) as [d1 r1] eqn:Ec; cbn [fst snd];
             cbv beta iota zeta
         end);
    rewrite ?Ee, ?orb_true_r; cbv beta iota zeta; cbn [andb];
    destruct (dec + 1 >=? ro_max env); eexists _, _; reflexivity.
Qed.

(** An iteration past the last digit of the dividend whose remainder
    has been seen at the decimal [ind]: the loop ends and reports
    [ind]. *)
Lemma divmod_step_repeat (env : loop_env) (st : loop_state) (ind : Z) :
  len (aBuf env) <= ls_i st -> bytes_eqb (divPart st) [ch "0"] = false ->
  (decimalsGoal env >? 0) && (decimals st =? decimalsGoal env) = false ->
  remIndxMap st !! divPart st = Some ind ->
  divmod_step env st
  = Break (mkLoopState (ls_i st) (divPart st) true (remIndxMap st) ind
             (decimals st) (lastRemainder st) (remainder st) (remShared st) (result st)).
Proof.
  destruct st as [i dp0 bDec map repInd dec lastRem0 rem0 shared0 res].
  cbn [bDecimals ls_i decimals divPart remIndxMap repDecimalsInd result lastRemainder
       remainder remShared].
  intros Hi E0 Hgoal Hmap. unfold divmod_step.
  replace (i >=? len (aBuf env)) with true by lia.
  cbv beta iota zeta. rewrite E0, Hgoal. cbn [andb orb]. rewrite Hmap. reflexivity.
Qed.

Lemma quotient_digit_value (env : loop_env) (dp : list Z) (e q : Z) :
  (0 < e -> fst (correct_digit env dp e) = q
            /\ natural (snd (correct_digit env dp e))
            /\ digits_value (Norm (snd (correct_digit env dp e)))
               = digits_value dp - q * divisor env) ->
  (e <= 0 -> e = 0 /\ q = 0) ->
  forallb is_digit dp = true -> canonical dp = true -> dp <> [] ->
  (if e >? 0 then fst (correct_digit env dp e) else e) = q
  /\ let dpn := if e >? 0 then Norm (snd (correct_digit env dp e)) else dp in
     forallb is_digit dpn = true /\ canonical dpn = true /\ dpn <> []
     /\ digits_value dpn = digits_value dp - q * divisor env.
Proof.
  intros Hpos Hzero Hd Hc Hne. cbv zeta. destruct (e >? 0) eqn:Ee.
  - destruct (Hpos ltac:(clear - Ee; lia)) as (Hq & Hnat & Hvn).
    destruct (natural_digits _ Hnat) as [H1 H2].
    split; [exact Hq|]. repeat split; try assumption.
    destruct Hnat as [-> | Hp]; [discriminate|].
    apply positive_integer_fields in Hp as (_ & _ & _ & _ & c & rest & -> & _).
    discriminate.
  - destruct (Hzero ltac:(clear - Ee; lia)) as [He Hq0]. rewrite Hq0.
    split; [exact He|]. repeat split; try assumption. clear; lia.
Qed.

(** The iterations over the digits of the dividend. *)
Lemma divmod_loop_digits (env : loop_env) :
  division_env env -> decimalsGoal env <> 0 -> 0 < ro_max env ->
  forall (m : nat) (st : loop_state) (fuel : nat),
    integer_phase env st ->
    Z.of_nat m = Z.max 0 (len (aBuf env) - ls_i st) ->
    exists st', integer_phase env st' /\ len (aBuf env) <= ls_i st'
                /\ divmod_loop (m + fuel) env st = divmod_loop fuel env st'.
Proof.
  intros Henv Hgoal Hmax.
  assert (Hcond : forall dec, dec = 0 ->
            (decimalsGoal env >? 0) && (dec =? decimalsGoal env) = false).
  { intros dec ->. apply andb_false_iff. right. apply Z.eqb_neq. clear - Hgoal. lia. }
  induction m as [|m IH]; intros st fuel Hph Hm.
  - exists st. split; [exact Hph|]. split; [clear - Hm; lia|reflexivity].
  - destruct Hph as (Hinv & HbD & Hdec & Hmap & Hrep & Hval & Hcan & Hne).
    pose proof Hinv as (Hi0 & Hd & Hc & Hv & Hsm).
    assert (Hi : ls_i st < len (aBuf env)) by (clear - Hm; lia).
    destruct (quotient_digit_facts env st Henv Hinv)
      as (Hd' & Hc' & HVd & Hq & Hr & e & He & Hcase & Hpos & Hzero).
    pose proof (next_digit_is_digit env st (proj2 (proj2 (proj2 (proj2 Henv)))) Hi0) as Hdig.
    destruct (next_divPart_spec (divPart st) (next_digit env st) Hd Hc Hdig) as (_ & _ & HVn).
    assert (Edig : next_digit env st = idx (aBuf env) (ls_i st)).
    { unfold next_digit. replace (ls_i st >=? len (aBuf env)) with false by (clear - Hi; lia).
      reflexivity. }
    set (dp := next_divPart (divPart st) (next_digit env st)) in *.
    set (q := digits_value dp / divisor env) in *.
    assert (Hdpne : dp <> []).
    { unfold dp, next_divPart. destruct (bytes_eqb _ _); [discriminate|].
      destruct (divPart st); discriminate. }
    destruct (quotient_digit_value env dp e q Hpos Hzero Hd' Hc' Hdpne)
      as (Hd1 & Hdn & Hcn & Hnn & Hvn).
    destruct (divmod_step_integer env st e HbD Hi (Hcond _ Hdec)
                ltac:(rewrite Hdec; clear - Hmax; lia) He) as (lr1 & rem1 & sh1 & Hstep).
    fold dp in Hstep. rewrite Hd1 in Hstep.
    change (S m + fuel)%nat with (S (m + fuel)). cbn [divmod_loop]. rewrite Hstep.
    apply IH; [|cbn [ls_i]; clear - Hm; lia].
    unfold integer_phase, division_invariant.
    cbn [ls_i divPart bDecimals decimals remIndxMap repDecimalsInd result].
    assert (Hpre : digits_value (slice_to (aBuf env) (ls_i st + 1))
                   = 10 * digits_value (slice_to (aBuf env) (ls_i st))
                     + (next_digit env st - 48)).
    { rewrite slice_to_succ by (clear - Hi Hi0; lia). rewrite digits_value_snoc, Edig.
      reflexivity. }
    assert (Hres : let r' := if (q >? 0) || (len (result st) >? 0)
                             then result st ++ [q] else result st in
                   small r' /\ be r' = 10 * be (result st) + q
                   /\ match r' with d :: _ => d <> 0 | [] => True end).
    { cbv zeta. destruct ((q >? 0) || (len (result st) >? 0)) eqn:Eq.
      - split; [apply small_app; split; [exact Hsm|repeat constructor; clear - Hq; lia]|].
        split; [apply be_snoc|].
        destruct (result st) as [|d rest] eqn:Er; [|exact Hcan].
        cbn [app]. change (len (@nil Z) >? 0) with false in Eq.
        rewrite orb_false_r in Eq. clear - Eq. lia.
      - apply orb_false_iff in Eq as [Eq1 Eq2].
        assert (result st = []) as ->.
        { destruct (result st) as [|d rest]; [reflexivity|]. rewrite len_cons in Eq2.
          pose proof (len_nonneg rest). clear - Eq2 H. lia. }
        split; [constructor|]. split; [|exact I].
        change (be []) with 0. clear - Eq1 Hq. lia. }
    cbv zeta in Hres. destruct Hres as (Hsm' & Hbe' & Hcan').
    split; [|split; [reflexivity|split; [exact Hdec|split; [exact Hmap|split; [exact Hrep|]]]]].
    + split; [clear - Hi0; lia|]. split; [exact Hdn|]. split; [exact Hcn|].
      split; [rewrite Hvn; exact Hr|exact Hsm'].
    + split; [|split; [exact Hcan'|left; exact Hnn]].
      rewrite Hbe', Hvn, Hpre, <- Hval, HVn. ring.
Qed.

(** Past the last digit of the dividend the integer part is complete. *)
Lemma decimal_phase_start (env : loop_env) (st : loop_state) :
  0 < ro_max env ->
  integer_phase env st -> len (aBuf env) <= ls_i st -> decimal_phase env st.
Proof.
  intros Hmax (Hinv & HbD & Hdec & Hmap & Hrep & Hval & Hcan & Hne) Hi.
  pose proof Hinv as (Hi0 & Hd & Hc & Hv & Hsm).
  assert (Hpre : slice_to (aBuf env) (ls_i st) = aBuf env).
  { unfold slice_to. apply firstn_all2. unfold len in Hi. clear - Hi Hi0. lia. }
  rewrite Hpre in Hval.
  destruct (div_mod_unique _ _ _ _ Hv Hval) as [HQ HV].
  unfold decimal_phase. rewrite Hdec, Hmap.
  split; [exact Hinv|]. split; [exact Hi|]. split; [clear - Hmax; lia|].
  split; [clear; lia|]. split; [exact Hrep|].
  split; [destruct Hne as [H | H]; [exact H|clear - H Hi; lia]|].
  split; [unfold remainder_at; rewrite Z.pow_0_r, Z.mul_1_r; exact HV|].
  split; [apply map_Forall_empty|].
  left. split; [reflexivity|]. split; [exact HQ|exact Hcan].
Qed.

(** The iterations past the last digit of the dividend. *)
Lemma divmod_loop_decimals (env : loop_env) :
  division_env env -> 0 < digits_value (aBuf env) ->
  forall (n : nat) (st : loop_state) (fuel : nat),
    decimal_phase env st ->
    Z.of_nat n = ro_max env - decimals st -> (n <= fuel)%nat ->
    exists st', divmod_loop fuel env st = Exited st' /\ division_done env st'.
Proof.
  intros Henv HA.
  induction n as [|n IH]; intros st fuel Hph Hn Hfuel.
  { destruct Hph as (_ & _ & Ht & _). clear - Hn Ht. lia. }
  destruct Hph as (Hinv & Hi & Ht & Hgl & Hrep & Hne & HR & Hmap & Hres).
  pose proof Hinv as (Hi0 & Hd & Hc & Hv & Hsm).
  set (X := digits_value (aBuf env)) in *. set (Y := divisor env) in *.
  assert (HY : 0 < Y) by (clear - Hv; lia).
  destruct fuel as [|fuel]; [clear - Hfuel; lia|]. cbn [divmod_loop].
  assert (Hshape0 : decimals st = 0 -> remainder_at X Y 0 = 0 ->
            exists rq, quotient_digits rq (X / Y)
                       /\ result st = rq ++ decimal_digits X Y (Z.to_nat (decimals st))).
  { intros E0 HR0. destruct Hres as [(_ & Hbe & Hcan) | (Hpos & _)]; [|clear - E0 Hpos; lia].
    exists (result st). rewrite E0. change (decimal_digits X Y (Z.to_nat 0)) with (@nil Z).
    rewrite app_nil_r. split; [|reflexivity]. split; [exact Hsm|]. split; [exact Hbe|].
    destruct (result st) as [|d rest]; [|left; exact Hcan].
    change (be []) with 0 in Hbe. unfold remainder_at in HR0.
    rewrite Z.pow_0_r, Z.mul_1_r in HR0.
    pose proof (Z.div_mod X Y ltac:(clear - HY; lia)) as E. rewrite <- Hbe, HR0 in E.
    clear - E HA. unfold X in *. lia. }
  assert (Hshape : 0 < decimals st ->
            exists rq, quotient_digits rq (X / Y)
                       /\ result st = rq ++ decimal_digits X Y (Z.to_nat (decimals st))).
  { intros Hpos. destruct Hres as [(E0 & _) | (_ & H)]; [clear - E0 Hpos; lia|exact H]. }
  destruct (bytes_eqb (divPart st) [ch "0"]) eqn:E0.
  { (* the division has come out even *)
    rewrite (divmod_step_exact env st Hi E0). eexists. split; [reflexivity|].
    unfold division_done. cbn [repDecimalsInd decimals result]. fold X Y.
    apply bytes_eqb_true in E0. rewrite E0 in HR. change (digits_value [ch "0"]) with 0 in HR.
    split; [clear - Ht; lia|]. split; [exact Hgl|]. split.
    - destruct (Z.eq_dec (decimals st) 0) as [Ez | Ez].
      + apply (Hshape0 Ez). rewrite Ez in HR. symmetry. exact HR.
      + apply Hshape. clear - Ez Ht. lia.
    - left. split; [exact Hrep|]. left. symmetry. exact HR. }
  destruct ((decimalsGoal env >? 0) && (decimals st =? decimalsGoal env)) eqn:Eg.
  { (* the goal is reached *)
    apply andb_true_iff in Eg as [Eg1 Eg2].
    assert (Hg1 : 0 < decimalsGoal env) by (clear - Eg1; lia).
    assert (Hg2 : decimals st = decimalsGoal env) by (clear - Eg2; lia).
    rewrite (divmod_step_goal env st Hi Hg1 Hg2). eexists. split; [reflexivity|].
    unfold division_done. cbn [repDecimalsInd decimals result]. fold X Y.
    split; [clear - Ht; lia|]. split; [exact Hgl|]. split.
    - apply Hshape. clear - Hg1 Hg2. lia.
    - left. split; [exact Hrep|]. right. left. exact Hg2. }
  destruct (remIndxMap st !! divPart st) as [ind|] eqn:Em.
  { (* the remainder has been met before *)
    rewrite (divmod_step_repeat env st ind Hi E0 Eg Em). eexists. split; [reflexivity|].
    unfold division_done. cbn [repDecimalsInd decimals result]. fold X Y.
    destruct (Hmap _ _ Em) as [Hind HRi]. cbv beta in Hind, HRi.
    split; [clear - Ht; lia|]. split; [exact Hgl|]. split.
    - apply Hshape. clear - Hind. lia.
    - right. split; [exact Hind|]. split.
      + intros Hg. specialize (Hgl Hg). apply andb_false_iff in Eg.
        clear - Hgl Eg Hg. destruct Eg as [Eg | Eg]; lia.
      + rewrite <- HRi. exact HR. }
  (* one more decimal *)
  destruct (quotient_digit_facts env st Henv Hinv)
    as (Hd' & Hc' & HVd & Hq & Hr & e & He & Hcase & Hpos & Hzero).
  assert (Edp : next_divPart (divPart st) (next_digit env st) = divPart st ++ [ch "0"]).
  { unfold next_digit, next_divPart. rewrite E0.
    replace (ls_i st >=? len (aBuf env)) with true by (clear - Hi; lia). reflexivity. }
  rewrite Edp in Hd', Hc', HVd, Hq, Hr, He, Hcase, Hpos, Hzero.
  set (dp := divPart st ++ [ch "0"]) in *.
  set (q := digits_value dp / divisor env) in *.
  assert (Hdpne : dp <> []) by (unfold dp; destruct (divPart st); discriminate).
  destruct (quotient_digit_value env dp e q Hpos Hzero Hd' Hc' Hdpne)
    as (Hd1 & Hdn & Hcn & Hnn & Hvn).
  destruct (divmod_step_decimal env st e Hi E0 Em Eg He) as (rem1 & sh1 & Hstep).
  cbv zeta in Hstep. fold dp in Hstep. rewrite Hd1 in Hstep. rewrite Hstep. clear Hstep.
  assert (Hdpv : digits_value dp = 10 * remainder_at X Y (decimals st)).
  { unfold dp. rewrite digits_value_snoc, HR. change (ch "0" - 48) with 0. ring. }
  destruct (decimal_digit_step X Y (decimals st) HY (proj1 Ht)) as (Edig & _ & _).
  destruct (expansion_step X Y (decimals st) HY (proj1 Ht)) as (_ & Erem).
  assert (Hq' : q = decimal_digit X Y (decimals st + 1)).
  { rewrite Edig. unfold q. rewrite Hdpv. reflexivity. }
  assert (Hrem' : digits_value dp - q * divisor env = remainder_at X Y (decimals st + 1)).
  { rewrite Erem. unfold q. fold Y. rewrite Hdpv.
    pose proof (Z.div_mod (10 * remainder_at X Y (decimals st)) Y ltac:(clear - HY; lia)) as E.
    clear - E. lia. }
  assert (Hres' : exists rq, quotient_digits rq (X / Y)
            /\ (if len (result st) =? 0 then result st ++ [0] else result st) ++ [q]
               = rq ++ decimal_digits X Y (Z.to_nat (decimals st + 1))).
  { replace (Z.to_nat (decimals st + 1)) with (S (Z.to_nat (decimals st)))
      by (clear - Ht; lia).
    rewrite decimal_digits_S, Z2Nat.id, <- Hq' by exact (proj1 Ht).
    destruct Hres as [(Ez & Hbe & Hcan) | (Hpos' & rq & Hrq & Eres)].
    - rewrite Ez. change (decimal_digits X Y (Z.to_nat 0)) with (@nil Z). cbn [app].
      destruct (result st) as [|d rest] eqn:Er.
      + exists [0]. split; [|reflexivity].
        split; [repeat constructor; clear; lia|]. split; [exact Hbe|]. right. reflexivity.
      + exists (d :: rest).
        replace (len (d :: rest) =? 0) with false
          by (rewrite len_cons; pose proof (len_nonneg rest) as Hl; clear - Hl; lia).
        split; [|reflexivity]. split; [exact Hsm|]. split; [exact Hbe|]. left. exact Hcan.
    - exists rq. split; [exact Hrq|]. rewrite Eres.
      replace (len (rq ++ decimal_digits X Y (Z.to_nat (decimals st))) =? 0) with false.
      + rewrite app_assoc. reflexivity.
      + destruct Hrq as (_ & _ & Hh). destruct rq; [contradiction|].
        cbn [app]. rewrite len_cons.
        pose proof (len_nonneg (rq ++ decimal_digits X Y (Z.to_nat (decimals st)))) as Hl.
        clear - Hl. lia. }
  destruct (decimals st + 1 >=? ro_max env) eqn:Emax.
  - (* the count of decimals has reached its bound *)
    eexists. split; [reflexivity|].
    unfold division_done. cbn [repDecimalsInd decimals result]. fold X Y.
    split; [clear - Ht; lia|]. split.
    + intros Hg. specialize (Hgl Hg). apply andb_false_iff in Eg.
      clear - Hgl Eg Hg. destruct Eg as [Eg | Eg]; lia.
    + split; [exact Hres'|]. left. split; [exact Hrep|]. right. right. clear - Emax. lia.
  - apply IH; [|cbn [decimals]; clear - Hn; lia|clear - Hfuel; lia].
    unfold decimal_phase, division_invariant.
    cbn [ls_i divPart bDecimals decimals remIndxMap repDecimalsInd result]. fold X Y.
    split; [|split; [clear - Hi; lia|split; [clear - Ht Emax; lia|split; [|split;
      [exact Hrep|split; [exact Hnn|split; [rewrite Hvn; exact Hrem'|split]]]]]]].
    + split; [clear - Hi0; lia|]. split; [exact Hdn|]. split; [exact Hcn|].
      split; [rewrite Hvn; exact Hr|].
      destruct Hres' as (rq & (Hs1 & _) & ->). apply small_app. split; [exact Hs1|].
      apply decimal_digits_small. exact HY.
    + intros Hg. specialize (Hgl Hg). apply andb_false_iff in Eg.
      clear - Hgl Eg Hg. destruct Eg as [Eg | Eg]; lia.
    + apply map_Forall_insert_2.
      * split; [clear - Ht; lia|exact HR].
      * eapply map_Forall_impl; [exact Hmap|]. cbv beta. intros k j [Hj1 Hj2].
        split; [clear - Hj1; lia|exact Hj2].
    + right. split; [clear - Ht; lia|exact Hres'].
Qed.

Lemma concat_repeat_length {A : Type} (B : list A) (k : nat) :
  length (concat (repeat B k)) = (k * length B)%nat.
Proof.
  induction k as [|k IH]; [reflexivity|].
  cbn [repeat concat]. rewrite length_app, IH. reflexivity.
Qed.

Lemma cycle_nth {A : Type} (B : list A) (d : A) (k j : nat) :
  (j < k * length B)%nat ->
  nth j (concat (repeat B k)) d = nth (j mod length B) B d.
Proof.
  revert j. induction k as [|k IH]; intros j Hj; [cbn in Hj; lia|].
  cbn [repeat concat]. destruct (Nat.lt_ge_cases j (length B)) as [Hlt | Hge].
  - rewrite app_nth1 by exact Hlt. rewrite Nat.mod_small by exact Hlt. reflexivity.
  - rewrite app_nth2 by exact Hge. rewrite IH by (cbn in Hj; lia).
    f_equal. replace j with (j - length B + 1 * length B)%nat at 2 by lia.
    symmetry. apply Nat.Div0.mod_add.
Qed.

Lemma decimal_digits_app (X Y : Z) (t m : nat) :
  decimal_digits X Y (t + m)
  = decimal_digits X Y t
    ++ map (fun j => decimal_digit X Y (Z.of_nat t + Z.of_nat j + 1)) (seq 0 m).
Proof.
  induction m as [|m IH]; [rewrite Nat.add_0_r, app_nil_r; reflexivity|].
  rewrite Nat.add_succ_r, decimal_digits_S, IH, seq_S, map_app, <- app_assoc.
  cbn [map app Nat.add]. do 3 f_equal. unfold decimal_digit, quotient_at. do 4 f_equal. lia.
Qed.

Lemma add_bytes_app (l1 l2 : list Z) (v : Z) :
  add_bytes (l1 ++ l2) v = add_bytes l1 v ++ add_bytes l2 v.
Proof. unfold add_bytes. apply map_app. Qed.

(** Filling the decimals up to the goal with copies of [B], when [B]
    holds the decimals to come. *)
Lemma padding_spec (X Y : Z) (rq B : list Z) (t g : Z) :
  0 < Y -> 0 <= t < g -> B <> [] ->
  (forall j : nat, nth (j mod length B) B 0 = decimal_digit X Y (t + Z.of_nat j + 1) + 48) ->
  exists trail,
    bytes_Repeat B (Z.quot (g - t) (len B) + 1) = Some trail
    /\ add_bytes (rq ++ decimal_digits X Y (Z.to_nat t)) 48 ++ slice_to trail (g - t)
       = add_bytes (rq ++ decimal_digits X Y (Z.to_nat g)) 48.
Proof.
  intros HY Ht HB Hnth.
  assert (HL : 0 < len B).
  { destruct B; [contradiction|]. rewrite len_cons. pose proof (len_nonneg B). lia. }
  assert (Hq : 0 <= Z.quot (g - t) (len B)) by (apply Z.quot_pos; lia).
  unfold bytes_Repeat. replace (Z.quot (g - t) (len B) + 1 <? 0) with false by lia.
  eexists. split; [reflexivity|].
  set (k := Z.to_nat (Z.quot (g - t) (len B) + 1)).
  set (m := Z.to_nat (g - t)).
  assert (Hm : (m < k * length B)%nat).
  { assert (g - t < (Z.quot (g - t) (len B) + 1) * len B).
    { rewrite Z.quot_div_nonneg by lia.
      pose proof (Z.div_mod (g - t) (len B) ltac:(lia)) as E.
      pose proof (Z.mod_pos_bound (g - t) (len B) HL). nia. }
    unfold k, m, len in *. nia. }
  replace (Z.to_nat g) with (Z.to_nat t + m)%nat by (unfold m; lia).
  rewrite decimal_digits_app, app_assoc.
  rewrite (add_bytes_app (rq ++ decimal_digits X Y (Z.to_nat t))). f_equal.
  unfold slice_to. fold m. rewrite Z2Nat.id by lia.
  apply (nth_ext _ _ 0 0).
  - rewrite length_firstn, concat_repeat_length. unfold add_bytes.
    rewrite !length_map, length_seq. lia.
  - intros j Hj. rewrite length_firstn, concat_repeat_length in Hj.
    assert (Hjm : (j < m)%nat) by lia.
    rewrite nth_firstn. replace (j <? m)%nat with true by (symmetry; apply Nat.ltb_lt; exact Hjm).
    rewrite cycle_nth by lia. rewrite Hnth.
    unfold add_bytes. rewrite map_map.
    rewrite (nth_indep _ 0 ((fun j => to_byte (decimal_digit X Y (t + Z.of_nat j + 1) + 48)) 0%nat))
      by (rewrite length_map, length_seq; exact Hjm).
    rewrite (map_nth (fun j => to_byte (decimal_digit X Y (t + Z.of_nat j + 1) + 48))).
    rewrite seq_nth by exact Hjm. cbn [Nat.add].
    destruct (decimal_digit_step X Y (t + Z.of_nat j) HY ltac:(lia)) as (_ & Hd & _).
    rewrite to_byte_small by lia. reflexivity.
Qed.

Lemma round_quotient (N Y : Z) :
  0 <= N -> 0 < Y -> (2 * (N * 10 / Y) + 10) / 20 = (2 * N + Y) / (2 * Y).
Proof.
  intros HN HY.
  pose proof (Z.div_mod (N * 10) Y ltac:(lia)) as E1.
  pose proof (Z.mod_pos_bound (N * 10) Y HY) as B1.
  pose proof (Z.div_mod (2 * N + Y) (2 * Y) ltac:(lia)) as E2.
  pose proof (Z.mod_pos_bound (2 * N + Y) (2 * Y) ltac:(lia)) as B2.
  set (Q := N * 10 / Y) in *. set (R := (N * 10) mod Y) in *.
  set (q := (2 * N + Y) / (2 * Y)) in *. set (r := (2 * N + Y) mod (2 * Y)) in *.
  clearbody Q R q r.
  assert (H1 : 10 * q - 5 <= Q) by nia.
  assert (H2 : Q < 10 * q + 5) by nia.
  symmetry. apply (Z.div_unique_pos _ _ _ (2 * Q + 10 - 20 * q)); lia.
Qed.

Lemma Sign_own (f : BigFloat) :
  wellformed f = true -> SetDecimals f (Decimals f) = f.
Proof.
  intros Hw. pose proof (wellformed_elim _ Hw) as (_ & _ & _ & Hs & Hz & _).
  unfold SetDecimals, SetDecimals_body. rewrite Z.eqb_refl. fold bigfloat.Sign.
  destruct (Sign_wellformed f _ (wellformed_with_Sign_1 f Hw) Hs) as [E _]. rewrite E.
  destruct (all_zero (Norm f)) eqn:Ez.
  - rewrite <- (Hz eq_refl). apply with_Sign_same.
  - apply with_Sign_same.
Qed.

(** The value [divmod] builds from the digits of the loop, carried to
    [g] decimals. *)
Lemma quotient_value (X Y : Z) (rq : list Z) (s g : Z) :
  0 < Y -> 0 <= g -> quotient_digits rq (X / Y) ->
  let N := add_bytes (rq ++ decimal_digits X Y (Z.to_nat g)) 48 in
  let f := mkAnalysis N s g (len N) in
  wellformed (with_Sign f 1) = true
  /\ digits_value N = quotient_at X Y g
  /\ len N = len rq + g.
Proof.
  intros HY Hg Hrq. cbv zeta.
  destruct (quotient_digits_ascii rq _ Hrq) as (Hd & Hc & Hv & Hl & _ & _).
  destruct Hrq as (Hs & Hbe & _).
  set (dd := decimal_digits X Y (Z.to_nat g)).
  assert (Hsm : small (rq ++ dd)).
  { apply small_app. split; [exact Hs|]. apply decimal_digits_small. exact HY. }
  assert (Hlen : len (add_bytes (rq ++ dd) 48) = len rq + g).
  { rewrite len_add_bytes, len_app. unfold dd, len at 2. rewrite decimal_digits_length. lia. }
  split; [|split; [|exact Hlen]].
  - apply wellformed_intro; cbn [with_Sign Norm Len Decimals stranalyzer.Sign].
    + apply is_digit_add_bytes. exact Hsm.
    + reflexivity.
    + rewrite Hlen. lia.
    + left. reflexivity.
    + reflexivity.
    + rewrite Hlen, add_bytes_app. replace (len rq + g - g) with (len (add_bytes rq 48))
        by (rewrite len_add_bytes; ring).
      rewrite slice_to_app_l by apply Z.le_refl. rewrite slice_to_all. exact Hc.
  - rewrite digits_value_raw, raw_add_bytes by exact Hsm.
    unfold dd. rewrite (be_decimal_digits X Y rq _ HY Hbe), Z2Nat.id by exact Hg. reflexivity.
Qed.

(** What the loop hands to the part of [divmod] after it, once the
    digits are padded to the goal [g]. *)
Lemma division_done_padded (env : loop_env) (st : loop_state) (g : Z) :
  division_done env st -> 0 < divisor env -> decimalsGoal env = g -> 0 < g <= ro_max env ->
  let X := digits_value (aBuf env) in
  let Y := divisor env in
  let res := add_bytes (result st) 48 in
  let repeatDecimals :=
    if repDecimalsInd st >=? 0 then decimals st - repDecimalsInd st else 0 in
  exists rq,
    quotient_digits rq (X / Y)
    /\ (if (g >=? 0) && (g >? decimals st) then
          let '(repeatStr, repeatDecimals) :=
            if repeatDecimals >? 0
            then (slice_from res (len res - repeatDecimals), 0)
            else ([ch "0"], repeatDecimals) in
          match bytes_Repeat repeatStr (Z.quot (g - decimals st) (len repeatStr) + 1) with
          | None => None
          | Some trailStr =>
              Some (res ++ slice_to trailStr (g - decimals st), g, repeatDecimals)
          end
        else Some (res, decimals st, repeatDecimals))
       = Some (add_bytes (rq ++ decimal_digits X Y (Z.to_nat g)) 48, g, 0).
Proof.
  intros (Ht & Hgl & (rq & Hrq & Hres) & Hcase) HY Hgoal Hg. cbv zeta.
  set (X := digits_value (aBuf env)) in *. set (Y := divisor env) in *.
  rewrite Hgoal in Hgl, Hcase. specialize (Hgl (proj1 Hg)).
  exists rq. split; [exact Hrq|]. rewrite Hres.
  replace (g >=? 0) with true by (clear - Hg; lia). cbn [andb].
  destruct (g >? decimals st) eqn:Egt.
  - assert (Htg : 0 <= decimals st < g) by (clear - Ht Egt; lia).
    destruct Hcase as [(Hrep & Hc) | (Hind & _ & HR)].
    + assert (HR0 : remainder_at X Y (decimals st) = 0)
        by (clear - Hc Htg Hg; destruct Hc as [H | [H | H]]; [exact H|lia|lia]).
      rewrite Hrep. change (-1 >=? 0) with false. cbv iota.
      change (0 >? 0) with false. cbv iota.
      destruct (padding_spec X Y rq [ch "0"] (decimals st) g HY Htg ltac:(discriminate))
        as (trail & -> & E).
      { intros j. cbn [length]. rewrite Nat.mod_1_r. cbn [nth].
        destruct (expansion_exact X Y (decimals st) HY (proj1 Ht) HR0 (Z.of_nat j) ltac:(lia)) as [_ ->].
        reflexivity. }
      rewrite E. reflexivity.
    + replace (repDecimalsInd st >=? 0) with true by (clear - Hind; lia). cbv iota.
      set (ind := repDecimalsInd st) in *. set (t := decimals st) in *.
      replace (t - ind >? 0) with true by (clear - Hind; lia). cbv iota.
      set (dd := decimal_digits X Y (Z.to_nat t)).
      assert (Hlen : len (add_bytes (rq ++ dd) 48) = len rq + t).
      { rewrite len_add_bytes, len_app. unfold dd, len at 2. rewrite decimal_digits_length.
        clear - Ht. lia. }
      assert (HB : slice_from (add_bytes (rq ++ dd) 48) (len (add_bytes (rq ++ dd) 48) - (t - ind))
                   = add_bytes (skipn (Z.to_nat ind) dd) 48).
      { rewrite Hlen. unfold slice_from, add_bytes. rewrite skipn_map. f_equal.
        replace (Z.to_nat (len rq + t - (t - ind))) with (length rq + Z.to_nat ind)%nat
          by (unfold len; clear - Hind; lia).
        rewrite skipn_app, skipn_all2 by lia.
        replace (length rq + Z.to_nat ind - length rq)%nat with (Z.to_nat ind) by lia.
        reflexivity. }
      rewrite HB.
      set (B := add_bytes (skipn (Z.to_nat ind) dd) 48).
      assert (HBl : length B = Z.to_nat (t - ind)).
      { unfold B, add_bytes. rewrite length_map, length_skipn. unfold dd.
        rewrite decimal_digits_length. clear - Hind. lia. }
      destruct (padding_spec X Y rq B t g HY Htg) as (trail & -> & E).
      { intros HB0. rewrite HB0 in HBl. cbn [length] in HBl. clear - HBl Hind. lia. }
      { intros j. rewrite HBl.
        assert (Hr : (j mod Z.to_nat (t - ind) < Z.to_nat (t - ind))%nat)
          by (apply Nat.mod_upper_bound; clear - Hind; lia).
        set (r := (j mod Z.to_nat (t - ind))%nat) in *.
        unfold B, add_bytes.
        rewrite (nth_indep _ 0 ((fun x => to_byte (x + 48)) 0))
          by (rewrite length_map, length_skipn; unfold dd; rewrite decimal_digits_length; lia).
        rewrite (map_nth (fun x => to_byte (x + 48))), nth_skipn.
        unfold dd. rewrite decimal_digits_nth by lia.
        assert (Hrz : Z.of_nat r = Z.of_nat j mod (t - ind)).
        { unfold r. rewrite Nat2Z.inj_mod, Z2Nat.id by (clear - Hind; lia). reflexivity. }
        replace (Z.of_nat (Z.to_nat ind + r) + 1) with (ind + Z.of_nat r + 1)
          by (clear - Hind; lia).
        destruct (decimal_digit_step X Y (ind + Z.of_nat r) HY ltac:(lia)) as (_ & Hd & _).
        rewrite to_byte_small by (clear - Hd; lia). f_equal.
        rewrite Hrz.
        assert (HRc : remainder_at X Y ind = remainder_at X Y (ind + (t - ind)))
          by (replace (ind + (t - ind)) with t by ring; exact HR).
        rewrite <- (expansion_cycle X Y ind (t - ind) HY (proj1 Hind) ltac:(clear - Hind; lia)
                      HRc (Z.of_nat j) ltac:(lia)).
        apply (expansion_periodic X Y ind t HY (proj1 Hind) (proj1 Ht) HR (Z.of_nat j)). lia. }
      fold dd in E. rewrite E. reflexivity.
  - assert (Etg : decimals st = g) by (clear - Egt Hgl; lia).
    destruct Hcase as [(Hrep & _) | (_ & Hlt & _)].
    + rewrite Hrep, Etg. reflexivity.
    + specialize (Hlt (proj1 Hg)). clear - Hlt Etg. lia.
Qed.

(** The loop of [divmod] on the shifted operands ends in a state of
    [division_done]. *)
Lemma divmod_loop_spec (x y remainder : BigFloat) (ro : divOptionsType) :
  positive_integer x = true -> positive_integer y = true -> IsInt64 y 1 = false ->
  0 < maxDecimalPlaces ro ->
  let env := divmod_env x y ro in
  let st0 := divmod_init x y remainder in
  exists st', divmod_loop (loop_bound env st0) env st0 = Exited st' /\ division_done env st'.
Proof.
  intros Hx Hy Ey1 Hmax env st0.
  pose proof (divmod_env_division x y ro Hx Hy Ey1) as Henv.
  pose proof (divmod_init_integer_phase x y remainder ro Hx Hy Ey1) as Hph.
  fold env st0 in Henv, Hph.
  assert (Hgoal : decimalsGoal env <> 0).
  { unfold env, divmod_env. cbn [decimalsGoal]. clear.
    destruct (decimalPlaces ro >=? 0) eqn:E; lia. }
  assert (Hmax' : 0 < ro_max env) by exact Hmax.
  assert (HA : 0 < digits_value (aBuf env)).
  { change (aBuf env) with (Norm x).
    apply positive_integer_fields in Hx as (_ & _ & _ & Hdg & c & rest & HN & Hc).
    rewrite HN in *. pose proof (digits_value_lower c rest Hdg Hc) as Hlow.
    pose proof (pow10_pos (len rest) (len_nonneg rest)) as Hp. clear - Hlow Hp. lia. }
  set (m := Z.to_nat (Z.max 0 (len (aBuf env) - ls_i st0))).
  set (n := Z.to_nat (ro_max env)).
  assert (Hfuel : loop_bound env st0 = (m + S n)%nat).
  { unfold loop_bound. change (decimals st0) with 0. unfold m, n.
    generalize (len (aBuf env) - ls_i st0). clear - Hmax'. intros z. lia. }
  rewrite Hfuel.
  destruct (divmod_loop_digits env Henv Hgoal Hmax' m st0 (S n) Hph)
    as (st1 & Hph1 & Hi1 & ->).
  { unfold m. generalize (len (aBuf env) - ls_i st0). clear. intros z. lia. }
  pose proof Hph1 as (_ & _ & Hdec1 & _).
  apply (divmod_loop_decimals env Henv HA n st1 (S n)).
  - apply decimal_phase_start; assumption.
  - rewrite Hdec1. unfold n. clear - Hmax'. lia.
  - clear. lia.
Qed.

(** The part of [divmod] after the loop, for [Div] with a count [p]
    of decimal places. *)
Lemma divmod_finish_places (a b : BigFloat) (env : loop_env) (st : loop_state) (p : Z) :
  division_done env st -> 0 < divisor env -> 0 <= digits_value (aBuf env) ->
  0 <= p -> decimalsGoal env = p + 1 -> p + 1 <= ro_max env ->
  stranalyzer.Sign a * stranalyzer.Sign b = 1 \/ stranalyzer.Sign a * stranalyzer.Sign b = -1 ->
  let X := digits_value (aBuf env) in
  let Y := divisor env in
  exists q r,
    divmod_finish a b false (mkDivOptions p (ro_max env)) (p + 1) st = DivOk q r 0
    /\ wellformed q = true /\ Decimals q = p
    /\ scaled q p
       = stranalyzer.Sign a * stranalyzer.Sign b * ((2 * (X * 10 ^ p) + Y) / (2 * Y)).
Proof.
  intros Hdone HY HX Hp Hgoal Hmax Hs X Y.
  destruct (division_done_padded env st (p + 1) Hdone HY Hgoal ltac:(clear - Hp Hmax; lia))
    as (rq & Hrq & Hpad).
  fold X Y in Hrq, Hpad.
  destruct st as [i dp0 bDec map repInd dec lastRem0 rem0 shared0 res].
  cbn [repDecimalsInd decimals result] in Hpad.
  unfold divmod_finish. cbv beta iota zeta in Hpad |- *. rewrite Hpad. cbv beta iota zeta.
  set (N := add_bytes (rq ++ decimal_digits X Y (Z.to_nat (p + 1))) 48) in *.
  set (s := stranalyzer.Sign a * stranalyzer.Sign b) in *.
  cbn [decimalPlaces Decimals].
  replace ((p >=? 0) && (p <? p + 1)) with true by (clear - Hp; lia). cbv iota.
  destruct (quotient_value X Y rq s (p + 1) HY ltac:(clear - Hp; lia) Hrq) as (Hwf & Hv & _).
  cbv zeta in Hwf. fold N in Hwf, Hv.
  set (f := mkAnalysis N s (p + 1) (len N)) in *.
  destruct (Round_spec f p Hwf Hs ltac:(cbn [f Decimals]; clear - Hp; lia))
    as (r & ER & Hwr & Hdr & Hvr).
  assert (Esd : SetDecimals r p = r).
  { clear - Hdr Hwr. rewrite <- Hdr. apply Sign_own. exact Hwr. }
  rewrite ER, Esd.
  exists r, (Div10 lastRem0 (Decimals a + Decimals b)).
  split; [reflexivity|]. split; [exact Hwr|]. split; [exact Hdr|].
  rewrite Hvr. cbn [f Norm stranalyzer.Sign Decimals]. rewrite Hv.
  replace (p + 1 - p) with 1 by ring. change (10 ^ 1) with 10. change (2 * 10) with 20.
  f_equal. unfold quotient_at.
  replace (X * 10 ^ (p + 1)) with (X * 10 ^ p * 10)
    by (rewrite Z.pow_add_r, Z.pow_1_r by (clear - Hp; lia); ring).
  apply round_quotient; [|exact HY].
  pose proof (pow10_pos p Hp) as Hpw. clear - HX Hpw. unfold X. nia.
Qed.

Lemma round_unit (N : Z) : (2 * N + 1) / (2 * 1) = N.
Proof. symmetry. apply (Z.div_unique_pos _ _ _ 1); lia. Qed.

(** [Div] with a count of decimal places, on well-formed operands, in
    terms of the magnitudes [X] and [Y] of the operands at [da + db]
    decimals. *)
Lemma Div_places_spec (f a b : BigFloat) (options : list DivOption) (p m : Z) :
  wellformed a = true -> wellformed b = true -> magnitude_zero b = false ->
  fold_left (fun ro option => option ro) options default_divOptions = mkDivOptions p m ->
  0 <= p < m ->
  let X := digits_value (Norm a) * 10 ^ Decimals b in
  let Y := digits_value (Norm b) * 10 ^ Decimals a in
  exists q r,
    Div f a b options = DivOk q r 0
    /\ wellformed q = true /\ Decimals q = p
    /\ scaled q p
       = stranalyzer.Sign a * stranalyzer.Sign b * ((2 * (X * 10 ^ p) + Y) / (2 * Y)).
Proof.
  intros Hwa Hwb Hzb Hopt Hp X Y.
  pose proof (wellformed_elim _ Hwa) as (Hda & Hla & Hdeca & Hsa & _ & _).
  pose proof (wellformed_elim _ Hwb) as (Hdb & Hlb & Hdecb & Hsb & _ & _).
  destruct (wellformed_invariants _ Hwa) as [Hia Hha].
  destruct (wellformed_invariants _ Hwb) as [Hib Hhb].
  assert (Hs : stranalyzer.Sign a * stranalyzer.Sign b = 1
               \/ stranalyzer.Sign a * stranalyzer.Sign b = -1)
    by (clear - Hsa Hsb; destruct Hsa as [-> | ->], Hsb as [-> | ->]; lia).
  pose proof (digits_value_pos _ Hdb Hzb) as HB.
  assert (HY : 0 < Y).
  { unfold Y. pose proof (pow10_pos (Decimals a) (proj1 Hdeca)) as Hpw. clear - HB Hpw. nia. }
  unfold Div, divmod. rewrite Hopt. cbv zeta.
  cbn [decimalPlaces]. replace (p >=? 0) with true by (clear - Hp; lia). cbv iota.
  rewrite (IsInt64_0_magnitude a Hia Hha), (IsInt64_0_magnitude b Hib Hhb), Hzb.
  destruct (magnitude_zero a) eqn:Hza.
  { rewrite SetInt64_0. change New with (SetInt64 empty 0).
    destruct (zero_result p (proj1 Hp)) as (Hw0 & Hd0 & Hv0).
    eexists _, _. split; [reflexivity|]. split; [exact Hw0|]. split; [exact Hd0|].
    rewrite Hv0.
    unfold magnitude_zero in Hza. apply digits_value_zero_iff in Hza; [|exact Hda].
    assert (HX : X = 0) by (unfold X; rewrite Hza; reflexivity).
    rewrite HX. rewrite Z.mul_0_l, Z.mul_0_r, Z.add_0_l.
    rewrite Z.div_small by (clear - HY; lia). ring. }
  pose proof (shifted_dividend a b Hia Hib Hza) as Hx.
  pose proof (shifted_divisor a b Hia Hib Hzb) as Hy.
  destruct (shifted_values a b Hwa Hwb) as [HvX HvY]. fold X in HvX. fold Y in HvY.
  destruct (shifted a b) as [x y]. cbn [fst snd] in Hx, Hy, HvX, HvY.
  pose proof (positive_integer_fields x Hx) as (Hsx & Hdx & Hlx & Hdgx & cx & rx & HNx & Hcx).
  assert (HXpos : 0 < X).
  { rewrite <- HvX, HNx. rewrite HNx in Hdgx.
    pose proof (digits_value_lower cx rx Hdgx Hcx) as Hlow.
    pose proof (pow10_pos (len rx) (len_nonneg rx)) as Hpw. clear - Hlow Hpw. lia. }
  destruct (IsInt64 y 1) eqn:Ey1.
  { apply positive_integer_fields in Hy as (_ & Hdy & _).
    destruct (IsInt64_unit y 1 (or_introl eq_refl) ltac:(rewrite Hdy; apply Z.le_refl) Ey1)
      as [_ Ev].
    rewrite Hdy, HvY in Ev. change (10 ^ 0) with 1 in Ev.
    assert (Hwx1 : wellformed (with_Sign x 1) = true).
    { apply wellformed_intro; cbn [with_Sign Norm Len Decimals stranalyzer.Sign].
      - exact Hdgx.
      - exact Hlx.
      - rewrite Hdx, Hlx, HNx, len_cons. pose proof (len_nonneg rx) as Hn. clear - Hn. lia.
      - left. reflexivity.
      - reflexivity.
      - rewrite Hdx, Z.sub_0_r, Hlx, slice_to_all, HNx.
        destruct rx; [reflexivity|]. apply negb_true_iff, Z.eqb_neq. exact Hcx. }
    destruct (Sign_wellformed x _ Hwx1 Hs) as [ES HwS].
    assert (Hnz : all_zero (Norm x) = false).
    { rewrite HNx. unfold all_zero. cbn [forallb]. change (ch "0") with 48.
      apply Z.eqb_neq in Hcx. rewrite Hcx. reflexivity. }
    rewrite Hnz in ES.
    set (g := bigfloat.Sign x (stranalyzer.Sign a * stranalyzer.Sign b)) in *.
    assert (Hg1 : wellformed (with_Sign g 1) = true) by (rewrite ES; exact Hwx1).
    assert (Hsg : stranalyzer.Sign g = 1 \/ stranalyzer.Sign g = -1) by (rewrite ES; exact Hs).
    destruct (SetDecimals_spec g p Hg1 Hsg (proj1 Hp)) as (E & Hw & _).
    exists (SetDecimals g p), empty. split; [reflexivity|]. split; [exact Hw|].
    split; [apply SetDecimals_Decimals|].
    assert (Hnorm : forall norm,
              norm = (if p >? Decimals g then Norm g ++ fill (p - Decimals g) (ch "0")
                      else slice_to (Norm g) (Len g - Decimals g + p)) ->
              digits_value norm = X * 10 ^ p).
    { intros norm ->. rewrite ES. cbn [with_Sign Norm Decimals Len]. rewrite Hdx, Z.sub_0_r.
      destruct (p >? 0) eqn:Ep.
      - rewrite digits_value_app, digits_value_fill, len_fill, HvX by (clear - Hp; lia). ring.
      - assert (p = 0) as -> by (clear - Ep Hp; lia).
        rewrite Hlx, Z.sub_0_r, Z.add_0_r, slice_to_all, HvX. change (10 ^ 0) with 1. ring. }
    rewrite E. cbv zeta.
    set (norm := if p >? Decimals g then Norm g ++ fill (p - Decimals g) (ch "0")
                 else slice_to (Norm g) (Len g - Decimals g + p)) in *.
    specialize (Hnorm norm eq_refl).
    unfold scaled. cbn [Norm stranalyzer.Sign Decimals]. rewrite Hnorm, Z.sub_diag.
    change (10 ^ 0) with 1. rewrite Ev, round_unit.
    assert (Hsgn : stranalyzer.Sign g = stranalyzer.Sign a * stranalyzer.Sign b)
      by (rewrite ES; reflexivity).
    rewrite Hsgn.
    destruct (all_zero norm) eqn:Ez; [|ring].
    exfalso. rewrite E in Hw. pose proof (wellformed_elim _ Hw) as (Hdn & _).
    cbn [Norm] in Hdn. fold norm in Hdn.
    apply (digits_value_zero_iff _ Hdn) in Ez. rewrite Hnorm in Ez.
    pose proof (pow10_pos p (proj1 Hp)) as Hpw. clear - Ez HXpos Hpw. nia. }
  set (ro := mkDivOptions p m).
  assert (Hm : 0 < maxDecimalPlaces ro) by (cbn [ro maxDecimalPlaces]; clear - Hp; lia).
  destruct (divmod_loop_spec x y empty ro Hx Hy Ey1 Hm) as (st' & Hloop & Hdone).
  cbv zeta in Hloop. rewrite Hloop.
  set (env := divmod_env x y ro) in *.
  assert (Hgoal : decimalsGoal env = p + 1).
  { unfold env, divmod_env, ro. cbn [decimalsGoal decimalPlaces].
    replace (p >=? 0) with true by (clear - Hp; lia). reflexivity. }
  assert (HYe : 0 < divisor env).
  { change (divisor env) with (digits_value (Norm y)). rewrite HvY. exact HY. }
  assert (HXe : 0 <= digits_value (aBuf env)).
  { change (aBuf env) with (Norm x). rewrite HvX. clear - HXpos. lia. }
  destruct (divmod_finish_places a b env st' p Hdone HYe HXe (proj1 Hp) Hgoal
              ltac:(change (ro_max env) with m; clear - Hp; lia) Hs)
    as (q & r & Hfin & Hwq & Hdq & Hvq).
  change (mkDivOptions p (ro_max env)) with ro in Hfin. rewrite Hgoal, Hfin.
  change (digits_value (aBuf env)) with (digits_value (Norm x)) in Hvq.
  change (divisor env) with (digits_value (Norm y)) in Hvq.
  rewrite HvX, HvY in Hvq.
  exists q, r. split; [reflexivity|]. split; [exact Hwq|]. split; [exact Hdq|exact Hvq].
Qed.

Lemma wellformed_nonzero (f : BigFloat) :
  wellformed (with_Sign f 1) = true ->
  stranalyzer.Sign f = 1 \/ stranalyzer.Sign f = -1 ->
  digits_value (Norm f) <> 0 -> wellformed f = true.
Proof.
  intros Hw Hs Hv.
  pose proof (wellformed_elim _ Hw) as (Hdig & HL & Hdec & _ & _ & Hcan).
  cbn [with_Sign Norm Len Decimals] in Hdig, HL, Hdec, Hcan.
  apply wellformed_intro; try assumption.
  intros Hz. apply (digits_value_zero_iff _ Hdig) in Hz. contradiction.
Qed.

(** A quotient that repeats is not zero. *)
Lemma repeating_quotient_pos (X Y i t : Z) :
  0 < X -> 0 < Y -> 0 <= i < t -> remainder_at X Y i = remainder_at X Y t ->
  0 < quotient_at X Y t.
Proof.
  intros HX HY Hi HR.
  assert (Hq : 0 <= quotient_at X Y t).
  { unfold quotient_at. apply Z.div_pos; [|exact HY].
    pose proof (pow10_pos t ltac:(lia)). nia. }
  destruct (Z.eq_dec (quotient_at X Y t) 0) as [E | E]; [exfalso|lia].
  unfold quotient_at in E. apply Z.div_small_iff in E; [|lia].
  destruct E as [E | E]; [|lia].
  assert (Hpow : 10 ^ i < 10 ^ t) by (apply Z.pow_lt_mono_r; lia).
  pose proof (pow10_pos i (proj1 Hi)) as Hpi.
  unfold remainder_at in HR.
  rewrite (Z.mod_small (X * 10 ^ t)) in HR by exact E.
  rewrite (Z.mod_small (X * 10 ^ i)) in HR by nia.
  nia.
Qed.

(** The part of [divmod] after the loop, for [Div] without a count of
    decimal places. *)
Lemma divmod_finish_auto (a b : BigFloat) (env : loop_env) (st : loop_state) :
  division_done env st -> 0 < divisor env -> 0 < digits_value (aBuf env) ->
  decimalsGoal env < 0 ->
  stranalyzer.Sign a * stranalyzer.Sign b = 1 \/ stranalyzer.Sign a * stranalyzer.Sign b = -1 ->
  let X := digits_value (aBuf env) in
  let Y := divisor env in
  exists q r rep,
    divmod_finish a b false (mkDivOptions (decimalsGoal env) (ro_max env)) (decimalsGoal env) st
    = DivOk q r rep
    /\ 0 <= rep <= Decimals q
    /\ scaled q (Decimals q)
       = stranalyzer.Sign a * stranalyzer.Sign b * quotient_at X Y (Decimals q)
    /\ Decimals q <= ro_max env
    /\ (Decimals q < ro_max env -> wellformed q = true)
    /\ (Decimals q < ro_max env -> rep = 0 -> remainder_at X Y (Decimals q) = 0)
    /\ (0 < rep -> remainder_at X Y (Decimals q - rep) = remainder_at X Y (Decimals q)).
Proof.
  intros (Ht & _ & (rq & Hrq & Hres) & Hcase) HY HX Hgoal Hs X Y.
  fold X Y in Hrq, Hres, Hcase.
  destruct st as [i dp0 bDec map repInd dec lastRem0 rem0 shared0 res].
  cbn [repDecimalsInd decimals result] in Ht, Hres, Hcase.
  unfold divmod_finish. cbv beta iota zeta.
  replace (decimalsGoal env >=? 0) with false by (clear - Hgoal; lia).
  cbn [andb]. cbv beta iota zeta.
  cbn [decimalPlaces]. replace (decimalsGoal env >=? 0) with false by (clear - Hgoal; lia).
  cbn [andb]. cbv iota.
  eexists _, _, _. split; [reflexivity|].
  cbn [Norm stranalyzer.Sign Decimals Len].
  set (s := stranalyzer.Sign a * stranalyzer.Sign b) in *.
  destruct (quotient_value X Y rq s dec HY (proj1 Ht) Hrq) as (Hwf & Hv & _).
  cbv zeta in Hwf. rewrite <- Hres in Hwf, Hv.
  assert (Hval : scaled (mkAnalysis (add_bytes res 48) s dec (len (add_bytes res 48))) dec
                 = s * quotient_at X Y dec).
  { unfold scaled. cbn [Norm stranalyzer.Sign Decimals]. rewrite Hv, Z.sub_diag.
    change (10 ^ 0) with 1. ring. }
  assert (Hexact : remainder_at X Y dec = 0 -> 0 < quotient_at X Y dec).
  { intros HR. unfold remainder_at, quotient_at in *.
    pose proof (Z.div_mod (X * 10 ^ dec) Y ltac:(clear - HY; lia)) as E. rewrite HR in E.
    pose proof (pow10_pos dec (proj1 Ht)) as Hpw.
    assert (0 <= X * 10 ^ dec / Y) by (apply Z.div_pos; [nia|exact HY]).
    clear - E HX Hpw HY H. unfold X in *. nia. }
  destruct Hcase as [(Hrep & Hc) | (Hind & _ & HR)].
  - rewrite Hrep. change (-1 >=? 0) with false. cbv iota.
    split; [clear - Ht; lia|]. split; [exact Hval|]. split; [exact (proj2 Ht)|].
    assert (HR0 : dec < ro_max env -> remainder_at X Y dec = 0)
      by (clear - Hc Ht Hgoal; intros Hlt; destruct Hc as [H | [H | H]]; [exact H|lia|lia]).
    split; [|split; [intros Hlt _; exact (HR0 Hlt)|intros H; clear - H; lia]].
    intros Hlt. apply (wellformed_nonzero _ Hwf Hs). cbn [Norm]. rewrite Hv.
    specialize (Hexact (HR0 Hlt)). clear - Hexact. lia.
  - replace (repInd >=? 0) with true by (clear - Hind; lia). cbv iota.
    split; [clear - Hind; lia|]. split; [exact Hval|]. split; [exact (proj2 Ht)|].
    split; [|split; [intros _ H; clear - H Hind; lia|]].
    + intros _. apply (wellformed_nonzero _ Hwf Hs). cbn [Norm]. rewrite Hv.
      pose proof (repeating_quotient_pos X Y repInd dec HX HY Hind HR) as Hq.
      clear - Hq. lia.
    + intros _. replace (dec - (dec - repInd)) with repInd by ring. exact HR.
Qed.

(** [Div] without a count of decimal places, on well-formed operands,
    in terms of the magnitudes [X] and [Y] of the operands at
    [da + db] decimals. *)
Lemma Div_auto_spec (f a b : BigFloat) (options : list DivOption) (p m : Z) :
  wellformed a = true -> wellformed b = true -> magnitude_zero b = false ->
  fold_left (fun ro option => option ro) options default_divOptions = mkDivOptions p m ->
  p < 0 -> 0 < m ->
  let X := digits_value (Norm a) * 10 ^ Decimals b in
  let Y := digits_value (Norm b) * 10 ^ Decimals a in
  exists q r rep,
    Div f a b options = DivOk q r rep
    /\ 0 <= rep <= Decimals q
    /\ scaled q (Decimals q)
       = stranalyzer.Sign a * stranalyzer.Sign b * quotient_at X Y (Decimals q)
    /\ Decimals q <= m
    /\ (Decimals q < m -> wellformed q = true)
    /\ (Decimals q < m -> rep = 0 -> remainder_at X Y (Decimals q) = 0)
    /\ (0 < rep -> remainder_at X Y (Decimals q - rep) = remainder_at X Y (Decimals q)).
Proof.
  intros Hwa Hwb Hzb Hopt Hp Hm X Y.
  pose proof (wellformed_elim _ Hwa) as (Hda & Hla & Hdeca & Hsa & _ & _).
  pose proof (wellformed_elim _ Hwb) as (Hdb & Hlb & Hdecb & Hsb & _ & _).
  destruct (wellformed_invariants _ Hwa) as [Hia Hha].
  destruct (wellformed_invariants _ Hwb) as [Hib Hhb].
  assert (Hs : stranalyzer.Sign a * stranalyzer.Sign b = 1
               \/ stranalyzer.Sign a * stranalyzer.Sign b = -1)
    by (clear - Hsa Hsb; destruct Hsa as [-> | ->], Hsb as [-> | ->]; lia).
  pose proof (digits_value_pos _ Hdb Hzb) as HB.
  assert (HY : 0 < Y).
  { unfold Y. pose proof (pow10_pos (Decimals a) (proj1 Hdeca)) as Hpw. clear - HB Hpw. nia. }
  unfold Div, divmod. rewrite Hopt. cbv zeta.
  cbn [decimalPlaces]. replace (p >=? 0) with false by (clear - Hp; lia). cbv iota.
  rewrite (IsInt64_0_magnitude a Hia Hha), (IsInt64_0_magnitude b Hib Hhb), Hzb.
  destruct (magnitude_zero a) eqn:Hza.
  { rewrite SetInt64_0. exists New, empty, 0. split; [reflexivity|].
    unfold magnitude_zero in Hza. apply digits_value_zero_iff in Hza; [|exact Hda].
    assert (HX : X = 0) by (unfold X; rewrite Hza; reflexivity).
    change (Decimals New) with 0. unfold quotient_at, remainder_at. rewrite HX.
    rewrite Z.mul_0_l, Z.div_0_l, Z.mod_0_l by (clear - HY; lia).
    split; [clear; lia|]. split; [change (scaled New 0) with 0; ring|].
    split; [clear - Hm; lia|].
    split; [reflexivity|]. split; [reflexivity|]. intros H. clear - H. lia. }
  pose proof (shifted_dividend a b Hia Hib Hza) as Hx.
  pose proof (shifted_divisor a b Hia Hib Hzb) as Hy.
  destruct (shifted_values a b Hwa Hwb) as [HvX HvY]. fold X in HvX. fold Y in HvY.
  destruct (shifted a b) as [x y]. cbn [fst snd] in Hx, Hy, HvX, HvY.
  pose proof (positive_integer_fields x Hx) as (Hsx & Hdx & Hlx & Hdgx & cx & rx & HNx & Hcx).
  assert (HXpos : 0 < X).
  { rewrite <- HvX, HNx. rewrite HNx in Hdgx.
    pose proof (digits_value_lower cx rx Hdgx Hcx) as Hlow.
    pose proof (pow10_pos (len rx) (len_nonneg rx)) as Hpw. clear - Hlow Hpw. lia. }
  destruct (IsInt64 y 1) eqn:Ey1.
  { apply positive_integer_fields in Hy as (_ & Hdy & _).
    destruct (IsInt64_unit y 1 (or_introl eq_refl) ltac:(rewrite Hdy; apply Z.le_refl) Ey1)
      as [_ Ev].
    rewrite Hdy, HvY in Ev. change (10 ^ 0) with 1 in Ev.
    assert (Hwx1 : wellformed (with_Sign x 1) = true).
    { apply wellformed_intro; cbn [with_Sign Norm Len Decimals stranalyzer.Sign].
      - exact Hdgx.
      - exact Hlx.
      - rewrite Hdx, Hlx, HNx, len_cons. pose proof (len_nonneg rx) as Hn. clear - Hn. lia.
      - left. reflexivity.
      - reflexivity.
      - rewrite Hdx, Z.sub_0_r, Hlx, slice_to_all, HNx.
        destruct rx; [reflexivity|]. apply negb_true_iff, Z.eqb_neq. exact Hcx. }
    destruct (Sign_wellformed x _ Hwx1 Hs) as [ES HwS].
    assert (Hnz : all_zero (Norm x) = false).
    { rewrite HNx. unfold all_zero. cbn [forallb]. change (ch "0") with 48.
      apply Z.eqb_neq in Hcx. rewrite Hcx. reflexivity. }
    rewrite Hnz in ES.
    set (g := bigfloat.Sign x (stranalyzer.Sign a * stranalyzer.Sign b)) in *.
    exists g, empty, 0. split; [reflexivity|].
    assert (Hdg : Decimals g = 0) by (rewrite ES; exact Hdx).
    rewrite Hdg. unfold quotient_at, remainder_at.
    rewrite Ev, Z.mul_1_r, Z.div_1_r, Z.mod_1_r.
    split; [clear; lia|]. split.
    - unfold scaled. rewrite ES. cbn [with_Sign Norm stranalyzer.Sign Decimals].
      rewrite Hdx, HvX. change (10 ^ (0 - 0)) with 1. ring.
    - split; [clear - Hm; lia|].
      split; [intros _; exact HwS|]. split; [reflexivity|]. intros H. clear - H. lia. }
  set (ro := mkDivOptions p m).
  destruct (divmod_loop_spec x y empty ro Hx Hy Ey1 Hm) as (st' & Hloop & Hdone).
  cbv zeta in Hloop. rewrite Hloop.
  set (env := divmod_env x y ro) in *.
  assert (Hgoal : decimalsGoal env = p).
  { unfold env, divmod_env, ro. cbn [decimalsGoal decimalPlaces].
    replace (p >=? 0) with false by (clear - Hp; lia). reflexivity. }
  assert (HYe : 0 < divisor env).
  { change (divisor env) with (digits_value (Norm y)). rewrite HvY. exact HY. }
  assert (HXe : 0 < digits_value (aBuf env)).
  { change (aBuf env) with (Norm x). rewrite HvX. exact HXpos. }
  destruct (divmod_finish_auto a b env st' Hdone HYe HXe ltac:(rewrite Hgoal; exact Hp) Hs)
    as (q & r & rep & Hfin & Hrep & Hvq & Hle & Hwq & Hex & Hrp).
  rewrite Hgoal in Hfin |- *. change (mkDivOptions p (ro_max env)) with ro in Hfin.
  rewrite Hfin.
  change (digits_value (aBuf env)) with (digits_value (Norm x)) in Hvq, Hex, Hrp.
  change (divisor env) with (digits_value (Norm y)) in Hvq, Hex, Hrp.
  change (ro_max env) with m in Hle, Hwq, Hex.
  rewrite HvX, HvY in Hvq, Hex, Hrp.
  exists q, r, rep. split; [reflexivity|]. split; [exact Hrep|]. split; [exact Hvq|].
  split; [exact Hle|]. split; [exact Hwq|]. split; [exact Hex|exact Hrp].
Qed.

Lemma magnitudes (a b : BigFloat) :
  wellformed a = true -> wellformed b = true ->
  let d := Decimals a + Decimals b in
  Z.abs (scaled a d) = digits_value (Norm a) * 10 ^ Decimals b
  /\ Z.abs (scaled b d) = digits_value (Norm b) * 10 ^ Decimals a
  /\ scaled a d = stranalyzer.Sign a * Z.abs (scaled a d)
  /\ scaled b d = stranalyzer.Sign b * Z.abs (scaled b d).
Proof.
  intros Hwa Hwb d.
  pose proof (wellformed_elim _ Hwa) as (Hda & _ & Hdeca & Hsa & _ & _).
  pose proof (wellformed_elim _ Hwb) as (Hdb & _ & Hdecb & Hsb & _ & _).
  pose proof (digits_value_bounds _ Hda) as Ha. pose proof (digits_value_bounds _ Hdb) as Hb.
  pose proof (pow10_pos _ (proj1 Hdeca)) as Hpa. pose proof (pow10_pos _ (proj1 Hdecb)) as Hpb.
  unfold scaled, d.
  replace (Decimals a + Decimals b - Decimals a) with (Decimals b) by ring.
  replace (Decimals a + Decimals b - Decimals b) with (Decimals a) by ring.
  set (A := digits_value (Norm a)) in *. set (B := digits_value (Norm b)) in *.
  clearbody A B. clear - Hsa Hsb Ha Hb Hpa Hpb.
  assert (0 <= A * 10 ^ Decimals b) by nia. assert (0 <= B * 10 ^ Decimals a) by nia.
  destruct Hsa as [-> | ->], Hsb as [-> | ->];
    rewrite ?Z.mul_1_l;
    replace (-1 * A * 10 ^ Decimals b) with (- (A * 10 ^ Decimals b)) by ring;
    replace (-1 * B * 10 ^ Decimals a) with (- (B * 10 ^ Decimals a)) by ring;
    rewrite ?Z.abs_opp, ?Z.abs_eq by assumption; repeat split; ring.
Qed.

(** X19: [Div] with options that ask for [p] decimal places, below
    the bound [m] of [maxDecimalPlaces], on well-formed operands with a
    divisor other than zero, returns without error the well-formed value
    of [p] decimals nearest to the quotient, a tie going away from zero,
    and reports no repetend. *)
Theorem Div_rounded (f a b : BigFloat) (options : list DivOption) (p m : Z) :
  wellformed a = true -> wellformed b = true -> magnitude_zero b = false ->
  fold_left (fun ro option => option ro) options default_divOptions = mkDivOptions p m ->
  0 <= p < m ->
  let d := Decimals a + Decimals b in
  let A := Z.abs (scaled a d) in
  let B := Z.abs (scaled b d) in
  exists q r,
    Div f a b options = DivOk q r 0
    /\ wellformed q = true /\ Decimals q = p
    /\ scaled q p
       = stranalyzer.Sign a * stranalyzer.Sign b * ((2 * (A * 10 ^ p) + B) / (2 * B)).
Proof.
  intros Hwa Hwb Hzb Hopt Hp d A B.
  destruct (magnitudes a b Hwa Hwb) as (EA & EB & _). fold d in EA, EB.
  unfold A, B. rewrite EA, EB. exact (Div_places_spec f a b options p m Hwa Hwb Hzb Hopt Hp).
Qed.

Lemma Div_rounded_witness :
  let a := parse "-2" in
  let b := parse "0.3" in
  let d := Decimals a + Decimals b in
  let A := Z.abs (scaled a d) in
  let B := Z.abs (scaled b d) in
  exists q r,
    Div New a b [WithDivDecimalPlaces 4; WithDivMaxDecimalPlaces 50] = DivOk q r 0
    /\ wellformed q = true /\ Decimals q = 4
    /\ scaled q 4
       = stranalyzer.Sign a * stranalyzer.Sign b * ((2 * (A * 10 ^ 4) + B) / (2 * B)).
Proof.
  apply (Div_rounded New (parse "-2") (parse "0.3")
           [WithDivDecimalPlaces 4; WithDivMaxDecimalPlaces 50] 4 50);
    [vm_compute; reflexivity|vm_compute; reflexivity|vm_compute; reflexivity
    |reflexivity|lia].
Defined.

(** X20: [Div] with options that ask for no count of decimal places
    (as without options, where the bound [m] of [maxDecimalPlaces] is
    10000), on well-formed operands with a divisor other than zero,
    returns without error the quotient cut after [t] decimals and a
    repetend length [rep]. Below [m] decimals the value is well-formed
    and either [rep] is 0 and the quotient is exact, or the division
    leaves after [t] decimals what it left after [t - rep], so that the
    last [rep] decimals repeat for ever. *)
Theorem Div_repetend (f a b : BigFloat) (options : list DivOption) (p m : Z) :
  wellformed a = true -> wellformed b = true -> magnitude_zero b = false ->
  fold_left (fun ro option => option ro) options default_divOptions = mkDivOptions p m ->
  p < 0 -> 0 < m ->
  let d := Decimals a + Decimals b in
  let A := Z.abs (scaled a d) in
  let B := Z.abs (scaled b d) in
  exists q r rep,
    Div f a b options = DivOk q r rep
    /\ 0 <= rep <= Decimals q
    /\ scaled q (Decimals q)
       = stranalyzer.Sign a * stranalyzer.Sign b * (A * 10 ^ Decimals q / B)
    /\ Decimals q <= m
    /\ (Decimals q < m -> wellformed q = true)
    /\ (Decimals q < m -> rep = 0 ->
        scaled q (Decimals q) * scaled b d = scaled a d * 10 ^ Decimals q)
    /\ (0 < rep ->
        (A * 10 ^ (Decimals q - rep)) mod B = (A * 10 ^ Decimals q) mod B
        /\ forall j : Z, 0 <= j ->
             decimal_digit A B (Decimals q + j + 1)
             = decimal_digit A B (Decimals q - rep + j mod rep + 1)).
Proof.
  intros Hwa Hwb Hzb Hopt Hp Hm d A B.
  destruct (magnitudes a b Hwa Hwb) as (EA & EB & Ea & Eb). fold d in EA, EB, Ea, Eb.
  fold A in EA, Ea. fold B in EB, Eb.
  destruct (Div_auto_spec f a b options p m Hwa Hwb Hzb Hopt Hp Hm)
    as (q & r & rep & E & Hrep & Hv & Hle & Hw & Hex & Hrp).
  cbv zeta in Hv, Hex, Hrp. rewrite <- EA, <- EB in Hv, Hex, Hrp.
  pose proof (wellformed_elim _ Hwb) as (Hdb & _ & Hdecb & _).
  pose proof (wellformed_elim _ Hwa) as (_ & _ & Hdeca & _).
  assert (HB : 0 < B).
  { rewrite EB. pose proof (digits_value_pos _ Hdb Hzb) as Hpos.
    pose proof (pow10_pos _ (proj1 Hdeca)) as Hpw. clear - Hpos Hpw. nia. }
  exists q, r, rep. split; [exact E|]. split; [exact Hrep|]. split; [exact Hv|].
  split; [exact Hle|]. split; [exact Hw|]. split.
  - intros Hlt H0. specialize (Hex Hlt H0). rewrite Hv, Ea, Eb.
    unfold quotient_at, remainder_at in *.
    pose proof (Z.div_mod (A * 10 ^ Decimals q) B ltac:(clear - HB; lia)) as Edm.
    rewrite Hex, Z.add_0_r in Edm.
    set (Q := A * 10 ^ Decimals q / B) in *. clearbody Q.
    pose proof (wellformed_elim _ Hwb) as (_ & _ & _ & Hsb & _).
    replace (stranalyzer.Sign a * A * 10 ^ Decimals q)
      with (stranalyzer.Sign a * (A * 10 ^ Decimals q)) by ring.
    rewrite Edm. clear - Hsb. destruct Hsb as [-> | ->]; ring.
  - intros Hpos. specialize (Hrp Hpos). split; [exact Hrp|].
    intros j Hj.
    assert (HRc : remainder_at A B (Decimals q - rep)
                  = remainder_at A B (Decimals q - rep + rep))
      by (replace (Decimals q - rep + rep) with (Decimals q) by ring; exact Hrp).
    rewrite <- (expansion_cycle A B (Decimals q - rep) rep HB ltac:(clear - Hrep; lia) Hpos
                  HRc j Hj).
    symmetry.
    apply (expansion_periodic A B (Decimals q - rep) (Decimals q) HB
             ltac:(clear - Hrep; lia) ltac:(clear - Hrep; lia) Hrp j Hj).
Qed.

Lemma Div_repetend_witness :
  let a := parse "100" in
  let b := parse "-0.7" in
  let d := Decimals a + Decimals b in
  let A := Z.abs (scaled a d) in
  let B := Z.abs (scaled b d) in
  exists q r rep,
    Div New a b [] = DivOk q r rep
    /\ 0 <= rep <= Decimals q
    /\ scaled q (Decimals q)
       = stranalyzer.Sign a * stranalyzer.Sign b * (A * 10 ^ Decimals q / B)
    /\ Decimals q <= 10000
    /\ (Decimals q < 10000 -> wellformed q = true)
    /\ (Decimals q < 10000 -> rep = 0 ->
        scaled q (Decimals q) * scaled b d = scaled a d * 10 ^ Decimals q)
    /\ (0 < rep ->
        (A * 10 ^ (Decimals q - rep)) mod B = (A * 10 ^ Decimals q) mod B
        /\ forall j : Z, 0 <= j ->
             decimal_digit A B (Decimals q + j + 1)
             = decimal_digit A B (Decimals q - rep + j mod rep + 1)).
Proof.
  apply (Div_repetend New (parse "100") (parse "-0.7") [] (-1) 10000);
    [vm_compute; reflexivity|vm_compute; reflexivity|vm_compute; reflexivity
    |reflexivity|lia|lia].
Defined.

(** ** Constructors and negative exponents *)




Lemma scan_rune_exponent_sign (i c : Z) (st st' : scanner) :
  negb ((c =? ch "E") || (c =? ch "e")) = true -> eFound st = false ->
  scan_rune i c st = inl st' ->
  eFound st' = false /\ eSignFound st' = eSignFound st /\ eSign st' = eSign st
  /\ (digitFound st = true -> digitFound st' = true).
Proof.
  destruct st as [sf sg dpf ef es esf df nz nb eb al ad].
  cbn [eFound eSignFound eSign digitFound]. intros Hc -> H.
  unfold scan_rune in H. cbv beta iota zeta in H.
  apply negb_true_iff in Hc. rewrite Hc in H.
  rewrite ?andb_true_r, ?andb_false_r in H. cbn [negb andb] in H.
  repeat match type of H with
         | context [if ?b then _ else _] => destruct b
         end;
    try discriminate H; injection H as <-; cbn [eFound eSignFound eSign digitFound]; auto.
Qed.

Lemma scan_exponent_sign (r : list Z) :
  forallb (fun c => negb ((c =? ch "E") || (c =? ch "e"))) r = true ->
  forall (i : Z) (st st' : scanner),
    eFound st = false -> scan r i st = inl st' ->
    eFound st' = false /\ eSignFound st' = eSignFound st /\ eSign st' = eSign st
    /\ (digitFound st = true -> digitFound st' = true).
Proof.
  induction r as [|c r IH]; intros Hr i st st' He H; cbn [scan] in H.
  - injection H as <-. auto.
  - cbn [forallb] in Hr. apply andb_true_iff in Hr as [Hc Hr].
    destruct (scan_rune i c st) as [st1|e] eqn:E1; [|discriminate H].
    destruct (scan_rune_exponent_sign i c st st1 Hc He E1) as (He1 & Hs1 & Hg1 & Hd1).
    destruct (IH Hr (i + 1) st1 st' He1 H) as (He' & Hs' & Hg' & Hd').
    split; [exact He'|]. split; [rewrite Hs'; exact Hs1|].
    split; [rewrite Hg'; exact Hg1|]. intros H0. apply Hd', Hd1, H0.
Qed.









(** ** Setting the sign *)

(** X23: [Sign] with the argument 1 or -1 keeps a well-formed value
    well-formed and gives it that sign, zero staying positive; [Abs] is
    the absolute value, and [GetSign] reads the sign back. *)
Theorem Sign_value (f : BigFloat) (s d : Z) :
  wellformed f = true -> s = 1 \/ s = -1 ->
  wellformed (bigfloat.Sign f s) = true
  /\ Decimals (bigfloat.Sign f s) = Decimals f
  /\ Norm (bigfloat.Sign f s) = Norm f
  /\ GetSign (bigfloat.Sign f s) = (if magnitude_zero f then 1 else s)
  /\ scaled (bigfloat.Sign f s) d = s * Z.abs (scaled f d)
  /\ scaled (Abs f) d = Z.abs (scaled f d).
Proof.
  intros Hw Hs.
  pose proof (wellformed_elim _ Hw) as (Hdig & _ & _ & Hsf & _ & _).
  pose proof (digits_value_bounds _ Hdig) as Hb.
  assert (Hp : 0 <= 10 ^ (d - Decimals f)) by (apply Z.pow_nonneg; lia).
  assert (Habs : Z.abs (scaled f d) = digits_value (Norm f) * 10 ^ (d - Decimals f)).
  { unfold scaled. clear - Hsf Hb Hp. destruct Hsf as [-> | ->]; nia. }
  assert (Hgen : forall s', s' = 1 \/ s' = -1 ->
            bigfloat.Sign f s' = with_Sign f (if all_zero (Norm f) then 1 else s')
            /\ wellformed (bigfloat.Sign f s') = true
            /\ scaled (bigfloat.Sign f s') d = s' * Z.abs (scaled f d)).
  { intros s' Hs'.
    destruct (Sign_wellformed f s' (wellformed_with_Sign_1 f Hw) Hs') as [E Hw'].
    split; [exact E|]. split; [exact Hw'|].
    rewrite E, Habs. unfold scaled. cbn [with_Sign Norm stranalyzer.Sign Decimals].
    destruct (all_zero (Norm f)) eqn:Ez; [|ring].
    apply (digits_value_zero_iff _ Hdig) in Ez. rewrite Ez. ring. }
  destruct (Hgen s Hs) as (E & Hw' & Hv).
  split; [exact Hw'|]. rewrite E at 1 2 3. cbn [with_Sign Decimals Norm GetSign stranalyzer.Sign].
  split; [reflexivity|]. split; [reflexivity|]. split; [reflexivity|]. split; [exact Hv|].
  unfold Abs. destruct (Hgen 1 (or_introl eq_refl)) as (_ & _ & Hv1). rewrite Hv1. ring.
Qed.

Lemma Sign_value_witness :
  let f := parse "12.50" in
  wellformed (bigfloat.Sign f (-1)) = true
  /\ Decimals (bigfloat.Sign f (-1)) = Decimals f
  /\ Norm (bigfloat.Sign f (-1)) = Norm f
  /\ GetSign (bigfloat.Sign f (-1)) = (if magnitude_zero f then 1 else -1)
  /\ scaled (bigfloat.Sign f (-1)) 3 = -1 * Z.abs (scaled f 3)
  /\ scaled (Abs f) 3 = Z.abs (scaled f 3).
Proof.
  apply (Sign_value (parse "12.50") (-1) 3); [vm_compute; reflexivity|right; reflexivity].
Defined.

(** ** One representation for a number *)

Lemma digits_value_cons (c : Z) (l : list Z) :
  digits_value (c :: l) = (c - 48) * 10 ^ len l + digits_value l.
Proof.
  change (c :: l) with ([c] ++ l). rewrite digits_value_app.
  unfold digits_value at 1. cbn [fold_left]. ring.
Qed.

(** Digit buffers of the same length that spell the same number are
    the same. *)
Lemma digits_value_inj (l1 l2 : list Z) :
  forallb is_digit l1 = true -> forallb is_digit l2 = true ->
  length l1 = length l2 -> digits_value l1 = digits_value l2 -> l1 = l2.
Proof.
  revert l2. induction l1 as [|c1 l1 IH]; intros [|c2 l2] H1 H2 Hl Hv;
    try discriminate Hl; [reflexivity|].
  cbn [forallb] in H1, H2. apply andb_true_iff in H1 as [Hc1 H1].
  apply andb_true_iff in H2 as [Hc2 H2]. injection Hl as Hl.
  rewrite !digits_value_cons in Hv.
  pose proof (digits_value_bounds _ H1) as B1. pose proof (digits_value_bounds _ H2) as B2.
  assert (El : len l1 = len l2) by (unfold len; rewrite Hl; reflexivity).
  rewrite El in Hv, B1.
  pose proof (pow10_pos (len l2) (len_nonneg l2)) as Hp.
  set (P := 10 ^ len l2) in *. clearbody P.
  assert (Hc : c1 = c2) by (clear - Hv B1 B2 Hp; nia).
  subst c2. f_equal. apply IH; try assumption. clear - Hv. lia.
Qed.

(** Canonical digit buffers that spell the same number are the same. *)
Lemma canonical_inj (l1 l2 : list Z) :
  forallb is_digit l1 = true -> forallb is_digit l2 = true ->
  canonical l1 = true -> canonical l2 = true -> l1 <> [] -> l2 <> [] ->
  digits_value l1 = digits_value l2 -> l1 = l2.
Proof.
  intros H1 H2 C1 C2 N1 N2 Hv.
  pose proof (digits_value_bounds _ H1) as B1.
  destruct (Z.eq_dec (digits_value l1) 0) as [E0 | E0].
  - assert (Z1 : all_zero l1 = true) by (apply (digits_value_zero_iff _ H1); exact E0).
    assert (Z2 : all_zero l2 = true)
      by (apply (digits_value_zero_iff _ H2); rewrite <- Hv; exact E0).
    rewrite (integer_portion_zero l1 C1 N1 Z1), (integer_portion_zero l2 C2 N2 Z2).
    reflexivity.
  - assert (P1 : 0 < digits_value l1) by (clear - B1 E0; lia).
    assert (P2 : 0 < digits_value l2) by (rewrite <- Hv; exact P1).
    destruct (canonical_head l1 C1 H1 P1) as (d1 & r1 & -> & Hd1).
    destruct (canonical_head l2 C2 H2 P2) as (d2 & r2 & -> & Hd2).
    pose proof (digits_value_lower d1 r1 H1 Hd1) as L1.
    pose proof (digits_value_lower d2 r2 H2 Hd2) as L2.
    pose proof (digits_value_bounds _ H2) as B2.
    rewrite len_cons in B1, B2. rewrite <- Hv in L2, B2.
    assert (El : len r1 = len r2).
    { destruct (Z.lt_trichotomy (len r1) (len r2)) as [Hlt | [He | Hgt]]; [exfalso|exact He|exfalso].
      - assert (10 ^ (1 + len r1) <= 10 ^ len r2)
          by (apply Z.pow_le_mono_r; pose proof (len_nonneg r1); lia).
        clear - H B1 L2. lia.
      - assert (10 ^ (1 + len r2) <= 10 ^ len r1)
          by (apply Z.pow_le_mono_r; pose proof (len_nonneg r2); lia).
        clear - H B2 L1. lia. }
    apply digits_value_inj; try assumption.
    cbn [length]. unfold len in El. lia.
Qed.

(** A number with a given count of decimals has one well-formed
    representation. *)
Lemma wellformed_unique (f g : BigFloat) :
  wellformed f = true -> wellformed g = true -> Decimals f = Decimals g ->
  scaled f (Decimals f) = scaled g (Decimals g) -> f = g.
Proof.
  intros Hf Hg Hd Hv.
  pose proof (wellformed_elim _ Hf) as (Df & Lf & Bf & Sf & Zf & Cf).
  pose proof (wellformed_elim _ Hg) as (Dg & Lg & Bg & Sg & Zg & Cg).
  unfold scaled in Hv. rewrite !Z.sub_diag in Hv. change (10 ^ 0) with 1 in Hv.
  rewrite !Z.mul_1_r in Hv.
  pose proof (digits_value_bounds _ Df) as Vf. pose proof (digits_value_bounds _ Dg) as Vg.
  assert (Zf' : digits_value (Norm f) = 0 -> stranalyzer.Sign f = 1)
    by (intros E; apply Zf, (digits_value_zero_iff _ Df); exact E).
  assert (Zg' : digits_value (Norm g) = 0 -> stranalyzer.Sign g = 1)
    by (intros E; apply Zg, (digits_value_zero_iff _ Dg); exact E).
  assert (Hsm : stranalyzer.Sign f = stranalyzer.Sign g
                /\ digits_value (Norm f) = digits_value (Norm g)).
  { clear - Hv Sf Sg Vf Vg Zf' Zg'.
    destruct (Z.eq_dec (digits_value (Norm f)) 0) as [E | E].
    - rewrite E in Hv. assert (E' : digits_value (Norm g) = 0) by (destruct Sg as [Hs | Hs]; rewrite Hs in Hv; lia).
      rewrite (Zf' E), (Zg' E'), E, E'. split; reflexivity.
    - destruct Sf as [Hs1 | Hs1], Sg as [Hs2 | Hs2]; rewrite Hs1, Hs2 in *; split; lia. }
  destruct Hsm as [Hs Hm].
  set (d := Decimals f) in *.
  assert (Hnf : Norm f = slice_to (Norm f) (Len f - d) ++ slice_from (Norm f) (Len f - d))
    by (symmetry; apply firstn_skipn).
  assert (Hng : Norm g = slice_to (Norm g) (Len g - d) ++ slice_from (Norm g) (Len g - d))
    by (symmetry; apply firstn_skipn).
  rewrite <- Hd in Cg, Bg.
  set (ipf := slice_to (Norm f) (Len f - d)) in *.
  set (fpf := slice_from (Norm f) (Len f - d)) in *.
  set (ipg := slice_to (Norm g) (Len g - d)) in *.
  set (fpg := slice_from (Norm g) (Len g - d)) in *.
  assert (Lfp : len fpf = d)
    by (unfold fpf; rewrite slice_from_length; clear - Bf Lf; unfold d in *; lia).
  assert (Lgp : len fpg = d)
    by (unfold fpg; rewrite slice_from_length; clear - Bg Lg; lia).
  assert (Lfi : len ipf = Len f - d).
  { unfold ipf, len. rewrite slice_to_length; clear - Bf Lf; unfold len, d in *; lia. }
  assert (Lgi : len ipg = Len g - d).
  { unfold ipg, len. rewrite slice_to_length; clear - Bg Lg; unfold len in *; lia. }
  destruct (forallb_slice is_digit (Norm f) (Len f - d) Df) as [Dfi Dff].
  destruct (forallb_slice is_digit (Norm g) (Len g - d) Dg) as [Dgi Dgf].
  fold ipf in Dfi. fold fpf in Dff. fold ipg in Dgi. fold fpg in Dgf.
  rewrite Hnf, Hng, !digits_value_app, Lfp, Lgp in Hm.
  pose proof (digits_value_bounds _ Dff) as Bff. pose proof (digits_value_bounds _ Dgf) as Bgf.
  rewrite Lfp in Bff. rewrite Lgp in Bgf.
  pose proof (pow10_pos d (proj1 Bf)) as Hp.
  set (P := 10 ^ d) in *.
  assert (Hparts : digits_value ipf = digits_value ipg /\ digits_value fpf = digits_value fpg).
  { destruct (div_mod_unique _ P (digits_value ipf) (digits_value fpf) Bff Hm) as [Q1 R1].
    destruct (div_mod_unique _ P (digits_value ipg) (digits_value fpg) Bgf eq_refl)
      as [Q2 R2].
    split; congruence. }
  destruct Hparts as [Hi Hfr].
  assert (Eip : ipf = ipg).
  { apply canonical_inj; try assumption.
    - intros E. rewrite E in Lfi. change (len (@nil Z)) with 0 in Lfi. clear - Lfi Bf. lia.
    - intros E. rewrite E in Lgi. change (len (@nil Z)) with 0 in Lgi. clear - Lgi Bg. lia. }
  assert (Efp : fpf = fpg).
  { apply digits_value_inj; try assumption.
    apply Nat2Z.inj. fold (len fpf). fold (len fpg). rewrite Lfp, Lgp. reflexivity. }
  assert (EN : Norm f = Norm g) by (rewrite Hnf, Hng, Eip, Efp; reflexivity).
  assert (EL : Len f = Len g) by (rewrite Lf, Lg, EN; reflexivity).
  clear - EN EL Hs Hd. unfold d in *. destruct f, g. cbn in *. subst. reflexivity.
Qed.

(** The comparand [IsInt64] builds: the integer [n] written with [d]
    decimals. *)
Lemma integer_with_decimals (n d : Z) :
  0 <= d ->
  wellformed (SetDecimals (SetInt64 empty n) d) = true
  /\ Decimals (SetDecimals (SetInt64 empty n) d) = d
  /\ scaled (SetDecimals (SetInt64 empty n) d) d = n * 10 ^ d.
Proof.
  intros Hd. destruct (SetInt64_spec empty n) as (Hw & Hd0 & Hv & _).
  set (g := SetInt64 empty n) in *.
  pose proof (wellformed_elim _ Hw) as (Dg & Lg & _ & Sg & Zg & _).
  destruct (SetDecimals_spec g d (wellformed_with_Sign_1 g Hw) Sg Hd) as (E & Hwd & _).
  split; [exact Hwd|]. split; [apply SetDecimals_Decimals|].
  rewrite E. cbv zeta. unfold scaled in *. cbn [Norm stranalyzer.Sign Decimals].
  rewrite Hd0, Z.sub_diag in *. change (10 ^ 0) with 1 in *. rewrite Z.mul_1_r in *.
  assert (Hn : digits_value (if d >? 0 then Norm g ++ fill (d - 0) (ch "0")
                             else slice_to (Norm g) (Len g - 0 + d))
               = digits_value (Norm g) * 10 ^ d).
  { destruct (d >? 0) eqn:Ed.
    - rewrite digits_value_app, digits_value_fill, len_fill by (clear - Hd; lia).
      rewrite Z.sub_0_r. ring.
    - assert (d = 0) as -> by (clear - Ed Hd; lia).
      rewrite Z.sub_0_r, Z.add_0_r, Lg, slice_to_all. change (10 ^ 0) with 1. ring. }
  set (norm := if d >? 0 then Norm g ++ fill (d - 0) (ch "0")
               else slice_to (Norm g) (Len g - 0 + d)) in *.
  rewrite Hn, <- Hv.
  destruct (all_zero norm) eqn:Ez; [|ring].
  assert (Hdn : forallb is_digit norm = true).
  { rewrite E in Hwd. pose proof (wellformed_elim _ Hwd) as (H & _). exact H. }
  apply (digits_value_zero_iff _ Hdn) in Ez. rewrite Hn in Ez.
  pose proof (pow10_pos d Hd) as Hp.
  assert (E0 : digits_value (Norm g) = 0) by (clear - Ez Hp; nia).
  rewrite E0. ring.
Qed.

Lemma IsInt64_eq (f : BigFloat) (n : Z) :
  IsInt64 f n = true <->
  stranalyzer.Sign f = stranalyzer.Sign (SetDecimals (SetInt64 empty n) (Decimals f))
  /\ Decimals f = Decimals (SetDecimals (SetInt64 empty n) (Decimals f))
  /\ Len f = Len (SetDecimals (SetInt64 empty n) (Decimals f))
  /\ Norm f = Norm (SetDecimals (SetInt64 empty n) (Decimals f)).
Proof.
  unfold IsInt64, IsInt64_body. fold SetDecimals. cbv zeta.
  rewrite !andb_true_iff, !Z.eqb_eq, bytes_eqb_true. tauto.
Qed.

(** X24: on a well-formed value [IsInt64(n)] decides whether the
    value is the integer [n], whatever the count of decimals. *)
Theorem IsInt64_equals (f : BigFloat) (n : Z) :
  wellformed f = true ->
  IsInt64 f n = true <-> scaled f (Decimals f) = n * 10 ^ Decimals f.
Proof.
  intros Hf.
  pose proof (wellformed_elim _ Hf) as (_ & _ & Bf & _).
  destruct (integer_with_decimals n (Decimals f) (proj1 Bf)) as (Hw & Hd & Hv).
  rewrite IsInt64_eq. split.
  - intros (Hs & _ & _ & HN). rewrite <- Hv. unfold scaled. rewrite Hs, HN, Hd. reflexivity.
  - intros E. rewrite <- Hv in E.
    rewrite <- (wellformed_unique f _ Hf Hw (eq_sym Hd)) by (rewrite Hd; exact E).
    repeat split; reflexivity.
Qed.

Lemma IsInt64_equals_witness :
  let f := parse "-7.00" in
  IsInt64 f (-7) = true <-> scaled f (Decimals f) = (-7) * 10 ^ Decimals f.
Proof. apply (IsInt64_equals (parse "-7.00") (-7)). vm_compute; reflexivity. Defined.

(** X25: a number has one well-formed representation for a given
    count of decimals: well-formed values with the same count of
    decimals that [Compare] finds equal are the same value, digit for
    digit. *)
Theorem Compare_equal_same (f g : BigFloat) :
  wellformed f = true -> wellformed g = true -> Decimals f = Decimals g ->
  Compare f g = 0 <-> f = g.
Proof.
  intros Hf Hg Hdec. destruct (compare_spec f g Hf Hg) as [Hc _]. cbv zeta in Hc.
  rewrite <- Hdec, Z.max_id in Hc. rewrite Hc. split.
  - intros E. apply (wellformed_unique f g Hf Hg Hdec). rewrite <- Hdec.
    clear - E. destruct (Z.sgn_spec (scaled f (Decimals f) - scaled g (Decimals f)))
      as [[H1 H2] | [[H1 H2] | [H1 H2]]]; lia.
  - intros <-. rewrite Z.sub_diag. reflexivity.
Qed.

Lemma Compare_equal_same_witness :
  let f := parse "-7.00" in
  let g := parse "-6.90" in
  Compare f g = 0 <-> f = g.
Proof.
  apply (Compare_equal_same (parse "-7.00") (parse "-6.90")); vm_compute; reflexivity.
Defined.

(** ** Literals the analyzer refuses *)

Lemma scan_rune_invalid (i c : Z) (st : scanner) :
  invalid_rune c = true -> scan_rune i c st = inr InvalidBigFloat.
Proof.
  intros H. unfold invalid_rune in H. apply andb_true_iff in H as [Hv H].
  apply negb_true_iff in H. repeat (apply orb_false_iff in H as [H ?]).
  destruct st as [sf sg dpf ef es esf df nz nb eb al ad].
  unfold scan_rune. cbv beta iota zeta. rewrite Hv. cbn [negb].
  repeat match goal with H : _ = false |- _ => rewrite H; clear H end. reflexivity.
Qed.

Lemma scan_rune_decimal_point (i c : Z) (st st' : scanner) :
  scan_rune i c st = inl st' ->
  (decimalPointFound st = true \/ c = ch ".") -> decimalPointFound st' = true.
Proof.
  destruct st as [sf sg dpf ef es esf df nz nb eb al ad].
  cbn [decimalPointFound]. intros H Hc.
  unfold scan_rune in H. cbv beta iota zeta in H.
  destruct Hc as [-> | ->].
  - repeat match type of H with
           | context [if ?b then _ else _] => destruct b
           end;
      try discriminate H; injection H as <-; reflexivity.
  - change (negb (visible (ch "."))) with false in H. cbv iota in H.
    change ((ch "." =? ch "+") || (ch "." =? ch "-")) with false in H. cbv iota in H.
    change (ch "." =? ch ".") with true in H. cbv iota in H.
    repeat match type of H with
           | context [if ?b then _ else _] => destruct b
           end;
      try discriminate H; injection H as <-; reflexivity.
Qed.

Lemma scan_decimal_point (r : list Z) :
  forall (i : Z) (st st' : scanner),
    scan r i st = inl st' -> decimalPointFound st = true -> decimalPointFound st' = true.
Proof.
  induction r as [|c r IH]; intros i st st' H Hd; cbn [scan] in H.
  - injection H as <-. exact Hd.
  - destruct (scan_rune i c st) as [st1|e] eqn:E; [|discriminate H].
    apply (IH _ _ _ H). apply (scan_rune_decimal_point i c st st1 E). left. exact Hd.
Qed.

Lemma scan_rune_second_point (i : Z) (st : scanner) :
  decimalPointFound st = true -> scan_rune i (ch ".") st = inr (DecimalPointAlreadyFound i).
Proof.
  destruct st as [sf sg dpf ef es esf df nz nb eb al ad].
  cbn [decimalPointFound]. intros ->. reflexivity.
Qed.

Lemma scan_rune_digit_found (i c : Z) (st st' : scanner) :
  IsDigit c = true -> eFound st = false -> scan_rune i c st = inl st' ->
  digitFound st' = true /\ eFound st' = false.
Proof.
  destruct st as [sf sg dpf ef es esf df nz nb eb al ad].
  cbn [eFound]. intros Hc -> H. rewrite (scan_rune_digit _ _ _ _ _ _ _ _ _ _ _ _ _ Hc) in H.
  injection H as <-. destruct (dpf || negb (c =? 48) || (df && nz)); split; reflexivity.
Qed.

Lemma scan_rune_late_sign (i c : Z) (st : scanner) :
  c = ch "+" \/ c = ch "-" -> digitFound st = true -> eFound st = false ->
  exists e, scan_rune i c st = inr e.
Proof.
  destruct st as [sf sg dpf ef es esf df nz nb eb al ad].
  cbn [digitFound eFound]. intros Hc -> ->.
  unfold scan_rune. cbv beta iota zeta.
  destruct Hc as [-> | ->]; destruct sf, esf; eexists; reflexivity.
Qed.

Lemma Analyze_scan_fails (s : string) (e : ParseError) :
  scan (runes s) 0 scanner0 = inr e -> Analyze s = Failed e.
Proof. intros H. unfold Analyze. rewrite H. reflexivity. Qed.

Lemma runes_cons (c : ascii) (s : string) : runes (String.String c s) = ch c :: runes s.
Proof. reflexivity. Qed.

(** X26: what [Analyze] refuses at once. A literal is rejected with
    an error when it holds a graphic rune that is neither a sign, a
    decimal point, an exponent marker, a digit nor a space, and when it
    holds two decimal points. *)
Theorem Analyze_rejects (s1 s2 s3 : string) (c : ascii) :
  (invalid_rune (ch c) = true ->
   exists e, Analyze (s1 ++ String.String c s2) = Failed e)
  /\ (exists e, Analyze (s1 ++ String.String "." (s2 ++ String.String "." s3)) = Failed e).
Proof.
  split.
  - intros Hc. unfold Analyze. rewrite runes_app, runes_cons, scan_app.
    destruct (scan (runes s1) 0 scanner0) as [st|e]; [|eexists; reflexivity].
    cbn [scan]. rewrite (scan_rune_invalid _ _ _ Hc). eexists; reflexivity.
  - unfold Analyze. rewrite runes_app, runes_cons, runes_app, runes_cons, scan_app.
    destruct (scan (runes s1) 0 scanner0) as [st1|e]; [|eexists; reflexivity].
    cbn [scan].
    destruct (scan_rune (0 + len (runes s1)) (ch ".") st1) as [st2|e] eqn:E2;
      [|eexists; reflexivity].
    pose proof (scan_rune_decimal_point _ _ _ _ E2 (or_intror eq_refl)) as Hd2.
    rewrite scan_app.
    destruct (scan (runes s2) (0 + len (runes s1) + 1) st2) as [st3|e] eqn:E3;
      [|eexists; reflexivity].
    pose proof (scan_decimal_point _ _ _ _ E3 Hd2) as Hd3.
    cbn [scan]. rewrite (scan_rune_second_point _ _ Hd3). eexists; reflexivity.
Qed.

Lemma Analyze_rejects_witness :
  invalid_rune (ch "x") = true
  /\ (exists e, Analyze ("12" ++ String.String "x" "3") = Failed e)
  /\ (exists e, Analyze ("12" ++ String.String "." ("3" ++ String.String "." "4")) = Failed e).
Proof.
  destruct (Analyze_rejects "12" "3" "4" "x") as [H1 H2].
  split; [reflexivity|]. split; [apply H1; reflexivity|exact H2].
Defined.

(** X27: a sign that follows a digit, with no exponent marker before
    it, makes [Analyze] reject the literal with an error. *)
Theorem Analyze_rejects_late_sign (s1 s2 s3 : string) (c d : ascii) :
  IsDigit (ch d) = true -> exponent_free (s1 ++ s2) = true ->
  ch c = ch "+" \/ ch c = ch "-" ->
  exists e, Analyze (s1 ++ String.String d (s2 ++ String.String c s3)) = Failed e.
Proof.
  intros Hd He Hc. unfold exponent_free in He. rewrite runes_app, forallb_app in He.
  apply andb_true_iff in He as [He1 He2].
  unfold Analyze. rewrite runes_app, runes_cons, runes_app, runes_cons, scan_app.
  destruct (scan (runes s1) 0 scanner0) as [st1|e] eqn:E1; [|eexists; reflexivity].
  destruct (scan_exponent_sign _ He1 0 scanner0 st1 eq_refl E1) as (Hef1 & _).
  cbn [scan].
  destruct (scan_rune (0 + len (runes s1)) (ch d) st1) as [st2|e] eqn:E2;
    [|eexists; reflexivity].
  destruct (scan_rune_digit_found _ _ _ _ Hd Hef1 E2) as [Hdf2 Hef2].
  rewrite scan_app.
  destruct (scan (runes s2) (0 + len (runes s1) + 1) st2) as [st3|e] eqn:E3;
    [|eexists; reflexivity].
  destruct (scan_exponent_sign _ He2 _ _ _ Hef2 E3) as (Hef3 & _ & _ & Hdf3).
  cbn [scan].
  destruct (scan_rune_late_sign (0 + len (runes s1) + 1 + len (runes s2)) (ch c) st3 Hc
              (Hdf3 Hdf2) Hef3) as [e ->].
  eexists; reflexivity.
Qed.

Lemma Analyze_rejects_late_sign_witness :
  exists e, Analyze ("-" ++ String.String "7" (".5" ++ String.String "-" "3")) = Failed e.
Proof.
  apply (Analyze_rejects_late_sign "-" ".5" "3" "-" "7");
    [vm_compute; reflexivity|vm_compute; reflexivity|right; reflexivity].
Defined.
